(* ===== verification/_CoqProject ===== *)
-Q . S2P
Prelude.v
Bytes.v
EnclaveRegistry.v
CustomFullMath.v
Base64URL.v
OzStrings.v
UserOperation.v
VerifyingPaymaster.v
FeeLogic.v
Erc20.v
TokenPaymaster.v
UniswapFeeLogic.v
UniswapHelper.v
MockUSDC.v
MultiTokenPaymaster.v
SolverPaymaster.v
NFTPaymaster.v
TokenVault.v
Primes.v
Weierstrass.v
P256Verifier.v
Secp256r1.v
AccountBase.v
P256V.v
P256SmartAccount.v
GuardianRecovery.v
P256SmartAccountFactory.v
MultichainValidator.v
SmartAccount.v
Ethers.v
Mining.v
Chain.v
DeployScripts.v
QueryScripts.v
ContractScripts.v
ClientScripts.v
SponsoredClients.v
Programs.v
AccountScripts.v
HardhatConfig.v
RepoTests.v
