(* ===== verification/Prelude.v ===== *)
(** * Verification of the Enclave smart-account repository

    The repository holds an ERC-4337 account system: Solidity contracts under
    contracts/ (a registry of addresses, paymasters that sponsor user operations,
    fee logics, a token vault, passkey accounts and their P-256 verifier) and the
    hardhat scripts under scripts/ that deploy, wire and query them.  This
    library translates the contracts' functions and the scripts' [main]
    functions, with hardhat.config.ts and the JavaScript clients that build, sign
    and submit passkey operations, into Rocq functions and proves what makes them correct, or shows
    precisely where they are not.

    ** Parts and how they interact

    A user operation reaches a paymaster through the EntryPoint: the paymaster
    parses [paymasterAndData], checks a signature over a hash of the operation
    (ECDSA) and returns packed validation data; after the operation a token
    paymaster charges the sender in an ERC-20 token at the price of a fee logic.
    A passkey account checks a WebAuthn assertion over the operation's hash with
    the P-256 verifier.  Accounts and scripts find their collaborators in the
    registry.  The vault
    keeps users' tokens for the solver.  The scripts create and connect these
    contracts: what they leave on the chain is the system's configuration.

    ** Files

    - [Prelude]: the revert monad [res] with its inversion tactics ([inv_res],
      [guards]), uintN as [Z] with wrapping ([Evm]) and checked ([cadd], [csub],
      [cmul], [cdiv]) arithmetic, the message of a call, mappings with a default.
    - [Bytes]: big-endian words, calldata slices, abi.encode/abi.decode of the
      tuples the contracts use.
    - [EnclaveRegistry]: EnclaveRegistry.sol.  State, constructor, both functions;
      refinement to "the owner's last write".
    - [CustomFullMath]: paymaster/CustomFullMath.sol.  [mulDiv] statement by
      statement, with the assembly blocks wrapping and the rest checked.
    - [Base64URL]: utils/Base64URL.sol and the Base64 encoder it calls (from
      P256SmartAccountFactory_Flattened.sol, where OpenZeppelin 4.9.6 and
      account-abstraction 0.6 are part of the repository).
    - [OzStrings]: Strings.toString and Math.log10 of the flattened source.
    - [UserOperation]: UserOperation, UserOperationLib, validation data and ECDSA
      of the flattened source.
    - [VerifyingPaymaster], [TokenPaymaster], [MultiTokenPaymaster],
      [SolverPaymaster]: the paymasters, each with its whole validation function,
      [_postOp] and owner functions.
    - [FeeLogic]: the fee-logic interface (a class) and its testnet and Chainlink
      implementations; [UniswapFeeLogic]: the Uniswap implementation;
      [UniswapHelper]: the abstract contract that swaps tokens for ether.
    - [NFTPaymaster]: EnclaveVerifyingNFTPaymaster, NFTGasLogic, GasNFT, TestNFT.
    - [Erc20]: the token interface (a class with its laws) and a ledger instance;
      [MockUSDC]: the test token over OpenZeppelin's ERC20, with a concrete token.
    - [TokenVault]: EnclaveTokenVaultV0.sol, with tokens that call back into the
      vault in the middle of a transfer.
    - [Primes]: the primality of the curve's field and order (Pocklington
      certificates).
    - [Weierstrass]: the affine group law on a short Weierstrass curve, its XYZZ
      and its Jacobian coordinates, over any prime field.
    - [P256Verifier]: P256Verifier.sol, every function, with both loops of
      [ecZZ_mulmuladd]; [P256V]: the wrappers P256V.sol and P256VerifierYul.sol
      over the dispatch of the deployed verifier;
      [Secp256r1]: the second verifier SECP256R1.sol, with its two-bit window.
    - [AccountBase]: calls, batches, Initializable and UUPSUpgradeable of the
      flattened source, over any storage type.
    - [P256SmartAccount], [P256SmartAccountFactory]: the passkey account over
      BaseAccount, its external interface as one [handle] function, and the
      factory with CREATE2.  [SmartAccount]: the EOA account and its factory.
    - [GuardianRecovery]: the account's own calls back into itself, and replacing
      its key through a guardian.
    - [MultichainValidator]: MultichainValidator.sol, and the verifiers' entry
      points as their two kinds of client call them.
    - [Ethers]: async scripts as a free monad over the awaited hardhat/ethers
      calls, [run], exit statuses, and a weakest-precondition calculus.
    - [Mining]: transactions between being sent and being mined, what waiting
      for one tells, and transaction pools for in-memory chains.
    - [Chain]: contract instances by address and the EntryPoints' deposits,
      constructors and transactions on the modelled contracts, the laws hardhat
      and ethers document ([HardhatLaws]) and an in-memory chain ([SimChain]) that
      satisfies them.
    - [DeployScripts], [QueryScripts], [ContractScripts]: one definition per
      function of scripts/**, named after its file, and the theorems about them.
    - [ClientScripts]: the JavaScript clients (runTransferPassKey*.js,
      P256verifycreatePublicKey.js), and [traces], a logic for what a script does
      along every run.  [SponsoredClients]: the clients composed with the
      verifying paymaster.
    - [Programs]: the last statement of each script file, which runs its [main] and
      sets the exit status.
    - [AccountScripts]: the scripts that deploy the account factory and create
      passkey accounts, composed with the factory model they call.
    - [HardhatConfig]: hardhat.config.ts as a function of the process environment.
    - [RepoTests]: the repository's suites, case by case on the model, and the hooks
      of the suites that cannot start.

    ** What is shown

    - Vault: refinement of a lock-free specification, solvency and the presence of
      a manager in all reachable states, deposits taken only by their owner or a
      manager, and that a depositor can always withdraw.
    - Paymasters: what a signature commits to, that approvals cannot be replayed,
      that an approval implies a valid signature, who pays and how much; that the
      multi-token paymaster can never charge, that its token choice is not
      signed, and that the solver paymasters reject every operation.
    - P-256: [ecdsa_verify] decides the ECDSA equation, stated with the affine
      group law, for every input; it always returns; each point operation
      implements the group law; P256V inherits it except on hashes that start
      with the selector of [ecdsa_verify], P256VerifierYul accepts nothing.
      SECP256R1 computes the same sums with an addition that lacks the doubling
      case: at the Berlin price of modexp it accepts exactly what that windowed
      evaluation gives, so also (0, 0) for every key; at the Osaka price it
      reverts.
    - Passkey accounts: only the entry point, the account itself and guardians
      change anything; validation answers 0 exactly on verified assertions and
      agrees with EIP-1271; batches are sequences of calls; creation is
      idempotent and the address binds key, registry and salt; recovery through
      a guardian works and ends when the guardian is removed.  The multichain
      validator accepts exactly the members of a signed tree but drops their
      validity window, and no registered verifier serves it and the account.
    - EOA accounts: accepted exactly when the owner signed.
    - NFT sponsorship: bounded by the limits, with an exact record; a bundle can
      still make a [_postOp] revert.
    - Uniswap pricing: the optimal pool, and the gas price charged twice; what a
      swap returns, and how much the conversions lose.
    - Clients: what is submitted is what was signed, the paymaster sponsors it when
      its hash was signed by its signer, the client's encodings are the
      contracts', and where a client cannot succeed.
    - Registry, arithmetic and encodings: functional correctness against
      reference definitions and round trips, with every error case.
    - Scripts: which transactions a deployment has sent when it ends with status
      0, which of them are mined and what they leave, that no contract that was
      there changes, which scripts only read, which can never succeed (and why),
      and that the exit status tells whether [main] succeeded.  The two that
      create passkey accounts are run against the factory: the account they
      announce is the one their transaction creates, where the script waits for it
      and where it does not.
    - Tests: the model passes the suites that can run; which cases of the others
      would pass if they could.

    ** Parameters and their hypotheses

    keccak256, SHA-256 and ecrecover ([EvmCrypto], [P256SmartAccount.Sha256], only
    their ranges are assumed), the contracts an account calls
    ([AccountBase.Host], [ValidatorHost], [UniswapHost], [DecidesEcdsa]), the EVM's
    dispatch of an account's calls to itself ([Loopback]), static calls
    ([P256V.StaticCalls]), the price of the modexp precompile ([ModexpPrice], as
    EIP-2565 and EIP-7883 give it), ERC-721 tokens, MerkleProof.verify, ERC-20
    tokens ([ERC20], [ERC20Laws], [ERC20Approve]), OpenZeppelin's ERC20
    ([OZERC20]), the swap router ([SwapRouter]), the Chainlink feed, OpenZeppelin's
    ReentrancyGuard ([ReentrancyGuard]) and hardhat/ethers with the chain
    ([HardhatEnv], [MiningLaws], [HardhatLaws], [AccountChainLaws]: a call that
    sends a transaction resolves when it is sent, [wait] when it is mined and
    succeeded; EntryPoint.depositTo adds to the deposit) are not part of the
    repository.  Every theorem that assumes one of them has a witness at a concrete instance.

    ** Bounds and fuel

    [TokenVault.exec] recurses on the EVM's remaining call depth (1024 at the
    outermost call), so a call beyond it fails as on the EVM; the theorems hold
    for every depth, and the withdrawal theorem for every depth of at least one.
    [ContractScripts.hex_loop] gets one unit of fuel per bit of its argument,
    which is enough for one per hexadecimal digit; the correctness theorem covers
    every number.  The loops of [ecZZ_mulmuladd] get 257 units for their 256
    indices, the window loop of SECP256R1 129 for its 128 digits, the loop of
    Strings.toString 78 for the at most 78 digits of a word, the loop of
    executeBatch one more than its array's length, and all
    are proved never to run out.  Everything else is structurally
    recursive.

    ** Not modelled

    Of the tests, the two cases of EnclaveFeeLogicUniswap.test.ts, which call mock
    contracts that are not in the repository.  Of scripts/*.js, what follows an
    unconditional return (runTransferPassKeyfinal.js).  To the
    scripts other than those of [AccountScripts], instances of the accounts, their
    factories, the P-256 verifiers, the NFT contracts and the Uniswap fee logic are
    opaque ([Chain.IOther]), and so is the EntryPoint but for its deposits.
    Transactions that other accounts send while a script runs.  Gas,
    console.log inside contracts and the text of error objects are left out. *)
From Stdlib Require Export ZArith Lia.
From stdpp Require Export base gmap strings numbers list.

Set Default Goal Selector "!".
#[global] Open Scope Z_scope.
#[global] Arguments Z.pow : simpl never.

(** * The revert monad

    A Solidity call either returns or reverts.  A revert discards every state
    change of the call, so a call is a function into [res] and the new state is
    part of the returned value only. *)

Inductive reason :=
  | Error (msg : string)        (* require(c, msg) / revert(msg) *)
  | Panic (code : Z)            (* compiler-inserted checks: 0x01, 0x11, 0x12, 0x32 *)
  | NoData                      (* require(c) / revert(0,0): no return data *)
  | Bubble (data : list Z).     (* return data of a failed inner call, forwarded *)

Inductive res (A : Type) :=
  | Ok (a : A)
  | Revert (r : reason).
Arguments Ok {A} a.
Arguments Revert {A} r.

#[global] Instance res_ret : MRet res := fun _ a => Ok a.
#[global] Instance res_bind : MBind res := fun _ _ f m =>
  match m with Ok a => f a | Revert r => Revert r end.
#[global] Instance res_fmap : FMap res := fun _ _ f m =>
  match m with Ok a => Ok (f a) | Revert r => Revert r end.

#[global] Instance reason_eq_dec : EqDecision reason.
Proof. solve_decision. Defined.
#[global] Instance res_eq_dec {A} `{EqDecision A} : EqDecision (res A).
Proof. solve_decision. Defined.

Definition require (c : bool) (msg : string) : res unit :=
  if c then Ok tt else Revert (Error msg).

(** [require(c)] without a message. *)
Definition require_ (c : bool) : res unit :=
  if c then Ok tt else Revert NoData.

Definition is_ok {A} (m : res A) : bool :=
  match m with Ok _ => true | Revert _ => false end.

Lemma bind_Ok {A B} (m : res A) (f : A → res B) b :
  (m ≫= f) = Ok b ↔ ∃ a, m = Ok a ∧ f a = Ok b.
Proof. destruct m as [a|r]; cbn; naive_solver. Qed.

Lemma bind_Revert {A B} (m : res A) (f : A → res B) r :
  (m ≫= f) = Revert r ↔ m = Revert r ∨ ∃ a, m = Ok a ∧ f a = Revert r.
Proof. destruct m as [a|r']; cbn; naive_solver. Qed.

Lemma fmap_Ok {A B} (m : res A) (f : A → B) b :
  (f <$> m) = Ok b ↔ ∃ a, m = Ok a ∧ f a = b.
Proof. destruct m as [a|r]; cbn; naive_solver. Qed.

Lemma require_Ok c msg u : require c msg = Ok u ↔ c = true.
Proof. destruct c, u; cbn; naive_solver. Qed.

Lemma require_Revert c msg r : require c msg = Revert r ↔ c = false ∧ r = Error msg.
Proof. destruct c; cbn; naive_solver. Qed.

Lemma require__Ok c u : require_ c = Ok u ↔ c = true.
Proof. destruct c, u; cbn; naive_solver. Qed.

(** [inv_res] turns a hypothesis that a monadic call returned (or reverted)
    into the facts about its steps. *)
Ltac inv_res_step :=
  match goal with
  | H : (_ ≫= _) = Ok _ |- _ =>
      apply bind_Ok in H; let a := fresh "a" in let H1 := fresh "E" in
      destruct H as (a & H1 & H)
  | H : (_ <$> _) = Ok _ |- _ =>
      apply fmap_Ok in H; let a := fresh "a" in let H1 := fresh "E" in
      destruct H as (a & H1 & H)
  | H : require _ _ = Ok ?u |- _ => apply require_Ok in H
  | H : require_ _ = Ok ?u |- _ => apply require__Ok in H
  | H : mret _ = Ok _ |- _ => unfold mret, res_ret in H
  | H : Ok _ = Ok _ |- _ => injection H as H
  | H : Ok _ = Revert _ |- _ => discriminate H
  | H : Revert _ = Ok _ |- _ => discriminate H
  | u : unit |- _ => destruct u
  | H : (_, _) = (_, _) |- _ => injection H as H
  end.
Ltac inv_res := repeat (inv_res_step; simplify_eq; cbn in *).

(** Boolean guards as propositions. *)
Ltac guards :=
  repeat match goal with
  | H : context [bool_decide _ = true] |- _ => rewrite bool_decide_eq_true in H
  | H : context [bool_decide _ = false] |- _ => rewrite bool_decide_eq_false in H
  | H : negb _ = true |- _ => apply negb_true_iff in H
  | H : negb _ = false |- _ => apply negb_false_iff in H
  | H : (_ && _)%bool = true |- _ => apply andb_true_iff in H; destruct H
  | H : (_ || _)%bool = false |- _ => apply orb_false_iff in H; destruct H
  | H : (_ =? _) = true |- _ => apply Z.eqb_eq in H
  | H : (_ =? _) = false |- _ => apply Z.eqb_neq in H
  | H : (_ <? _) = true |- _ => apply Z.ltb_lt in H
  | H : (_ <? _) = false |- _ => apply Z.ltb_ge in H
  | H : (_ <=? _) = true |- _ => apply Z.leb_le in H
  | H : (_ <=? _) = false |- _ => apply Z.leb_gt in H
  end.

(** [while (cond) { body }]: [body] runs while [cond] holds and may [break].  A
    loop that uses up its [fuel] is one that runs out of gas, which reverts
    without data. *)
Inductive flow (S : Type) :=
  | Next (s : S)
  | Break (s : S).
Arguments Next {S} s.
Arguments Break {S} s.

Fixpoint while {S} (fuel : nat) (cond : S → bool) (body : S → res (flow S)) (s : S) : res S :=
  match fuel with
  | O => Revert NoData
  | Datatypes.S f =>
      if cond s then
        r ← body s;
        match r with Next s' => while f cond body s' | Break s' => Ok s' end
      else Ok s
  end.

Lemma while_S {S} fuel (cond : S → bool) body s :
  while (Datatypes.S fuel) cond body s =
    if cond s then r ← body s; match r with Next s' => while fuel cond body s' | Break s' => Ok s' end
    else Ok s.
Proof. done. Qed.

(** * Machine integers

    A [uintN] is a [Z] in [0, 2^N).  Solidity 0.8 arithmetic is checked and
    panics with 0x11 on overflow, 0x12 on a zero divisor; the assembly opcodes
    wrap modulo 2^256 and give 0 for a zero divisor. *)

Definition uint (w x : Z) : Prop := 0 ≤ x < 2 ^ w.
#[global] Instance uint_dec w x : Decision (uint w x).
Proof. unfold uint. apply _. Defined.

Definition W256 : Z := 2 ^ 256.
Lemma W256_eq : W256 = 2 ^ 256.
Proof. reflexivity. Qed.
Lemma W256_pos : 0 < W256.
Proof. reflexivity. Qed.
#[global] Opaque W256.

Abbreviation u256 := (uint 256).
Lemma u256_range x : u256 x ↔ 0 ≤ x < W256.
Proof. unfold uint. by rewrite W256_eq. Qed.

Definition wrap (x : Z) : Z := x mod W256.
Definition b2z (b : bool) : Z := if b then 1 else 0.

Module Evm.
Definition add (a b : Z) : Z := wrap (a + b).
Definition sub (a b : Z) : Z := wrap (a - b).
Definition mul (a b : Z) : Z := wrap (a * b).
Definition div (a b : Z) : Z := if b =? 0 then 0 else a / b.
Definition not (a : Z) : Z := W256 - 1 - a.
Definition lt (a b : Z) : Z := b2z (a <? b).
Definition gt (a b : Z) : Z := b2z (b <? a).
Definition mulmod (a b m : Z) : Z := if m =? 0 then 0 else (a * b) mod m.
Definition addmod (a b m : Z) : Z := if m =? 0 then 0 else (a + b) mod m.
End Evm.

(** Checked arithmetic at width [w]. *)
Definition cadd (w a b : Z) : res Z :=
  if a + b <? 2 ^ w then Ok (a + b) else Revert (Panic 0x11).
Definition csub (a b : Z) : res Z :=
  if b <=? a then Ok (a - b) else Revert (Panic 0x11).
Definition cmul (w a b : Z) : res Z :=
  if a * b <? 2 ^ w then Ok (a * b) else Revert (Panic 0x11).
Definition cdiv (a b : Z) : res Z :=
  if b =? 0 then Revert (Panic 0x12) else Ok (a / b).

Lemma pow2_pos w : 0 ≤ w → 0 < 2 ^ w.
Proof. intros. by apply Z.pow_pos_nonneg. Qed.

Lemma wrap_small x : u256 x → wrap x = x.
Proof. rewrite u256_range. apply Z.mod_small. Qed.
Lemma wrap_range x : u256 (wrap x).
Proof. rewrite u256_range. apply Z.mod_pos_bound, W256_pos. Qed.
Lemma wrap_idem x : wrap (wrap x) = wrap x.
Proof. apply wrap_small, wrap_range. Qed.
Lemma wrap_mod_eq x y : (∃ k, x = y + k * W256) → wrap x = wrap y.
Proof. intros [k ->]. apply Z_mod_plus_full. Qed.

Lemma cadd_Ok w a b c : cadd w a b = Ok c ↔ c = a + b ∧ a + b < 2 ^ w.
Proof. unfold cadd. destruct (Z.ltb_spec (a + b) (2 ^ w)); split; intros; destruct_and?; simplify_eq; auto; lia. Qed.
Lemma csub_Ok a b c : csub a b = Ok c ↔ c = a - b ∧ b ≤ a.
Proof. unfold csub. destruct (Z.leb_spec b a); split; intros; destruct_and?; simplify_eq; auto; lia. Qed.

Lemma cmul_cases w a b : cmul w a b = Ok (a * b) ∨ cmul w a b = Revert (Panic 0x11).
Proof. unfold cmul. destruct (_ <? _); auto. Qed.
Lemma cmul_Ok w a b c : cmul w a b = Ok c ↔ c = a * b ∧ a * b < 2 ^ w.
Proof. unfold cmul. destruct (Z.ltb_spec (a * b) (2 ^ w)); split; intros; destruct_and?; simplify_eq; auto; lia. Qed.
Lemma cdiv_Ok a b c : cdiv a b = Ok c ↔ c = a / b ∧ b ≠ 0.
Proof. unfold cdiv. destruct (Z.eqb_spec b 0); split; intros; destruct_and?; simplify_eq; auto. Qed.

Create HintDb evm.
#[export] Hint Resolve W256_pos wrap_range wrap_small : evm.

(** * Environment of a call *)

Abbreviation address := Z (only parsing).
Definition zero_address : address := 0.

Record msg := Msg {
  msg_sender : address;
  msg_value : Z;
  self : address;              (* address(this) *)
  chainid : Z;                 (* block.chainid *)
  timestamp : Z                (* block.timestamp *)
}.

(** [_onlyOwner]-style guards compare addresses. *)
Definition addr_eqb (a b : address) : bool := a =? b.

(** A mapping with a default: [mapping(K => V)] reads the zero value for a key
    never written. *)
Definition mget {K} `{Countable K} {V} (d : V) (m : gmap K V) (k : K) : V :=
  default d (m !! k).

Section mget.
Context {K : Type} `{Countable K} {V : Type}.
Implicit Types (m : gmap K V) (d : V).

Lemma mget_empty d k : mget d (∅ : gmap K V) k = d.
Proof. unfold mget. by rewrite lookup_empty. Qed.
Lemma mget_insert_eq d m k v : mget d (<[k:=v]> m) k = v.
Proof. unfold mget. by rewrite lookup_insert_eq. Qed.
Lemma mget_insert_ne d m k k' v : k ≠ k' → mget d (<[k:=v]> m) k' = mget d m k'.
Proof. intros. unfold mget. by rewrite lookup_insert_ne. Qed.
Lemma mget_insert d m k k' v :
  mget d (<[k:=v]> m) k' = if decide (k = k') then v else mget d m k'.
Proof. case_decide; subst; [apply mget_insert_eq | by apply mget_insert_ne]. Qed.
End mget.
