(* ===== verification/Bytes.v ===== *)
(** Byte strings and the Solidity ABI: big-endian words, calldata slices,
    [abi.encode]/[abi.decode] of the tuples the contracts use, and Solidity
    [string]s as bytes.  A byte is a [Z] in [0, 256). *)
From S2P Require Import Prelude.

Abbreviation bytes := (list Z).

Definition is_bytes (bs : bytes) : Prop := Forall (uint 8) bs.

Lemma is_bytes_app bs cs : is_bytes (bs ++ cs) ↔ is_bytes bs ∧ is_bytes cs.
Proof. apply Forall_app. Qed.
Lemma is_bytes_take n bs : is_bytes bs → is_bytes (take n bs).
Proof. apply Forall_take. Qed.
Lemma is_bytes_drop n bs : is_bytes bs → is_bytes (drop n bs).
Proof. apply Forall_drop. Qed.

(** ** Big-endian numbers *)

Fixpoint be_bytes (n : nat) (z : Z) : bytes :=
  match n with
  | O => []
  | S m => be_bytes m (z / 256) ++ [z mod 256]
  end.

Definition be_val (bs : bytes) : Z := foldl (λ acc b, acc * 256 + b) 0 bs.

Lemma be_val_snoc bs b : be_val (bs ++ [b]) = be_val bs * 256 + b.
Proof. unfold be_val. by rewrite foldl_app. Qed.

Lemma length_be_bytes n z : length (be_bytes n z) = n.
Proof. revert z. induction n as [|n IH]; intros z; [done|]. cbn. rewrite length_app, IH. cbn. lia. Qed.

Lemma be_bytes_bytes n z : is_bytes (be_bytes n z).
Proof.
  revert z. induction n as [|n IH]; intros z; [constructor|]. cbn.
  apply is_bytes_app. split; [apply IH|]. apply Forall_singleton.
  unfold uint. change (2 ^ 8) with 256. apply Z.mod_pos_bound. lia.
Qed.

Lemma be_val_be_bytes n z : be_val (be_bytes n z) = z mod 256 ^ Z.of_nat n.
Proof.
  revert z. induction n as [|n IH]; intros z.
  { cbn. change (256 ^ 0) with 1. by rewrite Z.mod_1_r. }
  cbn [be_bytes]. rewrite be_val_snoc, IH, Nat2Z.inj_succ, Z.pow_succ_r by lia.
  rewrite (Z.rem_mul_r z 256); [ring | lia | apply Z.pow_pos_nonneg; lia].
Qed.

Lemma be_bytes_be_val bs : is_bytes bs → be_bytes (length bs) (be_val bs) = bs.
Proof.
  induction bs as [|b bs IH] using rev_ind; intros Hb; [done|].
  apply is_bytes_app in Hb as [Hbs Hb]. apply (Forall_singleton (uint 8)) in Hb.
  unfold uint in Hb. change (2 ^ 8) with 256 in Hb.
  rewrite length_app, Nat.add_comm. cbn [length Nat.add be_bytes].
  rewrite be_val_snoc, Z.div_add_l, (Z.div_small b), Z.add_0_r by lia.
  rewrite IH by done. f_equal. f_equal.
  rewrite Z.add_comm, Z_mod_plus_full. by apply Z.mod_small.
Qed.

Lemma be_val_range bs : is_bytes bs → 0 ≤ be_val bs < 256 ^ Z.of_nat (length bs).
Proof.
  intros H. rewrite <- (be_bytes_be_val bs H), be_val_be_bytes, length_be_bytes.
  apply Z.mod_pos_bound, Z.pow_pos_nonneg; lia.
Qed.

Lemma be_bytes_inj n x y :
  0 ≤ x < 256 ^ Z.of_nat n → 0 ≤ y < 256 ^ Z.of_nat n →
  be_bytes n x = be_bytes n y → x = y.
Proof.
  intros Hx Hy E. apply (f_equal be_val) in E.
  by rewrite !be_val_be_bytes, !Z.mod_small in E.
Qed.

(** A 32-byte ABI word. *)
Definition word (z : Z) : bytes := be_bytes 32 z.

Lemma length_word z : length (word z) = 32%nat.
Proof. apply length_be_bytes. Qed.
Lemma word_bytes z : is_bytes (word z).
Proof. apply be_bytes_bytes. Qed.
Lemma word_range_pow : 256 ^ Z.of_nat 32 = 2 ^ 256.
Proof. reflexivity. Qed.
Lemma be_val_word z : u256 z → be_val (word z) = z.
Proof. intros H. unfold word. rewrite be_val_be_bytes, word_range_pow. by apply Z.mod_small. Qed.
Lemma word_inj x y : u256 x → u256 y → word x = word y → x = y.
Proof. intros Hx Hy. apply be_bytes_inj; by rewrite word_range_pow. Qed.

#[global] Opaque word.

(** Concatenated words: [abi.encode] of a tuple of value types. *)
Definition abi_words (zs : list Z) : bytes := concat (word <$> zs).

Lemma length_abi_words zs : length (abi_words zs) = (32 * length zs)%nat.
Proof.
  unfold abi_words. induction zs as [|z zs IH]; [done|].
  rewrite fmap_cons. cbn [concat]. rewrite length_app, IH, length_word. cbn [length]. lia.
Qed.

Lemma abi_words_cons z zs : abi_words (z :: zs) = word z ++ abi_words zs.
Proof. done. Qed.

Lemma abi_words_bytes zs : is_bytes (abi_words zs).
Proof.
  induction zs as [|z zs IH]; [constructor|]. rewrite abi_words_cons.
  apply is_bytes_app. auto using word_bytes.
Qed.

Lemma abi_words_inj xs ys :
  Forall u256 xs → Forall u256 ys → abi_words xs = abi_words ys → xs = ys.
Proof.
  intros Hx. revert ys. induction Hx as [|x xs Hx Hxs IH]; intros ys Hy E.
  - apply (f_equal length) in E. rewrite !length_abi_words in E. destruct ys; cbn in *; [done|lia].
  - destruct Hy as [|y ys Hy Hys].
    { apply (f_equal length) in E. rewrite !length_abi_words in E. cbn in *. lia. }
    rewrite !abi_words_cons in E.
    apply app_inj_1 in E as [E1 E2]; [|by rewrite !length_word].
    f_equal; [by apply word_inj | by apply IH].
Qed.

(** ** Calldata slices

    [data[a:b]] reverts without data unless [a <= b <= data.length]. *)
Definition slice (data : bytes) (a b : nat) : res bytes :=
  _ ← require_ ((a <=? b)%nat && (b <=? length data)%nat);
  Ok (take (b - a) (drop a data)).
Definition slice_from (data : bytes) (a : nat) : res bytes :=
  slice data a (length data).

Lemma slice_Ok data a b s :
  slice data a b = Ok s ↔ (a ≤ b ≤ length data)%nat ∧ s = take (b - a) (drop a data).
Proof.
  unfold slice. rewrite bind_Ok. split.
  - intros ([] & H & E). apply require__Ok in H. simplify_eq.
    apply andb_true_iff in H. rewrite !Nat.leb_le in H. split; [lia|done].
  - intros [H ->]. exists tt. split; [|done]. apply require__Ok, andb_true_iff.
    rewrite !Nat.leb_le. lia.
Qed.

Lemma slice_from_Ok data a s :
  slice_from data a = Ok s ↔ (a ≤ length data)%nat ∧ s = drop a data.
Proof.
  unfold slice_from. rewrite slice_Ok. split.
  - intros [H ->]. split; [lia|]. apply take_ge. rewrite length_drop. lia.
  - intros [H ->]. split; [lia|]. symmetry. apply take_ge. rewrite length_drop. lia.
Qed.

(** ** abi.decode

    A value at byte offset [off] is one word; decoding reverts when the data is
    too short and when the word does not fit the type (ABI coder v2). *)
Definition abi_word_at (data : bytes) (off : nat) : res Z :=
  _ ← require_ ((off + 32 <=? length data)%nat);
  Ok (be_val (take 32 (drop off data))).

Definition abi_uint_at (w : Z) (data : bytes) (off : nat) : res Z :=
  z ← abi_word_at data off;
  _ ← require_ (z <? 2 ^ w);
  Ok z.

(** [abi.decode(data, (uint48, uint48))]. *)
Definition abi_decode_uint48_uint48 (data : bytes) : res (Z * Z) :=
  _ ← require_ ((64 <=? length data)%nat);
  a ← abi_uint_at 48 data 0;
  b ← abi_uint_at 48 data 32;
  Ok (a, b).

(** [abi.decode(data, (address))] and [(uint256)]. *)
Definition abi_decode_address (data : bytes) : res address := abi_uint_at 160 data 0.
Definition abi_decode_uint256 (data : bytes) : res Z := abi_word_at data 0.

(** [abi.decode(data, (address, address))]. *)
Definition abi_decode_address_address (data : bytes) : res (address * address) :=
  _ ← require_ ((64 <=? length data)%nat);
  a ← abi_uint_at 160 data 0;
  b ← abi_uint_at 160 data 32;
  Ok (a, b).

Lemma drop_abi_words_app n zs rest :
  (n ≤ length zs)%nat →
  drop (32 * n) (abi_words zs ++ rest) = abi_words (drop n zs) ++ rest.
Proof.
  revert zs. induction n as [|n IH]; intros zs Hn; [done|].
  destruct zs as [|z zs]; cbn in Hn; [lia|].
  rewrite abi_words_cons, <- app_assoc.
  replace (32 * S n)%nat with (length (word z) + 32 * n)%nat by (rewrite length_word; lia).
  rewrite drop_app_add, IH by lia. done.
Qed.

Lemma abi_word_at_words zs rest i z :
  zs !! i = Some z → u256 z → abi_word_at (abi_words zs ++ rest) (32 * i) = Ok z.
Proof.
  intros Hi Hz. pose proof (lookup_lt_Some _ _ _ Hi) as Hlt.
  unfold abi_word_at. rewrite length_app, length_abi_words.
  rewrite (proj2 (Nat.leb_le _ _)) by lia. cbn [require_ mbind res_bind].
  rewrite drop_abi_words_app by lia. rewrite (drop_S _ _ _ Hi), abi_words_cons, <- app_assoc.
  rewrite take_app_length' by (by rewrite length_word). by rewrite be_val_word.
Qed.

Lemma abi_uint_at_words w zs rest i z :
  zs !! i = Some z → uint w z → w ≤ 256 → abi_uint_at w (abi_words zs ++ rest) (32 * i) = Ok z.
Proof.
  intros Hi [Hz1 Hz2] Hw. unfold abi_uint_at.
  rewrite (abi_word_at_words zs rest i z); [|done|].
  - cbn. by rewrite (proj2 (Z.ltb_lt _ _)).
  - split; [done|]. eapply Z.lt_le_trans; [done|]. apply Z.pow_le_mono_r; lia.
Qed.

(** The form used on concrete offsets. *)
Lemma abi_uint_at_off w zs rest off i z :
  off = (32 * i)%nat → zs !! i = Some z → uint w z → w ≤ 256 →
  abi_uint_at w (abi_words zs ++ rest) off = Ok z.
Proof. intros ->. apply abi_uint_at_words. Qed.

Lemma Ok_bind {A B} (a : A) (f : A → res B) : (Ok a ≫= f) = f a.
Proof. done. Qed.
Lemma Revert_bind {A B} r (f : A → res B) : (Revert r ≫= f) = Revert r.
Proof. done. Qed.

Lemma uint_le w w' x : uint w x → w ≤ w' → uint w' x.
Proof. intros [? H] Hw. split; [done|]. eapply Z.lt_le_trans; [done|]. apply Z.pow_le_mono_r; lia. Qed.

Lemma abi_uint_at_range w data off z : abi_uint_at w data off = Ok z → is_bytes data → uint w z.
Proof.
  unfold abi_uint_at, abi_word_at. intros E Hb. inv_res. guards. split; [|done].
  apply be_val_range. by apply is_bytes_take, is_bytes_drop.
Qed.

(** ** Dynamic tails

    The tail of a dynamic [bytes] argument: its length word and the data padded
    to a multiple of 32 bytes. *)
Definition pad32 (bs : bytes) : bytes :=
  bs ++ replicate ((32 - length bs mod 32) mod 32)%nat 0.
Definition abi_tail (bs : bytes) : bytes :=
  word (Z.of_nat (length bs)) ++ pad32 bs.

Lemma pad32_inj bs cs rest rest' :
  length bs = length cs → pad32 bs ++ rest = pad32 cs ++ rest' → bs = cs ∧ rest = rest'.
Proof.
  unfold pad32. intros Hl E. rewrite <- !app_assoc, Hl in E.
  apply app_inj_1 in E as [-> E]; [|done].
  by apply app_inv_head in E as ->.
Qed.

Lemma abi_tail_inj bs cs :
  Z.of_nat (length bs) < 2 ^ 256 → Z.of_nat (length cs) < 2 ^ 256 →
  abi_tail bs = abi_tail cs → bs = cs.
Proof.
  unfold abi_tail. intros Hb Hc E.
  apply app_inj_1 in E as [E1 E2]; [|by rewrite !length_word].
  apply word_inj in E1; [|split; lia..].
  rewrite <- (app_nil_r (pad32 bs)), <- (app_nil_r (pad32 cs)) in E2.
  apply pad32_inj in E2 as [? _]; [done|lia].
Qed.

(** ** Strings as bytes *)

Definition ascii_z (c : Ascii.ascii) : Z := Z.of_N (Ascii.N_of_ascii c).
Definition str_bytes (s : string) : bytes := ascii_z <$> String.list_ascii_of_string s.

Lemma ascii_z_range c : uint 8 (ascii_z c).
Proof.
  unfold ascii_z, uint. change (2 ^ 8) with 256. pose proof (Ascii.N_ascii_bounded c). lia.
Qed.
Lemma str_bytes_bytes s : is_bytes (str_bytes s).
Proof. apply Forall_fmap, Forall_true. intros c. apply ascii_z_range. Qed.

#[export] Hint Resolve word_bytes abi_words_bytes be_bytes_bytes str_bytes_bytes : evm.
#[global] Arguments abi_words : simpl never.
#[global] Arguments be_bytes : simpl never.
#[global] Arguments be_val : simpl never.
#[global] Arguments abi_tail : simpl never.
#[global] Arguments str_bytes : simpl never.
#[global] Opaque abi_words be_bytes be_val abi_tail abi_uint_at abi_word_at.
