(* ===== verification/EnclaveRegistry.v ===== *)
(** The name registry (contracts/enclave-smart-account/EnclaveRegistry.sol):
    one owner, a mapping from contract names to non-zero addresses.  The
    account, the validator module and the deployment scripts all resolve their
    collaborators through it. *)
From S2P Require Import Prelude.

Record state := State {
  owner : address;
  registry : gmap string address
}.

(** constructor (address _owner) *)
Definition deployed (_owner : address) : state :=
  {| owner := _owner; registry := ∅ |}.

Definition _onlyOwner (m : msg) (s : state) : res unit :=
  require (addr_eqb (msg_sender m) (owner s)) "Caller not owner".

Definition updateRegistryAddress (m : msg) (_contractName : string)
    (_contractAddress : address) (s : state) : res state :=
  _ ← _onlyOwner m s;
  _ ← require (negb (addr_eqb _contractAddress zero_address)) "Registry: Zero address";
  Ok {| owner := owner s; registry := <[_contractName := _contractAddress]> (registry s) |}.

Definition getRegistryAddress (_contractName : string) (s : state) : res address :=
  _ ← require (negb (addr_eqb (mget zero_address (registry s) _contractName) zero_address))
        "Registry: Entry doesn't exist";
  Ok (mget zero_address (registry s) _contractName).

(** ** What clients rely on

    The interface other components use: a name resolves to an address or the
    call reverts, and a resolved address is never zero. *)
Class AddressBook (S : Type) := {
  resolve : string → S → res address;
  resolve_nonzero : ∀ name s a, resolve name s = Ok a → a ≠ zero_address
}.

(** ** Inversion lemmas *)

Lemma update_inv m k a s s' :
  updateRegistryAddress m k a s = Ok s' ↔
  msg_sender m = owner s ∧ a ≠ zero_address ∧
  s' = {| owner := owner s; registry := <[k := a]> (registry s) |}.
Proof.
  unfold updateRegistryAddress, _onlyOwner, addr_eqb. split.
  - intros H. inv_res. guards. done.
  - intros (-> & Ha & ->). rewrite Z.eqb_refl. cbn.
    apply Z.eqb_neq in Ha. by rewrite Ha.
Qed.

Lemma get_inv k s a :
  getRegistryAddress k s = Ok a ↔ registry s !! k = Some a ∧ a ≠ zero_address.
Proof.
  unfold getRegistryAddress, addr_eqb, mget. rewrite bind_Ok. split.
  - intros ([] & H & E). apply require_Ok in H. guards. simplify_eq.
    destruct (registry s !! k); cbn in *; [done|by destruct H].
  - intros [-> Ha%Z.eqb_neq]. cbn. rewrite Ha. by exists tt.
Qed.

Lemma get_Revert k s r :
  getRegistryAddress k s = Revert r ↔
  mget zero_address (registry s) k = zero_address ∧ r = Error "Registry: Entry doesn't exist".
Proof.
  unfold getRegistryAddress, addr_eqb. rewrite bind_Revert. split.
  - intros [H|(?&_&?)]; [|done]. apply require_Revert in H as [H ->]. by guards.
  - intros [-> ->]. left. apply require_Revert. by rewrite Z.eqb_refl.
Qed.

#[global] Instance enclave_registry_book : AddressBook state := {|
  resolve := getRegistryAddress;
  resolve_nonzero name s a H := proj2 (proj1 (get_inv name s a) H)
|}.

(** ** Histories

    A transaction that reverts leaves the state unchanged; any account may
    submit any sequence of updates. *)
Record call := Call { sender : address; name : string; addr : address }.

Definition msg_from (a : address) : msg :=
  {| msg_sender := a; msg_value := 0; self := 0; chainid := 0; timestamp := 0 |}.

Definition apply_call (s : state) (c : call) : state :=
  match updateRegistryAddress (msg_from (sender c)) (name c) (addr c) s with
  | Ok s' => s'
  | Revert _ => s
  end.

(** Reference semantics: the registry is the owner's last non-zero write. *)
Definition accepted (o : address) (k : string) (c : call) : bool :=
  addr_eqb (sender c) o && negb (addr_eqb (addr c) zero_address) && bool_decide (name c = k).
Definition last_write (o : address) (k : string) (h : list call) : option address :=
  addr <$> last (filter (λ c, accepted o k c = true) h).

Lemma apply_call_owner s c : owner (apply_call s c) = owner s.
Proof.
  unfold apply_call. destruct (updateRegistryAddress _ _ _ s) as [s'|] eqn:E; [|done].
  by apply update_inv in E as (_ & _ & ->).
Qed.

Lemma apply_call_lookup s c k :
  registry (apply_call s c) !! k =
    if accepted (owner s) k c then Some (addr c) else registry s !! k.
Proof.
  unfold apply_call, accepted, addr_eqb.
  destruct (updateRegistryAddress _ _ _ s) as [s'|r] eqn:E.
  - apply update_inv in E as (Hs & Ha & ->). cbn in *. rewrite Hs, Z.eqb_refl.
    apply Z.eqb_neq in Ha. rewrite Ha. cbn. rewrite lookup_insert. by repeat case_decide; case_bool_decide.
  - unfold updateRegistryAddress, _onlyOwner, addr_eqb in E. cbn in E.
    destruct (sender c =? owner s); [|done].
    destruct (addr c =? zero_address); [done|]. done.
Qed.

Lemma history_lookup o h k :
  owner (foldl apply_call (deployed o) h) = o ∧
  registry (foldl apply_call (deployed o) h) !! k = last_write o k h.
Proof.
  induction h as [|c h [IHo IHk]] using rev_ind; [done|].
  rewrite foldl_app. cbn. rewrite apply_call_owner, apply_call_lookup, IHo.
  split; [done|]. unfold last_write. rewrite filter_app.
  destruct (accepted o k c) eqn:A.
  - rewrite filter_cons_True by done. cbn. by rewrite last_snoc.
  - rewrite filter_cons_False by (by rewrite A). cbn. by rewrite app_nil_r, IHk.
Qed.

Lemma last_write_nonzero o h k a : last_write o k h = Some a → a ≠ zero_address.
Proof.
  unfold last_write. intros H. apply fmap_Some in H as (c & Hc & ->).
  apply last_Some_elem_of, list_elem_of_filter in Hc as [Hc _].
  unfold accepted, addr_eqb in Hc. by guards.
Qed.

(** C13: After any history of [updateRegistryAddress] calls by any senders
    (reverting calls included), [getRegistryAddress k] returns the address of
    the owner's last write of a non-zero address under [k], and reverts with
    the documented message exactly when the owner never made one. *)
Theorem registry_refines_last_write (o : address) (h : list call) (k : string) :
  getRegistryAddress k (foldl apply_call (deployed o) h) =
    match last_write o k h with
    | Some a => Ok a
    | None => Revert (Error "Registry: Entry doesn't exist")
    end.
Proof.
  destruct (history_lookup o h k) as [_ Hk].
  destruct (last_write o k h) as [a|] eqn:L.
  - apply get_inv. eauto using last_write_nonzero.
  - apply get_Revert. unfold mget. by rewrite Hk.
Qed.
