(* ===== verification/CustomFullMath.v ===== *)
(** 512-bit multiply-and-divide
    (contracts/enclave-smart-account/paymaster/CustomFullMath.sol), as compiled
    by Solidity 0.8: the assembly blocks wrap, every statement outside them is
    checked and panics with 0x11. *)
From S2P Require Import Prelude.

(** The two 256-bit halves of [a * b], from the product modulo 2^256 and modulo
    2^256 - 1 (the first assembly block). *)
Definition prod_lo (a b : Z) : Z := Evm.mul a b.
Definition prod_hi (a b : Z) : Z :=
  let mm := Evm.mulmod a b (Evm.not 0) in
  Evm.sub (Evm.sub mm (prod_lo a b)) (Evm.lt mm (prod_lo a b)).

(** One [inv *= 2 - denominator * inv]. *)
Definition newton_step (denominator inv : Z) : res Z :=
  t ← cmul 256 denominator inv;
  u ← csub 2 t;
  cmul 256 inv u.

Definition mulDiv (a b denominator : Z) : res Z :=
  let prod0 := prod_lo a b in
  let prod1 := prod_hi a b in
  if prod1 =? 0 then
    _ ← require_ (0 <? denominator);
    Ok (Evm.div prod0 denominator)
  else
    _ ← require_ (prod1 <? denominator);
    let remainder := Evm.mulmod a b denominator in
    let prod1 := Evm.sub prod1 (Evm.gt remainder prod0) in
    let prod0 := Evm.sub prod0 remainder in
    neg ← cadd 256 (Evm.not denominator) 1;
    let twos := Z.land neg denominator in
    let denominator := Evm.div denominator twos in
    let prod0 := Evm.div prod0 twos in
    let twos := Evm.add (Evm.div (Evm.sub 0 twos) twos) 1 in
    shifted ← cmul 256 prod1 twos;
    let prod0 := Z.lor prod0 shifted in
    tripled ← cmul 256 3 denominator;
    let inv := Z.lxor tripled 2 in
    inv ← newton_step denominator inv;
    inv ← newton_step denominator inv;
    inv ← newton_step denominator inv;
    inv ← newton_step denominator inv;
    inv ← newton_step denominator inv;
    inv ← newton_step denominator inv;
    cmul 256 prod0 inv.

Definition mulDivRoundingUp (a b denominator : Z) : res Z :=
  result ← mulDiv a b denominator;
  if 0 <? Evm.mulmod a b denominator then
    _ ← require_ (result <? 2 ^ 256 - 1);
    cadd 256 result 1
  else Ok result.

(** ** The halves of the product *)

Lemma prod_lo_eq a b : prod_lo a b = (a * b) mod W256.
Proof. done. Qed.

Lemma prod_bounds a b : u256 a → u256 b → 0 ≤ a * b / W256 ≤ W256 - 2.
Proof.
  rewrite !u256_range. intros Ha Hb. assert (W256 > 2) by (by rewrite W256_eq). split.
  - apply Z.div_pos; nia.
  - assert (a * b / W256 < W256 - 1); [|lia]. apply Z.div_lt_upper_bound; [done|].
    assert (a * b ≤ (W256 - 1) * (W256 - 1)) by (apply Z.mul_le_mono_nonneg; lia). nia.
Qed.

Lemma prod_hi_eq a b : u256 a → u256 b → prod_hi a b = a * b / W256.
Proof.
  intros Ha Hb. pose proof (prod_bounds a b Ha Hb) as Hhi. unfold prod_hi. rewrite prod_lo_eq.
  pose proof W256_pos as Wp. assert (W256 > 2) as W2 by (by rewrite W256_eq).
  set (hi := a * b / W256) in *. set (lo := (a * b) mod W256).
  assert (0 ≤ lo < W256) as Hlo by (by apply Z.mod_pos_bound).
  assert (a * b = hi * W256 + lo) as Hab by (pose proof (Z.div_mod (a * b) W256); lia).
  unfold Evm.mulmod, Evm.not. replace (W256 - 1 - 0) with (W256 - 1) by lia.
  rewrite (proj2 (Z.eqb_neq (W256 - 1) 0)) by lia.
  assert ((a * b) mod (W256 - 1) = (hi + lo) mod (W256 - 1)) as ->.
  { rewrite Hab. replace (hi * W256 + lo) with (hi + lo + hi * (W256 - 1)) by lia.
    apply Z_mod_plus_full. }
  unfold Evm.sub, Evm.lt, wrap. rewrite Zminus_mod_idemp_l.
  destruct (decide (hi + lo < W256 - 1)).
  - rewrite (Z.mod_small (hi + lo)) by lia.
    rewrite (proj2 (Z.ltb_ge _ _)) by lia. cbn.
    replace (hi + lo - lo - 0) with hi by lia. apply Z.mod_small. lia.
  - assert ((hi + lo) mod (W256 - 1) = hi + lo - (W256 - 1)) as ->.
    { symmetry. apply (Z.mod_unique _ _ 1); lia. }
    rewrite (proj2 (Z.ltb_lt _ _)) by lia. cbn.
    symmetry. apply (Z.mod_unique _ _ (-1)); lia.
Qed.

(** ** Factoring powers of two out of the denominator *)

Lemma odd_part d : 0 < d → ∃ v o, 0 ≤ v ∧ d = 2 ^ v * o ∧ Z.odd o = true ∧ 0 < o.
Proof.
  intros Hd. assert (0 ≤ d) as Hn by lia. revert Hd. pattern d. apply (Zlt_0_ind _); [|done].
  clear d Hn. intros d IH _ Hd. destruct (Z.odd d) eqn:Ho.
  - exists 0, d. change (2 ^ 0) with 1. split_and!; auto; lia.
  - assert (Z.even d = true) as [e He]%Z.even_spec by (rewrite <- Z.negb_odd; by rewrite Ho).
    destruct (IH e) as (v & o & Hv & -> & Hoo & Hop); [lia..|].
    exists (v + 1), o. split_and!; auto; [lia|]. rewrite He, Z.pow_add_r by lia.
    change (2 ^ 1) with 2. ring.
Qed.

Lemma land_neg_odd o : Z.odd o = true → Z.land (- o) o = 1.
Proof.
  intros Ho. apply Z.bits_inj'. intros i Hi. rewrite Z.land_spec.
  destruct (decide (i = 0)) as [->|Hne].
  - rewrite !Z.bit0_odd, Z.odd_opp, Ho. done.
  - replace (- o) with (Z.lnot (o - 1)) by (unfold Z.lnot; lia).
    rewrite Z.lnot_spec by done.
    apply Z.odd_spec in Ho as [m ->].
    replace (2 * m + 1 - 1) with (2 * m) by lia.
    replace i with (Z.succ (i - 1)) by lia.
    rewrite Z.testbit_odd_succ, Z.testbit_even_succ by lia.
    rewrite andb_comm, andb_negb_r. symmetry.
    change 1 with (2 * 0 + 1) at 1. rewrite Z.testbit_odd_succ by lia. apply Z.bits_0.
Qed.

Lemma lowest_bit v o :
  0 ≤ v → 0 < o → Z.odd o = true → 2 ^ v * o < W256 →
  Z.land (W256 - 2 ^ v * o) (2 ^ v * o) = 2 ^ v.
Proof.
  intros Hv Ho1 Ho2 Hlt. set (d := 2 ^ v * o) in *.
  assert (0 < d) by (subst d; apply Z.mul_pos_pos; [apply Z.pow_pos_nonneg; lia|done]).
  assert (Z.land (W256 - d) d = Z.land (- d) d) as ->.
  { apply Z.bits_inj'. intros i Hi. rewrite !Z.land_spec.
    destruct (decide (i < 256)).
    - f_equal. rewrite <- (Z.mod_pow2_bits_low (W256 - d) 256), <- (Z.mod_pow2_bits_low (- d) 256) by lia.
      rewrite <- W256_eq. f_equal. replace (W256 - d) with (- d + 1 * W256) by lia.
      apply Z_mod_plus_full.
    - assert (Z.testbit d i = false) as ->; [|by rewrite !andb_false_r].
      rewrite <- (Z.mod_small d (2 ^ 256)) by (rewrite <- W256_eq; lia).
      apply Z.mod_pow2_bits_high. lia. }
  subst d. rewrite (Z.mul_comm (2 ^ v)), <- Z.mul_opp_l, <- !Z.shiftl_mul_pow2 by done.
  rewrite <- Z.shiftl_land, land_neg_odd by done. rewrite Z.shiftl_mul_pow2 by done. lia.
Qed.

Lemma pow2_odd_part v o : 0 ≤ v → 0 < o → Z.odd o = true →
  2 ^ v * o = 2 ^ Z.log2 (2 ^ v * o) → o = 1.
Proof.
  intros Hv Hop Ho E. rewrite Z.mul_comm, Z.log2_mul_pow2, Z.pow_add_r in E by (lia || apply Z.log2_nonneg).
  assert (o = 2 ^ Z.log2 o) as E' by (pose proof (pow2_pos v ltac:(lia)); nia).
  destruct (decide (Z.log2 o = 0)) as [Hz|Hz]; [by rewrite Hz in E'|].
  exfalso. rewrite E' in Ho. rewrite Z.odd_pow in Ho by (pose proof (Z.log2_nonneg o); lia). done.
Qed.

(** ** The two 512-bit outcomes *)

(** With an odd part of at least 3 the first Newton step underflows (or
    overflows): [denominator * inv > 2]. *)
Lemma newton_panics o : 3 ≤ o → newton_step o (Z.lxor (3 * o) 2) = Revert (Panic 0x11).
Proof.
  intros Ho. unfold newton_step.
  assert (7 ≤ Z.lxor (3 * o) 2) as Hx.
  { pose proof (Z.lxor_nonneg (3 * o) 2) as N.
    destruct (Z.le_gt_cases 7 (Z.lxor (3 * o) 2)) as [|Hlt]; [done|exfalso].
    assert (0 ≤ Z.lxor (3 * o) 2) by (apply N; lia).
    assert (3 * o = Z.lxor (Z.lxor (3 * o) 2) 2) as E.
    { by rewrite Z.lxor_assoc, Z.lxor_nilpotent, Z.lxor_0_r. }
    remember (Z.lxor (3 * o) 2) as x.
    assert (x = 0 ∨ x = 1 ∨ x = 2 ∨ x = 3 ∨ x = 4 ∨ x = 5 ∨ x = 6) as Hc by lia.
    destruct Hc as [->|[->|[->|[->|[->|[->| ->]]]]]];
      match type of E with _ = ?r => let v := eval vm_compute in r in change r with v in E end;
      lia. }
  unfold cmul. destruct (Z.ltb_spec (o * Z.lxor (3 * o) 2) (2 ^ 256)); [|done].
  cbn. unfold csub. by rewrite (proj2 (Z.leb_gt _ _)) by nia.
Qed.

Lemma newton_one : newton_step 1 1 = Ok 1.
Proof. by vm_compute. Qed.

Lemma neg_denominator d : 0 < d < W256 → cadd 256 (Evm.not d) 1 = Ok (W256 - d).
Proof.
  intros Hd. apply cadd_Ok. unfold Evm.not. rewrite <- W256_eq. lia.
Qed.

Lemma flip_twos v : 0 ≤ v < 256 → Evm.add (Evm.div (Evm.sub 0 (2 ^ v)) (2 ^ v)) 1 = wrap (2 ^ (256 - v)).
Proof.
  intros Hv. pose proof (pow2_pos v ltac:(lia)) as Hp.
  assert (W256 = 2 ^ (256 - v) * 2 ^ v) as HW.
  { rewrite W256_eq, <- Z.pow_add_r by lia. f_equal. lia. }
  pose proof (pow2_pos (256 - v) ltac:(lia)) as Hq.
  unfold Evm.add, Evm.div, Evm.sub. rewrite (proj2 (Z.eqb_neq _ _)) by lia.
  assert (wrap (0 - 2 ^ v) = (2 ^ (256 - v) - 1) * 2 ^ v) as ->.
  { unfold wrap. symmetry. apply (Z.mod_unique _ _ (-1)); nia. }
  rewrite Z.div_mul by lia. f_equal. lia.
Qed.

Lemma lor_shifted lo hi v :
  0 ≤ v ≤ 256 → 0 ≤ lo < 2 ^ (256 - v) → 0 ≤ hi →
  Z.lor lo (hi * 2 ^ (256 - v)) = lo + hi * 2 ^ (256 - v).
Proof.
  intros Hv Hlo Hhi. pose proof (Z.add_lor_land lo (hi * 2 ^ (256 - v))) as E.
  assert (Z.land lo (hi * 2 ^ (256 - v)) = 0) as E'; [|lia]. clear E.
  apply Z.bits_inj'. intros i Hi. rewrite Z.land_spec, Z.bits_0.
  destruct (decide (i < 256 - v)).
  - rewrite Z.mul_pow2_bits_low by lia. apply andb_false_r.
  - by rewrite <- (Z.mod_small lo (2 ^ (256 - v))), Z.mod_pow2_bits_high by lia.
Qed.

(** A power-of-two denominator divides exactly the low bits away. *)
Lemma shift_division a b v :
  0 ≤ v < 256 → 0 ≤ a * b →
  let lo := (a * b) mod W256 in let hi := a * b / W256 in
  hi < 2 ^ v →
  (lo - lo mod 2 ^ v) / 2 ^ v + hi * 2 ^ (256 - v) = a * b / 2 ^ v ∧
  0 ≤ (lo - lo mod 2 ^ v) / 2 ^ v < 2 ^ (256 - v).
Proof.
  intros Hv Hab lo hi Hhi. pose proof W256_pos.
  pose proof (pow2_pos v ltac:(lia)) as Hp. pose proof (pow2_pos (256 - v) ltac:(lia)) as Hq.
  assert (W256 = 2 ^ (256 - v) * 2 ^ v) as HW.
  { rewrite W256_eq, <- Z.pow_add_r by lia. f_equal. lia. }
  assert (0 ≤ lo < W256) as Hlo by (by apply Z.mod_pos_bound).
  assert (a * b = hi * W256 + lo) as -> by (pose proof (Z.div_mod (a * b) W256); lia).
  assert (lo - lo mod 2 ^ v = (lo / 2 ^ v) * 2 ^ v) as ->.
  { pose proof (Z.div_mod lo (2 ^ v)). lia. }
  rewrite Z.div_mul by lia. split.
  - rewrite HW, Z.mul_assoc, Z.div_add_l by lia. lia.
  - split; [apply Z.div_pos; lia|]. apply Z.div_lt_upper_bound; lia.
Qed.

(** The reference: what [mulDiv] returns on every input. *)
Definition mulDiv_ref (a b d : Z) : res Z :=
  if a * b <? 2 ^ 256 then
    (if d =? 0 then Revert NoData else Ok (a * b / d))
  else if d <=? a * b / 2 ^ 256 then Revert NoData
  else if d =? 2 ^ Z.log2 d then Ok (a * b / d)
  else Revert (Panic 0x11).

Section outcomes.
Context (a b d : Z) (Ha : u256 a) (Hb : u256 b) (Hd : u256 d).

Lemma mulDiv_256bit :
  a * b < W256 → mulDiv a b d = if d =? 0 then Revert NoData else Ok (a * b / d).
Proof using Ha Hb Hd.
  intros Hlt. pose proof (proj1 (u256_range _) Ha). pose proof (proj1 (u256_range _) Hb).
  pose proof (proj1 (u256_range _) Hd).
  unfold mulDiv. rewrite prod_hi_eq, prod_lo_eq by done.
  rewrite Z.div_small, Z.mod_small by nia. cbn. unfold Evm.div.
  destruct (Z.eqb_spec d 0) as [->|Hne]; [done|].
  by rewrite (proj2 (Z.ltb_lt 0 d)) by lia.
Qed.

Lemma mulDiv_512bit_small :
  W256 ≤ a * b → d ≤ a * b / W256 → mulDiv a b d = Revert NoData.
Proof using Ha Hb.
  intros Hge Hle. unfold mulDiv. rewrite prod_hi_eq by done.
  pose proof W256_pos.
  assert (0 < a * b / W256) as Hp by (apply Z.div_str_pos; lia).
  rewrite (proj2 (Z.eqb_neq _ _)) by lia.
  by rewrite (proj2 (Z.ltb_ge _ _)) by lia.
Qed.

Lemma mulDiv_512bit_odd v o :
  W256 ≤ a * b → a * b / W256 < d →
  0 ≤ v → 3 ≤ o → Z.odd o = true → d = 2 ^ v * o → mulDiv a b d = Revert (Panic 0x11).
Proof using Ha Hb Hd.
  intros Hge Hgt Hv Ho Hodd Ed. pose proof W256_pos. pose proof (proj1 (u256_range _) Hd).
  assert (0 < a * b / W256) as Hp by (apply Z.div_str_pos; lia).
  unfold mulDiv. rewrite prod_hi_eq by done.
  rewrite (proj2 (Z.eqb_neq _ _)), (proj2 (Z.ltb_lt _ _)) by lia. cbn [require_ mbind res_bind].
  rewrite neg_denominator by lia. cbn [mbind res_bind].
  rewrite Ed, lowest_bit by (done || lia).
  assert (Evm.div (2 ^ v * o) (2 ^ v) = o) as ->.
  { pose proof (pow2_pos v ltac:(lia)). unfold Evm.div. rewrite (proj2 (Z.eqb_neq _ _)) by lia.
    rewrite Z.mul_comm. apply Z.div_mul. lia. }
  do 2 (match goal with |- (cmul 256 ?x ?y ≫= _) = _ =>
    destruct (cmul_cases 256 x y) as [-> | ->]; [|done] end; cbn [mbind res_bind]).
  by rewrite newton_panics.
Qed.

Lemma mulDiv_512bit_pow2 v :
  W256 ≤ a * b → a * b / W256 < d → 0 ≤ v → d = 2 ^ v → mulDiv a b d = Ok (a * b / d).
Proof using Ha Hb Hd.
  intros Hge Hgt Hv Ed. pose proof W256_pos. assert (0 < a * b / W256) as Hp by (apply Z.div_str_pos; lia).
  pose proof (proj1 (u256_range _) Hd) as Hd'.
  assert (v < 256) as Hv' by (apply (Z.pow_lt_mono_r_iff 2); rewrite <- ?W256_eq; lia).
  pose proof (pow2_pos v ltac:(lia)) as Hpv. pose proof (pow2_pos (256 - v) ltac:(lia)) as Hq.
  assert (W256 = 2 ^ (256 - v) * 2 ^ v) as HW.
  { rewrite W256_eq, <- Z.pow_add_r by lia. f_equal. lia. }
  destruct (shift_division a b v) as [Hdiv Hlo]; [lia..|].
  unfold mulDiv. rewrite prod_hi_eq, prod_lo_eq by done.
  set (hi := a * b / W256) in *. set (lo := (a * b) mod W256) in *.
  assert (0 ≤ lo < W256) as Hlo' by (by apply Z.mod_pos_bound).
  rewrite (proj2 (Z.eqb_neq hi 0)), (proj2 (Z.ltb_lt hi d)) by lia. cbn [require_ mbind res_bind].
  assert (Evm.mulmod a b d = lo mod 2 ^ v) as ->.
  { unfold Evm.mulmod. rewrite (proj2 (Z.eqb_neq _ _)) by lia. rewrite Ed. subst lo.
    symmetry. apply Z.mod_mod_divide. by exists (2 ^ (256 - v)). }
  pose proof (Z.mod_pos_bound lo (2 ^ v) Hpv) as Hr. pose proof (Z.mod_le lo (2 ^ v)) as Hr'.
  assert (Evm.gt (lo mod 2 ^ v) lo = 0) as ->.
  { unfold Evm.gt. by rewrite (proj2 (Z.ltb_ge _ _)) by lia. }
  assert (Evm.sub hi 0 = hi) as ->.
  { unfold Evm.sub. rewrite Z.sub_0_r. apply wrap_small, u256_range. lia. }
  assert (Evm.sub lo (lo mod 2 ^ v) = lo - lo mod 2 ^ v) as ->.
  { apply wrap_small, u256_range. lia. }
  rewrite neg_denominator by lia. cbn [mbind res_bind].
  replace d with (2 ^ v * 1) by lia. rewrite lowest_bit by (done || lia). rewrite Z.mul_1_r.
  assert (∀ x, Evm.div x (2 ^ v) = x / 2 ^ v) as Hdv.
  { intros x. unfold Evm.div. by rewrite (proj2 (Z.eqb_neq (2 ^ v) 0)) by lia. }
  rewrite flip_twos, !Hdv, Z.div_same by lia.
  set (top := (lo - lo mod 2 ^ v) / 2 ^ v) in *.
  assert (0 < v) as Hv0.
  { destruct (decide (v = 0)) as [->|]; [|lia]. change (2 ^ 0) with 1 in *. lia. }
  rewrite wrap_small by (apply u256_range; rewrite HW; nia).
  rewrite (proj2 (cmul_Ok 256 hi (2 ^ (256 - v)) _)) by (rewrite <- W256_eq, HW; split; [done|nia]).
  cbn [mbind res_bind]. rewrite lor_shifted, Hdiv by lia.
  change (cmul 256 3 1) with (@Ok Z 3). cbn [mbind res_bind].
  change (Z.lxor 3 2) with 1. do 6 (rewrite newton_one; cbn [mbind res_bind]).
  apply cmul_Ok. rewrite Z.mul_1_r. split; [done|]. rewrite <- Hdiv, <- W256_eq, HW. nia.
Qed.
End outcomes.

Lemma mulDiv_ref_eq (a b d : Z) :
  u256 a → u256 b → u256 d → mulDiv a b d = mulDiv_ref a b d.
Proof.
  intros Ha Hb Hd. unfold mulDiv_ref. rewrite <- W256_eq.
  destruct (Z.ltb_spec (a * b) W256) as [Hlt|Hge]; [by apply mulDiv_256bit|].
  destruct (Z.leb_spec d (a * b / W256)) as [Hle|Hgt]; [by apply mulDiv_512bit_small|].
  pose proof W256_pos.
    assert (0 < a * b / W256) as Hp by (apply Z.div_str_pos; lia).
  destruct (odd_part d) as (v & o & Hv & Ed & Hodd & Ho); [lia|].
  destruct (Z.eqb_spec d (2 ^ Z.log2 d)) as [Epow|Hnpow].
  - assert (o = 1) as -> by (apply (pow2_odd_part v); congruence).
    apply (mulDiv_512bit_pow2 a b d Ha Hb Hd v); lia.
  - apply (mulDiv_512bit_odd a b d Ha Hb Hd v o); auto.
    destruct (decide (o = 1)) as [->|]; [|destruct (decide (o = 2)) as [->|]; [done|lia]].
    exfalso. apply Hnpow. rewrite Ed, Z.mul_1_r. by rewrite Z.log2_pow2.
Qed.

(** C14: [mulDiv] on every triple of 256-bit words: it returns
    [floor(a*b/denominator)] when the product fits 256 bits, or when it does
    not and the denominator is a power of two above the high half; it reverts
    without data on a zero (or too small) denominator; and on every other
    512-bit product, where the documented result would still fit, the checked
    arithmetic of the Newton iteration panics with 0x11. *)
Theorem mulDiv_spec (a b d : Z) :
  u256 a → u256 b → u256 d → mulDiv a b d = mulDiv_ref a b d.
Proof. apply mulDiv_ref_eq. Qed.

Lemma mulDiv_spec_witness :
  (u256 (2 ^ 200) ∧ u256 (2 ^ 96)) ∧
  mulDiv (2 ^ 200) (2 ^ 200) (2 ^ 200) = Ok (2 ^ 200) ∧
  mulDiv (2 ^ 200) (2 ^ 200) (3 * 2 ^ 150) = Revert (Panic 0x11).
Proof.
  split; [by vm_compute|].
  split; rewrite mulDiv_spec; (by vm_compute) || by (unfold uint; lia).
Defined.

Lemma mulDiv_ref_Ok a b d q : mulDiv_ref a b d = Ok q → q = a * b / d ∧ d ≠ 0.
Proof.
  unfold mulDiv_ref. intros H.
  destruct (_ <? _); [destruct (Z.eqb_spec d 0); by simplify_eq|].
  destruct (Z.leb_spec d (a * b / 2 ^ 256)); [done|].
  destruct (Z.eqb_spec d (2 ^ Z.log2 d)) as [E|]; simplify_eq. split; [done|].
  intros ->. done.
Qed.

Lemma mulDiv_bound a b d q :
  0 ≤ a * b → 0 < d → mulDiv_ref a b d = Ok q → q < 2 ^ 256.
Proof.
  unfold mulDiv_ref. intros Hab Hd H.
  destruct (Z.ltb_spec (a * b) (2 ^ 256)) as [Hlt|Hge].
  - rewrite (proj2 (Z.eqb_neq d 0)) in H by lia. simplify_eq.
    eapply Z.le_lt_trans; [apply (Z.div_le_compat_l _ 1 d)|rewrite Z.div_1_r]; lia.
  - destruct (Z.leb_spec d (a * b / 2 ^ 256)) as [|Hgt]; [done|].
    destruct (_ =? _); simplify_eq. apply Z.div_lt_upper_bound; [done|].
    pose proof (Z.mul_succ_div_gt (a * b) (2 ^ 256)).
    assert (a * b < 2 ^ 256 * Z.succ (a * b / 2 ^ 256)) by (apply H; lia). nia.
Qed.

(** Whenever [mulDivRoundingUp] returns, its result is the ceiling of
    [a*b/denominator]: the least [c] with [a*b <= c*denominator], and it is a
    256-bit word. *)
Theorem mulDivRoundingUp_ceil (a b d c : Z) :
  u256 a → u256 b → u256 d → mulDivRoundingUp a b d = Ok c →
  (c - 1) * d < a * b ≤ c * d ∧ 0 ≤ c < 2 ^ 256.
Proof.
  intros Ha Hb Hd H. unfold mulDivRoundingUp in H.
  rewrite mulDiv_ref_eq in H by done. apply bind_Ok in H as (q & Hq & H).
  apply mulDiv_ref_Ok in Hq as Hq'. destruct Hq' as [-> Hd0].
  assert (0 ≤ a * b) as Hab by (destruct Ha, Hb; nia).
  assert (0 < d) as Hdp by (destruct Hd; lia).
  assert (a * b / d < 2 ^ 256) as Hlt.
  { apply (mulDiv_bound a b d) in Hq; done. }
  unfold Evm.mulmod in H. rewrite (proj2 (Z.eqb_neq d 0)) in H by done.
  pose proof (Z.div_mod (a * b) d Hd0). pose proof (Z.mod_pos_bound (a * b) d Hdp).
  pose proof (Z.div_pos (a * b) d Hab Hdp).
  destruct (Z.ltb_spec 0 ((a * b) mod d)); inv_res; guards.
  - apply cadd_Ok in H as [-> ?]. split; [nia|lia].
  - split; [nia|lia].
Qed.

Lemma mulDivRoundingUp_ceil_witness :
  (u256 7 ∧ u256 3 ∧ u256 2 ∧ mulDivRoundingUp 7 3 2 = Ok 11) ∧ (11 - 1) * 2 < 7 * 3 ≤ 11 * 2.
Proof.
  split; [by vm_compute|].
  apply (mulDivRoundingUp_ceil 7 3 2 11); by vm_compute.
Defined.
