(* ===== verification/Base64URL.v ===== *)
(** Base64URL (contracts/enclave-smart-account/utils/Base64URL.sol) over
    OpenZeppelin's Base64 (in P256SmartAccountFactory_Flattened.sol).  The
    account puts the encoded user-operation hash into the WebAuthn
    [clientDataJSON], so the encoding must lose nothing. *)
From S2P Require Import Prelude Bytes.
From Stdlib Require Import Ascii.
#[local] Open Scope Z_scope.

(** ** Base64.encode *)

Definition _TABLE : bytes :=
  str_bytes "ABCDEFGHIJKLMNOPQRSTUVWXYZabcdefghijklmnopqrstuvwxyz0123456789+/".

(** [mload(add(tablePtr, and(x, 0x3F)))], low byte *)
Definition table_char (x : Z) : Z := nth (Z.to_nat (Z.land x 0x3F)) _TABLE 0.

(** One iteration: the low 24 bits of [input] as four characters. *)
Definition quad (input : Z) : bytes :=
  [table_char (Z.shiftr input 18); table_char (Z.shiftr input 12);
   table_char (Z.shiftr input 6); table_char input].

Definition chunk (b0 b1 b2 : Z) : Z := b0 * 65536 + b1 * 256 + b2.

(** The loop over 3-byte chunks; bytes after the end of the data read as 0
    (the cached-and-cleared word at [afterPtr]). *)
Fixpoint encode_loop (data : bytes) : bytes :=
  match data with
  | [] => []
  | b0 :: data1 =>
      match data1 with
      | [] => quad (chunk b0 0 0)
      | b1 :: data2 =>
          match data2 with
          | [] => quad (chunk b0 b1 0)
          | b2 :: data3 => quad (chunk b0 b1 b2) ++ encode_loop data3
          end
      end
  end.

Definition equals_sign : Z := 0x3d.

(** The final [switch mod(mload(data), 3)]: overwrite the last characters. *)
Definition encode_padding (n : nat) (result : bytes) : bytes :=
  match (n mod 3)%nat with
  | 1%nat => take (length result - 2) result ++ [equals_sign; equals_sign]
  | 2%nat => take (length result - 1) result ++ [equals_sign]
  | _ => result
  end.

Definition base64_encode (data : bytes) : bytes :=
  if (length data =? 0)%nat then [] else encode_padding (length data) (encode_loop data).

(** ** Base64URL.encode *)

Definition url_char (c : Z) : Z :=
  if c =? ascii_z "+"%char then ascii_z "-"%char
  else if c =? ascii_z "/"%char then ascii_z "_"%char
  else c.

Definition equalsCount (b64 : bytes) : nat :=
  let n := length b64 in
  if (2 <? n)%nat && (nth (n - 2) b64 0 =? equals_sign) then 2
  else if (1 <? n)%nat && (nth (n - 1) b64 0 =? equals_sign) then 1
  else 0.

Definition encode (data : bytes) : bytes :=
  let b64 := base64_encode data in
  let len := (length b64 - equalsCount b64)%nat in
  url_char <$> take len b64.

(** ** Reference: unpadded base64url decoding (RFC 4648, section 5) *)

Definition char_val (c : Z) : option Z :=
  if (65 <=? c) && (c <=? 90) then Some (c - 65)
  else if (97 <=? c) && (c <=? 122) then Some (c - 71)
  else if (48 <=? c) && (c <=? 57) then Some (c + 4)
  else if c =? 45 then Some 62
  else if c =? 95 then Some 63
  else None.

Fixpoint decode_vals (vs : list Z) : option bytes :=
  match vs with
  | [] => Some []
  | [a; b] => Some [a * 4 + b / 16]
  | [a; b; c] => Some [a * 4 + b / 16; (b mod 16) * 16 + c / 4]
  | a :: b :: c :: d :: rest =>
      app [a * 4 + b / 16; (b mod 16) * 16 + c / 4; (c mod 4) * 64 + d] <$> decode_vals rest
  | _ => None
  end.

Definition decode (cs : bytes) : option bytes :=
  mapM char_val cs ≫= decode_vals.

(** ** The reference encoder: unpadded 6-bit groups *)

Fixpoint groups (data : bytes) : list Z :=
  match data with
  | [] => []
  | [b0] => [b0 / 4; (b0 mod 4) * 16]
  | [b0; b1] => [b0 / 4; (b0 mod 4) * 16 + b1 / 16; (b1 mod 16) * 4]
  | b0 :: b1 :: b2 :: rest =>
      [b0 / 4; (b0 mod 4) * 16 + b1 / 16; (b1 mod 16) * 4 + b2 / 64; b2 mod 64] ++ groups rest
  end.

(** Induction three bytes at a time. *)
Lemma bytes3_ind (P : bytes → Prop) :
  P [] → (∀ a, P [a]) → (∀ a b, P [a; b]) →
  (∀ a b c l, P l → P (a :: b :: c :: l)) → ∀ l, P l.
Proof.
  intros H0 H1 H2 H3 l.
  induction (length l) as [n IH] eqn:E using (well_founded_induction lt_wf) in l |- *.
  destruct l as [|a [|b [|c l]]]; auto. apply H3. eapply IH; [|done]. subst n. cbn. lia.
Qed.

Definition alphabet_index (i : Z) : Z := nth (Z.to_nat i) _TABLE 0.

Lemma land63 x : Z.land x 63 = x mod 64.
Proof. change 63 with (Z.ones 6). by rewrite Z.land_ones. Qed.

Lemma byte_range b : uint 8 b → 0 ≤ b < 256.
Proof. done. Qed.

Lemma quad_groups b0 b1 b2 :
  uint 8 b0 → uint 8 b1 → uint 8 b2 →
  quad (chunk b0 b1 b2) =
    [alphabet_index (b0 / 4); alphabet_index ((b0 mod 4) * 16 + b1 / 16);
     alphabet_index ((b1 mod 16) * 4 + b2 / 64); alphabet_index (b2 mod 64)].
Proof.
  intros H0%byte_range H1%byte_range H2%byte_range.
  unfold quad, table_char, alphabet_index, chunk. rewrite !land63, !Z.shiftr_div_pow2 by lia.
  change (2 ^ 18) with 262144. change (2 ^ 12) with 4096. change (2 ^ 6) with 64.
  set (x := b0 * 65536 + b1 * 256 + b2).
  assert ((x / 262144) mod 64 = b0 / 4) as -> by (subst x; Z.div_mod_to_equations; lia).
  assert ((x / 4096) mod 64 = (b0 mod 4) * 16 + b1 / 16) as ->
    by (subst x; Z.div_mod_to_equations; lia).
  assert ((x / 64) mod 64 = (b1 mod 16) * 4 + b2 / 64) as ->
    by (subst x; Z.div_mod_to_equations; lia).
  assert (x mod 64 = b2 mod 64) as -> by (subst x; Z.div_mod_to_equations; lia).
  done.
Qed.

Lemma groups_range data : is_bytes data → Forall (λ v, 0 ≤ v < 64) (groups data).
Proof.
  unfold is_bytes.
  induction data as [|a|a b|a b c l IH] using bytes3_ind; intros H; cbn -[Z.mul Z.div Z.modulo];
    repeat match goal with
    | H : Forall _ (_ :: _) |- _ => apply Forall_cons in H as [?%byte_range H]
    | |- Forall _ (_ :: _) => apply Forall_cons; split
    end; try (Z.div_mod_to_equations; lia); auto.
Qed.

Lemma char_val_alphabet v :
  0 ≤ v < 64 → char_val (url_char (alphabet_index v)) = Some v ∧ alphabet_index v ≠ equals_sign.
Proof.
  intros Hv.
  assert (Forall (λ v, char_val (url_char (alphabet_index v)) = Some v
                       ∧ alphabet_index v ≠ equals_sign) (seqZ 0 64)) as HF.
  { apply (bool_decide_unpack _). vm_compute. done. }
  rewrite Forall_forall in HF. apply HF, elem_of_seqZ. lia.
Qed.

Lemma decode_vals_groups data : is_bytes data → decode_vals (groups data) = Some data.
Proof.
  induction data as [|a|a b|a b c l IH] using bytes3_ind; intros H; cbn -[Z.mul Z.div Z.modulo].
  - done.
  - apply Forall_cons in H as [H%byte_range _]. f_equal. f_equal. Z.div_mod_to_equations; lia.
  - apply Forall_cons in H as [Ha%byte_range [Hb%byte_range _]%Forall_cons].
    do 2 f_equal; [|f_equal]; Z.div_mod_to_equations; lia.
  - apply Forall_cons in H as [Ha%byte_range [Hb%byte_range [Hc%byte_range H]%Forall_cons]%Forall_cons].
    rewrite IH by done. cbn -[Z.mul Z.div Z.modulo].
    do 2 f_equal; [|f_equal; [|f_equal]]; Z.div_mod_to_equations; lia.
Qed.

Definition pad_count (n : nat) : nat :=
  match (n mod 3)%nat with 1%nat => 2 | 2%nat => 1 | _ => 0 end.

Lemma pad_count_step n : pad_count (S (S (S n))) = pad_count n.
Proof. unfold pad_count. replace (S (S (S n))) with (n + 1 * 3)%nat by lia. by rewrite Nat.Div0.mod_add. Qed.

Lemma encode_loop_groups data :
  is_bytes data → ∃ pad, length pad = pad_count (length data) ∧
  encode_loop data = (alphabet_index <$> groups data) ++ pad.
Proof.
  unfold is_bytes.
  induction data as [|a|a b|a b c l IH] using bytes3_ind; intros H;
    repeat match goal with H : Forall _ (_ :: _) |- _ => apply Forall_cons in H as [? H] end.
  - by exists [].
  - cbn [encode_loop]. rewrite quad_groups by done. change (0 / 16) with 0. rewrite Z.add_0_r.
    by eexists [_; _].
  - cbn [encode_loop]. rewrite quad_groups by done. change (0 / 64) with 0. rewrite Z.add_0_r.
    by eexists [_].
  - destruct (IH H) as (pad & Hlen & IHe). exists pad. split.
    + rewrite Hlen. cbn [length]. by rewrite pad_count_step.
    + cbn [encode_loop]. by rewrite quad_groups, IHe by done.
Qed.

Lemma base64_encode_groups data :
  is_bytes data →
  base64_encode data =
    (alphabet_index <$> groups data) ++ replicate (pad_count (length data)) equals_sign.
Proof.
  intros H. destruct (encode_loop_groups data H) as (pad & Hlen & E).
  unfold base64_encode, encode_padding. rewrite E, length_app, Hlen.
  destruct (Nat.eqb_spec (length data) 0) as [Hz|_]; [by destruct data|].
  unfold pad_count in *.
  destruct (length data mod 3)%nat as [|[|[|]]]; cbn [replicate];
    rewrite ?Nat.add_sub, ?take_app_length; try done;
    destruct pad; by rewrite ?app_nil_r.
Qed.

Lemma length_groups_ge data : data ≠ [] → (2 ≤ length (groups data))%nat.
Proof. destruct data as [|a [|b [|c l]]]; cbn; intros; [done|lia..]. Qed.

Lemma nth_app_alphabet data i pad :
  is_bytes data → (i < length (groups data))%nat →
  nth i ((alphabet_index <$> groups data) ++ pad) 0 ≠ equals_sign.
Proof.
  intros H Hi. rewrite app_nth1 by (by rewrite length_fmap).
  destruct (lookup_lt_is_Some_2 (groups data) i Hi) as [v Hv].
  rewrite (nth_lookup_Some _ _ _ (alphabet_index v)).
  - apply char_val_alphabet. eapply (Forall_lookup_1 _ _ _ _ (groups_range data H) Hv).
  - by rewrite list_lookup_fmap, Hv.
Qed.

Lemma equalsCount_base64 data :
  is_bytes data → equalsCount (base64_encode data) = pad_count (length data).
Proof.
  intros H. rewrite base64_encode_groups by done. unfold equalsCount.
  rewrite length_app, length_fmap, length_replicate.
  destruct (decide (data = [])) as [->|Hne]; [done|].
  pose proof (length_groups_ge data Hne) as Hg.
  pose proof (nth_app_alphabet data) as Halpha.
  assert (pad_count (length data) = 0 ∨ pad_count (length data) = 1 ∨ pad_count (length data) = 2)%nat
    as Hc by (unfold pad_count; destruct (length data mod 3)%nat as [|[|[|]]]; auto).
  destruct Hc as [-> | [-> | ->]]; cbn [replicate].
  - rewrite !(proj2 (Z.eqb_neq _ _)) by (apply Halpha; [done|lia]). by rewrite !andb_false_r.
  - rewrite (proj2 (Z.eqb_neq _ _)) by (apply Halpha; [done|lia]). rewrite andb_false_r.
    rewrite app_nth2 by (rewrite length_fmap; lia). rewrite length_fmap.
    replace (length (groups data) + 1 - 1 - length (groups data))%nat with 0%nat by lia. cbn [nth].
    by rewrite Z.eqb_refl, (proj2 (Nat.ltb_lt _ _)) by lia.
  - rewrite app_nth2 by (rewrite length_fmap; lia). rewrite length_fmap.
    replace (length (groups data) + 2 - 2 - length (groups data))%nat with 0%nat by lia. cbn [nth].
    by rewrite Z.eqb_refl, (proj2 (Nat.ltb_lt _ _)) by lia.
Qed.

Lemma encode_groups data :
  is_bytes data → encode data = (url_char ∘ alphabet_index) <$> groups data.
Proof.
  intros H. unfold encode. rewrite equalsCount_base64, base64_encode_groups by done.
  rewrite length_app, length_fmap, length_replicate, Nat.add_sub.
  rewrite take_app_length' by (by rewrite length_fmap). by rewrite list_fmap_compose.
Qed.

Lemma decode_encode_bytes data : is_bytes data → decode (encode data) = Some data.
Proof.
  intros H. rewrite encode_groups by done. unfold decode.
  rewrite <- (decode_vals_groups data H). pose proof (groups_range data H) as HR.
  assert (mapM char_val ((url_char ∘ alphabet_index) <$> groups data) = Some (groups data)) as ->; [|done].
  apply mapM_Some_2, Forall2_fmap_l, Forall_Forall2_diag.
  eapply Forall_impl; [exact HR|]. intros v Hv. by apply char_val_alphabet.
Qed.
Lemma encode_inj data data' : is_bytes data → is_bytes data' → encode data = encode data' → data = data'.
Proof. intros H H' E%(f_equal decode). rewrite !decode_encode_bytes in E by done. congruence. Qed.

(** C15: Base64URL is lossless: decoding the contract's output with the
    standard unpadded base64url decoder gives back the input bytes, for every
    input. *)
Theorem base64url_roundtrip (data : bytes) :
  is_bytes data → decode (encode data) = Some data.
Proof. apply decode_encode_bytes. Qed.

Lemma base64url_roundtrip_witness :
  is_bytes [255; 254; 0; 251] ∧ encode [255; 254; 0; 251] = str_bytes "__4A-w" ∧
  decode (encode [255; 254; 0; 251]) = Some [255; 254; 0; 251].
Proof.
  assert (is_bytes [255; 254; 0; 251]) as H by (apply (bool_decide_unpack _); by vm_compute).
  split; [exact H|split; [by vm_compute|]]. exact (base64url_roundtrip _ H).
Defined.

Lemma length_encode data : is_bytes data → length (encode data) = length (groups data).
Proof. intros H. by rewrite encode_groups, length_fmap. Qed.

(** The challenge of a 32-byte hash has 43 characters. *)
Lemma length_groups data : Z.of_nat (length (groups data)) = (4 * Z.of_nat (length data) + 2) / 3.
Proof.
  induction data as [|a|a b|a b c l IH] using bytes3_ind; [done..|].
  cbn [groups length app]. Z.div_mod_to_equations. lia.
Qed.
