(* ===== verification/OzStrings.v ===== *)
(** Decimal strings: Strings.toString and Math.log10 of OpenZeppelin 4.9.6
    (P256SmartAccountFactory_Flattened.sol), which ECDSA prefixes messages with. *)
From S2P Require Import Prelude Bytes.

Module Math.
(** [unchecked]; the sums stay below 128. *)
Definition log10 (value : Z) : Z :=
  let result := 0 in
  let '(value, result) := if 10 ^ 64 <=? value then (value / 10 ^ 64, result + 64) else (value, result) in
  let '(value, result) := if 10 ^ 32 <=? value then (value / 10 ^ 32, result + 32) else (value, result) in
  let '(value, result) := if 10 ^ 16 <=? value then (value / 10 ^ 16, result + 16) else (value, result) in
  let '(value, result) := if 10 ^ 8 <=? value then (value / 10 ^ 8, result + 8) else (value, result) in
  let '(value, result) := if 10 ^ 4 <=? value then (value / 10 ^ 4, result + 4) else (value, result) in
  let '(value, result) := if 10 ^ 2 <=? value then (value / 10 ^ 2, result + 2) else (value, result) in
  if 10 ^ 1 <=? value then result + 1 else result.
End Math.

Module Strings.
Definition _SYMBOLS : bytes := str_bytes "0123456789abcdef".

(** [mstore8] at an offset of the buffer; elsewhere it leaves the buffer alone. *)
Definition mstore8 (ptr c : Z) (buffer : bytes) : bytes :=
  if 0 <=? ptr then <[Z.to_nat ptr := c]> buffer else buffer.

(** The loop; [ptr] is an offset into the buffer's data.  A word has at most 78
    decimal digits. *)
Definition toString_body (s : Z * Z * bytes) : res (flow (Z * Z * bytes)) :=
  let '(ptr, value, buffer) := s in
  let ptr := ptr - 1 in
  let buffer := mstore8 ptr (nth (Z.to_nat (value mod 10)) _SYMBOLS 0) buffer in
  let value := value / 10 in
  Ok ((if value =? 0 then Break else Next) (ptr, value, buffer)).
Definition toString (value : Z) : res bytes :=
  let length := Math.log10 value + 1 in
  let buffer := replicate (Z.to_nat length) 0 in
  '(_, _, buffer) ← while 78 (λ _, true) toString_body (length, value, buffer);
  Ok buffer.
End Strings.

(** ** log10 *)

(** What the halving steps keep: the value left is the input shifted right by
    [r] digits and has at most [k] of them. *)
Definition log_state (V k : Z) (vr : Z * Z) : Prop :=
  0 ≤ vr.2 ∧ vr.1 = V / 10 ^ vr.2 ∧ 1 ≤ vr.1 < 10 ^ k.

Lemma log_step V k vr :
  0 < k → log_state V (2 * k) vr →
  log_state V k (if 10 ^ k <=? vr.1 then (vr.1 / 10 ^ k, vr.2 + k) else vr).
Proof.
  intros Hk (Hr & Ev & H1 & H2). pose proof (Z.pow_pos_nonneg 10 k ltac:(lia) ltac:(lia)).
  destruct (Z.leb_spec (10 ^ k) vr.1); unfold log_state; cbn [fst snd].
  - split; [lia|]. split; [rewrite Ev, Z.pow_add_r, Z.div_div by (try apply Z.pow_pos_nonneg; lia); done|]. split.
    + apply Z.div_le_lower_bound; lia.
    + apply Z.div_lt_upper_bound; [lia|]. replace (10 ^ k * 10 ^ k) with (10 ^ (2 * k)); [done|].
      rewrite <- Z.pow_add_r by lia. f_equal. lia.
  - done.
Qed.

Definition log10_steps (V : Z) : Z * Z :=
  foldl (λ vr k, if 10 ^ k <=? vr.1 then (vr.1 / 10 ^ k, vr.2 + k) else vr) (V, 0) [64; 32; 16; 8; 4; 2; 1].
Lemma log10_steps_eq V : Math.log10 V = (log10_steps V).2.
Proof.
  unfold Math.log10, log10_steps. cbn [foldl fst snd].
  repeat (case_match; cbn [fst snd] in *; simplify_eq; try done).
Qed.

Lemma log10_bounds V : 1 ≤ V < 2 ^ 256 → 0 ≤ Math.log10 V ∧ 10 ^ Math.log10 V ≤ V < 10 ^ (Math.log10 V + 1).
Proof.
  intros HV. rewrite log10_steps_eq.
  assert (log_state V 1 (log10_steps V)) as (Hr & Ev & H1 & H2).
  { unfold log10_steps. cbn [foldl]. repeat (apply log_step; [lia|]; cbn [Z.mul Pos.mul]).
    unfold log_state. cbn [fst snd]. rewrite Z.div_1_r. split; [lia|]. split; [done|]. lia. }
  split; [done|]. set (r := (log10_steps V).2) in *. pose proof (Z.pow_pos_nonneg 10 r ltac:(lia) Hr).
  rewrite Z.pow_add_r by lia. change (10 ^ 1) with 10 in *. rewrite Ev in H1, H2. split.
  - pose proof (Z.mul_div_le V (10 ^ r) ltac:(lia)). nia.
  - pose proof (Z.mul_succ_div_gt V (10 ^ r) ltac:(lia)). nia.
Qed.

(** ** Decimal notation *)

Fixpoint decimal (n : nat) (z : Z) : bytes :=
  match n with
  | O => []
  | S m => decimal m (z / 10) ++ [48 + z mod 10]
  end.
Definition decimal_val (bs : bytes) : Z := foldl (λ acc b, acc * 10 + (b - 48)) 0 bs.

Lemma decimal_val_decimal n z : 0 ≤ z < 10 ^ Z.of_nat n → decimal_val (decimal n z) = z.
Proof.
  revert z. induction n as [|n IH]; intros z Hz; [cbn in *; lia|].
  cbn [decimal]. unfold decimal_val in *. rewrite foldl_app. cbn [foldl].
  rewrite Nat2Z.inj_succ, Z.pow_succ_r in Hz by lia.
  rewrite IH; [pose proof (Z.div_mod z 10); lia|]. split; [apply Z.div_pos; lia|]. apply Z.div_lt_upper_bound; lia.
Qed.

Lemma symbol_digit d : 0 ≤ d < 10 → nth (Z.to_nat d) Strings._SYMBOLS 0 = 48 + d.
Proof.
  intros Hd. assert (d = 0 ∨ d = 1 ∨ d = 2 ∨ d = 3 ∨ d = 4 ∨ d = 5 ∨ d = 6 ∨ d = 7 ∨ d = 8 ∨ d = 9) as E by lia.
  repeat (destruct E as [->|E]; [by vm_compute|]). subst d. by vm_compute.
Qed.

(** The digits of [v]: exactly [j] of them. *)
Definition has_digits (j : nat) (v : Z) : Prop := 0 ≤ v < 10 ^ Z.of_nat j ∧ (j = 1%nat ∨ 10 ^ (Z.of_nat j - 1) ≤ v).

Lemma toString_body_eq j v tail :
  Strings.toString_body (Z.of_nat (S j), v, replicate (S j) 0 ++ tail) =
    Ok ((if v / 10 =? 0 then Break else Next) (Z.of_nat j, v / 10, replicate j 0 ++ (48 + v mod 10) :: tail)).
Proof.
  unfold Strings.toString_body, Strings.mstore8. rewrite Nat2Z.inj_succ.
  replace (Z.succ (Z.of_nat j) - 1) with (Z.of_nat j) by lia. rewrite (proj2 (Z.leb_le 0 _)) by lia.
  rewrite Nat2Z.id, symbol_digit by (apply Z.mod_pos_bound; lia).
  rewrite replicate_S_end, <- app_assoc. cbn [app].
  by rewrite (insert_app_r_alt _ _ j), length_replicate, Nat.sub_diag by (rewrite length_replicate; lia).
Qed.

Lemma toString_loop j fuel v tail :
  (0 < j)%nat → (j ≤ fuel)%nat → has_digits j v →
  ∃ p v', while fuel (λ _, true) Strings.toString_body (Z.of_nat j, v, replicate j 0 ++ tail)
    = Ok (p, v', decimal j v ++ tail).
Proof.
  revert fuel v tail. induction j as [|j IH]; intros fuel v tail Hj Hf [Hv Hd]; [lia|].
  destruct fuel as [|fuel]; [lia|]. rewrite while_S, toString_body_eq, Ok_bind. cbn [decimal].
  rewrite <- app_assoc. cbn [app]. rewrite Nat2Z.inj_succ in *. destruct (decide (j = 0%nat)) as [->|Hne].
  - change (10 ^ Z.succ (Z.of_nat 0)) with 10 in Hv. rewrite (Z.div_small v) by lia. cbn. eauto.
  - destruct Hd as [?|Hd]; [lia|]. replace (Z.succ (Z.of_nat j) - 1) with (Z.succ (Z.of_nat j - 1)) in Hd by lia.
    rewrite Z.pow_succ_r in Hv, Hd by lia. pose proof (Z.pow_pos_nonneg 10 (Z.of_nat j - 1) ltac:(lia) ltac:(lia)).
    assert (10 ^ (Z.of_nat j - 1) ≤ v / 10) as Hq by (apply Z.div_le_lower_bound; lia).
    rewrite (proj2 (Z.eqb_neq (v / 10) 0)) by lia. apply IH; [lia|lia|].
    split; [split; [lia|apply Z.div_lt_upper_bound; lia]|by right].
Qed.

Lemma digits_count v : u256 v → has_digits (Z.to_nat (Math.log10 v + 1)) v ∧ (Z.to_nat (Math.log10 v + 1) ≤ 78)%nat.
Proof.
  intros [Hv1 Hv2]. destruct (decide (v = 0)) as [->|Hne].
  { split; [split; [by vm_compute|by left]|]. vm_compute. lia. }
  destruct (log10_bounds v) as (Hr & Hlo & Hhi); [lia|]. set (r := Math.log10 v) in *.
  unfold has_digits. rewrite Z2Nat.id by lia. split; [split; [lia|right; by replace (r + 1 - 1) with r by lia]|].
  assert (r < 78); [|lia]. apply (Z.pow_lt_mono_r_iff 10); [lia..|]. eapply Z.le_lt_trans; [exact Hlo|].
  eapply Z.lt_trans; [exact Hv2|]. by vm_compute.
Qed.

Lemma log10_nonneg v : u256 v → 0 ≤ Math.log10 v.
Proof.
  unfold uint. intros Hv. destruct (decide (v = 0)) as [->|]; [by vm_compute|]. apply log10_bounds. lia.
Qed.

Lemma toString_ok v : u256 v → Strings.toString v = Ok (decimal (Z.to_nat (Math.log10 v + 1)) v).
Proof.
  intros Hv. destruct (digits_count v Hv) as [Hd Hn]. unfold Strings.toString. cbv zeta.
  set (j := Z.to_nat (Math.log10 v + 1)) in *.
  pose proof (log10_nonneg v Hv).
  replace (Math.log10 v + 1) with (Z.of_nat j) by (subst j; lia).
  destruct (toString_loop j 78 v [] ltac:(lia) Hn Hd) as (p & v' & E).
  rewrite !app_nil_r in E. by rewrite E, Ok_bind.
Qed.

Lemma length_decimal n z : length (decimal n z) = n.
Proof. revert z. induction n as [|n IH]; intros z; [done|]. cbn. rewrite length_app, IH. cbn. lia. Qed.
Lemma head_decimal n z : head (decimal (S n) z) = Some (48 + (z / 10 ^ Z.of_nat n) mod 10).
Proof.
  revert z. induction n as [|n IH]; intros z; [by rewrite Z.div_1_r|].
  change (decimal (S (S n)) z) with (decimal (S n) (z / 10) ++ [48 + z mod 10]).
  rewrite head_app, IH by done. rewrite Z.div_div by (try apply Z.pow_pos_nonneg; lia).
  by rewrite Nat2Z.inj_succ, Z.pow_succ_r by lia.
Qed.
Lemma decimal_head j v : has_digits j v → (0 < j)%nat → decimal j v = [48] ∨ head (decimal j v) ≠ Some 48.
Proof.
  intros [Hv Hd] Hj. destruct j as [|j]; [lia|]. rewrite head_decimal.
  destruct (decide (j = 0%nat ∧ v = 0)) as [[-> ->]|Hne]; [by left|]. right. intros [= E].
  pose proof (Z.pow_pos_nonneg 10 (Z.of_nat j) ltac:(lia) ltac:(lia)).
  rewrite Nat2Z.inj_succ, Z.pow_succ_r in Hv by lia.
  assert (10 ^ Z.of_nat j ≤ v) as Hlo.
  { destruct Hd as [Hd|Hd]; [replace j with 0%nat in * by lia; change (10 ^ Z.of_nat 0) with 1; lia|].
    by replace (Z.of_nat (S j) - 1) with (Z.of_nat j) in Hd by lia. }
  assert (1 ≤ v / 10 ^ Z.of_nat j) by (apply Z.div_le_lower_bound; lia).
  assert (v / 10 ^ Z.of_nat j < 10) by (apply Z.div_lt_upper_bound; lia).
  rewrite Z.mod_small in E by lia. lia.
Qed.

(** C30: Strings.toString prints every 256-bit number in decimal: it returns
    (log10 allocates exactly the digits the loop writes), the digits' value is
    the number, and there is no leading zero except for 0 itself. *)
Theorem toString_roundtrip (v : Z) :
  u256 v → ∃ bs, Strings.toString v = Ok bs ∧ decimal_val bs = v ∧
    Z.of_nat (length bs) = Math.log10 v + 1 ∧ (bs = [48] ∨ head bs ≠ Some 48).
Proof.
  intros Hv. rewrite toString_ok by done. eexists. split; [done|].
  destruct (digits_count v Hv) as [Hd _]. pose proof (log10_nonneg v Hv).
  split; [apply decimal_val_decimal, Hd|]. rewrite length_decimal. split; [lia|].
  apply decimal_head; [done|lia].
Qed.
Lemma toString_roundtrip_witness :
  Strings.toString 4096 = Ok (str_bytes "4096") ∧
  ∃ bs, Strings.toString 4096 = Ok bs ∧ decimal_val bs = 4096 ∧
    Z.of_nat (length bs) = Math.log10 4096 + 1 ∧ (bs = [48] ∨ head bs ≠ Some 48).
Proof. split; [by vm_compute|]. apply (toString_roundtrip 4096). unfold uint. lia. Defined.
