(* ===== verification/UserOperation.v ===== *)
(** ERC-4337 plumbing the accounts and paymasters are built on, translated from
    P256SmartAccountFactory_Flattened.sol: the UserOperation struct and its
    library, the validation-data helpers, and OpenZeppelin's ECDSA recovery.
    The EVM's [keccak256] and [ecrecover] are parameters. *)
From S2P Require Import Prelude Bytes OzStrings.

(** The EVM primitives the contracts call; nothing is assumed of them beyond
    their ranges. *)
Class EvmCrypto := {
  keccak256 : bytes → Z;
  keccak256_range : ∀ bs, u256 (keccak256 bs);
  ecrecover : Z → Z → Z → Z → address      (* hash, v, r, s *)
}.

Record UserOperation := {
  sender : address;
  nonce : Z;
  initCode : bytes;
  callData : bytes;
  callGasLimit : Z;
  verificationGasLimit : Z;
  preVerificationGas : Z;
  maxFeePerGas : Z;
  maxPriorityFeePerGas : Z;
  paymasterAndData : bytes;
  signature : bytes
}.

(** The ranges the struct's types impose. *)
Definition wf_op (u : UserOperation) : Prop :=
  uint 160 (sender u) ∧ u256 (nonce u) ∧ u256 (callGasLimit u) ∧
  u256 (verificationGasLimit u) ∧ u256 (preVerificationGas u) ∧
  u256 (maxFeePerGas u) ∧ u256 (maxPriorityFeePerGas u) ∧
  is_bytes (paymasterAndData u).
#[global] Instance wf_op_dec u : Decision (wf_op u).
Proof. unfold wf_op, is_bytes. apply _. Defined.

(** The assembly copies the bytes to free memory and hashes them there. *)
Definition calldataKeccak `{EvmCrypto} (data : bytes) : Z := keccak256 data.

Module UserOperationLib.
(** The struct's first word; the record holds it as an address. *)
Definition getSender (u : UserOperation) : address := sender u.

Section lib.
Context `{EvmCrypto}.

Definition pack (u : UserOperation) : bytes :=
  abi_words [getSender u; nonce u; calldataKeccak (initCode u); calldataKeccak (callData u);
    callGasLimit u; verificationGasLimit u; preVerificationGas u;
    maxFeePerGas u; maxPriorityFeePerGas u; calldataKeccak (paymasterAndData u)].

Definition hash (u : UserOperation) : Z := keccak256 (pack u).
End lib.

Definition min (a b : Z) : Z := if a <? b then a else b.

(** [unchecked]: the sum wraps. *)
Definition gasPrice (basefee : Z) (u : UserOperation) : Z :=
  if maxFeePerGas u =? maxPriorityFeePerGas u then maxFeePerGas u
  else min (maxFeePerGas u) (Evm.add (maxPriorityFeePerGas u) basefee).

(** The price charged for an operation never exceeds the maxFeePerGas its
    sender signed, whatever the base fee and even where the unchecked sum of
    priority fee and base fee wraps; without wrapping it is the EIP-1559 price
    unless both fees are equal (legacy mode). *)
Theorem gasPrice_bounded (basefee : Z) (u : UserOperation) :
  gasPrice basefee u ≤ maxFeePerGas u ∧
  (maxFeePerGas u ≠ maxPriorityFeePerGas u → u256 (maxPriorityFeePerGas u + basefee) →
   gasPrice basefee u = Z.min (maxFeePerGas u) (maxPriorityFeePerGas u + basefee)).
Proof.
  unfold gasPrice, min. destruct (Z.eqb_spec (maxFeePerGas u) (maxPriorityFeePerGas u)); [split; [lia|done]|].
  split; [destruct (Z.ltb_spec (maxFeePerGas u) (Evm.add (maxPriorityFeePerGas u) basefee)); lia|].
  intros _ Hs. unfold Evm.add. rewrite wrap_small by done. destruct (Z.ltb_spec (maxFeePerGas u) (maxPriorityFeePerGas u + basefee)); lia.
Qed.
End UserOperationLib.

(** ** Validation data (Helpers.sol) *)

Record ValidationData := {
  aggregator : address;
  validAfter : Z;
  validUntil : Z
}.

Definition uint48_max : Z := 2 ^ 48 - 1.

Definition _parseValidationData (validationData : Z) : ValidationData :=
  let aggregator := validationData mod 2 ^ 160 in
  let validUntil := Z.shiftr validationData 160 mod 2 ^ 48 in
  let validUntil := if validUntil =? 0 then uint48_max else validUntil in
  let validAfter := Z.shiftr validationData (48 + 160) mod 2 ^ 48 in
  {| aggregator := aggregator; validAfter := validAfter; validUntil := validUntil |}.

Definition _intersectTimeRange (validationData paymasterValidationData : Z) : ValidationData :=
  let acc := _parseValidationData validationData in
  let pm := _parseValidationData paymasterValidationData in
  {| aggregator := if aggregator acc =? zero_address then aggregator pm else aggregator acc;
     validAfter := if validAfter acc <? validAfter pm then validAfter pm else validAfter acc;
     validUntil := if validUntil pm <? validUntil acc then validUntil pm else validUntil acc |}.

Definition _packValidationData (sigFailed : bool) (validUntil validAfter : Z) : Z :=
  Z.lor (Z.lor (if sigFailed then 1 else 0) (Z.shiftl validUntil 160))
        (Z.shiftl validAfter (160 + 48)).

(** The overload that packs the struct. *)
Definition _packValidationData_struct (data : ValidationData) : Z :=
  Z.lor (Z.lor (aggregator data) (Z.shiftl (validUntil data) 160)) (Z.shiftl (validAfter data) (160 + 48)).

(** The packing is a sum of disjoint fields. *)
Lemma lor_disjoint_add w x y : 0 ≤ w → 0 ≤ x < 2 ^ w → Z.lor x (Z.shiftl y w) = x + y * 2 ^ w.
Proof.
  intros Hw Hx. pose proof (Z.add_lor_land x (Z.shiftl y w)) as E.
  assert (Z.land x (Z.shiftl y w) = 0) as E0.
  { apply Z.bits_inj'. intros i Hi. rewrite Z.land_spec, Z.bits_0.
    destruct (decide (i < w)).
    - rewrite Z.shiftl_spec_low by done. apply andb_false_r.
    - by rewrite <- (Z.mod_small x (2 ^ w)), Z.mod_pow2_bits_high by lia. }
  rewrite <- Z.shiftl_mul_pow2 by done. lia.
Qed.

Lemma _packValidationData_sum sf vu va :
  uint 48 vu → _packValidationData sf vu va = b2z sf + vu * 2 ^ 160 + va * 2 ^ 208.
Proof.
  intros Hvu. unfold _packValidationData, uint in *. change (160 + 48) with 208.
  assert (0 ≤ b2z sf < 2 ^ 160) as Hsf by (destruct sf; by vm_compute).
  fold (b2z sf). rewrite (lor_disjoint_add 160) by (done || lia).
  rewrite lor_disjoint_add; [done|lia|].
  change (2 ^ 208) with (2 ^ 48 * 2 ^ 160). nia.
Qed.

Lemma validation_data_word (sf : bool) (vu va : Z) :
  uint 48 vu → uint 48 va →
  _parseValidationData (_packValidationData sf vu va) =
    {| aggregator := b2z sf; validAfter := va;
       validUntil := if vu =? 0 then uint48_max else vu |}.
Proof.
  intros Hvu Hva. rewrite _packValidationData_sum by done.
  unfold _parseValidationData, uint in *. change (48 + 160) with 208.
  rewrite !Z.shiftr_div_pow2 by lia.
  assert (0 ≤ b2z sf < 2 ^ 160) as Hsf by (destruct sf; by vm_compute).
  change (2 ^ 208) with (2 ^ 48 * 2 ^ 160).
  set (A := 2 ^ 160) in *. set (B := 2 ^ 48) in *.
  assert (0 < A ∧ 0 < B) as [HA HB] by done. clearbody A B.
  replace (b2z sf + vu * A + va * (B * A)) with (b2z sf + (vu + va * B) * A) by ring.
  rewrite Z_mod_plus_full, (Z.mod_small (b2z sf)) by done.
  rewrite (Z.mul_comm B A), <- Z.div_div, Z.div_add, (Z.div_small (b2z sf)) by lia.
  rewrite Z.add_0_l, Z_mod_plus_full, (Z.mod_small vu) by done.
  rewrite Z.div_add, (Z.div_small vu), Z.add_0_l, (Z.mod_small va) by lia. done.
Qed.

(** Packing a signature flag and a time window gives a 256-bit word, and
    parsing it back returns the flag as aggregator 0/1 and the same window, with
    [validUntil = 0] read as the maximal timestamp. *)
Theorem validation_data_roundtrip (sf : bool) (vu va : Z) :
  uint 48 vu → uint 48 va →
  u256 (_packValidationData sf vu va) ∧
  _parseValidationData (_packValidationData sf vu va) =
    {| aggregator := b2z sf; validAfter := va;
       validUntil := if vu =? 0 then uint48_max else vu |}.
Proof.
  intros Hvu Hva. split; [|by apply validation_data_word].
  rewrite _packValidationData_sum by done. unfold uint in *.
  assert (0 ≤ b2z sf ≤ 1) by (destruct sf; cbn; lia). lia.
Qed.

Lemma validation_data_roundtrip_witness :
  (uint 48 1700003600 ∧ uint 48 1700000000) ∧
  _parseValidationData (_packValidationData true 1700003600 1700000000) =
    {| aggregator := 1; validAfter := 1700000000; validUntil := 1700003600 |}.
Proof.
  split; [by vm_compute|]. apply (validation_data_roundtrip true 1700003600 1700000000); by vm_compute.
Defined.

Definition in_window (d : ValidationData) (t : Z) : Prop := validAfter d ≤ t ≤ validUntil d.

(** A timestamp is accepted by [_intersectTimeRange] of the account's and
    the paymaster's validation data exactly when both accept it, and the
    combined aggregator is 0 (both signatures valid) exactly when both are. *)
Theorem intersect_time_range_meet (v p t : Z) :
  (in_window (_intersectTimeRange v p) t ↔
     in_window (_parseValidationData v) t ∧ in_window (_parseValidationData p) t) ∧
  (aggregator (_intersectTimeRange v p) = zero_address ↔
     aggregator (_parseValidationData v) = zero_address ∧
     aggregator (_parseValidationData p) = zero_address).
Proof.
  unfold _intersectTimeRange, in_window, zero_address.
  destruct (_parseValidationData v) as [ag1 a1 u1], (_parseValidationData p) as [ag2 a2 u2]. cbn.
  destruct (Z.ltb_spec a1 a2), (Z.ltb_spec u2 u1), (Z.eqb_spec ag1 0); lia.
Qed.

(** ** ECDSA (OpenZeppelin 4.9.6) *)

Module ECDSA.
Inductive RecoverError :=
  NoError | InvalidSignature | InvalidSignatureLength | InvalidSignatureS | InvalidSignatureV.

Definition _throwError (e : RecoverError) : res unit :=
  match e with
  | NoError => Ok tt
  | InvalidSignature => Revert (Error "ECDSA: invalid signature")
  | InvalidSignatureLength => Revert (Error "ECDSA: invalid signature length")
  | InvalidSignatureS => Revert (Error "ECDSA: invalid signature 's' value")
  | InvalidSignatureV => Ok tt
  end.

Definition half_order : Z :=
  0x7FFFFFFFFFFFFFFFFFFFFFFFFFFFFFFF5D576E7357A4501DDFE92F46681B20A0.

Section crypto.
Context `{EvmCrypto}.

Definition tryRecover_vrs (hash v r s : Z) : address * RecoverError :=
  if half_order <? s then (zero_address, InvalidSignatureS)
  else
    let signer := ecrecover hash v r s in
    if addr_eqb signer zero_address then (zero_address, InvalidSignature)
    else (signer, NoError).

Definition tryRecover (hash : Z) (signature : bytes) : address * RecoverError :=
  if (length signature =? 65)%nat then
    let r := be_val (take 32 signature) in
    let s := be_val (take 32 (drop 32 signature)) in
    let v := nth 64 signature 0 in
    tryRecover_vrs hash v r s
  else (zero_address, InvalidSignatureLength).

Definition recover (hash : Z) (signature : bytes) : res address :=
  let '(recovered, error) := tryRecover hash signature in
  _ ← _throwError error;
  Ok recovered.

(** [keccak256] of the 28-byte prefix and the hash *)
Definition eth_prefix : bytes := 25 :: str_bytes "Ethereum Signed Message:" ++ [10; 51; 50].
Definition toEthSignedMessageHash (hash : Z) : Z := keccak256 (eth_prefix ++ word hash).

(** EIP-2098 short signatures: [s] and the parity of [v] in one word.  The sum is
    27 or 28, which [uint8] keeps. *)
Definition tryRecover_rvs (hash r vs : Z) : address * RecoverError :=
  let s := Z.land vs 0x7fffffffffffffffffffffffffffffffffffffffffffffffffffffffffffffff in
  let v := (Z.shiftr vs 255 + 27) mod 256 in
  tryRecover_vrs hash v r s.
Definition recover_rvs (hash r vs : Z) : res address :=
  let '(recovered, error) := tryRecover_rvs hash r vs in
  _ ← _throwError error;
  Ok recovered.
Definition recover_vrs (hash v r s : Z) : res address :=
  let '(recovered, error) := tryRecover_vrs hash v r s in
  _ ← _throwError error;
  Ok recovered.

Definition toEthSignedMessageHash_bytes (s : bytes) : res Z :=
  len ← Strings.toString (Z.of_nat (length s));
  Ok (keccak256 ((25 :: str_bytes "Ethereum Signed Message:" ++ [10]) ++ len ++ s)).
Definition toTypedDataHash (domainSeparator structHash : Z) : Z :=
  keccak256 ([0x19; 0x01] ++ word domainSeparator ++ word structHash).
Definition toDataWithIntendedValidatorHash (validator : address) (data : bytes) : Z :=
  keccak256 ([0x19; 0x00] ++ be_bytes 20 validator ++ data).

Lemma recover_Ok hash sig a :
  recover hash sig = Ok a →
  length sig = 65%nat ∧ a ≠ zero_address ∧ be_val (take 32 (drop 32 sig)) ≤ half_order.
Proof.
  unfold recover, tryRecover. destruct (Nat.eqb_spec (length sig) 65); [|done].
  unfold tryRecover_vrs. destruct (Z.ltb_spec half_order (be_val (take 32 (drop 32 sig)))); [done|].
  destruct (addr_eqb _ _) eqn:E; [done|]. unfold addr_eqb in E. intros. inv_res. guards. auto.
Qed.

Lemma recover_bad_length hash sig :
  length sig ≠ 65%nat → recover hash sig = Revert (Error "ECDSA: invalid signature length").
Proof. intros Hl. unfold recover, tryRecover. by rewrite (proj2 (Nat.eqb_neq _ _) Hl). Qed.

(** The overload for byte strings agrees with the one for hashes. *)
Lemma toEthSignedMessageHash_agree hash :
  toEthSignedMessageHash_bytes (word hash) = Ok (toEthSignedMessageHash hash).
Proof.
  unfold toEthSignedMessageHash_bytes, toEthSignedMessageHash, eth_prefix. rewrite length_word.
  assert (Strings.toString (Z.of_nat 32) = Ok [51; 50]) as -> by (by vm_compute). rewrite Ok_bind.
  by rewrite <- !app_comm_cons, <- !app_assoc.
Qed.

Lemma short_fields v s :
  0 ≤ s < 2 ^ 255 → v = 27 ∨ v = 28 →
  Z.land (s + (v - 27) * 2 ^ 255) 0x7fffffffffffffffffffffffffffffffffffffffffffffffffffffffffffffff = s ∧
  (Z.shiftr (s + (v - 27) * 2 ^ 255) 255 + 27) mod 256 = v.
Proof.
  intros Hs Hv. change 0x7fffffffffffffffffffffffffffffffffffffffffffffffffffffffffffffff with (Z.ones 255).
  rewrite Z.land_ones, Z.shiftr_div_pow2, Z_mod_plus_full, Z.mod_small by lia.
  rewrite Z.div_add, Z.div_small by lia. split; [done|]. destruct Hv as [-> | ->]; done.
Qed.

(** The two encodings of a signature recover the same signer: for the 65
    bytes (r, s, v) with v 27 or 28, recovery from the EIP-2098 words r and
    s + (v - 27) 2^255 gives the same address or the same error, and recovery
    with an s in the upper half order fails in both. *)
Theorem short_signature_agrees (hash v r s : Z) :
  u256 r → 0 ≤ s < 2 ^ 255 → v = 27 ∨ v = 28 →
  let sig := word r ++ word s ++ [v] in
  recover_rvs hash r (s + (v - 27) * 2 ^ 255) = recover hash sig ∧
  (half_order < s → recover hash sig = Revert (Error "ECDSA: invalid signature 's' value")).
Proof.
  intros Hr Hs Hv sig. unfold recover_rvs, tryRecover_rvs, recover, tryRecover.
  destruct (short_fields v s Hs Hv) as [-> ->].
  assert (u256 s) as Hs' by (unfold uint; lia).
  assert (length sig = 65%nat) as -> by (subst sig; by rewrite !length_app, !length_word).
  cbn [Nat.eqb]. subst sig. rewrite take_app_length', drop_app_length' by (by rewrite length_word).
  rewrite take_app_length' by (by rewrite length_word). rewrite !be_val_word by done.
  assert (nth 64 (word r ++ word s ++ [v]) 0 = v) as ->.
  { rewrite app_nth2, app_nth2; rewrite ?length_word; [done|lia..]. }
  split; [done|]. intros Hh. unfold tryRecover_vrs. by rewrite (proj2 (Z.ltb_lt _ _) Hh).
Qed.
End crypto.
End ECDSA.

(** A concrete instance of the primitives, to evaluate the definitions on
    concrete inputs: the "hash" is the value of the bytes modulo 2^256, and the
    recovered address is the low 160 bits of [r]. *)
Lemma sample_hash_range bs : u256 (be_val bs mod 2 ^ 256).
Proof. apply Z.mod_pos_bound. done. Qed.

Definition sample_crypto : EvmCrypto := {|
  keccak256 := λ bs, be_val bs mod 2 ^ 256;
  keccak256_range := sample_hash_range;
  ecrecover := λ _ _ r _, r mod 2 ^ 160
|}.

Definition sample_op (from : address) (pmd : bytes) : UserOperation := {|
  sender := from; nonce := 2; initCode := []; callData := [0x47; 0xe1; 0xda; 0x2a];
  callGasLimit := 198891; verificationGasLimit := 1000000; preVerificationGas := 300000;
  maxFeePerGas := 506; maxPriorityFeePerGas := 0; paymasterAndData := pmd; signature := []
|}.

Lemma short_signature_agrees_witness :
  @ECDSA.recover_rvs sample_crypto 9 5 (7 + (28 - 27) * 2 ^ 255) =
    @ECDSA.recover sample_crypto 9 (word 5 ++ word 7 ++ [28]).
Proof. apply (@ECDSA.short_signature_agrees sample_crypto 9 28 5 7); unfold uint; lia. Defined.
Lemma gasPrice_bounded_witness :
  UserOperationLib.gasPrice 100 (sample_op 5 []) = Z.min 506 (0 + 100).
Proof. apply (UserOperationLib.gasPrice_bounded 100 (sample_op 5 [])); [done|]. unfold uint. cbn. lia. Defined.
