(* ===== verification/VerifyingPaymaster.v ===== *)
(** EnclaveVerifyingPaymaster
    (contracts/enclave-smart-account/EnclaveVerifyingPaymaster.sol): pays for a
    user operation when an off-chain signer signed it.  [pack] and [getHash]
    are shared word for word by the token, multi-token and NFT paymasters, which
    reuse the definitions of this file. *)
From S2P Require Import Prelude Bytes UserOperation.

Record state := State {
  entryPoint : address;                (* BasePaymaster *)
  owner : address;                     (* Ownable, set to the deployer *)
  verifyingSigner : address;           (* immutable *)
  senderNonce : gmap address Z
}.

(** constructor(IEntryPoint _entryPoint, address _verifyingSigner) *)
Definition deployed (m : msg) (_entryPoint _verifyingSigner : address) : state :=
  {| entryPoint := _entryPoint; owner := msg_sender m;
     verifyingSigner := _verifyingSigner; senderNonce := ∅ |}.

Definition VALID_TIMESTAMP_OFFSET : nat := 20.
Definition SIGNATURE_OFFSET : nat := 84.

Definition parsePaymasterAndData (paymasterAndData : bytes) : res (Z * Z * bytes) :=
  times ← slice paymasterAndData VALID_TIMESTAMP_OFFSET SIGNATURE_OFFSET;
  '(validUntil, validAfter) ← abi_decode_uint48_uint48 times;
  signature ← slice_from paymasterAndData SIGNATURE_OFFSET;
  Ok (validUntil, validAfter, signature).

Section crypto.
Context `{EvmCrypto}.

Definition pack (u : UserOperation) : bytes :=
  abi_words [sender u; nonce u; keccak256 (initCode u); keccak256 (callData u);
    callGasLimit u; verificationGasLimit u; preVerificationGas u;
    maxFeePerGas u; maxPriorityFeePerGas u].

(** [abi.encode(pack(userOp), block.chainid, address(this), senderNonce, validUntil,
    validAfter)]: a head of six words, the first the offset of the tail. *)
Definition signed_bytes (m : msg) (nonces : gmap address Z) (u : UserOperation)
    (validUntil validAfter : Z) : bytes :=
  abi_words [192; chainid m; self m; mget 0 nonces (sender u); validUntil; validAfter]
  ++ abi_tail (pack u).

Definition getHash (m : msg) (nonces : gmap address Z) (u : UserOperation)
    (validUntil validAfter : Z) : Z :=
  keccak256 (signed_bytes m nonces u validUntil validAfter).

Definition sig_length_ok (signature : bytes) : bool :=
  ((length signature =? 64)%nat || (length signature =? 65)%nat).

(** [senderNonce[userOp.getSender()]++] *)
Definition bump_nonce (u : UserOperation) (nonces : gmap address Z) : res (gmap address Z) :=
  n ← cadd 256 (mget 0 nonces (sender u)) 1;
  Ok (<[sender u := n]> nonces).

Definition _validatePaymasterUserOp (m : msg) (u : UserOperation) (requiredPreFund : Z)
    (s : state) : res (state * (bytes * Z)) :=
  '(validUntil, validAfter, signature) ← parsePaymasterAndData (paymasterAndData u);
  _ ← require (sig_length_ok signature)
        "VerifyingPaymaster: invalid signature length in paymasterAndData";
  let hash := ECDSA.toEthSignedMessageHash (getHash m (senderNonce s) u validUntil validAfter) in
  nonces ← bump_nonce u (senderNonce s);
  let s' := {| entryPoint := entryPoint s; owner := owner s;
               verifyingSigner := verifyingSigner s; senderNonce := nonces |} in
  recovered ← ECDSA.recover hash signature;
  if negb (addr_eqb (verifyingSigner s) recovered)
  then Ok (s', ([], _packValidationData true validUntil validAfter))
  else Ok (s', ([], _packValidationData false validUntil validAfter)).
End crypto.

(** ** Layout of paymasterAndData *)

(** What the client sends: paymaster address, the abi-encoded window, the
    signature. *)
Definition paymaster_data (paymaster validUntil validAfter : Z) (signature : bytes) : bytes :=
  be_bytes 20 paymaster ++ abi_words [validUntil; validAfter] ++ signature.

Lemma decode_window vu va :
  uint 48 vu → uint 48 va → abi_decode_uint48_uint48 (abi_words [vu; va]) = Ok (vu, va).
Proof.
  intros Hu Ha. unfold abi_decode_uint48_uint48.
  rewrite (proj2 (require__Ok _ tt)) by (by rewrite length_abi_words). rewrite Ok_bind.
  rewrite <- (app_nil_r (abi_words [vu; va])).
  rewrite (abi_uint_at_off 48 [vu; va] [] 0 0 vu), Ok_bind by (done || lia).
  by rewrite (abi_uint_at_off 48 [vu; va] [] 32 1 va), Ok_bind by (done || lia).
Qed.

Lemma parse_paymaster_data_ok (pm vu va : Z) (sig : bytes) :
  uint 48 vu → uint 48 va →
  parsePaymasterAndData (paymaster_data pm vu va sig) = Ok (vu, va, sig).
Proof.
  intros Hu Ha. unfold parsePaymasterAndData, paymaster_data.
  set (A := be_bytes 20 pm). assert (length A = 20%nat) as HA by apply length_be_bytes.
  set (Wd := abi_words [vu; va]). assert (length Wd = 64%nat) as HW by apply length_abi_words.
  rewrite (proj2 (slice_Ok _ 20 84 Wd)).
  - rewrite Ok_bind. subst Wd. rewrite decode_window, Ok_bind by done.
    rewrite (proj2 (slice_from_Ok _ 84 sig)); [done|]. rewrite !length_app, HA, HW. split; [lia|].
    rewrite app_assoc, drop_app_length'; [done|]. rewrite length_app. lia.
  - rewrite !length_app, HA, HW. split; [lia|].
    rewrite drop_app_length' by done. rewrite take_app_length'; [done|]. lia.
Qed.

(** [parsePaymasterAndData] recovers exactly the window and signature of
    the documented layout (20-byte address, abi-encoded timestamps, signature),
    for every signature length. *)
Theorem parse_paymaster_data_roundtrip (pm vu va : Z) (sig : bytes) :
  uint 48 vu → uint 48 va →
  parsePaymasterAndData (paymaster_data pm vu va sig) = Ok (vu, va, sig).
Proof. apply parse_paymaster_data_ok. Qed.

Lemma parse_paymaster_data_roundtrip_witness :
  (uint 48 1700003600 ∧ uint 48 0) ∧
  parsePaymasterAndData (paymaster_data 0x959DF35a4bDc25BA125615dfC84621D038A95FA8 1700003600 0 [1; 2; 3])
    = Ok (1700003600, 0, [1; 2; 3]).
Proof.
  split; [by vm_compute|]. apply (parse_paymaster_data_roundtrip _ 1700003600 0); by vm_compute.
Defined.

(** ** What the signature covers *)

Section binding.
Context `{EvmCrypto}.

Lemma length_pack u : length (pack u) = 288%nat.
Proof. unfold pack. by rewrite length_abi_words. Qed.

Lemma pack_words_range u : wf_op u →
  Forall u256 [sender u; nonce u; keccak256 (initCode u); keccak256 (callData u);
    callGasLimit u; verificationGasLimit u; preVerificationGas u;
    maxFeePerGas u; maxPriorityFeePerGas u].
Proof.
  intros (Hs & ? & ? & ? & ? & ? & ? & _).
  repeat (apply Forall_cons; split; try apply keccak256_range; try done).
  by apply (uint_le 160).
Qed.

(** The fields of an operation the paymaster signature commits to. *)
Definition same_signed_fields (u u' : UserOperation) : Prop :=
  sender u = sender u' ∧ nonce u = nonce u' ∧
  keccak256 (initCode u) = keccak256 (initCode u') ∧
  keccak256 (callData u) = keccak256 (callData u') ∧
  callGasLimit u = callGasLimit u' ∧ verificationGasLimit u = verificationGasLimit u' ∧
  preVerificationGas u = preVerificationGas u' ∧ maxFeePerGas u = maxFeePerGas u' ∧
  maxPriorityFeePerGas u = maxPriorityFeePerGas u'.

Lemma pack_inj u u' : wf_op u → wf_op u' → pack u = pack u' → same_signed_fields u u'.
Proof.
  intros Hu Hu' E. apply abi_words_inj in E; [|by apply pack_words_range..].
  unfold same_signed_fields. by simplify_eq.
Qed.

Definition wf_msg (m : msg) : Prop := u256 (chainid m) ∧ uint 160 (self m).
Definition wf_nonces (n : gmap address Z) : Prop := ∀ a, u256 (mget 0 n a).

Lemma head_range m n u vu va :
  wf_msg m → wf_nonces n → uint 48 vu → uint 48 va →
  Forall u256 [192; chainid m; self m; mget 0 n (sender u); vu; va].
Proof.
  intros [Hc Hs] Hn Hvu Hva. repeat (apply Forall_cons; split); auto; try done;
    [apply (uint_le 160) | apply (uint_le 48) | apply (uint_le 48)]; done.
Qed.

Lemma signed_bytes_inj m m' n n' u u' vu va vu' va' :
  wf_msg m → wf_msg m' → wf_nonces n → wf_nonces n' → wf_op u → wf_op u' →
  uint 48 vu → uint 48 va → uint 48 vu' → uint 48 va' →
  signed_bytes m n u vu va = signed_bytes m' n' u' vu' va' →
  chainid m = chainid m' ∧ self m = self m' ∧
  mget 0 n (sender u) = mget 0 n' (sender u') ∧ vu = vu' ∧ va = va' ∧
  same_signed_fields u u'.
Proof.
  intros. match goal with E : signed_bytes _ _ _ _ _ = _ |- _ => unfold signed_bytes in E;
    apply app_inj_1 in E as [Eh Et]; [|by rewrite !length_abi_words] end.
  apply abi_words_inj in Eh; [|by apply head_range..].
  apply abi_tail_inj in Et; [|rewrite length_pack; by vm_compute..].
  apply pack_inj in Et; [|done..]. by simplify_eq.
Qed.

(** C10: The byte string whose keccak the paymaster's signer signs determines
    the chain, the paymaster, the sender's paymaster nonce, the validity
    window and every signed field of the operation: two (message, state,
    operation, window) tuples with the same preimage agree on all of them. *)
Theorem signed_bytes_binding m m' n n' u u' vu va vu' va' :
  wf_msg m → wf_msg m' → wf_nonces n → wf_nonces n' → wf_op u → wf_op u' →
  uint 48 vu → uint 48 va → uint 48 vu' → uint 48 va' →
  signed_bytes m n u vu va = signed_bytes m' n' u' vu' va' →
  chainid m = chainid m' ∧ self m = self m' ∧
  mget 0 n (sender u) = mget 0 n' (sender u') ∧ vu = vu' ∧ va = va' ∧
  same_signed_fields u u'.
Proof. apply signed_bytes_inj. Qed.

Lemma bump_nonce_Ok u n n' :
  bump_nonce u n = Ok n' ↔
  mget 0 n (sender u) + 1 < 2 ^ 256 ∧ n' = <[sender u := mget 0 n (sender u) + 1]> n.
Proof.
  unfold bump_nonce. rewrite bind_Ok. split.
  - intros (k & Hk & E). apply cadd_Ok in Hk as [-> ?]. by simplify_eq.
  - intros [? ->]. eexists. by rewrite cadd_Ok.
Qed.

(** What a successful validation says, all in one. *)
Lemma validate_Ok m u pre s s' ctx vd :
  _validatePaymasterUserOp m u pre s = Ok (s', (ctx, vd)) →
  ∃ vu va sig recovered,
    parsePaymasterAndData (paymasterAndData u) = Ok (vu, va, sig) ∧
    ECDSA.recover (ECDSA.toEthSignedMessageHash (getHash m (senderNonce s) u vu va)) sig = Ok recovered ∧
    mget 0 (senderNonce s) (sender u) + 1 < 2 ^ 256 ∧
    s' = {| entryPoint := entryPoint s; owner := owner s; verifyingSigner := verifyingSigner s;
            senderNonce := <[sender u := mget 0 (senderNonce s) (sender u) + 1]> (senderNonce s) |} ∧
    ctx = [] ∧
    vd = _packValidationData (negb (addr_eqb (verifyingSigner s) recovered)) vu va.
Proof.
  unfold _validatePaymasterUserOp. intros E. apply bind_Ok in E as ([[vu va] sig] & Hp & E).
  apply bind_Ok in E as ([] & _ & E). apply bind_Ok in E as (n' & Hn & E).
  apply bump_nonce_Ok in Hn as [Hlt ->]. apply bind_Ok in E as (rec & Hr & E).
  exists vu, va, sig, rec. destruct (addr_eqb _ _); cbn in *; by simplify_eq.
Qed.

Lemma parse_window_range d vu va sig :
  is_bytes d → parsePaymasterAndData d = Ok (vu, va, sig) → uint 48 vu ∧ uint 48 va.
Proof.
  intros Hb E. unfold parsePaymasterAndData in E.
  apply bind_Ok in E as (t & Ht & E). apply slice_Ok in Ht as [_ ->].
  apply bind_Ok in E as ([u a] & Ht & E). apply bind_Ok in E as (sg & _ & E). simplify_eq.
  unfold abi_decode_uint48_uint48 in Ht. inv_res.
  split; eapply abi_uint_at_range; eauto using is_bytes_take, is_bytes_drop.
Qed.

(** C11: No replay: validating an operation bumps the sender's paymaster nonce,
    so resubmitting it (same window, same chain, same paymaster) asks for a
    signature over a different byte string than the first validation did;
    other senders' pending approvals are unaffected. *)
Theorem no_replay m u pre s s' ctx vd vu va sig :
  wf_msg m → wf_nonces (senderNonce s) → wf_op u →
  parsePaymasterAndData (paymasterAndData u) = Ok (vu, va, sig) →
  _validatePaymasterUserOp m u pre s = Ok (s', (ctx, vd)) →
  signed_bytes m (senderNonce s') u vu va ≠ signed_bytes m (senderNonce s) u vu va ∧
  (∀ u', sender u' ≠ sender u →
     signed_bytes m (senderNonce s') u' vu va = signed_bytes m (senderNonce s) u' vu va).
Proof.
  intros Hm Hn Hu Hp E.
  destruct (parse_window_range (paymasterAndData u) vu va sig) as [Hvu Hva]; [apply Hu|done|].
  apply validate_Ok in E as (vu' & va' & sig' & rec & _ & _ & Hlt & -> & _ & _). cbn. split.
  - intros Eb. pose proof (Hn (sender u)) as [Hge _].
    apply signed_bytes_inj in Eb; try done.
    + destruct Eb as (_ & _ & Eb & _). rewrite mget_insert_eq in Eb. lia.
    + intros a. rewrite mget_insert. case_decide; [split; lia|apply Hn].
  - intros u' Hne. unfold signed_bytes. by rewrite mget_insert_ne by done.
Qed.
End binding.

Section approval.
Context `{EvmCrypto}.

(** C12: Approval is sound: when the validation word tells the EntryPoint the
    signature is valid (aggregator 0), the data carried a 65-byte signature
    that recovers to the configured, non-zero [verifyingSigner] over the hash
    at the sender's current nonce, and the word carries exactly the signed
    window. *)
Theorem approval_sound m u pre s s' ctx vd :
  is_bytes (paymasterAndData u) →
  _validatePaymasterUserOp m u pre s = Ok (s', (ctx, vd)) →
  aggregator (_parseValidationData vd) = 0 →
  ∃ vu va sig,
    parsePaymasterAndData (paymasterAndData u) = Ok (vu, va, sig) ∧
    length sig = 65%nat ∧ verifyingSigner s ≠ zero_address ∧
    ECDSA.recover (ECDSA.toEthSignedMessageHash (getHash m (senderNonce s) u vu va)) sig
      = Ok (verifyingSigner s) ∧
    _parseValidationData vd = {| aggregator := 0; validAfter := va;
      validUntil := if vu =? 0 then uint48_max else vu |} ∧
    mget 0 (senderNonce s') (sender u) = mget 0 (senderNonce s) (sender u) + 1.
Proof.
  intros Hb E Hagg. apply validate_Ok in E as (vu & va & sig & rec & Hp & Hr & Hlt & -> & _ & ->).
  destruct (parse_window_range _ _ _ _ Hb Hp) as [Hvu Hva].
  rewrite validation_data_word in * by done. cbn in Hagg |- *.
  destruct (addr_eqb (verifyingSigner s) rec) eqn:Eq; [|done]. unfold addr_eqb in Eq. guards. subst rec.
  destruct (ECDSA.recover_Ok _ _ _ Hr) as (Hl & Hnz & _).
  exists vu, va, sig. rewrite mget_insert_eq. done.
Qed.

(** A 64-byte (compact) signature passes the paymaster's length check,
    announced for both lengths, but validation always reverts in ECDSA: no
    operation with such a signature is ever sponsored. *)
Theorem compact_signature_reverts m u pre s vu va sig :
  parsePaymasterAndData (paymasterAndData u) = Ok (vu, va, sig) → length sig = 64%nat →
  mget 0 (senderNonce s) (sender u) + 1 < 2 ^ 256 →
  sig_length_ok sig = true ∧
  _validatePaymasterUserOp m u pre s = Revert (Error "ECDSA: invalid signature length").
Proof.
  intros Hp Hl Hn. assert (sig_length_ok sig = true) as Hok by (unfold sig_length_ok; by rewrite Hl).
  split; [done|]. unfold _validatePaymasterUserOp. rewrite Hp, Ok_bind, Hok.
  rewrite (proj2 (bump_nonce_Ok u (senderNonce s) _)) by (split; [done|reflexivity]).
  rewrite !Ok_bind. rewrite ECDSA.recover_bad_length by lia. done.
Qed.
End approval.

(** ** Concrete runs *)

Section witnesses.
Definition demo_msg : msg :=
  {| msg_sender := 0x5FF1; msg_value := 0; self := 0x959D; chainid := 42161; timestamp := 0 |}.
Definition demo_sig : bytes := word 0xD02F ++ word 1 ++ [27].
Definition demo_op : UserOperation := sample_op 0xd11b (paymaster_data 0x959D 1700003600 1700000000 demo_sig).
Definition demo_state : state := deployed demo_msg 0x5FF1 0xD02F.
#[local] Existing Instance sample_crypto.

Lemma demo_nonces : wf_nonces (senderNonce demo_state).
Proof. intros a. cbn. by vm_compute. Qed.

Lemma signed_bytes_binding_witness :
  wf_msg demo_msg ∧ wf_op demo_op ∧ same_signed_fields demo_op demo_op.
Proof.
  split; [by vm_compute|]. split; [apply (bool_decide_unpack _); by vm_compute|].
  apply (signed_bytes_binding demo_msg demo_msg (senderNonce demo_state) (senderNonce demo_state)
           demo_op demo_op 1700003600 1700000000 1700003600 1700000000);
    try exact demo_nonces; try (apply (bool_decide_unpack _); by vm_compute); by vm_compute.
Defined.

Definition demo_result : state * (bytes * Z) :=
  match _validatePaymasterUserOp demo_msg demo_op 0 demo_state with
  | Ok r => r
  | Revert _ => (demo_state, ([], 0))
  end.

Lemma demo_accepted :
  _validatePaymasterUserOp demo_msg demo_op 0 demo_state = Ok (demo_result.1, (demo_result.2.1, demo_result.2.2)).
Proof. vm_compute. reflexivity. Qed.
Lemma demo_parse : parsePaymasterAndData (paymasterAndData demo_op) = Ok (1700003600, 1700000000, demo_sig).
Proof. vm_compute. reflexivity. Qed.
Lemma demo_wf : wf_op demo_op.
Proof. apply (bool_decide_unpack _). by vm_compute. Qed.

Lemma no_replay_witness :
  signed_bytes demo_msg (senderNonce demo_result.1) demo_op 1700003600 1700000000 ≠
  signed_bytes demo_msg (senderNonce demo_state) demo_op 1700003600 1700000000.
Proof.
  refine (proj1 (no_replay demo_msg demo_op 0 demo_state demo_result.1 demo_result.2.1 demo_result.2.2
           1700003600 1700000000 demo_sig _ demo_nonces demo_wf demo_parse demo_accepted)).
  by vm_compute.
Defined.

Lemma approval_sound_witness :
  mget 0 (senderNonce demo_result.1) (sender demo_op) = 1.
Proof.
  destruct (approval_sound demo_msg demo_op 0 demo_state demo_result.1 demo_result.2.1 demo_result.2.2)
    as (vu & va & sig & _ & _ & _ & _ & _ & E).
  - apply demo_wf.
  - exact demo_accepted.
  - by vm_compute.
  - exact E.
Defined.

Lemma compact_signature_reverts_witness :
  _validatePaymasterUserOp demo_msg
    (sample_op 0xd11b (paymaster_data 0x959D 1700003600 1700000000 (take 64 demo_sig))) 0 demo_state
  = Revert (Error "ECDSA: invalid signature length").
Proof.
  apply (compact_signature_reverts demo_msg _ 0 demo_state 1700003600 1700000000 (take 64 demo_sig));
    by vm_compute.
Defined.
End witnesses.
