(* ===== verification/FeeLogic.v ===== *)
(** Gas-cost pricing: the IEnclaveFeeLogic interface and its testnet and
    Chainlink implementations
    (contracts/enclave-smart-account/paymaster/EnclaveFeeLogic{Testnet,Mainnet}.sol). *)
From S2P Require Import Prelude Bytes.

(** [10 ** n], checked *)
Definition cpow10 (n : Z) : res Z :=
  if 10 ^ n <? 2 ^ 256 then Ok (10 ^ n) else Revert (Panic 0x11).

(** ** External calls by signature

    A call names a function signature; a contract without that function (and
    without a fallback) reverts with no data. *)
Definition IEnclaveFeeLogic_calculateFee : string := "calculateFee(address,uint256)".

(** What a paymaster relies on: the fee logic at an address answers the
    interface's call, or the call reverts. *)
Class IEnclaveFeeLogic (L : Type) := {
  calculateFee : L → address → Z → res Z      (* token, actualGasCost *)
}.

Module Testnet.
Record state := State { USDC_DECIMALS : Z; ETH_DECIMALS : Z }.
Definition deployed : state := {| USDC_DECIMALS := 6; ETH_DECIMALS := 18 |}.

(** function calculateFee(uint256 actualGasCost) *)
Definition calculateFee (s : state) (actualGasCost : Z) : res Z :=
  p ← cmul 256 actualGasCost 2500;
  e ← csub (ETH_DECIMALS s) (USDC_DECIMALS s);
  d ← cpow10 e;
  cdiv p d.

(** The external functions the contract declares. *)
Definition functions : list string := ["calculateFee(uint256)"].

(** The interface's call dispatched on this contract. *)
Definition call_calculateFee (s : state) (token : address) (actualGasCost : Z) : res Z :=
  if bool_decide (IEnclaveFeeLogic_calculateFee ∈ functions)
  then calculateFee s actualGasCost
  else Revert NoData.

#[global] Instance testnet_fee_logic : IEnclaveFeeLogic state :=
  {| FeeLogic.calculateFee := call_calculateFee |}.

Lemma call_reverts s token gas : call_calculateFee s token gas = Revert NoData.
Proof. unfold call_calculateFee. by rewrite bool_decide_eq_false_2 by set_solver. Qed.
End Testnet.

(** ** Ownable (OpenZeppelin) *)
Definition onlyOwner (m : msg) (owner : address) : res unit :=
  require (addr_eqb (msg_sender m) owner) "Ownable: caller is not the owner".

Module Mainnet.
Record state := State {
  owner : address;
  ETH_DECIMALS : Z;
  dataFeed : address;
  markupDenominator : Z
}.

Inductive event :=
  | ChainlinkDataFeedUpdated (oldDataFeed newDataFeed : address) (timestamp : Z)
  | MarkupDenominatorUpdated (oldMarkupDenominator newMarkupDenominator timestamp : Z).

Definition deployed (m : msg) (_dataFeed : address) (_markupDenominator : Z) : state :=
  {| owner := msg_sender m; ETH_DECIMALS := 18; dataFeed := _dataFeed;
     markupDenominator := _markupDenominator |}.

Definition updateChainlinkDataFeed (m : msg) (_feed : address) (s : state) : res (state * event) :=
  _ ← onlyOwner m (owner s);
  let s' := {| owner := owner s; ETH_DECIMALS := ETH_DECIMALS s; dataFeed := _feed;
               markupDenominator := markupDenominator s |} in
  Ok (s', ChainlinkDataFeedUpdated (dataFeed s') _feed (timestamp m)).

Definition updateMarkupDenominator (m : msg) (_markup : Z) (s : state) : res (state * event) :=
  _ ← onlyOwner m (owner s);
  let s' := {| owner := owner s; ETH_DECIMALS := ETH_DECIMALS s; dataFeed := dataFeed s;
               markupDenominator := _markup |} in
  Ok (s', MarkupDenominatorUpdated (markupDenominator s') _markup (timestamp m)).

Section feed.
(** The Chainlink aggregator at an address: its latest answer (an int256)
    and its decimals (a uint8). *)
Context (latestAnswer : address → res Z) (decimals : address → res Z).

Definition getChainlinkDataFeedLatestAnswer (s : state) : res Z := latestAnswer (dataFeed s).

Definition calculateFee (s : state) (token : address) (actualGasCost : Z) : res Z :=
  answer ← getChainlinkDataFeedLatestAnswer s;
  p ← cmul 256 actualGasCost (wrap answer);
  dec ← decimals (dataFeed s);
  e1 ← cadd 256 (ETH_DECIMALS s) dec;
  e ← csub e1 6;
  d ← cpow10 e;
  costInUSDC ← cdiv p d;
  q ← cdiv costInUSDC (markupDenominator s);
  cadd 256 costInUSDC q.

(** The Chainlink fee: when it returns, the fee is the gas cost
    converted at the feed's price and rounded down, plus a markup of one
    [markupDenominator]-th of that rounded down; so it is between the
    converted cost and the cost scaled by [1 + 1/markupDenominator], and it
    never overflows 256 bits. *)
Theorem mainnet_fee_bounds s token gas fee price dec :
  u256 gas → latestAnswer (dataFeed s) = Ok price → 0 ≤ price < 2 ^ 255 →
  decimals (dataFeed s) = Ok dec → uint 8 dec → ETH_DECIMALS s = 18 →
  u256 (markupDenominator s) →
  calculateFee s token gas = Ok fee →
  let cost := gas * price / 10 ^ (18 + dec - 6) in
  cost ≤ fee ∧ fee = cost + cost / markupDenominator s ∧
  fee * markupDenominator s ≤ cost * (markupDenominator s + 1) ∧
  0 < markupDenominator s ∧ fee < 2 ^ 256.
Proof using Type.
  intros Hg Hp Hpr Hd Hdr HE Hm E cost.
  unfold calculateFee, getChainlinkDataFeedLatestAnswer in E. rewrite Hp, Hd, HE, Ok_bind in E.
  rewrite (wrap_small price) in E by (split; [lia|]; eapply Z.lt_trans; [apply Hpr|done]).
  inv_res.
  repeat match goal with
  | H : cmul _ _ _ = Ok _ |- _ => apply cmul_Ok in H as [-> ?]
  | H : cadd _ _ _ = Ok _ |- _ => apply cadd_Ok in H as [-> ?]
  | H : csub _ _ = Ok _ |- _ => apply csub_Ok in H as [-> ?]
  | H : cdiv _ _ = Ok _ |- _ => apply cdiv_Ok in H as [-> ?]
  | H : cpow10 _ = Ok _ |- _ => unfold cpow10 in H; destruct (_ <? _); simplify_eq
  end.
  subst cost. set (cost := gas * price / 10 ^ (18 + dec - 6)) in *. destruct Hg as [Hg _], Hm as [Hm _], Hdr as [Hdr _].
  assert (0 ≤ cost) as Hc by (apply Z.div_pos; [nia|apply Z.pow_pos_nonneg; lia]).
  assert (0 < markupDenominator s) as Hmp by lia.
  pose proof (Z.div_pos cost _ Hc Hmp). pose proof (Z.mul_div_le cost _ Hmp).
  split_and!; try done; nia.
Qed.
End feed.

Section witness.
Definition demo : state :=
  deployed {| msg_sender := 1; msg_value := 0; self := 2; chainid := 1; timestamp := 0 |} 7 20.
Lemma mainnet_fee_bounds_witness :
  calculateFee (λ _, Ok 250000000000) (λ _, Ok 8) demo 0 1000000000000000 = Ok 2625000 ∧
  2625000 * 20 ≤ 2500000 * 21.
Proof.
  split; [by vm_compute|].
  apply (mainnet_fee_bounds (λ _, Ok 250000000000) (λ _, Ok 8) demo 0 1000000000000000 2625000
           250000000000 8); by vm_compute.
Defined.
End witness.

(** The update events misreport: the owner's [updateChainlinkDataFeed]
    and [updateMarkupDenominator] store the new value before emitting, so the
    event's old-value argument is always the new value, whatever the state
    held before. *)
Theorem update_event_loses_old_value m feed markup s :
  msg_sender m = owner s →
  (∃ s', updateChainlinkDataFeed m feed s = Ok (s', ChainlinkDataFeedUpdated feed feed (timestamp m))
         ∧ dataFeed s' = feed ∧ markupDenominator s' = markupDenominator s) ∧
  (∃ s', updateMarkupDenominator m markup s
           = Ok (s', MarkupDenominatorUpdated markup markup (timestamp m))
         ∧ markupDenominator s' = markup ∧ dataFeed s' = dataFeed s).
Proof.
  intros Ho. unfold updateChainlinkDataFeed, updateMarkupDenominator, onlyOwner, addr_eqb.
  rewrite Ho, Z.eqb_refl. split; eexists; split_and!; done.
Qed.

Lemma update_event_loses_old_value_witness :
  ∃ s', updateMarkupDenominator {| msg_sender := 1; msg_value := 0; self := 2; chainid := 1; timestamp := 5 |}
          30 demo = Ok (s', MarkupDenominatorUpdated 30 30 5).
Proof.
  destruct (update_event_loses_old_value
    {| msg_sender := 1; msg_value := 0; self := 2; chainid := 1; timestamp := 5 |} 8 30 demo eq_refl)
    as [_ (s' & E & _)]. exists s'. exact E.
Defined.
End Mainnet.
