(* ===== verification/Erc20.v ===== *)
(** ERC-20 tokens as other contracts see them (IERC20 of
    P256SmartAccountFactory_Flattened.sol).  The tokens are not part of the
    repository: a world [W] with their operations is a parameter, and
    [ERC20Laws] states what EIP-20 documents of a transfer that reports
    success. *)
From S2P Require Import Prelude.

Class ERC20 (W : Type) := {
  balanceOf : W → address → address → Z;                         (* token, holder *)
  transfer : address → address → address → Z → W → res (bool * W);
    (* token, caller, to, amount *)
  transferFrom : address → address → address → address → Z → W → res (bool * W)
    (* token, caller, from, to, amount *)
}.

(** The balances after moving [v] of token [t] from [f] to [to]. *)
Definition moved {W} `{ERC20 W} (w w' : W) (t f to : address) (v : Z) : Prop :=
  ∀ t' h, balanceOf w' t' h =
    balanceOf w t' h
    + (if bool_decide (t' = t ∧ h = to) then v else 0)
    - (if bool_decide (t' = t ∧ h = f) then v else 0).

Class ERC20Laws (W : Type) `{ERC20 W} := {
  balance_nonneg : ∀ w t h, 0 ≤ balanceOf w t h;
  transfer_moves : ∀ t c to v w w', 0 ≤ v →
    transfer t c to v w = Ok (true, w') → moved w w' t c to v;
  transferFrom_moves : ∀ t c f to v w w', 0 ≤ v →
    transferFrom t c f to v w = Ok (true, w') → moved w w' t f to v
}.

Section moved.
Context {W : Type} `{ERC20 W}.

Lemma moved_to (w w' : W) t f to v :
  moved w w' t f to v → f ≠ to → balanceOf w' t to = balanceOf w t to + v.
Proof.
  intros Hm Hne. rewrite (Hm t to), bool_decide_eq_true_2, bool_decide_eq_false_2 by naive_solver. lia.
Qed.
Lemma moved_from (w w' : W) t f to v :
  moved w w' t f to v → f ≠ to → balanceOf w' t f = balanceOf w t f - v.
Proof.
  intros Hm Hne. rewrite (Hm t f), bool_decide_eq_false_2, bool_decide_eq_true_2 by naive_solver. lia.
Qed.
Lemma moved_other (w w' : W) t f to v t' h :
  moved w w' t f to v → (t' ≠ t ∨ h ≠ f ∧ h ≠ to) → balanceOf w' t' h = balanceOf w t' h.
Proof. intros Hm Hne. rewrite (Hm t' h), !bool_decide_eq_false_2 by naive_solver. lia. Qed.
End moved.

(** ** A ledger

    A standard token that moves balances and never fails short of an
    insufficient balance: an instance of the interface. *)
Abbreviation ledger := (gmap (address * address) Z).

Definition ledger_get (w : ledger) (t h : address) : Z := Z.max 0 (mget 0 w (t, h)).
Definition ledger_move (t f to : address) (v : Z) (w : ledger) : res (bool * ledger) :=
  if ledger_get w t f <? v then Ok (false, w)
  else
    let w1 := <[(t, f) := ledger_get w t f - v]> w in
    Ok (true, <[(t, to) := ledger_get w1 t to + v]> w1).

#[global] Instance ledger_erc20 : ERC20 ledger := {|
  balanceOf := ledger_get;
  transfer t c to v w := ledger_move t c to v w;
  transferFrom t c f to v w := ledger_move t f to v w
|}.

Lemma ledger_move_moved t f to v w w' :
  0 ≤ v → ledger_move t f to v w = Ok (true, w') → moved w w' t f to v.
Proof.
  intros Hv E. unfold ledger_move in E.
  destruct (Z.ltb_spec (ledger_get w t f) v) as [|Hge]; [done|]. injection E as <-.
  intros t' h. cbn. unfold ledger_get in *. rewrite !mget_insert.
  repeat (case_decide || case_bool_decide); naive_solver lia.
Qed.

#[global] Instance ledger_laws : ERC20Laws ledger.
Proof.
  split; cbn.
  - intros. unfold ledger_get. lia.
  - intros. by apply ledger_move_moved.
  - intros. by apply ledger_move_moved.
Qed.
