(* ===== verification/TokenPaymaster.v ===== *)
(** EnclaveVerifyingTokenPaymaster
    (contracts/enclave-smart-account/paymaster/EnclaveVerifyingTokenPaymaster.sol):
    sponsors like EnclaveVerifyingPaymaster and charges the sender in an ERC-20
    token after the operation, at the price of a fee-logic contract. *)
From S2P Require Import Prelude Bytes UserOperation VerifyingPaymaster FeeLogic Erc20.

Record state := State {
  entryPoint : address;
  owner : address;
  verifyingSigner : address;
  paymentToken : address;
  feeLogic : address;
  senderNonce : gmap address Z
}.

Inductive event :=
  | FeeLogicUpdated (oldFeeLogic newFeeLogic : address) (timestamp : Z)
  | PaymentTokenUpdated (oldPaymentToken newPaymentToken : address) (timestamp : Z).

Definition deployed (m : msg) (_entryPoint _verifyingSigner _paymentToken _feeLogic : address) : state :=
  {| entryPoint := _entryPoint; owner := msg_sender m; verifyingSigner := _verifyingSigner;
     paymentToken := _paymentToken; feeLogic := _feeLogic; senderNonce := ∅ |}.

Definition updateFeeLogic (m : msg) (_feeLogicContract : address) (s : state) : res (state * event) :=
  _ ← onlyOwner m (owner s);
  let s' := {| entryPoint := entryPoint s; owner := owner s; verifyingSigner := verifyingSigner s;
               paymentToken := paymentToken s; feeLogic := _feeLogicContract;
               senderNonce := senderNonce s |} in
  Ok (s', FeeLogicUpdated (feeLogic s') _feeLogicContract (timestamp m)).

Definition updatePaymentToken (m : msg) (_paymentToken : address) (s : state) : res (state * event) :=
  _ ← onlyOwner m (owner s);
  let s' := {| entryPoint := entryPoint s; owner := owner s; verifyingSigner := verifyingSigner s;
               paymentToken := _paymentToken; feeLogic := feeLogic s;
               senderNonce := senderNonce s |} in
  Ok (s', PaymentTokenUpdated (paymentToken s') _paymentToken (timestamp m)).

Section validate.
Context `{EvmCrypto}.

Definition _validatePaymasterUserOp (m : msg) (u : UserOperation) (requiredPreFund : Z)
    (s : state) : res (state * (bytes * Z)) :=
  '(validUntil, validAfter, signature) ← parsePaymasterAndData (paymasterAndData u);
  _ ← require (sig_length_ok signature)
        "VerifyingPaymaster: invalid signature length in paymasterAndData";
  let hash := ECDSA.toEthSignedMessageHash (getHash m (senderNonce s) u validUntil validAfter) in
  nonces ← bump_nonce u (senderNonce s);
  let s' := {| entryPoint := entryPoint s; owner := owner s; verifyingSigner := verifyingSigner s;
               paymentToken := paymentToken s; feeLogic := feeLogic s; senderNonce := nonces |} in
  recovered ← ECDSA.recover hash signature;
  if negb (addr_eqb (verifyingSigner s) recovered)
  then Ok (s', (abi_words [sender u], _packValidationData true validUntil validAfter))
  else Ok (s', (abi_words [sender u], _packValidationData false validUntil validAfter)).
End validate.

Section charge.
Context {W : Type} `{ERC20 W}.
(** The fee logic deployed at an address, and its interface. *)
Context {L : Type} `{IEnclaveFeeLogic L} (logic_at : address → L).

Definition _postOp (m : msg) (context : bytes) (actualGasCost : Z) (s : state) (w : W) : res W :=
  sender ← abi_decode_address context;
  charge ← calculateFee (logic_at (feeLogic s)) (paymentToken s) actualGasCost;
  '(done, w') ← transferFrom (paymentToken s) (self m) sender (self m) charge w;
  _ ← require done "EnclaveVerifyingTokenPaymaster: transfer failed";
  Ok w'.

Definition withdrawTokens (m : msg) (_to : address) (_amount : Z) (s : state) (w : W) : res W :=
  _ ← require (addr_eqb (msg_sender m) (verifyingSigner s)) "Only verifying signer can withdraw";
  '(done, w') ← transfer (paymentToken s) (self m) _to _amount w;
  _ ← require done "EnclaveVerifyingTokenPaymaster: withdraw failed";
  Ok w'.

Lemma decode_sender_context u : uint 160 u → abi_decode_address (abi_words [u]) = Ok u.
Proof.
  intros Hu. unfold abi_decode_address. rewrite <- (app_nil_r (abi_words [u])).
  apply (abi_uint_at_off 160 [u] [] 0 0 u); done || lia.
Qed.

(** C33: The operation's sender pays: validating hands the sender to [_postOp]
    as context, and whenever [_postOp] on that context returns, exactly the
    quoted fee moved from the sender to the paymaster in the payment token, and
    no other balance of any token changed. *)
Theorem post_op_charges_sender `{EvmCrypto} `{!ERC20Laws W}
    m m' u pre s s' ctx vd gas w w' :
  wf_op u → _validatePaymasterUserOp m u pre s = Ok (s', (ctx, vd)) →
  _postOp m' ctx gas s' w = Ok w' →
  (∀ t g x, calculateFee (logic_at (feeLogic s)) t g = Ok x → 0 ≤ x) →
  ∃ fee, calculateFee (logic_at (feeLogic s)) (paymentToken s) gas = Ok fee ∧
         moved w w' (paymentToken s) (sender u) (self m') fee.
Proof.
  intros Hu Ev Ep Hfee. unfold _validatePaymasterUserOp in Ev.
  apply bind_Ok in Ev as ([[vu va] sig] & _ & Ev). apply bind_Ok in Ev as ([] & _ & Ev).
  apply bind_Ok in Ev as (nn & _ & Ev). apply bind_Ok in Ev as (rc & _ & Ev).
  assert (ctx = abi_words [sender u] ∧ feeLogic s' = feeLogic s ∧ paymentToken s' = paymentToken s)
    as (-> & Hf & Ht) by (destruct (negb _); by simplify_eq).
  unfold _postOp in Ep. rewrite decode_sender_context, Hf, Ht, Ok_bind in Ep by apply Hu.
  apply bind_Ok in Ep as (fee & Efee & Ep). apply bind_Ok in Ep as ([ok w''] & Et & Ep).
  apply bind_Ok in Ep as ([] & Hok & Ep). apply require_Ok in Hok. simplify_eq.
  exists fee. split; [done|]. eapply transferFrom_moves; eauto.
Qed.
End charge.

Lemma testnet_post_op_reverts {W : Type} `{ERC20 W}
    (logic_at : address → Testnet.state) m ctx gas s (w : W) :
  is_ok (_postOp logic_at m ctx gas s w) = false.
Proof.
  unfold _postOp. destruct (abi_decode_address ctx) as [a|]; [|done].
  rewrite Ok_bind. cbn [calculateFee Testnet.testnet_fee_logic].
  by rewrite Testnet.call_reverts.
Qed.

(** A token paymaster configured with EnclaveFeeLogicTestnet can never
    charge: that contract declares [calculateFee(uint256)], not the interface's
    [calculateFee(address,uint256)], so [_postOp] reverts on every context, gas
    cost, token world and caller. *)
Theorem testnet_fee_logic_breaks_post_op {W : Type} `{ERC20 W}
    (logic_at : address → Testnet.state) m ctx gas s (w : W) :
  is_ok (_postOp logic_at m ctx gas s w) = false.
Proof. apply testnet_post_op_reverts. Qed.

Section witness.
#[local] Existing Instance sample_crypto.
(** A fee logic that charges 1000 units, for evaluating [_postOp]. *)
Record flat_logic := FlatLogic { flat_fee : Z }.
#[local] Instance flat_fee_logic : IEnclaveFeeLogic flat_logic :=
  {| calculateFee l _ _ := Ok (flat_fee l) |}.

Definition tp_msg : msg :=
  {| msg_sender := 0x5FF1; msg_value := 0; self := 0x2092; chainid := 42161; timestamp := 0 |}.
Definition tp_state : state := deployed tp_msg 0x5FF1 0xD02F 0xaf88 0x859F.
Definition tp_op : UserOperation :=
  sample_op 0xd11b (paymaster_data 0x2092 1700003600 1700000000 (word 0xD02F ++ word 1 ++ [27])).
Definition tp_run : state * (bytes * Z) :=
  match _validatePaymasterUserOp tp_msg tp_op 0 tp_state with
  | Ok r => r | Revert _ => (tp_state, ([], 0)) end.
Definition tp_ledger : ledger := <[(0xaf88, 0xd11b) := 5000]> ∅.
Definition tp_after : ledger :=
  match _postOp (λ _, FlatLogic 1000) tp_msg tp_run.2.1 77 tp_run.1 tp_ledger with
  | Ok w => w | Revert _ => ∅ end.

Lemma post_op_charges_sender_witness :
  balanceOf tp_ledger 0xaf88 0xd11b = 5000 ∧ balanceOf tp_after 0xaf88 0xd11b = 4000 ∧
  ∃ fee, moved tp_ledger tp_after (paymentToken tp_state) (sender tp_op) (self tp_msg) fee.
Proof.
  split; [by vm_compute|]. split; [by vm_compute|].
  destruct (post_op_charges_sender (λ _, FlatLogic 1000) tp_msg tp_msg tp_op 0 tp_state tp_run.1
              tp_run.2.1 tp_run.2.2 77 tp_ledger tp_after) as (fee & _ & Hm).
  - apply (bool_decide_unpack _). by vm_compute.
  - vm_compute. reflexivity.
  - vm_compute. reflexivity.
  - cbn. intros. by simplify_eq.
  - exists fee. exact Hm.
Defined.
End witness.
