(* ===== verification/UniswapFeeLogic.v ===== *)
(** EnclaveFeeLogicUniswap
    (contracts/enclave-smart-account/paymaster/EnclaveFeeLogicUniswap.sol):
    prices gas from the pool with the most liquidity.  Uniswap's factory and
    pools, the token's decimals and the transaction's gas price are a parameter
    [UniswapHost]; OpenZeppelin's SafeMath is checked arithmetic. *)
From S2P Require Import Prelude Bytes UserOperation CustomFullMath FeeLogic Erc20 TokenPaymaster.

Class UniswapHost (W : Type) := {
  getPool : W → address → address → Z → res address;    (* factory.getPool(a, b, fee) *)
  pool_liquidity : W → address → res Z;                 (* uint128 *)
  pool_sqrtPriceX96 : W → address → res Z;              (* slot0, uint160 *)
  token_decimals : W → address → res Z;                 (* uint8 *)
  tx_gasprice : W → Z
}.

Module Uniswap.
Record state := State {
  owner : address;
  WETH9 : address;
  markup : Z;              (* uint24 *)
  markupDenominator : Z;   (* uint24 *)
  feeTiers : list Z        (* uint24[] *)
}.
Definition Q96 : Z := 2 ^ 96.

Definition deployed (m : msg) (_WETH9 : address) (_markup _markupDenominator : Z) : state :=
  {| owner := msg_sender m; WETH9 := _WETH9; markup := _markup; markupDenominator := _markupDenominator;
     feeTiers := [100; 500; 3000; 10000] |}.
Definition updateFeeTiers (m : msg) (_feeTiers : list Z) (s : state) : res state :=
  _ ← onlyOwner m (owner s);
  Ok {| owner := owner s; WETH9 := WETH9 s; markup := markup s; markupDenominator := markupDenominator s;
        feeTiers := _feeTiers |}.
Definition updateMarkup (m : msg) (_markup : Z) (s : state) : res state :=
  _ ← onlyOwner m (owner s);
  Ok {| owner := owner s; WETH9 := WETH9 s; markup := _markup; markupDenominator := markupDenominator s;
        feeTiers := feeTiers s |}.
Definition updateMarkupDenominator (m : msg) (_markupDenominator : Z) (s : state) : res state :=
  _ ← onlyOwner m (owner s);
  Ok {| owner := owner s; WETH9 := WETH9 s; markup := markup s; markupDenominator := _markupDenominator;
        feeTiers := feeTiers s |}.

Section logic.
Context {W : Type} `{UniswapHost W}.

Record PoolInfo := Pool { poolAddress : address; fee : Z; liquidity : Z }.

(** The body of findOptimalPool's loop over the tiers. *)
Definition consider (w : W) (weth token tier : Z) (best : PoolInfo) : res PoolInfo :=
  pool ← getPool w weth token tier;
  if negb (addr_eqb pool zero_address) then
    l ← pool_liquidity w pool;
    Ok (if (liquidity best <? l) || ((l =? liquidity best) && (tier <? fee best)) then Pool pool tier l else best)
  else Ok best.
Fixpoint consider_all (w : W) (weth token : Z) (tiers : list Z) (best : PoolInfo) : res PoolInfo :=
  match tiers with
  | [] => Ok best
  | tier :: rest => best ← consider w weth token tier best; consider_all w weth token rest best
  end.
Definition findOptimalPool (token : address) (s : state) (w : W) : res Z :=
  best ← consider_all w (WETH9 s) token (feeTiers s) (Pool 0 0 0);
  Ok (fee best).

Definition getAmountIn (tokenIn : address) (amountOut : Z) (s : state) (w : W) : res Z :=
  fee ← findOptimalPool tokenIn s w;
  pool ← getPool w tokenIn (WETH9 s) fee;
  _ ← require (negb (addr_eqb pool zero_address)) "Pool does not exist";
  sqrtPriceX96 ← pool_sqrtPriceX96 w pool;
  priceX96 ← mulDiv sqrtPriceX96 sqrtPriceX96 Q96;
  d ← cdiv fee 1000;
  d ← csub 1000 d;
  ethAmountWithFee ← mulDiv amountOut 1000 d;
  l ← pool_liquidity w pool;
  q ← mulDiv ethAmountWithFee Q96 l;
  newPriceX96 ← cadd 256 priceX96 q;
  amountIn ← mulDiv amountOut newPriceX96 Q96;
  decimals ← token_decimals w tokenIn;
  p ← cpow10 decimals;
  amountIn ← mulDiv amountIn p (10 ^ 18);
  mulDiv amountIn (markup s) (markupDenominator s).

Definition calculateFee (token : address) (gasUsed : Z) (s : state) (w : W) : res Z :=
  baseFeeInEth ← mulDiv gasUsed (tx_gasprice w) 1;
  if addr_eqb token (WETH9 s) then Ok baseFeeInEth
  else
    amountIn ← getAmountIn token baseFeeInEth s w;
    mulDiv amountIn (markup s) 100.

(** The logic in its world, as a paymaster sees it. *)
#[global] Instance uniswap_fee_logic : IEnclaveFeeLogic (state * W) :=
  {| FeeLogic.calculateFee l token gas := calculateFee token gas l.1 l.2 |}.

(** ** The optimal pool *)

(** [t] is a tier with a pool of liquidity [l]. *)
Definition offers (w : W) (weth token : Z) (t l : Z) : Prop :=
  ∃ p, getPool w weth token t = Ok p ∧ p ≠ zero_address ∧ pool_liquidity w p = Ok l.

(** [b] beats every offer among [ts]: more liquidity, or as much for no higher fee. *)
Definition optimal (w : W) (weth token : Z) (ts : list Z) (b : PoolInfo) : Prop :=
  (∀ t l, t ∈ ts → offers w weth token t l → l < liquidity b ∨ l = liquidity b ∧ fee b ≤ t) ∧
  (b = Pool 0 0 0 ∨ fee b ∈ ts ∧ 0 < liquidity b ∧ offers w weth token (fee b) (liquidity b)).

Lemma offers_fun w weth token t l l' : offers w weth token t l → offers w weth token t l' → l = l'.
Proof. intros (p & E & _ & El) (p' & E' & _ & El'). congruence. Qed.

Lemma consider_optimal w weth token t ts b b' :
  0 ≤ t → (∀ p l, pool_liquidity w p = Ok l → 0 ≤ l) →
  optimal w weth token ts b → consider w weth token t b = Ok b' → optimal w weth token (ts ++ [t]) b'.
Proof.
  intros Ht Hl [Hbest Hb] E. unfold consider in E. apply bind_Ok in E as (p & Hp & E).
  unfold addr_eqb in E. destruct (Z.eqb_spec p zero_address) as [Hz|Hz]; cbn [negb] in E.
  - injection E as <-. split.
    + intros t' l' Hin Ho. apply elem_of_app in Hin as [Hin|Hin]; [eauto|].
      apply list_elem_of_singleton in Hin as ->. destruct Ho as (p' & Hp' & Hnz & _). congruence.
    + destruct Hb as [->|(? & ? & ?)]; [by left|right]. rewrite elem_of_app. eauto.
  - apply bind_Ok in E as (l & Hlq & E). injection E as <-.
    assert (offers w weth token t l) as Hoff by (by exists p). pose proof (Hl _ _ Hlq) as Hge.
    destruct ((liquidity b <? l) || ((l =? liquidity b) && (t <? fee b))) eqn:Ec.
    + apply orb_true_iff in Ec. rewrite andb_true_iff, Z.ltb_lt, Z.eqb_eq, Z.ltb_lt in Ec. split; cbn.
      * intros t' l' Hin Ho. apply elem_of_app in Hin as [Hin|Hin].
        -- destruct (Hbest t' l' Hin Ho); lia.
        -- apply list_elem_of_singleton in Hin as ->. rewrite (offers_fun _ _ _ _ _ _ Ho Hoff). lia.
      * right. rewrite elem_of_app, list_elem_of_singleton. split_and!; [by right| |done].
        destruct Hb as [->|(_ & Hpos & _)]; cbn in *; lia.
    + apply orb_false_iff in Ec as [Ec1 Ec2]. apply Z.ltb_ge in Ec1. apply andb_false_iff in Ec2.
      rewrite Z.eqb_neq, Z.ltb_ge in Ec2. split.
      * intros t' l' Hin Ho. apply elem_of_app in Hin as [Hin|Hin]; [eauto|].
        apply list_elem_of_singleton in Hin as ->. rewrite (offers_fun _ _ _ _ _ _ Ho Hoff). lia.
      * destruct Hb as [->|(? & ? & ?)]; [by left|right]. rewrite elem_of_app. eauto.
Qed.

Lemma consider_all_optimal w weth token ts ts' b b' :
  Forall (λ t, 0 ≤ t) ts' → (∀ p l, pool_liquidity w p = Ok l → 0 ≤ l) →
  optimal w weth token ts b → consider_all w weth token ts' b = Ok b' → optimal w weth token (ts ++ ts') b'.
Proof.
  intros Ht Hl. revert ts b. induction Ht as [|t ts' Ht _ IH]; intros ts b Hb E; cbn in E.
  - injection E as <-. by rewrite app_nil_r.
  - apply bind_Ok in E as (b1 & E1 & E). change (t :: ts') with ([t] ++ ts'). rewrite app_assoc.
    eapply IH; [|exact E]. by eapply consider_optimal.
Qed.

End logic.
End Uniswap.
Import Uniswap.

(** C34: findOptimalPool finds the optimal pool: when it returns, either it
    returns 0 and no tier has a pool with any liquidity, or it returns a tier
    whose pool exists and has the most liquidity of all tiers' pools, the lowest
    fee among those with the same liquidity. *)
Theorem findOptimalPool_optimal {W} `{UniswapHost W} (token : address) (s : Uniswap.state) (w : W) (f : Z) :
  Forall (λ t, 0 ≤ t) (feeTiers s) → (∀ p l, pool_liquidity w p = Ok l → 0 ≤ l) →
  findOptimalPool token s w = Ok f →
  (f = 0 ∧ ∀ t l, t ∈ feeTiers s → offers w (WETH9 s) token t l → l = 0) ∨
  (f ∈ feeTiers s ∧ ∃ L, 0 < L ∧ offers w (WETH9 s) token f L ∧
     ∀ t l, t ∈ feeTiers s → offers w (WETH9 s) token t l → l < L ∨ l = L ∧ f ≤ t).
Proof.
  intros Ht Hl E. unfold findOptimalPool in E. apply bind_Ok in E as (b & Eb & E). injection E as <-.
  assert (optimal w (WETH9 s) token [] (Pool 0 0 0)) as H0
    by (split; [intros t l Hin; by apply elem_of_nil in Hin|by left]).
  destruct (consider_all_optimal _ _ _ _ _ _ _ Ht Hl H0 Eb) as [Hopt Hb]. rewrite app_nil_l in *.
  destruct Hb as [->|(Hin & Hpos & Hoff)]; [left|right].
  - split; [done|]. intros t l Hin Hof. destruct (Hopt t l Hin Hof) as [Hlt|[-> _]]; [|done].
    pose proof Hof as (p & _ & _ & Hp). specialize (Hl _ _ Hp). cbn in Hlt. lia.
  - split; [done|]. exists (liquidity b). eauto.
Qed.
(** A token paymaster that prices with EnclaveFeeLogicUniswap and is paid in
    WETH charges the gas price twice: _postOp hands calculateFee the actual gas
    cost, in wei, where it expects gas units, so what moves from the sender is
    that cost multiplied by tx.gasprice once more. *)
Theorem uniswap_charges_price_twice {W} `{UniswapHost W} {T} `{ERC20Laws T}
    (m : msg) (u : address) (cost : Z) (ps : TokenPaymaster.state) (ls : Uniswap.state) (w : W) (t t' : T) :
  uint 160 u → u256 cost → u256 (tx_gasprice w) → paymentToken ps = WETH9 ls →
  TokenPaymaster._postOp (λ _, (ls, w)) m (abi_words [u]) cost ps t = Ok t' →
  moved t t' (WETH9 ls) u (self m) (cost * tx_gasprice w).
Proof.
  intros Hu Hc Hg Ht E. unfold TokenPaymaster._postOp in E. rewrite decode_sender_context, Ok_bind, Ht in E by done.
  apply bind_Ok in E as (fee & Hfee & E). apply bind_Ok in E as ([ok t''] & Etr & E).
  apply bind_Ok in E as ([] & Hok & E). apply require_Ok in Hok. simplify_eq.
  cbn in Hfee. unfold Uniswap.calculateFee, addr_eqb in Hfee. apply bind_Ok in Hfee as (b & Hb & Hfee).
  rewrite Z.eqb_refl in Hfee. injection Hfee as ->.
  rewrite mulDiv_ref_eq in Hb by (done || by vm_compute). apply mulDiv_ref_Ok in Hb as [-> _]. rewrite Z.div_1_r in Etr.
  eapply transferFrom_moves; [|exact Etr]. unfold uint in *. nia.
Qed.

(** ** Concrete runs *)
Section witnesses.
(** Two pools, at 500 and 3000, the second the deeper one. *)
#[local] Instance two_pools : UniswapHost unit := {|
  getPool _ _ _ f := Ok (if f =? 500 then 0xA else if f =? 3000 then 0xB else zero_address);
  pool_liquidity _ p := Ok (if p =? 0xA then 10 ^ 18 else 10 ^ 21);
  pool_sqrtPriceX96 _ _ := Ok (2 ^ 90);
  token_decimals _ _ := Ok 6;
  tx_gasprice _ := 10 ^ 9
|}.
Definition demo_msg_ : msg := {| msg_sender := 1; msg_value := 0; self := 2; chainid := 1; timestamp := 0 |}.
Definition demo_logic : Uniswap.state := Uniswap.deployed demo_msg_ 0xEEE 110 100.

Lemma findOptimalPool_optimal_witness :
  findOptimalPool 0x05DC demo_logic tt = Ok 3000 ∧ 3000 ∈ feeTiers demo_logic.
Proof.
  assert (Forall (λ t, 0 ≤ t) (feeTiers demo_logic)) as Ht by (repeat constructor; discriminate).
  assert (∀ p l, pool_liquidity tt p = Ok l → 0 ≤ l) as Hl by (intros p l [= <-]; destruct (p =? 0xA); lia).
  assert (findOptimalPool 0x05DC demo_logic tt = Ok 3000) as E by (vm_compute; reflexivity).
  split; [exact E|]. destruct (findOptimalPool_optimal 0x05DC demo_logic tt 3000 Ht Hl E) as [[Hz _]|[Hin _]].
  - discriminate Hz.
  - exact Hin.
Defined.

(** A cost of 10^14 wei is charged as 10^23 wei of WETH. *)
Definition weth_paymaster : TokenPaymaster.state := TokenPaymaster.deployed demo_msg_ 0x5FF1 0xD02F 0xEEE 9.
Definition rich : ledger := {[ (0xEEE, 5) := 10 ^ 24 ]}.
Definition charged : ledger :=
  match TokenPaymaster._postOp (λ _, (demo_logic, tt)) demo_msg_ (abi_words [5]) (10 ^ 14) weth_paymaster rich with
  | Ok t => t
  | Revert _ => rich
  end.
Lemma uniswap_charges_price_twice_witness : balanceOf charged 0xEEE 2 = 10 ^ 23.
Proof.
  pose proof (uniswap_charges_price_twice demo_msg_ 5 (10 ^ 14) weth_paymaster demo_logic tt rich charged) as Hm.
  rewrite (moved_to rich charged 0xEEE 5 2 (10 ^ 14 * 10 ^ 9)); [by vm_compute| |done].
  apply Hm; by vm_compute.
Defined.
End witnesses.
