(* ===== verification/UniswapHelper.v ===== *)
(** UniswapHelper (contracts/enclave-smart-account/paymaster/UniswapHelper.sol):
    the abstract contract that swaps a paymaster's tokens for wrapped ether.
    The tokens and the swap router are not part of the repository: they are
    operations on a world [W]. *)
From S2P Require Import Prelude Bytes Erc20.

(** [IERC20.approve]: token, caller, spender, amount. *)
Class ERC20Approve (W : Type) := approve : address → address → address → Z → W → res (bool * W).

(** [ISwapRouter.ExactInputSingleParams]. *)
Record ExactInputSingleParams := mkExactInputSingleParams {
  p_tokenIn : address; p_tokenOut : address; p_fee : Z; p_recipient : address;
  p_deadline : Z; p_amountIn : Z; p_amountOutMinimum : Z; p_sqrtPriceLimitX96 : Z
}.

(** The router at an address: whether there is code, its exactInputSingle (the
    raw return data) and its unwrapWETH9. *)
Class SwapRouter (W : Type) := {
  router_code : W → address → bool;
  exactInputSingle : address → address → ExactInputSingleParams → W → res (bytes * W);   (* router, caller *)
  unwrapWETH9 : address → address → Z → address → W → res W          (* router, caller, amountMinimum, recipient *)
}.

(** What Uniswap documents of exactInputSingle: it returns one word, at least
    the minimum asked for. *)
Class SwapRouterLaws (W : Type) `{SwapRouter W} :=
  router_min : ∀ r c ps w out w', exactInputSingle r c ps w = Ok (out, w') →
    ∃ v, out = abi_words [v] ∧ u256 v ∧ p_amountOutMinimum ps ≤ v.

Lemma abi_decode_word v : u256 v → abi_decode_uint256 (abi_words [v]) = Ok v.
Proof.
  intros Hv. unfold abi_decode_uint256. rewrite <- (app_nil_r (abi_words _)).
  exact (abi_word_at_words [v] [] 0 v eq_refl Hv).
Qed.

Module UniswapHelper.

Inductive event := UniswapReverted (tokenIn tokenOut : address) (amountIn amountOutMin : Z).

Definition PRICE_DENOMINATOR : Z := 10 ^ 26.

Record UniswapHelperConfig := mkConfig {
  minSwapAmount : Z;
  uniswapPoolFee : Z;                (* uint24 *)
  slippage : Z                       (* uint8 *)
}.
Record state := State {
  uniswap : address;
  token : address;
  wrappedNative : address;
  uniswapHelperConfig : UniswapHelperConfig
}.

Definition tokenToWei (amount price : Z) : res Z :=
  m ← cmul 256 amount price; cdiv m PRICE_DENOMINATOR.
Definition weiToToken (amount price : Z) : res Z :=
  m ← cmul 256 amount PRICE_DENOMINATOR; cdiv m price.

(** [1000 - slippage] is computed at 16 bits: the literal's type. *)
Definition addSlippage (amount slippage : Z) : res Z :=
  k ← csub 1000 slippage; m ← cmul 256 amount k; cdiv m 1000.

Definition _setUniswapHelperConfiguration (_uniswapHelperConfig : UniswapHelperConfig) (s : state) : state :=
  {| uniswap := uniswap s; token := token s; wrappedNative := wrappedNative s;
     uniswapHelperConfig := _uniswapHelperConfig |}.

Section helper.
Context {W : Type} `{ERC20 W} `{ERC20Approve W} `{SwapRouter W}.

(** The answer of [approve] is not looked at. *)
Definition constructor (m : msg) (_token _wrappedNative _uniswap : address)
    (_uniswapHelperConfig : UniswapHelperConfig) (w : W) : res (state * W) :=
  '(_, w) ← approve _token (self m) _uniswap (2 ^ 256 - 1) w;
  let s := {| uniswap := _uniswap; token := _token; wrappedNative := _wrappedNative;
              uniswapHelperConfig := mkConfig 0 0 0 |} in
  Ok (_setUniswapHelperConfiguration _uniswapHelperConfig s, w).

(** The events this call emits come with the result.  [try]: a router without
    code and an answer that does not decode revert here; a revert of the router
    itself is caught. *)
Definition swapToToken (m : msg) (s : state) (tokenIn tokenOut : address) (amountIn amountOutMin fee : Z) (w : W)
    : res (Z * list event * W) :=
  let params := mkExactInputSingleParams tokenIn tokenOut fee (uniswap s) (timestamp m) amountIn amountOutMin 0 in
  _ ← require_ (router_code w (uniswap s));
  match exactInputSingle (uniswap s) (self m) params w with
  | Ok (ret, w') => _amountOut ← abi_decode_uint256 ret; Ok (_amountOut, [], w')
  | Revert _ => Ok (0, [UniswapReverted tokenIn tokenOut amountIn amountOutMin], w)
  end.

Definition _maybeSwapTokenToWeth (m : msg) (s : state) (tokenIn : address) (quote : Z) (w : W)
    : res (Z * list event * W) :=
  let tokenBalance := balanceOf w tokenIn (self m) in
  v ← tokenToWei tokenBalance quote;
  amountOutMin ← addSlippage v (slippage (uniswapHelperConfig s));
  if amountOutMin <? minSwapAmount (uniswapHelperConfig s) then Ok (0, [], w)
  else swapToToken m s tokenIn (wrappedNative s) tokenBalance amountOutMin (uniswapPoolFee (uniswapHelperConfig s)) w.

Definition unwrapWeth (m : msg) (s : state) (amount : Z) (w : W) : res W :=
  unwrapWETH9 (uniswap s) (self m) amount (self m) w.

(** ** Conversions *)

Lemma PRICE_DENOMINATOR_pos : 0 < PRICE_DENOMINATOR.
Proof. done. Qed.
#[local] Opaque PRICE_DENOMINATOR.

Lemma tokenToWei_eq a q :
  tokenToWei a q = if a * q <? 2 ^ 256 then Ok (a * q / PRICE_DENOMINATOR) else Revert (Panic 0x11).
Proof.
  unfold tokenToWei, cmul. destruct (_ <? _); [|done]. rewrite Ok_bind. unfold cdiv.
  by rewrite (proj2 (Z.eqb_neq _ 0)) by (pose proof PRICE_DENOMINATOR_pos; lia).
Qed.
Lemma weiToToken_Ok a q t :
  weiToToken a q = Ok t ↔ a * PRICE_DENOMINATOR < 2 ^ 256 ∧ q ≠ 0 ∧ t = a * PRICE_DENOMINATOR / q.
Proof.
  unfold weiToToken. rewrite bind_Ok. setoid_rewrite cmul_Ok. setoid_rewrite cdiv_Ok. naive_solver.
Qed.

(** Converting wei to tokens and back loses less than one token unit's worth of
    wei plus one, and never gains: for every price for which both conversions
    return, the result lies in (amount - price / 1e26 - 1, amount]. *)
Theorem wei_token_wei (amount price t back : Z) :
  0 ≤ amount → 0 < price → weiToToken amount price = Ok t → tokenToWei t price = Ok back →
  back ≤ amount ∧ amount * PRICE_DENOMINATOR < (back + 1) * PRICE_DENOMINATOR + price.
Proof.
  intros Ha Hp [_ [_ ->]]%weiToToken_Ok E. rewrite tokenToWei_eq in E. destruct (_ <? _); [|done]. injection E as <-.
  pose proof PRICE_DENOMINATOR_pos. set (D := PRICE_DENOMINATOR) in *.
  pose proof (Z.mul_div_le (amount * D) price Hp). pose proof (Z.mul_succ_div_gt (amount * D) price Hp).
  set (t := amount * D / price) in *. pose proof (Z.mul_div_le (t * price) D ltac:(lia)).
  pose proof (Z.mul_succ_div_gt (t * price) D ltac:(lia)). set (b := t * price / D) in *. split; nia.
Qed.

Lemma addSlippage_eq a s :
  0 ≤ s ≤ 1000 → addSlippage a s = if a * (1000 - s) <? 2 ^ 256 then Ok (a * (1000 - s) / 1000) else Revert (Panic 0x11).
Proof.
  intros Hs. unfold addSlippage, csub, cmul. rewrite (proj2 (Z.leb_le s 1000)), Ok_bind by lia.
  by destruct (_ <? _).
Qed.

(** ** Swaps *)

(** The amount the swap asks for: the balance at the quote less the slippage. *)
Definition min_out (s : state) (bal quote : Z) : Z :=
  bal * quote / PRICE_DENOMINATOR * (1000 - slippage (uniswapHelperConfig s)) / 1000.

(** C35: _maybeSwapTokenToWeth, on a router that answers as Uniswap documents,
    (a) does nothing and returns 0 when the balance is worth less than
    minSwapAmount after slippage, (b) otherwise asks the router to swap the
    whole balance into wrapped native token at the configured pool fee, with the
    value of the balance less the configured slippage as the minimum, and returns
    exactly what the router answers, at least that minimum and so at least
    minSwapAmount, with the world the router leaves, or 0 with a UniswapReverted
    event and an unchanged world when that very call reverts.  With a router that
    has code and products below 2^256 it never reverts itself. *)
Theorem maybe_swap_outcome `{!SwapRouterLaws W} (m : msg) (s : state) (tokenIn : address) (quote : Z) (w : W) :
  let bal := balanceOf w tokenIn (self m) in
  let amin := min_out s bal quote in
  let cfg := uniswapHelperConfig s in
  let swap := exactInputSingle (uniswap s) (self m)
    (mkExactInputSingleParams tokenIn (wrappedNative s) (uniswapPoolFee cfg) (uniswap s) (timestamp m) bal amin 0) w in
  router_code w (uniswap s) = true → 0 ≤ slippage cfg < 256 →
  bal * quote < 2 ^ 256 → bal * quote / PRICE_DENOMINATOR * (1000 - slippage cfg) < 2 ^ 256 →
  ∃ out evs w', _maybeSwapTokenToWeth m s tokenIn quote w = Ok (out, evs, w') ∧
    (amin < minSwapAmount cfg ∧ out = 0 ∧ evs = [] ∧ w' = w ∨
     minSwapAmount cfg ≤ amin ∧
       (swap = Ok (abi_words [out], w') ∧ amin ≤ out ∧ evs = [] ∨
        (∃ e, swap = Revert e) ∧ out = 0 ∧ evs = [UniswapReverted tokenIn (wrappedNative s) bal amin] ∧ w' = w)).
Proof.
  intros bal amin cfg swap Hc Hs Hb Ha. unfold _maybeSwapTokenToWeth. fold bal cfg. cbv zeta.
  rewrite tokenToWei_eq, (proj2 (Z.ltb_lt _ _)), Ok_bind by done.
  rewrite addSlippage_eq, (proj2 (Z.ltb_lt _ _)), Ok_bind by (done || lia).
  change (bal * quote / PRICE_DENOMINATOR * (1000 - slippage cfg) / 1000) with amin.
  destruct (Z.ltb_spec amin (minSwapAmount cfg)) as [Hlt|Hge]; [exists 0, [], w; auto 10|].
  unfold swapToToken. rewrite Hc. cbn [require_]. rewrite Ok_bind. cbv zeta.
  fold swap. destruct swap as [[ret w']|e] eqn:E; [|eexists _, _, _; split; [reflexivity|]; eauto 10].
  destruct (router_min _ _ _ _ _ _ E) as (v & -> & Hv & Hmin). cbn [p_amountOutMinimum] in Hmin.
  rewrite abi_decode_word, Ok_bind by done. eexists _, _, _. split; [reflexivity|]. auto 10.
Qed.
End helper.

(** ** A concrete world

    The ledger with approvals that always succeed and a router that swaps one to
    one: it takes the input and credits the recipient, or reverts when the
    minimum is not met. *)
#[local] Instance ledger_approve : ERC20Approve ledger := λ _ _ _ _ w, Ok (true, w).
#[local] Instance ledger_router : SwapRouter ledger := {|
  router_code _ a := a =? 50;
  exactInputSingle r c ps w :=
    if bool_decide (u256 (p_amountIn ps)) && (p_amountOutMinimum ps <=? p_amountIn ps) then
      '(ok, w) ← ledger_move (p_tokenIn ps) c 60 (p_amountIn ps) w;
      _ ← require ok "STF";
      Ok (abi_words [p_amountIn ps], <[(p_tokenOut ps, p_recipient ps) :=
            ledger_get w (p_tokenOut ps) (p_recipient ps) + p_amountIn ps]> w)
    else Revert (Error "Too little received");
  unwrapWETH9 r c v to w := Ok w
|}.
#[local] Instance ledger_router_laws : SwapRouterLaws ledger.
Proof.
  intros r c ps w out w'. cbn. destruct (bool_decide _ && _) eqn:E; [|done]. guards. intros E'.
  apply bind_Ok in E' as ([ok w1] & _ & E'). inv_res. eauto.
Qed.

Definition cfg0 : UniswapHelperConfig := mkConfig 1000 3000 50.
Definition helper0 : state := {| uniswap := 50; token := 7; wrappedNative := 8; uniswapHelperConfig := cfg0 |}.
Definition msg0 : msg := {| msg_sender := 1; msg_value := 0; self := 2; chainid := 1; timestamp := 100 |}.

Lemma wei_token_wei_witness :
  weiToToken 1000001 (3 * 10 ^ 26) = Ok 333333 ∧ 999999 ≤ 1000001 ∧
  1000001 * PRICE_DENOMINATOR < (999999 + 1) * PRICE_DENOMINATOR + 3 * 10 ^ 26.
Proof.
  split; [by vm_compute|]. refine (wei_token_wei 1000001 (3 * 10 ^ 26) 333333 999999 _ _ _ _); by vm_compute.
Defined.

(** A balance of 5000 at price one: a swap, and with a tripled quote a minimum
    the pool does not meet. *)
Definition world0 : ledger := {[ (7, 2) := 5000 ]}.
Lemma maybe_swap_outcome_witness :
  (∃ w', _maybeSwapTokenToWeth msg0 helper0 7 (10 ^ 26) world0 = Ok (5000, [], w')) ∧
  _maybeSwapTokenToWeth msg0 helper0 7 (3 * 10 ^ 26) world0 = Ok (0, [UniswapReverted 7 8 5000 14250], world0) ∧
  let swap := exactInputSingle 50 2 (mkExactInputSingleParams 7 8 3000 50 100 5000 4750 0) world0 in
  ∃ out evs w', _maybeSwapTokenToWeth msg0 helper0 7 (10 ^ 26) world0 = Ok (out, evs, w') ∧
    (4750 < 1000 ∧ out = 0 ∧ evs = [] ∧ w' = world0 ∨
     1000 ≤ 4750 ∧
       (swap = Ok (abi_words [out], w') ∧ 4750 ≤ out ∧ evs = [] ∨
        (∃ e, swap = Revert e) ∧ out = 0 ∧ evs = [UniswapReverted 7 8 5000 4750] ∧ w' = world0)).
Proof.
  split; [eexists; by vm_compute|]. split; [by vm_compute|].
  refine (maybe_swap_outcome msg0 helper0 7 (10 ^ 26) world0 _ _ _ _); by vm_compute.
Defined.
End UniswapHelper.
