(* ===== verification/MockUSDC.v ===== *)
(** MockUSDC (contracts/MockUSDC.sol): an ERC-20 token anybody may mint and burn.
    OpenZeppelin's ERC20, which it inherits, is not part of the repository: it is
    the class [OZERC20] with the documented behaviour of version 4.9, and
    [Plain] an instance of it. *)
From S2P Require Import Prelude Bytes Erc20 UniswapHelper.

Class OZERC20 (T : Type) := {
  ERC20_constructor : string → string → T;
  oz_totalSupply : T → Z;
  oz_balanceOf : T → address → Z;
  oz_allowance : T → address → address → Z;                (* owner, spender *)
  oz_transfer : address → address → Z → T → res T;         (* caller, to *)
  oz_approve : address → address → Z → T → res T;          (* caller, spender *)
  oz_transferFrom : address → address → address → Z → T → res T;   (* caller, from, to *)
  _mint : address → Z → T → res T;
  _burn : address → Z → T → res T
}.

(** What OpenZeppelin documents of [_mint] and [_burn]. *)
Class OZERC20Laws (T : Type) `{OZERC20 T} := {
  new_supply : ∀ name symbol, oz_totalSupply (ERC20_constructor name symbol) = 0;
  new_balance : ∀ name symbol a, oz_balanceOf (ERC20_constructor name symbol) a = 0;
  mint_zero : ∀ v t, _mint zero_address v t = Revert (Error "ERC20: mint to the zero address");
  mint_overflow : ∀ a v t, a ≠ zero_address → 2 ^ 256 ≤ oz_totalSupply t + v → _mint a v t = Revert (Panic 0x11);
  mint_effect : ∀ a v t, a ≠ zero_address → oz_totalSupply t + v < 2 ^ 256 → ∃ t', _mint a v t = Ok t' ∧
    oz_totalSupply t' = oz_totalSupply t + v ∧
    ∀ b, oz_balanceOf t' b = oz_balanceOf t b + (if decide (b = a) then v else 0);
  burn_zero : ∀ v t, _burn zero_address v t = Revert (Error "ERC20: burn from the zero address");
  burn_exceeds : ∀ a v t, a ≠ zero_address → oz_balanceOf t a < v →
    _burn a v t = Revert (Error "ERC20: burn amount exceeds balance");
  burn_effect : ∀ a v t, a ≠ zero_address → v ≤ oz_balanceOf t a → ∃ t', _burn a v t = Ok t' ∧
    oz_totalSupply t' = oz_totalSupply t - v ∧
    ∀ b, oz_balanceOf t' b = oz_balanceOf t b - (if decide (b = a) then v else 0)
}.

Module MockUSDC.
Section contract.
Context {T : Type} `{OZERC20 T}.

Definition constructor (_name _symbol : string) : T := ERC20_constructor _name _symbol.
(** Neither looks at the caller. *)
Definition mint (m : msg) (_account : address) (_value : Z) (t : T) : res T := _mint _account _value t.
Definition burn (m : msg) (_account : address) (_value : Z) (t : T) : res T := _burn _account _value t.

(** Transactions on the token. *)
Inductive call :=
  | Mint (_account : address) (_value : Z)
  | Burn (_account : address) (_value : Z).
Definition exec (m : msg) (c : call) (t : T) : res T :=
  match c with Mint a v => mint m a v t | Burn a v => burn m a v t end.

(** What a list of transactions, failed ones without effect, leaves. *)
Fixpoint run_calls (cs : list (msg * call)) (t : T) : T :=
  match cs with
  | [] => t
  | (m, c) :: cs => run_calls cs (match exec m c t with Ok t' => t' | Revert _ => t end)
  end.

Context `{!OZERC20Laws T}.

(** MockUSDC gives no holder any protection: whoever the caller is, one
    transaction can destroy any holder's whole balance and one can create any
    amount the supply has room for, so after any history any caller can bring
    any non-zero account to any balance (within 256 bits of supply) without
    touching another account. *)
Theorem mock_usdc_unprotected (m : msg) (a : address) (v : Z) (t : T) :
  a ≠ zero_address → 0 ≤ v → oz_totalSupply t - oz_balanceOf t a + v < 2 ^ 256 →
  let t' := run_calls [(m, Burn a (oz_balanceOf t a)); (m, Mint a v)] t in
  oz_balanceOf t' a = v ∧ ∀ b, b ≠ a → oz_balanceOf t' b = oz_balanceOf t b.
Proof.
  intros Ha Hv Hs. cbn. unfold burn, mint.
  destruct (burn_effect a (oz_balanceOf t a) t Ha (Z.le_refl _)) as (t1 & -> & Hs1 & Hb1).
  destruct (mint_effect a v t1 Ha) as (t2 & -> & _ & Hb2); [lia|]. split.
  - rewrite Hb2, Hb1, !decide_True by done. lia.
  - intros b Hb. rewrite Hb2, Hb1, !decide_False by done. lia.
Qed.
End contract.
End MockUSDC.

(** ** A token as documented *)

Module Plain.
Record token := Token {
  supply : Z;
  balances : gmap address Z;
  allowances : gmap (address * address) Z
}.

Definition credit (a : address) (v : Z) (m : gmap address Z) : gmap address Z := <[a := mget 0 m a + v]> m.

Definition move (f to : address) (v : Z) (t : token) : res token :=
  _ ← require (negb (f =? zero_address)) "ERC20: transfer from the zero address";
  _ ← require (negb (to =? zero_address)) "ERC20: transfer to the zero address";
  _ ← require (v <=? mget 0 (balances t) f) "ERC20: transfer amount exceeds balance";
  Ok (Token (supply t) (credit to v (credit f (- v) (balances t))) (allowances t)).
Definition set_allowance (o sp : address) (v : Z) (t : token) : token :=
  Token (supply t) (balances t) (<[(o, sp) := v]> (allowances t)).
(** An allowance of 2^256 - 1 is not used up. *)
Definition spend (o sp : address) (v : Z) (t : token) : res token :=
  let cur := mget 0 (allowances t) (o, sp) in
  if cur =? 2 ^ 256 - 1 then Ok t
  else _ ← require (v <=? cur) "ERC20: insufficient allowance"; Ok (set_allowance o sp (cur - v) t).

#[global] Instance plain_oz : OZERC20 token := {|
  ERC20_constructor _ _ := Token 0 ∅ ∅;
  oz_totalSupply := supply;
  oz_balanceOf t a := mget 0 (balances t) a;
  oz_allowance t o sp := mget 0 (allowances t) (o, sp);
  oz_transfer c to v t := move c to v t;
  oz_approve c sp v t :=
    _ ← require (negb (c =? zero_address)) "ERC20: approve from the zero address";
    _ ← require (negb (sp =? zero_address)) "ERC20: approve to the zero address";
    Ok (set_allowance c sp v t);
  oz_transferFrom c f to v t := t ← spend f c v t; move f to v t;
  _mint a v t :=
    _ ← require (negb (a =? zero_address)) "ERC20: mint to the zero address";
    s ← cadd 256 (supply t) v;
    Ok (Token s (credit a v (balances t)) (allowances t));
  _burn a v t :=
    _ ← require (negb (a =? zero_address)) "ERC20: burn from the zero address";
    _ ← require (v <=? mget 0 (balances t) a) "ERC20: burn amount exceeds balance";
    Ok (Token (supply t - v) (credit a (- v) (balances t)) (allowances t))
|}.

Lemma credit_get a v m b : mget 0 (credit a v m) b = mget 0 m b + (if decide (b = a) then v else 0).
Proof. unfold credit. rewrite mget_insert. repeat case_decide; subst; try done; lia. Qed.

#[global] Instance plain_laws : OZERC20Laws token.
Proof.
  split; cbn.
  - done.
  - intros. apply mget_empty.
  - done.
  - intros a v t Ha Hs. rewrite (proj2 (Z.eqb_neq a _)) by done. cbn. unfold cadd.
    by rewrite (proj2 (Z.ltb_ge _ _)).
  - intros a v t Ha Hs. rewrite (proj2 (Z.eqb_neq a _)) by done. cbn. unfold cadd.
    rewrite (proj2 (Z.ltb_lt _ _)) by done. eexists. split; [done|]. split; [done|]. intros b. apply credit_get.
  - done.
  - intros a v t Ha Hv. rewrite (proj2 (Z.eqb_neq a _)) by done. cbn. by rewrite (proj2 (Z.leb_gt _ _)).
  - intros a v t Ha Hv. rewrite (proj2 (Z.eqb_neq a _)) by done. cbn. rewrite (proj2 (Z.leb_le _ _)) by done.
    eexists. split; [done|]. split; [done|]. intros b. cbn. rewrite credit_get. case_decide; lia.
Qed.

(** Tokens by address, as other contracts see them.  A call to an address
    without code reverts. *)
Definition on_token {A} (tk : address) (f : token → res (A * token)) (w : gmap address token)
    : res (A * gmap address token) :=
  match w !! tk with
  | Some t => '(a, t') ← f t; Ok (a, <[tk := t']> w)
  | None => Revert NoData
  end.
#[global] Instance tokens_erc20 : ERC20 (gmap address token) := {|
  balanceOf w tk h := match w !! tk with Some t => oz_balanceOf t h | None => 0 end;
  transfer tk c to v := on_token tk (λ t, t' ← oz_transfer c to v t; Ok (true, t'));
  transferFrom tk c f to v := on_token tk (λ t, t' ← oz_transferFrom c f to v t; Ok (true, t'))
|}.
#[global] Instance tokens_approve : ERC20Approve (gmap address token) := λ tk c sp v,
  on_token tk (λ t, t' ← oz_approve c sp v t; Ok (true, t')).
End Plain.

Lemma mock_usdc_unprotected_witness :
  let t := Plain.Token 30 {[ 5 := 10; 6 := 20 ]} ∅ in
  let m := {| msg_sender := 9; msg_value := 0; self := 1; chainid := 1; timestamp := 0 |} in
  let t' := MockUSDC.run_calls [(m, MockUSDC.Burn 5 10); (m, MockUSDC.Mint 5 3)] t in
  oz_balanceOf t' 5 = 3 ∧ ∀ b, b ≠ 5 → oz_balanceOf t' b = oz_balanceOf t b.
Proof.
  intros t m. refine (MockUSDC.mock_usdc_unprotected m 5 3 t _ _ _); by vm_compute.
Defined.
