(* ===== verification/MultiTokenPaymaster.v ===== *)
(** EnclaveMultiTokenPaymaster
    (contracts/enclave-smart-account/paymaster/EnclaveMultiTokenPaymaster.sol):
    the token paymaster with the payment token chosen per operation in
    [paymasterAndData]. *)
From S2P Require Import Prelude Bytes UserOperation VerifyingPaymaster FeeLogic Erc20.

Record state := State {
  entryPoint : address;
  owner : address;
  verifyingSigner : address;
  feeLogic : address;
  allowedPaymentTokens : gmap address bool;
  senderNonce : gmap address Z
}.

Inductive event :=
  | FeeLogicUpdated (oldFeeLogic newFeeLogic : address) (timestamp : Z)
  | PaymentTokenUpdated (paymentToken : address) (allowed : bool) (timestamp : Z).

Definition deployed (m : msg) (_entryPoint _verifyingSigner _feeLogic : address) : state :=
  {| entryPoint := _entryPoint; owner := msg_sender m; verifyingSigner := _verifyingSigner;
     feeLogic := _feeLogic; allowedPaymentTokens := ∅; senderNonce := ∅ |}.

Definition with_tokens (s : state) (t : gmap address bool) : state :=
  {| entryPoint := entryPoint s; owner := owner s; verifyingSigner := verifyingSigner s;
     feeLogic := feeLogic s; allowedPaymentTokens := t; senderNonce := senderNonce s |}.

Definition updateFeeLogic (m : msg) (_feeLogicContract : address) (s : state) : res (state * event) :=
  _ ← onlyOwner m (owner s);
  let s' := {| entryPoint := entryPoint s; owner := owner s; verifyingSigner := verifyingSigner s;
               feeLogic := _feeLogicContract; allowedPaymentTokens := allowedPaymentTokens s;
               senderNonce := senderNonce s |} in
  Ok (s', FeeLogicUpdated (feeLogic s') _feeLogicContract (timestamp m)).

Definition addPaymentToken (m : msg) (_paymentToken : address) (s : state) : res (state * event) :=
  _ ← onlyOwner m (owner s);
  Ok (with_tokens s (<[_paymentToken := true]> (allowedPaymentTokens s)),
      PaymentTokenUpdated _paymentToken true (timestamp m)).

Definition removePaymentToken (m : msg) (_paymentToken : address) (s : state) : res (state * event) :=
  _ ← onlyOwner m (owner s);
  Ok (with_tokens s (<[_paymentToken := false]> (allowedPaymentTokens s)),
      PaymentTokenUpdated _paymentToken false (timestamp m)).

Definition TOKEN_ADDRESS_OFFSET : nat := 20.
Definition VALID_TIMESTAMP_OFFSET : nat := 40.
Definition SIGNATURE_OFFSET : nat := 104.

Definition parsePaymasterAndData (paymasterAndData : bytes) : res (address * Z * Z * bytes) :=
  token ← slice paymasterAndData TOKEN_ADDRESS_OFFSET VALID_TIMESTAMP_OFFSET;
  times ← slice paymasterAndData VALID_TIMESTAMP_OFFSET SIGNATURE_OFFSET;
  '(validUntil, validAfter) ← abi_decode_uint48_uint48 times;
  signature ← slice_from paymasterAndData SIGNATURE_OFFSET;
  Ok (be_val token, validUntil, validAfter, signature).

Section validate.
Context `{EvmCrypto}.

Definition _validatePaymasterUserOp (m : msg) (u : UserOperation) (requiredPreFund : Z)
    (s : state) : res (state * (bytes * Z)) :=
  '(token, validUntil, validAfter, signature) ← parsePaymasterAndData (paymasterAndData u);
  _ ← require (mget false (allowedPaymentTokens s) token)
        "EnclaveVerifyingTokenPaymaster: token not allowed";
  _ ← require (sig_length_ok signature)
        "VerifyingPaymaster: invalid signature length in paymasterAndData";
  let hash := ECDSA.toEthSignedMessageHash (getHash m (senderNonce s) u validUntil validAfter) in
  nonces ← bump_nonce u (senderNonce s);
  let s' := {| entryPoint := entryPoint s; owner := owner s; verifyingSigner := verifyingSigner s;
               feeLogic := feeLogic s; allowedPaymentTokens := allowedPaymentTokens s;
               senderNonce := nonces |} in
  recovered ← ECDSA.recover hash signature;
  if negb (addr_eqb (verifyingSigner s) recovered)
  then Ok (s', (abi_words [sender u], _packValidationData true validUntil validAfter))
  else Ok (s', (abi_words [sender u], _packValidationData false validUntil validAfter)).
End validate.

Section charge.
Context {W : Type} `{ERC20 W}.
Context {L : Type} `{IEnclaveFeeLogic L} (logic_at : address → L).

Definition _postOp (m : msg) (context : bytes) (actualGasCost : Z) (s : state) (w : W) : res W :=
  '(sender, token) ← abi_decode_address_address context;
  charge ← calculateFee (logic_at (feeLogic s)) token actualGasCost;
  '(done, w') ← transferFrom token (self m) sender (self m) charge w;
  _ ← require done "EnclaveVerifyingTokenPaymaster: transfer failed";
  Ok w'.

Definition withdrawTokens (m : msg) (_token _to : address) (_amount : Z) (s : state) (w : W) : res W :=
  _ ← require (addr_eqb (msg_sender m) (verifyingSigner s)) "Only verifying signer can withdraw";
  '(done, w') ← transfer _token (self m) _to _amount w;
  _ ← require done "EnclaveVerifyingTokenPaymaster: withdraw failed";
  Ok w'.

Lemma validate_context `{EvmCrypto} m u pre s s' ctx vd :
  _validatePaymasterUserOp m u pre s = Ok (s', (ctx, vd)) → ctx = abi_words [sender u].
Proof.
  unfold _validatePaymasterUserOp. intros E. apply bind_Ok in E as ([[[tk vu] va] sig] & _ & E).
  apply bind_Ok in E as ([] & _ & E). apply bind_Ok in E as ([] & _ & E).
  apply bind_Ok in E as (nn & _ & E). apply bind_Ok in E as (rc & _ & E).
  destruct (negb _); by simplify_eq.
Qed.

(** C39: The multi-token paymaster never gets paid: the context its validation
    returns is one word (the sender), while its [_postOp] decodes two (sender
    and token), so [_postOp] reverts after every operation it sponsored,
    whatever the fee logic, the token and the gas cost. *)
Theorem multi_token_post_op_always_reverts `{EvmCrypto} m m' u pre s s'' s' ctx vd gas (w : W) :
  _validatePaymasterUserOp m u pre s = Ok (s', (ctx, vd)) →
  _postOp m' ctx gas s'' w = Revert NoData.
Proof.
  intros E. apply validate_context in E as ->. unfold _postOp, abi_decode_address_address.
  by rewrite length_abi_words.
Qed.
End charge.

(** ** The token is not signed *)

Definition token_data (paymaster token validUntil validAfter : Z) (signature : bytes) : bytes :=
  be_bytes 20 paymaster ++ be_bytes 20 token ++ abi_words [validUntil; validAfter] ++ signature.

Lemma parse_token_data pm tk vu va sig :
  uint 160 tk → uint 48 vu → uint 48 va →
  parsePaymasterAndData (token_data pm tk vu va sig) = Ok (tk, vu, va, sig).
Proof.
  intros Ht Hu Ha. unfold parsePaymasterAndData, token_data.
  set (A := be_bytes 20 pm). assert (length A = 20%nat) as HA by apply length_be_bytes.
  set (T := be_bytes 20 tk). assert (length T = 20%nat) as HT by apply length_be_bytes.
  set (Wd := abi_words [vu; va]). assert (length Wd = 64%nat) as HW by apply length_abi_words.
  rewrite (proj2 (slice_Ok _ 20 40 T)).
  2:{ rewrite !length_app, HA, HT, HW. split; [lia|].
      rewrite drop_app_length' by done. rewrite take_app_length'; [done|]. lia. }
  rewrite Ok_bind, (proj2 (slice_Ok _ 40 104 Wd)).
  2:{ rewrite !length_app, HA, HT, HW. split; [lia|].
      rewrite app_assoc, drop_app_length' by (rewrite length_app; lia).
      rewrite take_app_length'; [done|]. lia. }
  rewrite Ok_bind. subst Wd. rewrite decode_window, Ok_bind by done.
  rewrite (proj2 (slice_from_Ok _ 104 sig)).
  2:{ rewrite !length_app, HA, HT, HW. split; [lia|].
      rewrite !app_assoc, drop_app_length'; [done|]. rewrite !length_app. lia. }
  rewrite Ok_bind. subst T. rewrite be_val_be_bytes, Z.mod_small; [done|].
  change (256 ^ Z.of_nat 20) with (2 ^ 160). apply Ht.
Qed.

(** The operation [u] with other paymaster data: nothing else changes. *)
Definition with_pmd (u : UserOperation) (d : bytes) : UserOperation :=
  {| sender := sender u; nonce := nonce u; initCode := initCode u; callData := callData u;
     callGasLimit := callGasLimit u; verificationGasLimit := verificationGasLimit u;
     preVerificationGas := preVerificationGas u; maxFeePerGas := maxFeePerGas u;
     maxPriorityFeePerGas := maxPriorityFeePerGas u; paymasterAndData := d;
     signature := signature u |}.

(** The paymaster signature does not cover the payment token: with two
    allowed tokens, replacing the token in [paymasterAndData] under the same
    window and signature gives the very same validation result, so the sender
    can substitute any other allowed token for the one the signer approved. *)
Theorem payment_token_is_malleable `{EvmCrypto} m u pre s pm pm' tk tk' vu va sig :
  uint 160 tk → uint 160 tk' → uint 48 vu → uint 48 va →
  mget false (allowedPaymentTokens s) tk = true →
  mget false (allowedPaymentTokens s) tk' = true →
  _validatePaymasterUserOp m (with_pmd u (token_data pm tk vu va sig)) pre s =
  _validatePaymasterUserOp m (with_pmd u (token_data pm' tk' vu va sig)) pre s.
Proof.
  intros Ht Ht' Hu Ha Hal Hal'. unfold _validatePaymasterUserOp. cbn [paymasterAndData with_pmd].
  by rewrite !parse_token_data, !Ok_bind, Hal, Hal' by done.
Qed.

Section witness.
#[local] Existing Instance sample_crypto.
Definition mt_msg : msg :=
  {| msg_sender := 0xD02F; msg_value := 0; self := 0x2092; chainid := 42161; timestamp := 0 |}.
Definition mt_state : state :=
  with_tokens (deployed mt_msg 0x5FF1 0xD02F 0x859F) (<[0xaf88 := true]> (<[0x94b0 := true]> ∅)).
Definition mt_sig : bytes := word 0xD02F ++ word 1 ++ [27].
Definition mt_op (tk : address) : UserOperation :=
  with_pmd (sample_op 0xd11b []) (token_data 0x2092 tk 1700003600 1700000000 mt_sig).
Definition mt_run : state * (bytes * Z) :=
  match _validatePaymasterUserOp mt_msg (mt_op 0xaf88) 0 mt_state with
  | Ok r => r | Revert _ => (mt_state, ([], 0)) end.

Lemma multi_token_post_op_always_reverts_witness :
  aggregator (_parseValidationData mt_run.2.2) = 0 ∧
  _postOp (λ _, Testnet.deployed) mt_msg mt_run.2.1 77 mt_run.1 (∅ : ledger) = Revert NoData.
Proof.
  split; [by vm_compute|].
  apply (multi_token_post_op_always_reverts (λ _, Testnet.deployed) mt_msg mt_msg (mt_op 0xaf88) 0
           mt_state mt_run.1 mt_run.1 mt_run.2.1 mt_run.2.2). vm_compute. reflexivity.
Defined.

Lemma payment_token_is_malleable_witness :
  is_ok (_validatePaymasterUserOp mt_msg (mt_op 0xaf88) 0 mt_state) = true ∧
  _validatePaymasterUserOp mt_msg (mt_op 0xaf88) 0 mt_state =
  _validatePaymasterUserOp mt_msg (mt_op 0x94b0) 0 mt_state.
Proof.
  split; [by vm_compute|].
  apply (payment_token_is_malleable mt_msg (sample_op 0xd11b []) 0 mt_state 0x2092 0x2092 0xaf88 0x94b0
           1700003600 1700000000 mt_sig); by vm_compute.
Defined.
End witness.
