(* ===== verification/SolverPaymaster.v ===== *)
(** EnclaveSolverPaymaster V0 and V1
    (contracts/enclave-smart-balance/v0/EnclaveSolverPaymasterV0.sol and V1.sol):
    sponsor a solver's operation and send it tokens during validation.  The two
    versions differ in [getHash] only; [parsePaymasterAndData] and
    [_validatePaymasterUserOp] are the same text. *)
From S2P Require Import Prelude Bytes UserOperation VerifyingPaymaster Erc20.

Definition VALID_TIMESTAMP_OFFSET : nat := 20.
Definition SIGNATURE_OFFSET : nat := 84.
Definition TOKEN_ADDRESS_OFFSET : nat := 148.
Definition AMOUNT_OFFSET : nat := 212.

Definition parsePaymasterAndData (paymasterAndData : bytes) : res (Z * Z * bytes * address * Z) :=
  times ← slice paymasterAndData VALID_TIMESTAMP_OFFSET SIGNATURE_OFFSET;
  '(validUntil, validAfter) ← abi_decode_uint48_uint48 times;
  signature ← slice paymasterAndData SIGNATURE_OFFSET TOKEN_ADDRESS_OFFSET;
  token ← slice paymasterAndData TOKEN_ADDRESS_OFFSET AMOUNT_OFFSET;
  tokenAddress ← abi_decode_address token;
  rest ← slice_from paymasterAndData AMOUNT_OFFSET;
  amount ← abi_decode_uint256 rest;
  Ok (validUntil, validAfter, signature, tokenAddress, amount).

Inductive event :=
  SolverSponsored (solver tokenAddress : address) (amount : Z) (paymaster : address).

Section crypto.
Context `{EvmCrypto} {W : Type} `{ERC20 W}.

Section validate.
(** The [getHash] of the version. *)
Variable getHash : msg → gmap address Z → UserOperation → Z → Z → address → Z → Z.

Definition _validatePaymasterUserOp (m : msg) (u : UserOperation) (requiredPreFund : Z)
    (s : VerifyingPaymaster.state) (w : W) : res (VerifyingPaymaster.state * W * list event * (bytes * Z)) :=
  '(validUntil, validAfter, signature, _tokenAddress, _amount) ← parsePaymasterAndData (paymasterAndData u);
  _ ← require (sig_length_ok signature)
        "VerifyingPaymaster: invalid signature length in paymasterAndData";
  let hash := ECDSA.toEthSignedMessageHash
                (getHash m (senderNonce s) u validUntil validAfter _tokenAddress _amount) in
  nonces ← bump_nonce u (senderNonce s);
  let s' := {| entryPoint := entryPoint s; owner := owner s;
               verifyingSigner := verifyingSigner s; senderNonce := nonces |} in
  recovered ← ECDSA.recover hash signature;
  if negb (addr_eqb (verifyingSigner s) recovered)
  then Ok (s', w, [], ([], _packValidationData true validUntil validAfter))
  else
    '(sent, w') ← transferFrom _tokenAddress (self m) (self m) (sender u) _amount w;
    _ ← require sent "Solver Sponsor failed";
    Ok (s', w', [SolverSponsored (sender u) _tokenAddress _amount (self m)],
        ([], _packValidationData false validUntil validAfter)).

Lemma parse_signature_length d vu va sig tk am :
  parsePaymasterAndData d = Ok (vu, va, sig, tk, am) → length sig = 64%nat.
Proof.
  intros E. unfold parsePaymasterAndData in E.
  apply bind_Ok in E as (t & _ & E). apply bind_Ok in E as ([? ?] & _ & E).
  apply bind_Ok in E as (sg & Hs & E). apply slice_Ok in Hs as [[_ Hl] ->].
  apply bind_Ok in E as (tb & _ & E). apply bind_Ok in E as (ta & _ & E).
  apply bind_Ok in E as (rs & _ & E). apply bind_Ok in E as (av & _ & E). simplify_eq.
  rewrite length_take, length_drop. unfold SIGNATURE_OFFSET, TOKEN_ADDRESS_OFFSET in *. lia.
Qed.

Lemma validate_reverts m u pre s (w : W) :
  is_ok (_validatePaymasterUserOp m u pre s w) = false.
Proof.
  unfold _validatePaymasterUserOp.
  destruct (parsePaymasterAndData (paymasterAndData u)) as [[[[[vu va] sig] tk] am]|r] eqn:E; [|done].
  rewrite Ok_bind. destruct (require (sig_length_ok sig) _) as [[]|]; [|done].
  rewrite Ok_bind. destruct (bump_nonce u (senderNonce s)) as [n|]; [|done]. rewrite Ok_bind.
  rewrite ECDSA.recover_bad_length; [done|]. apply parse_signature_length in E. lia.
Qed.
End validate.
End crypto.

Module V0.
Section crypto.
Context `{EvmCrypto}.
Definition signed_bytes (m : msg) (nonces : gmap address Z) (u : UserOperation)
    (validUntil validAfter : Z) (_tokenAddress : address) (_amount : Z) : bytes :=
  abi_words [256; chainid m; self m; mget 0 nonces (sender u); validUntil; validAfter;
             _tokenAddress; _amount]
  ++ abi_tail (pack u).
Definition getHash m nonces u validUntil validAfter _tokenAddress _amount : Z :=
  keccak256 (signed_bytes m nonces u validUntil validAfter _tokenAddress _amount).
End crypto.
End V0.

Module V1.
Section crypto.
Context `{EvmCrypto}.
Definition signed_bytes (m : msg) (nonces : gmap address Z) (u : UserOperation)
    (validUntil validAfter : Z) (_tokenAddress : address) (_amount : Z) : bytes :=
  abi_words [sender u; chainid m; self m; mget 0 nonces (sender u); validUntil; validAfter;
             _tokenAddress; _amount].
Definition getHash m nonces u validUntil validAfter _tokenAddress _amount : Z :=
  keccak256 (signed_bytes m nonces u validUntil validAfter _tokenAddress _amount).
End crypto.
End V1.

(** C40: Neither solver paymaster can sponsor anything: the signature is the
    64-byte slice [84:148] of the paymaster data, and ECDSA accepts 65-byte
    signatures only, so validation reverts for every operation, caller,
    configuration and token world. *)
Theorem solver_paymaster_never_validates `{EvmCrypto} {W : Type} `{ERC20 W} m u pre s (w : W) :
  is_ok (_validatePaymasterUserOp V0.getHash m u pre s w) = false ∧
  is_ok (_validatePaymasterUserOp V1.getHash m u pre s w) = false.
Proof. split; apply validate_reverts. Qed.

Lemma v1_head_range m n u vu va tk am :
  wf_msg m → wf_nonces n → uint 160 (sender u) → uint 48 vu → uint 48 va → uint 160 tk → u256 am →
  Forall u256 [sender u; chainid m; self m; mget 0 n (sender u); vu; va; tk; am].
Proof.
  intros [Hc Hs] Hn Hu Hvu Hva Ht Ha. repeat (apply Forall_cons; split); auto; try done;
    eapply uint_le; done.
Qed.

(** The V1 signature commits to exactly the chain, the paymaster, the
    sender, its paymaster nonce, the window, the token and the amount, and to
    nothing else of the operation: on one message and state, two operations
    (with windows, tokens and amounts in range) have the same signed bytes if
    and only if sender, window, token and amount agree. *)
Theorem v1_signature_commitment `{EvmCrypto} m n u u' vu va tk am vu' va' tk' am' :
  wf_msg m → wf_nonces n → wf_op u → wf_op u' →
  uint 48 vu → uint 48 va → uint 160 tk → u256 am →
  uint 48 vu' → uint 48 va' → uint 160 tk' → u256 am' →
  V1.signed_bytes m n u vu va tk am = V1.signed_bytes m n u' vu' va' tk' am' ↔
  (sender u, vu, va, tk, am) = (sender u', vu', va', tk', am').
Proof.
  intros Hm Hn Hu Hu' ? ? ? ? ? ? ? ?. unfold V1.signed_bytes. split.
  - intros E. apply abi_words_inj in E; [congruence|apply v1_head_range; done || apply Hu|].
    apply v1_head_range; done || apply Hu'.
  - intros [= -> -> -> -> ->]. done.
Qed.

Section witness.
#[local] Existing Instance sample_crypto.
Lemma v1_signature_commitment_witness :
  V1.signed_bytes demo_msg ∅ demo_op 9 8 7 6 =
  V1.signed_bytes demo_msg ∅ (sample_op 0xd11b [1; 2; 3]) 9 8 7 6.
Proof.
  apply (v1_signature_commitment demo_msg ∅ demo_op (sample_op 0xd11b [1; 2; 3]) 9 8 7 6 9 8 7 6);
    try exact demo_nonces; try (apply (bool_decide_unpack _); by vm_compute); by vm_compute.
Defined.
End witness.
