(* ===== verification/NFTPaymaster.v ===== *)
(** Sponsorship for NFT holders
    (contracts/enclave-smart-account/paymaster/{NFTGasLogic, GasNFT,
    EnclaveVerifyingNFTPaymaster}.sol, enclave-smart-balance/TestNFT.sol): a paymaster that pays for operations of
    the holders of an NFT, up to limits a gas-logic contract keeps per holder.

    OpenZeppelin's ERC721 is not part of the repository: its balances are the
    class [ERC721View], the ledger GasNFT mints in the class [ERC721Ledger]. *)
From S2P Require Import Prelude Bytes UserOperation VerifyingPaymaster FeeLogic Erc20 TokenPaymaster.

(** [IERC721(nft).balanceOf(user)] *)
Class ERC721View (W : Type) := nft_balanceOf : address → address → W → res Z.

(** The interface IEnclaveNFTGasLogic, at an address. *)
Class IEnclaveNFTGasLogic (W : Type) := {
  call_isEligible : address → address → address → Z → W → res bool;
  call_applyLogic : address → address → address → Z → W → res (bool * W)
}.

(** ** NFTGasLogic.sol *)
Module NFTGasLogic.
Record SponsoredData := Sponsored { count : Z; totalAmount : Z }.
Record state := State {
  sponsoredTransactionsByNFT : gmap (address * address) SponsoredData;   (* by nft, then user *)
  transactionLimitByNFT : gmap address Z;
  gasValueLimitByNFT : gmap address Z
}.
Definition deployed : state := State ∅ ∅ ∅.
Definition sponsored (s : state) (nft user : address) : SponsoredData :=
  mget (Sponsored 0 0) (sponsoredTransactionsByNFT s) (nft, user).

(** [balance]: what the NFT contract's balanceOf answers. *)
Definition isEligible (balance : address → address → res Z) (user nft : address) (gasAmount : Z) (s : state) : res bool :=
  b ← balance nft user;
  if negb (0 <? b) then Ok false
  else if negb (count (sponsored s nft user) <? mget 0 (transactionLimitByNFT s) nft) then Ok false
  else
    total ← cadd 256 gasAmount (totalAmount (sponsored s nft user));
    Ok (total <=? mget 0 (gasValueLimitByNFT s) nft).

Definition applyLogic (balance : address → address → res Z) (user nft : address) (gasAmount : Z) (s : state)
    : res (bool * state) :=
  ok ← isEligible balance user nft gasAmount s;
  _ ← require ok "Not eligible for sponsorship";
  c ← cadd 256 (count (sponsored s nft user)) 1;
  t ← cadd 256 (totalAmount (sponsored s nft user)) gasAmount;
  Ok (true, {| sponsoredTransactionsByNFT := <[(nft, user) := Sponsored c t]> (sponsoredTransactionsByNFT s);
               transactionLimitByNFT := transactionLimitByNFT s; gasValueLimitByNFT := gasValueLimitByNFT s |}).

Definition addOrUpdateNFTLimits (nft : address) (transactionLimit gasValueLimit : Z) (s : state) : state :=
  {| sponsoredTransactionsByNFT := sponsoredTransactionsByNFT s;
     transactionLimitByNFT := <[nft := transactionLimit]> (transactionLimitByNFT s);
     gasValueLimitByNFT := <[nft := gasValueLimit]> (gasValueLimitByNFT s) |}.

(** A transaction of anybody; the balances may differ from one to the next. *)
Inductive call :=
  | ApplyLogic (balance : address → address → res Z) (user nft : address) (gasAmount : Z)
  | AddOrUpdateNFTLimits (nft : address) (transactionLimit gasValueLimit : Z).
Definition exec_call (c : call) (s : state) : state :=
  match c with
  | ApplyLogic balance user nft gas => match applyLogic balance user nft gas s with Ok (_, s') => s' | Revert _ => s end
  | AddOrUpdateNFTLimits nft t g => addOrUpdateNFTLimits nft t g s
  end.

Lemma isEligible_true balance user nft gas s :
  isEligible balance user nft gas s = Ok true ↔
  (∃ b, balance nft user = Ok b ∧ 0 < b) ∧
  count (sponsored s nft user) < mget 0 (transactionLimitByNFT s) nft ∧
  gas + totalAmount (sponsored s nft user) < 2 ^ 256 ∧
  gas + totalAmount (sponsored s nft user) ≤ mget 0 (gasValueLimitByNFT s) nft.
Proof.
  unfold isEligible. split.
  - intros E. apply bind_Ok in E as (b & Hb & E). destruct (0 <? b) eqn:Eb; cbn in E; [|done].
    destruct (count _ <? _) eqn:Ec; cbn in E; [|done]. apply bind_Ok in E as (t & Ht & E).
    apply cadd_Ok in Ht as [-> Ht]. injection E as E. guards. split_and!; eauto.
  - intros ([b [-> Hb]] & Hc & Ht & Hg). rewrite Ok_bind. apply Z.ltb_lt in Hb as ->, Hc as ->. cbn.
    rewrite (proj2 (cadd_Ok _ _ _ _) (conj eq_refl Ht)), Ok_bind. apply Z.leb_le in Hg. by rewrite Hg.
Qed.

Lemma applyLogic_Ok balance user nft gas s s' ok :
  applyLogic balance user nft gas s = Ok (ok, s') →
  isEligible balance user nft gas s = Ok true ∧ ok = true ∧
  s' = {| sponsoredTransactionsByNFT := <[(nft, user) := Sponsored (count (sponsored s nft user) + 1)
                                            (totalAmount (sponsored s nft user) + gas)]> (sponsoredTransactionsByNFT s);
          transactionLimitByNFT := transactionLimitByNFT s; gasValueLimitByNFT := gasValueLimitByNFT s |}.
Proof.
  unfold applyLogic. intros E. apply bind_Ok in E as (e & He & E). apply bind_Ok in E as ([] & Hr & E).
  apply require_Ok in Hr. subst e. apply bind_Ok in E as (c & Hc & E). apply bind_Ok in E as (t & Ht & E).
  apply cadd_Ok in Hc as [-> _]. apply cadd_Ok in Ht as [-> _]. by simplify_eq.
Qed.

Lemma applyLogic_eligible balance user nft gas s :
  isEligible balance user nft gas s = Ok true → u256 (mget 0 (transactionLimitByNFT s) nft) →
  ∃ s', applyLogic balance user nft gas s = Ok (true, s').
Proof.
  intros He Hl. pose proof He as (_ & Hc & Ht & _)%isEligible_true. unfold applyLogic, uint in *.
  rewrite He, Ok_bind. cbn [require]. rewrite Ok_bind.
  rewrite (proj2 (cadd_Ok 256 (count (sponsored s nft user)) 1 _)) by (split; [reflexivity|lia]). rewrite Ok_bind.
  rewrite (proj2 (cadd_Ok 256 (totalAmount (sponsored s nft user)) gas _)) by (split; [reflexivity|lia]). rewrite Ok_bind.
  eauto.
Qed.

Lemma sponsored_insert s nft user d nft' user' tl gl :
  sponsored (State (<[(nft, user) := d]> (sponsoredTransactionsByNFT s)) tl gl) nft' user' =
    if decide ((nft, user) = (nft', user')) then d else sponsored s nft' user'.
Proof. unfold sponsored. cbn. rewrite mget_insert. repeat case_decide; congruence. Qed.

(** What a holder got: the gas amounts applied for them, in order. *)
Definition applied (nft user : address) (c : call) (s : state) : list Z :=
  match c with
  | ApplyLogic balance u n gas =>
      if bool_decide ((n, u) = (nft, user)) && is_ok (applyLogic balance u n gas s) then [gas] else []
  | AddOrUpdateNFTLimits _ _ _ => []
  end.
Fixpoint history (nft user : address) (cs : list call) (s : state) : state * list Z :=
  match cs with
  | [] => (s, [])
  | c :: cs => let '(s', l) := history nft user cs (exec_call c s) in (s', applied nft user c s ++ l)
  end.
(** The limits every call sets for [nft] stay within T transactions and G gas. *)
Definition limits_within (nft T G : Z) (c : call) : Prop :=
  match c with AddOrUpdateNFTLimits n t g => n = nft → t ≤ T ∧ g ≤ G | _ => True end.

Definition within (nft user T G : Z) (s : state) (l : list Z) : Prop :=
  sponsored s nft user = Sponsored (Z.of_nat (length l)) (foldr Z.add 0 l) ∧
  mget 0 (transactionLimitByNFT s) nft ≤ T ∧ mget 0 (gasValueLimitByNFT s) nft ≤ G ∧
  Z.of_nat (length l) ≤ T ∧ foldr Z.add 0 l ≤ G.

Lemma exec_within nft user T G c s l :
  limits_within nft T G c → within nft user T G s l →
  within nft user T G (exec_call c s) (l ++ applied nft user c s).
Proof.
  intros Hc (Hs & Ht & Hg & Hn & Hl). destruct c as [balance u n gas|n t g]; cbn.
  - destruct (applyLogic balance u n gas s) as [[ok s']|r] eqn:E; cbn.
    2:{ rewrite andb_false_r, app_nil_r. done. }
    rewrite andb_true_r. apply applyLogic_Ok in E as (He & _ & ->). unfold within. rewrite sponsored_insert. cbn.
    apply isEligible_true in He as (_ & Hc' & _ & Hg'). repeat case_decide; simplify_eq.
    + rewrite bool_decide_true by done. rewrite Hs in *. cbn in *. rewrite length_app, foldr_app. cbn.
      assert (foldr Z.add (gas + 0) l = foldr Z.add 0 l + gas) as ->.
      { clear. induction l as [|x l IH]; cbn; lia. }
      repeat split; try lia. f_equal; lia.
    + rewrite bool_decide_false by done. rewrite app_nil_r. done.
  - rewrite app_nil_r. unfold within. cbn. rewrite !mget_insert. unfold sponsored in *. cbn.
    case_decide; [|done]. specialize (Hc ltac:(done)). tauto.
Qed.

Lemma history_within nft user T G cs s l :
  Forall (limits_within nft T G) cs → within nft user T G s l →
  within nft user T G (history nft user cs s).1 (l ++ (history nft user cs s).2).
Proof.
  intros Hc. revert s l. induction Hc as [|c cs Hc _ IH]; intros s l Hw; cbn; [by rewrite app_nil_r|].
  specialize (IH (exec_call c s) _ (exec_within _ _ _ _ _ _ _ Hc Hw)).
  destruct (history nft user cs (exec_call c s)) as [s' l']. cbn in *. by rewrite app_assoc.
Qed.
End NFTGasLogic.

(** ** EnclaveVerifyingNFTPaymaster.sol *)

Record state := State {
  entryPoint : address;
  owner : address;
  verifyingSigner : address;
  nft : address;
  gasLogic : address;
  senderNonce : gmap address Z
}.
Inductive event := NFTUpdated (oldNFT newNFT : address) (timestamp : Z).

Definition deployed (m : msg) (_entryPoint _verifyingSigner _nft _gasLogic : address) : state :=
  {| entryPoint := _entryPoint; owner := msg_sender m; verifyingSigner := _verifyingSigner;
     nft := _nft; gasLogic := _gasLogic; senderNonce := ∅ |}.

Definition updateNFT (m : msg) (_nft : address) (s : state) : res (state * event) :=
  _ ← onlyOwner m (owner s);
  Ok ({| entryPoint := entryPoint s; owner := owner s; verifyingSigner := verifyingSigner s;
         nft := _nft; gasLogic := gasLogic s; senderNonce := senderNonce s |},
      NFTUpdated zero_address _nft (timestamp m)).

Section paymaster.
Context {W : Type} `{ERC721View W} `{IEnclaveNFTGasLogic W} `{EvmCrypto}.

Definition _validatePaymasterUserOp (m : msg) (u : UserOperation) (requiredPreFund : Z)
    (s : state) (w : W) : res (state * (bytes * Z)) :=
  b ← nft_balanceOf (nft s) (sender u) w;
  _ ← require (0 <? b) "User does not have the NFT";
  ok ← call_isEligible (gasLogic s) (sender u) (nft s) requiredPreFund w;
  _ ← require ok "User is not eligible for gas payment";
  '(validUntil, validAfter, signature) ← parsePaymasterAndData (paymasterAndData u);
  _ ← require (sig_length_ok signature)
        "VerifyingPaymaster: invalid signature length in paymasterAndData";
  let hash := ECDSA.toEthSignedMessageHash (getHash m (senderNonce s) u validUntil validAfter) in
  nonces ← bump_nonce u (senderNonce s);
  let s' := {| entryPoint := entryPoint s; owner := owner s; verifyingSigner := verifyingSigner s;
               nft := nft s; gasLogic := gasLogic s; senderNonce := nonces |} in
  recovered ← ECDSA.recover hash signature;
  if negb (addr_eqb (verifyingSigner s) recovered)
  then Ok (s', (abi_words [sender u], _packValidationData true validUntil validAfter))
  else Ok (s', (abi_words [sender u], _packValidationData false validUntil validAfter)).

Definition _postOp (context : bytes) (actualGasCost : Z) (s : state) (w : W) : res W :=
  sender ← abi_decode_address context;
  '(_, w') ← call_applyLogic (gasLogic s) sender (nft s) actualGasCost w;
  Ok w'.

Lemma validate_eligible m u pre s s' ctx vd (w : W) :
  _validatePaymasterUserOp m u pre s w = Ok (s', (ctx, vd)) →
  call_isEligible (gasLogic s) (sender u) (nft s) pre w = Ok true ∧
  ctx = abi_words [sender u] ∧ nft s' = nft s ∧ gasLogic s' = gasLogic s.
Proof.
  unfold _validatePaymasterUserOp. intros E. apply bind_Ok in E as (b & _ & E). apply bind_Ok in E as ([] & _ & E).
  apply bind_Ok in E as (ok & Hok & E). apply bind_Ok in E as ([] & Ht & E). apply require_Ok in Ht. subst ok.
  apply bind_Ok in E as ([[vu va] sig] & _ & E). apply bind_Ok in E as ([] & _ & E).
  apply bind_Ok in E as (nn & _ & E). apply bind_Ok in E as (rc & _ & E). split; [done|].
  destruct (negb _); by simplify_eq.
Qed.
End paymaster.

(** ** The paymaster over NFTGasLogic *)

(** The gas logic's state and the NFT's balances. *)
Record world := World { logic : NFTGasLogic.state; balances : address → address → res Z }.
#[global] Instance world_nft : ERC721View world := λ nft user w, balances w nft user.
#[global] Instance world_logic : IEnclaveNFTGasLogic world := {|
  call_isEligible _ user nft gas w := NFTGasLogic.isEligible (balances w) user nft gas (logic w);
  call_applyLogic _ user nft gas w :=
    '(ok, l) ← NFTGasLogic.applyLogic (balances w) user nft gas (logic w);
    Ok (ok, World l (balances w))
|}.

Lemma post_op_world u gas s (w : world) :
  uint 160 u → _postOp (abi_words [u]) gas s w =
    (λ r, World r.2 (balances w)) <$> NFTGasLogic.applyLogic (balances w) u (nft s) gas (logic w).
Proof.
  intros Hu. unfold _postOp. rewrite decode_sender_context, Ok_bind by done. cbn.
  by destruct (NFTGasLogic.applyLogic _ _ _ _ _) as [[]|].
Qed.

(** C28: Sponsorship stays within its limits: from a new NFTGasLogic, along any
    sequence of calls by anybody, if every limit set for an NFT is at most T
    transactions and G gas, then a holder was sponsored at most T times and for
    at most G gas in total, and the contract's record of both is exact. *)
Theorem sponsorship_bounded (nft user T G : Z) (cs : list NFTGasLogic.call) :
  0 ≤ T → 0 ≤ G → Forall (NFTGasLogic.limits_within nft T G) cs →
  let '(s, l) := NFTGasLogic.history nft user cs NFTGasLogic.deployed in
  Z.of_nat (length l) ≤ T ∧ foldr Z.add 0 l ≤ G ∧
  NFTGasLogic.sponsored s nft user = NFTGasLogic.Sponsored (Z.of_nat (length l)) (foldr Z.add 0 l).
Proof.
  intros HT HG Hc. pose proof (NFTGasLogic.history_within nft user T G cs NFTGasLogic.deployed [] Hc) as Hw.
  destruct (NFTGasLogic.history nft user cs NFTGasLogic.deployed) as [s l].
  destruct Hw as (? & _ & _ & ? & ?); [|done]. done.
Qed.

(** What validation promises, [_postOp] can take: an operation validated
    for a prefund, with an actual cost of at most that prefund and the gas logic
    and balances as validation saw them, is charged against the sender's
    allowance: one more transaction and exactly the actual cost, and nobody
    else's record changes. *)
Theorem nft_post_op_succeeds `{EvmCrypto} m u pre gas s s' ctx vd (w : world) :
  wf_op u → 0 ≤ gas ≤ pre → u256 (mget 0 (NFTGasLogic.transactionLimitByNFT (logic w)) (nft s)) →
  _validatePaymasterUserOp m u pre s w = Ok (s', (ctx, vd)) →
  ∃ w', _postOp ctx gas s' w = Ok w' ∧
    (∀ n a, NFTGasLogic.sponsored (logic w') n a =
      if decide ((nft s, sender u) = (n, a))
      then NFTGasLogic.Sponsored (NFTGasLogic.count (NFTGasLogic.sponsored (logic w) n a) + 1)
             (NFTGasLogic.totalAmount (NFTGasLogic.sponsored (logic w) n a) + gas)
      else NFTGasLogic.sponsored (logic w) n a).
Proof.
  intros Hu Hg Hl Ev. apply validate_eligible in Ev as (He & -> & Hn & Hgl). cbn in He.
  rewrite post_op_world, Hn by apply Hu.
  assert (NFTGasLogic.isEligible (balances w) (sender u) (nft s) gas (logic w) = Ok true) as He'.
  { apply NFTGasLogic.isEligible_true in He as (? & ? & ? & ?). apply NFTGasLogic.isEligible_true.
    split_and!; [done|done|lia|lia]. }
  destruct (NFTGasLogic.applyLogic_eligible _ _ _ _ _ He' Hl) as [l' E]. rewrite E. eexists. split; [reflexivity|].
  apply NFTGasLogic.applyLogic_Ok in E as (_ & _ & ->). intros n a. cbn. rewrite NFTGasLogic.sponsored_insert.
  case_decide; [by simplify_eq|done].
Qed.

(** Two operations of one sender can both be validated and the second
    [_postOp] still revert: when the allowance has one transaction left, both
    validations of a bundle (which come before both executions) see the same
    record and pass, the first [_postOp] uses the allowance up, and the second
    reverts, whatever its cost. *)
Theorem nft_second_post_op_reverts `{EvmCrypto} m u1 u2 pre1 pre2 gas1 gas2 s s1 s2 ctx1 ctx2 vd1 vd2 (w w1 : world) :
  wf_op u1 → sender u1 = sender u2 →
  _validatePaymasterUserOp m u1 pre1 s w = Ok (s1, (ctx1, vd1)) →
  _validatePaymasterUserOp m u2 pre2 s1 w = Ok (s2, (ctx2, vd2)) →
  NFTGasLogic.count (NFTGasLogic.sponsored (logic w) (nft s) (sender u1)) + 1 =
    mget 0 (NFTGasLogic.transactionLimitByNFT (logic w)) (nft s) →
  _postOp ctx1 gas1 s2 w = Ok w1 →
  _postOp ctx2 gas2 s2 w1 = Revert (Error "Not eligible for sponsorship").
Proof.
  intros Hu Hs E1 E2 Hc P1. apply validate_eligible in E1 as (He & -> & Hn1 & _).
  apply validate_eligible in E2 as (_ & -> & Hn2 & _).
  rewrite post_op_world in P1 by apply Hu. rewrite post_op_world by (rewrite <- Hs; apply Hu).
  rewrite Hn2, Hn1, <- Hs in *. apply fmap_Ok in P1 as ([ok l] & P1 & <-).
  apply NFTGasLogic.applyLogic_Ok in P1 as (Hok & _ & ->). apply NFTGasLogic.isEligible_true in Hok as ([b [Hb Hpos]] & _).
  cbn. unfold NFTGasLogic.applyLogic, NFTGasLogic.isEligible. rewrite Hb, Ok_bind. apply Z.ltb_lt in Hpos as ->.
  cbn [negb]. rewrite NFTGasLogic.sponsored_insert, decide_True by done.
  cbn [NFTGasLogic.count NFTGasLogic.transactionLimitByNFT]. by rewrite Hc, Z.ltb_irrefl.
Qed.

(** ** GasNFT.sol and TestNFT.sol *)

(** OpenZeppelin's ERC721: balances, owners and [_mint] in a ledger [L]. *)
Class ERC721Ledger (L : Type) := {
  ledger_balanceOf : address → L → res Z;
  ledger_ownerOf : Z → L → option address;
  _mint : address → Z → L → res L
}.
(** Its documented behaviour: [_mint] reverts for the zero address and for an
    existing token and otherwise gives the token to the recipient. *)
Class ERC721LedgerLaws (L : Type) `{ERC721Ledger L} := {
  balanceOf_zero : ∀ l, is_ok (ledger_balanceOf zero_address l) = false;
  mint_returns : ∀ a i l, is_ok (_mint a i l) = true ↔ a ≠ zero_address ∧ ledger_ownerOf i l = None;
  mint_owner : ∀ a i l l' j, _mint a i l = Ok l' →
    ledger_ownerOf j l' = if decide (i = j) then Some a else ledger_ownerOf j l;
  mint_balance : ∀ a i l l' b, _mint a i l = Ok l' →
    ledger_balanceOf b l' = (λ n, if decide (a = b) then n + 1 else n) <$> ledger_balanceOf b l
}.

Module GasNFT.
Section contract.
Context {L : Type} `{ERC721Ledger L}.
Record state := State { owner : address; _tokenIds : Z; mintPrice : Z; ledger : L }.

Definition deployed (m : msg) (l : L) : state := State (msg_sender m) 0 0 l.
Definition setMintPrice (m : msg) (_price : Z) (s : state) : res state :=
  _ ← onlyOwner m (owner s);
  Ok (State (owner s) (_tokenIds s) _price (ledger s)).
(** [Counters.increment] is unchecked. *)
Definition mintNFT (recipient : address) (s : state) : res (Z * state) :=
  b ← ledger_balanceOf recipient (ledger s);
  _ ← require (b =? 0) "GasNFT: Already minted";
  let newItemId := wrap (_tokenIds s + 1) in
  l ← _mint recipient newItemId (ledger s);
  Ok (newItemId, State (owner s) newItemId (mintPrice s) l).

(** The tokens are 1 .. _tokenIds. *)
Definition ids_inv (s : state) : Prop :=
  0 ≤ _tokenIds s ∧ ∀ i, u256 i → is_Some (ledger_ownerOf i (ledger s)) ↔ 1 ≤ i ≤ _tokenIds s.
End contract.
Arguments state : clear implicits.
End GasNFT.

Module TestNFT.
Section contract.
Context {L : Type} `{ERC721Ledger L} {W : Type} `{ERC20 W}.
Record state := State { owner : address; _tokenIds : Z; mintPrice : Z; usdc : address; ledger : L }.

Definition deployed (m : msg) (_price : Z) (_usdc : address) (l : L) : state := State (msg_sender m) 0 _price _usdc l.
(** The result of transferFrom is not used. *)
Definition mintNFT (m : msg) (recipient : address) (s : state) (w : W) : res (Z * state * W) :=
  '(_, w') ← transferFrom (usdc s) (self m) recipient (self m) (mintPrice s) w;
  let newItemId := wrap (_tokenIds s + 1) in
  l ← _mint recipient newItemId (ledger s);
  Ok (newItemId, State (owner s) newItemId (mintPrice s) (usdc s) l, w').
End contract.
Arguments state : clear implicits.
End TestNFT.

(** GasNFT mints one token each, with fresh ids: mintNFT returns exactly for
    a recipient without a token (a balance of 0, and not the zero address); the
    new id is the next one, the recipient has one token then, nobody else's
    balance changes, and the tokens are again 1 up to the counter. *)
Theorem gas_nft_mints_fresh {L} `{ERC721LedgerLaws L} (recipient : address) (s : GasNFT.state L) :
  GasNFT.ids_inv s → GasNFT._tokenIds s + 1 < 2 ^ 256 →
  (is_ok (GasNFT.mintNFT recipient s) = true ↔ ledger_balanceOf recipient (GasNFT.ledger s) = Ok 0) ∧
  (∀ i s', GasNFT.mintNFT recipient s = Ok (i, s') →
     i = GasNFT._tokenIds s + 1 ∧ GasNFT._tokenIds s' = i ∧ GasNFT.ids_inv s' ∧
     ledger_ownerOf i (GasNFT.ledger s') = Some recipient ∧
     ledger_balanceOf recipient (GasNFT.ledger s') = Ok 1 ∧
     ∀ a, a ≠ recipient → ledger_balanceOf a (GasNFT.ledger s') = ledger_balanceOf a (GasNFT.ledger s)).
Proof.
  intros [Hge Hids] Hlt. assert (wrap (GasNFT._tokenIds s + 1) = GasNFT._tokenIds s + 1) as Hw
    by (apply wrap_small; unfold uint; lia).
  assert (ledger_ownerOf (GasNFT._tokenIds s + 1) (GasNFT.ledger s) = None) as Hfresh.
  { apply eq_None_not_Some. rewrite Hids by (unfold uint; lia). lia. }
  unfold GasNFT.mintNFT. rewrite Hw. split.
  - destruct (ledger_balanceOf recipient (GasNFT.ledger s)) as [b|r] eqn:Eb; [|done]. rewrite Ok_bind.
    destruct (Z.eqb_spec b 0) as [->|Hb]; cbn; [|naive_solver]. split; [done|]. intros _.
    assert (is_ok (_mint recipient (GasNFT._tokenIds s + 1) (GasNFT.ledger s)) = true) as Hm.
    { apply mint_returns. split; [|done]. intros Hz. pose proof (balanceOf_zero (GasNFT.ledger s)) as Hb.
      rewrite <- Hz, Eb in Hb. done. }
    by destruct (_mint _ _ _).
  - intros i s' E. apply bind_Ok in E as (b & Hb & E). apply bind_Ok in E as ([] & Hr & E). apply require_Ok in Hr.
    apply bind_Ok in E as (l & Hl & E). guards. simplify_eq. cbn. split_and!; try done.
    + split; cbn; [lia|]. intros j Hj. rewrite (mint_owner _ _ _ _ _ Hl). case_decide; [subst j; split; [lia|eauto]|].
      rewrite Hids by done. lia.
    + by rewrite (mint_owner _ _ _ _ _ Hl), decide_True.
    + rewrite (mint_balance _ _ _ _ _ Hl), Hb. cbn. by rewrite decide_True.
    + intros a Ha. rewrite (mint_balance _ _ _ _ _ Hl).
      destruct (ledger_balanceOf a (GasNFT.ledger s)); cbn; [|done]. by rewrite decide_False.
Qed.

(** TestNFT can be minted without paying: whenever the token's transferFrom
    reports failure by returning false, mintNFT still mints the next id to the
    recipient, and the token balances are what the failed call left. *)
Theorem test_nft_mints_unpaid {L} `{ERC721LedgerLaws L} {W} `{ERC20 W} m recipient (s : TestNFT.state L) (w w' : W) :
  transferFrom (TestNFT.usdc s) (self m) recipient (self m) (TestNFT.mintPrice s) w = Ok (false, w') →
  recipient ≠ zero_address → ledger_ownerOf (wrap (TestNFT._tokenIds s + 1)) (TestNFT.ledger s) = None →
  ∃ s', TestNFT.mintNFT m recipient s w = Ok (wrap (TestNFT._tokenIds s + 1), s', w') ∧
        ledger_ownerOf (wrap (TestNFT._tokenIds s + 1)) (TestNFT.ledger s') = Some recipient.
Proof.
  intros Ht Hz Hf. unfold TestNFT.mintNFT. rewrite Ht, Ok_bind. cbv zeta.
  assert (is_ok (_mint recipient (wrap (TestNFT._tokenIds s + 1)) (TestNFT.ledger s)) = true) as Hm
    by (by apply mint_returns).
  destruct (_mint _ _ _) as [l|] eqn:E; [|done]. rewrite Ok_bind. eexists. split; [reflexivity|]. cbn.
  by rewrite (mint_owner _ _ _ _ _ E), decide_True.
Qed.

(** ** Concrete runs *)

(** A ledger of ERC-721 tokens: balances and owners. *)
Abbreviation nft_ledger := (gmap address Z * gmap Z address)%type.
#[global] Instance nft_ledger_ops : ERC721Ledger nft_ledger := {|
  ledger_balanceOf a l := _ ← require (negb (addr_eqb a zero_address)) "ERC721: address zero is not a valid owner";
                          Ok (mget 0 l.1 a);
  ledger_ownerOf i l := l.2 !! i;
  _mint a i l := _ ← require (negb (addr_eqb a zero_address)) "ERC721: mint to the zero address";
                 _ ← require (bool_decide (l.2 !! i = None)) "ERC721: token already minted";
                 Ok (<[a := mget 0 l.1 a + 1]> l.1, <[i := a]> l.2)
|}.
#[global] Instance nft_ledger_laws : ERC721LedgerLaws nft_ledger.
Proof.
  split.
  - intros l. done.
  - intros a i l. cbn. unfold addr_eqb. destruct (Z.eqb_spec a zero_address); cbn; [naive_solver|].
    destruct (l.2 !! i); cbn; naive_solver.
  - intros a i l l' j E. cbn in *. inv_res. rewrite lookup_insert. by repeat case_decide.
  - intros a i l l' b E. cbn in *. inv_res. destruct (addr_eqb b zero_address); cbn; [done|]. rewrite mget_insert.
    repeat case_decide; simplify_eq; done.
Qed.

Section witnesses.
#[local] Existing Instance sample_crypto.
Definition nft_balances : address → address → res Z := λ _ a, Ok (if addr_eqb a 0xd11b then 1 else 0).
Definition nft_calls : list NFTGasLogic.call :=
  [NFTGasLogic.AddOrUpdateNFTLimits 7 2 100; NFTGasLogic.ApplyLogic nft_balances 0xd11b 7 60;
   NFTGasLogic.ApplyLogic nft_balances 0xd11b 7 50; NFTGasLogic.ApplyLogic nft_balances 0xd11b 7 40;
   NFTGasLogic.ApplyLogic nft_balances 0xd11b 7 0].
Lemma sponsorship_bounded_witness :
  (NFTGasLogic.history 7 0xd11b nft_calls NFTGasLogic.deployed).2 = [60; 40] ∧
  let '(s, l) := NFTGasLogic.history 7 0xd11b nft_calls NFTGasLogic.deployed in
  Z.of_nat (length l) ≤ 2 ∧ foldr Z.add 0 l ≤ 100 ∧
  NFTGasLogic.sponsored s 7 0xd11b = NFTGasLogic.Sponsored (Z.of_nat (length l)) (foldr Z.add 0 l).
Proof.
  split; [by vm_compute|]. apply (sponsorship_bounded 7 0xd11b 2 100 nft_calls); [lia|lia|].
  repeat (constructor; cbn; [done || lia|]). constructor.
Defined.

Definition nft_world (limit : Z) : world :=
  World (NFTGasLogic.addOrUpdateNFTLimits 7 limit 100000 NFTGasLogic.deployed) nft_balances.
Definition nft_paymaster : state := deployed demo_msg 0x5FF1 0xD02F 7 8.
Definition nft_run (limit : Z) (s : state) : state * (bytes * Z) :=
  match _validatePaymasterUserOp demo_msg demo_op 1000 s (nft_world limit) with
  | Ok r => r
  | Revert _ => (s, ([], 0))
  end.
Lemma nft_run_ok : _validatePaymasterUserOp demo_msg demo_op 1000 nft_paymaster (nft_world 1)
  = Ok ((nft_run 1 nft_paymaster).1, ((nft_run 1 nft_paymaster).2.1, (nft_run 1 nft_paymaster).2.2)).
Proof. by vm_compute. Qed.
Lemma nft_run_ok2 : _validatePaymasterUserOp demo_msg demo_op 1000 (nft_run 1 nft_paymaster).1 (nft_world 1)
  = Ok ((nft_run 1 (nft_run 1 nft_paymaster).1).1, (abi_words [0xd11b], (nft_run 1 (nft_run 1 nft_paymaster).1).2.2)).
Proof. by vm_compute. Qed.

Lemma nft_post_op_succeeds_witness :
  is_ok (_postOp (nft_run 1 nft_paymaster).2.1 900 (nft_run 1 nft_paymaster).1 (nft_world 1)) = true.
Proof.
  destruct (nft_post_op_succeeds demo_msg demo_op 1000 900 nft_paymaster (nft_run 1 nft_paymaster).1
    (nft_run 1 nft_paymaster).2.1 (nft_run 1 nft_paymaster).2.2 (nft_world 1) demo_wf)
    as (w' & E & _); [lia|by vm_compute|exact nft_run_ok|]. by rewrite E.
Defined.

Definition nft_after : world :=
  match _postOp (nft_run 1 nft_paymaster).2.1 900 (nft_run 1 (nft_run 1 nft_paymaster).1).1 (nft_world 1) with
  | Ok w => w
  | Revert _ => nft_world 1
  end.
Lemma nft_second_post_op_reverts_witness :
  _postOp (abi_words [0xd11b]) 10 (nft_run 1 (nft_run 1 nft_paymaster).1).1 nft_after
    = Revert (Error "Not eligible for sponsorship").
Proof.
  eapply (nft_second_post_op_reverts demo_msg demo_op demo_op 1000 1000 900 10 nft_paymaster _ _ _ _ _ _ (nft_world 1));
    [exact demo_wf|done|exact nft_run_ok|exact nft_run_ok2|by vm_compute|by vm_compute].
Defined.

Lemma gas_nft_mints_fresh_witness :
  let s := GasNFT.deployed demo_msg ((∅, ∅) : nft_ledger) in
  is_ok (GasNFT.mintNFT 5 s) = true ∧ is_ok (GasNFT.mintNFT 0 s) = false.
Proof.
  intros s. assert (GasNFT.ids_inv s) as Hi by (split; [done|]; cbn; intros i _; split; [by intros []|lia]).
  split; [|by vm_compute]. apply (gas_nft_mints_fresh 5 s Hi); by vm_compute.
Defined.

(** A recipient without USDC gets a token. *)
Lemma test_nft_mints_unpaid_witness :
  let s := TestNFT.deployed demo_msg 1000000 0xC ((∅, ∅) : nft_ledger) in
  ∃ s', TestNFT.mintNFT demo_msg 5 s (∅ : ledger) = Ok (1, s', ∅) ∧ ledger_ownerOf 1 (TestNFT.ledger s') = Some 5.
Proof.
  intros s. apply (test_nft_mints_unpaid demo_msg 5 s (∅ : ledger) ∅); by vm_compute.
Defined.
End witnesses.
