(* ===== verification/TokenVault.v ===== *)
(** EnclaveTokenVaultV0
    (contracts/enclave-smart-balance/v0/EnclaveTokenVaultV0.sol): users deposit
    and withdraw ERC-20 tokens, vault managers claim a user's deposit.

    The token contracts are called in the middle of the vault's functions and
    may call the vault back; OpenZeppelin's ReentrancyGuard is not part of the
    repository and is the interface [ReentrancyGuard].  [exec] ties the knot: it
    runs a vault function, and during each token call the calls the token makes
    back into the vault, up to the call depth. *)
From S2P Require Import Prelude Bytes Erc20.

(** What OpenZeppelin documents of [nonReentrant]: entering while entered
    reverts, and leaving returns to the state in which entering is possible. *)
Class ReentrancyGuard (G : Type) := {
  guard_init : G;
  entered : G → bool;
  enter : G → res G;
  leave : G → G;
  guard_init_free : entered guard_init = false;
  enter_entered g : entered g = true → enter g = Revert (Error "ReentrancyGuard: reentrant call");
  enter_free g : entered g = false → ∃ g', enter g = Ok g' ∧ entered g' = true;
  leave_free g : entered (leave g) = false
}.

Inductive event :=
  | Deposited (user tokenAddress : address) (amount : Z)
  | Withdrawn (user tokenAddress : address) (amount : Z)
  | Claimed (solver tokenAddress : address) (amount : Z) (owner : address)
  | VaultManagerAdded (newVaultManager : address)
  | VaultManagerRemoved (removedVaultManager : address).

Record state {G : Type} := State {
  deposits : gmap (address * address) Z;      (* token, user *)
  isVaultManager : gmap address bool;
  guard : G;
  log : list event
}.
Arguments state : clear implicits.

Inductive call :=
  | AddVaultManager (_newVaultManager : address)
  | RemoveVaultManager (_vaultManager : address)
  | Deposit (_tokenAddress : address) (_amount : Z)
  | Withdraw (_tokenAddress : address) (_amount : Z)
  | Claim (_tokenAddress : address) (_amount : Z) (_proof : bytes).

Section vault.
Context {G : Type} `{ReentrancyGuard G} {W : Type} `{ERC20 W}.
Abbreviation st := (state G).

Definition deployed (m : msg) : st :=
  {| deposits := ∅; isVaultManager := {[ msg_sender m := true ]}; guard := guard_init;
     log := [VaultManagerAdded (msg_sender m)] |}.

Definition emit (e : event) (s : st) : st :=
  {| deposits := deposits s; isVaultManager := isVaultManager s; guard := guard s; log := log s ++ [e] |}.
Definition set_guard (g : G) (s : st) : st :=
  {| deposits := deposits s; isVaultManager := isVaultManager s; guard := g; log := log s |}.
Definition set_manager (a : address) (b : bool) (s : st) : st :=
  {| deposits := deposits s; isVaultManager := <[a := b]> (isVaultManager s); guard := guard s; log := log s |}.
Definition set_deposit (t a : address) (v : Z) (s : st) : st :=
  {| deposits := <[(t, a) := v]> (deposits s); isVaultManager := isVaultManager s; guard := guard s; log := log s |}.

Definition onlyVaultManager (m : msg) (s : st) : res unit :=
  require (mget false (isVaultManager s) (msg_sender m)) "Caller is not a vault manager".

Definition nonReentrant (body : st → W → res (st * W)) (s : st) (w : W) : res (st * W) :=
  g ← enter (guard s);
  '(s', w') ← body (set_guard g s) w;
  Ok (set_guard (leave (guard s')) s', w').

Definition addVaultManager (m : msg) (_newVaultManager : address) (s : st) : res st :=
  _ ← onlyVaultManager m s;
  _ ← require (negb (addr_eqb _newVaultManager zero_address)) "Invalid vault manager address";
  _ ← require (negb (mget false (isVaultManager s) _newVaultManager)) "Address is already a vault manager";
  Ok (emit (VaultManagerAdded _newVaultManager) (set_manager _newVaultManager true s)).

Definition removeVaultManager (m : msg) (_vaultManager : address) (s : st) : res st :=
  _ ← onlyVaultManager m s;
  _ ← require (mget false (isVaultManager s) _vaultManager) "Address is not a vault manager";
  _ ← require (negb (addr_eqb (msg_sender m) _vaultManager)) "Cannot remove self as vault manager";
  Ok (emit (VaultManagerRemoved _vaultManager) (set_manager _vaultManager false s)).

Section token.
(** A token call made by the vault: the token's answer, the token world and the
    vault's state after any calls the token made back into the vault. *)
Variable tok_transfer : address → address → Z → st → W → res (bool * st * W).
Variable tok_transferFrom : address → address → address → Z → st → W → res (bool * st * W).

Definition deposit (m : msg) (_tokenAddress : address) (_amount : Z) : st → W → res (st * W) :=
  nonReentrant (λ s w,
    _ ← require (0 <? _amount) "Amount must be greater than 0";
    '(sent, s1, w1) ← tok_transferFrom _tokenAddress (msg_sender m) (self m) _amount s w;
    _ ← require sent "Transfer failed";
    v ← cadd 256 (mget 0 (deposits s1) (_tokenAddress, msg_sender m)) _amount;
    Ok (emit (Deposited (msg_sender m) _tokenAddress _amount)
          (set_deposit _tokenAddress (msg_sender m) v s1), w1)).

Definition withdraw (m : msg) (_tokenAddress : address) (_amount : Z) : st → W → res (st * W) :=
  nonReentrant (λ s w,
    _ ← require (0 <? _amount) "Amount must be greater than 0";
    _ ← require (_amount <=? mget 0 (deposits s) (_tokenAddress, msg_sender m)) "Insufficient balance";
    v ← csub (mget 0 (deposits s) (_tokenAddress, msg_sender m)) _amount;
    '(sent, s1, w1) ← tok_transfer _tokenAddress (msg_sender m) _amount
                        (set_deposit _tokenAddress (msg_sender m) v s) w;
    _ ← require sent "Transfer failed";
    Ok (emit (Withdrawn (msg_sender m) _tokenAddress _amount) s1, w1)).

(** The [console.log] calls have no effect on the chain. *)
Definition claim (m : msg) (_tokenAddress : address) (_amount : Z) (_proof : bytes) :
    st → W → res (st * W) :=
  nonReentrant (λ s w,
    _ ← onlyVaultManager m s;
    _ ← require (0 <? _amount) "Amount must be greater than 0";
    _owner ← abi_decode_address _proof;
    _ ← require (_amount <=? mget 0 (deposits s) (_tokenAddress, _owner)) "Insufficient balance";
    v ← csub (mget 0 (deposits s) (_tokenAddress, _owner)) _amount;
    '(sent, s1, w1) ← tok_transfer _tokenAddress (msg_sender m) _amount
                        (set_deposit _tokenAddress _owner v s) w;
    _ ← require sent "Transfer failed";
    Ok (emit (Claimed (msg_sender m) _tokenAddress _amount _owner) s1, w1)).
End token.

(** ** Running calls, with the calls tokens make back *)

(** [hooks t w]: the calls (sender, function) token [t] makes into the vault
    while it is being called.  A call back that reverts leaves no trace. *)
Variable hooks : address → W → list (address * call).
Variable env : msg.

Definition as_sender (a : address) : msg :=
  {| msg_sender := a; msg_value := 0; self := self env; chainid := chainid env; timestamp := timestamp env |}.

Definition reenter (run : address → call → st → W → res (st * W)) (t : address) (s : st) (w : W) : st * W :=
  foldl (λ sw ac, match run ac.1 ac.2 sw.1 sw.2 with Ok sw' => sw' | Revert _ => sw end)
        (s, w) (hooks t w).

Definition run_transfer run (t to : address) (v : Z) (s : st) (w : W) : res (bool * st * W) :=
  let '(s1, w1) := reenter run t s w in
  '(ok, w2) ← transfer t (self env) to v w1; Ok (ok, s1, w2).
Definition run_transferFrom run (t f to : address) (v : Z) (s : st) (w : W) : res (bool * st * W) :=
  let '(s1, w1) := reenter run t s w in
  '(ok, w2) ← transferFrom t (self env) f to v w1; Ok (ok, s1, w2).

(** [depth] is what remains of the EVM's call stack (1024 at the outermost
    call); a call beyond it fails. *)
Fixpoint exec (depth : nat) (a : address) (c : call) (s : st) (w : W) : res (st * W) :=
  match depth with
  | O => Revert NoData
  | S d =>
    let m := as_sender a in
    match c with
    | AddVaultManager x => s' ← addVaultManager m x s; Ok (s', w)
    | RemoveVaultManager x => s' ← removeVaultManager m x s; Ok (s', w)
    | Deposit t v => deposit (run_transferFrom (exec d)) m t v s w
    | Withdraw t v => withdraw (run_transfer (exec d)) m t v s w
    | Claim t v p => claim (run_transfer (exec d)) m t v p s w
    end
  end.

(** ** The lock *)

Lemma nonReentrant_locked body s (w : W) :
  entered (guard s) = true → nonReentrant body s w = Revert (Error "ReentrancyGuard: reentrant call").
Proof. intros Hg. unfold nonReentrant. by rewrite enter_entered. Qed.

(** A call made while the vault is entered only touches the managers. *)
Definition same_funds (s s' : st) : Prop := deposits s' = deposits s ∧ guard s' = guard s.

Lemma exec_locked d a c s w s' w' :
  entered (guard s) = true → exec d a c s w = Ok (s', w') → same_funds s s' ∧ w' = w.
Proof.
  intros Hg E. destruct d as [|d]; [done|]. destruct c; cbn [exec] in E;
    try (unfold deposit, withdraw, claim in E; rewrite nonReentrant_locked in E by done; done);
    unfold addVaultManager, removeVaultManager in E; inv_res; by repeat split.
Qed.

Lemma reenter_locked d t s w s' w' :
  entered (guard s) = true → reenter (exec d) t s w = (s', w') → same_funds s s' ∧ w' = w.
Proof.
  unfold reenter. generalize (hooks t w) as cs. intros cs. revert s.
  induction cs as [|[a c] cs IH]; intros s Hg E; cbn in E; [by simplify_eq|].
  destruct (exec d a c s w) as [[s1 w1]|r] eqn:E1; [|by apply IH].
  destruct (exec_locked _ _ _ _ _ _ _ Hg E1) as [[Hd1 Hg1] ->].
  destruct (IH s1) as [[Hd2 Hg2] ->]; [congruence|done|]. split; [|done].
  split; congruence.
Qed.

Lemma run_transfer_locked d t to v s w ok s' w' :
  entered (guard s) = true → run_transfer (exec d) t to v s w = Ok (ok, s', w') →
  same_funds s s' ∧ transfer t (self env) to v w = Ok (ok, w').
Proof.
  intros Hg E. unfold run_transfer in E. destruct (reenter _ _ _ _) as [s1 w1] eqn:Er.
  destruct (reenter_locked _ _ _ _ _ _ Hg Er) as [Hf ->]. inv_res. by destruct a; simplify_eq.
Qed.
Lemma run_transferFrom_locked d t f to v s w ok s' w' :
  entered (guard s) = true → run_transferFrom (exec d) t f to v s w = Ok (ok, s', w') →
  same_funds s s' ∧ transferFrom t (self env) f to v w = Ok (ok, w').
Proof.
  intros Hg E. unfold run_transferFrom in E. destruct (reenter _ _ _ _) as [s1 w1] eqn:Er.
  destruct (reenter_locked _ _ _ _ _ _ Hg Er) as [Hf ->]. inv_res. by destruct a; simplify_eq.
Qed.

Lemma nonReentrant_Ok body s (w : W) s' w' :
  nonReentrant body s w = Ok (s', w') →
  ∃ g s1, entered g = true ∧ body (set_guard g s) w = Ok (s1, w') ∧
          s' = set_guard (leave (guard s1)) s1.
Proof.
  intros E. unfold nonReentrant in E. destruct (entered (guard s)) eqn:Hg.
  { by rewrite enter_entered in E. }
  destruct (enter_free _ Hg) as (g & Eg & Hgt). rewrite Eg, Ok_bind in E.
  apply bind_Ok in E as ([s1 w1] & E1 & E). simplify_eq. eauto.
Qed.

(** ** Abstract specification

    What each call does to the recorded deposits and to the tokens, with no
    lock and no calls back. *)
Inductive funds_step (s : st) (w : W) : address → call → gmap (address * address) Z → W → Prop :=
  | step_add a x : funds_step s w a (AddVaultManager x) (deposits s) w
  | step_remove a x : funds_step s w a (RemoveVaultManager x) (deposits s) w
  | step_deposit a t v w' :
      0 < v → transferFrom t (self env) a (self env) v w = Ok (true, w') →
      mget 0 (deposits s) (t, a) + v < 2 ^ 256 →
      funds_step s w a (Deposit t v) (<[(t, a) := mget 0 (deposits s) (t, a) + v]> (deposits s)) w'
  | step_withdraw a t v w' :
      0 < v ≤ mget 0 (deposits s) (t, a) → transfer t (self env) a v w = Ok (true, w') →
      funds_step s w a (Withdraw t v) (<[(t, a) := mget 0 (deposits s) (t, a) - v]> (deposits s)) w'
  | step_claim a t v p o w' :
      mget false (isVaultManager s) a = true → abi_decode_address p = Ok o →
      0 < v ≤ mget 0 (deposits s) (t, o) → transfer t (self env) a v w = Ok (true, w') →
      funds_step s w a (Claim t v p) (<[(t, o) := mget 0 (deposits s) (t, o) - v]> (deposits s)) w'.

Lemma deposit_inv d a t v s w s' w' :
  deposit (run_transferFrom (exec d)) (as_sender a) t v s w = Ok (s', w') →
  entered (guard s') = false ∧ funds_step s w a (Deposit t v) (deposits s') w'.
Proof.
  intros E. apply nonReentrant_Ok in E as (g & s1 & Hg & E & ->). split; [apply leave_free|].
  apply bind_Ok in E as ([] & Hv & E). apply require_Ok in Hv. guards.
  apply bind_Ok in E as ([[ok s2] w2] & Et & E).
  apply run_transferFrom_locked in Et as [[Hd _] Et]; [|done].
  apply bind_Ok in E as ([] & Hok & E). apply require_Ok in Hok. subst ok.
  apply bind_Ok in E as (x & Hx & E). apply cadd_Ok in Hx as [-> Hx]. simplify_eq. cbn in *.
  rewrite Hd in *. by constructor.
Qed.

Lemma withdraw_inv d a t v s w s' w' :
  withdraw (run_transfer (exec d)) (as_sender a) t v s w = Ok (s', w') →
  entered (guard s') = false ∧ funds_step s w a (Withdraw t v) (deposits s') w'.
Proof.
  intros E. apply nonReentrant_Ok in E as (g & s1 & Hg & E & ->). split; [apply leave_free|].
  apply bind_Ok in E as ([] & Hv & E). apply require_Ok in Hv.
  apply bind_Ok in E as ([] & Hl & E). apply require_Ok in Hl. guards.
  apply bind_Ok in E as (x & Hx & E). apply csub_Ok in Hx as [-> Hx].
  apply bind_Ok in E as ([[ok s2] w2] & Et & E).
  apply run_transfer_locked in Et as [[Hd _] Et]; [|done].
  apply bind_Ok in E as ([] & Hok & E). apply require_Ok in Hok. subst ok. simplify_eq. cbn in *.
  rewrite Hd. by constructor.
Qed.

Lemma claim_inv d a t v p s w s' w' :
  claim (run_transfer (exec d)) (as_sender a) t v p s w = Ok (s', w') →
  entered (guard s') = false ∧ funds_step s w a (Claim t v p) (deposits s') w'.
Proof.
  intros E. apply nonReentrant_Ok in E as (g & s1 & Hg & E & ->). split; [apply leave_free|].
  apply bind_Ok in E as ([] & Hm & E). apply require_Ok in Hm.
  apply bind_Ok in E as ([] & Hv & E). apply require_Ok in Hv.
  apply bind_Ok in E as (o & Ho & E).
  apply bind_Ok in E as ([] & Hl & E). apply require_Ok in Hl. guards.
  apply bind_Ok in E as (x & Hx & E). apply csub_Ok in Hx as [-> Hx].
  apply bind_Ok in E as ([[ok s2] w2] & Et & E).
  apply run_transfer_locked in Et as [[Hd _] Et]; [|done].
  apply bind_Ok in E as ([] & Hok & E). apply require_Ok in Hok. subst ok. simplify_eq. cbn in *.
  rewrite Hd. by econstructor.
Qed.

Lemma exec_funds d a c s w s' w' :
  entered (guard s) = false → exec d a c s w = Ok (s', w') →
  entered (guard s') = false ∧ funds_step s w a c (deposits s') w'.
Proof.
  intros Hg E. destruct d as [|d]; [done|]. destruct c; cbn [exec] in E.
  1,2: unfold addVaultManager, removeVaultManager in E; inv_res; split; [done|constructor].
  - by apply deposit_inv in E.
  - by apply withdraw_inv in E.
  - by apply claim_inv in E.
Qed.

(** C2: Refinement: whatever calls a token makes back into the vault during a
    transfer, a call from an idle vault that returns leaves it idle and changed
    deposits and tokens exactly as the lock-free specification [funds_step]
    says: amount positive, covered by the deposit it is taken from, paid by a
    token transfer that reported success, and claims by managers only. *)
Theorem vault_refines_spec d a c s w s' w' :
  entered (guard s) = false → exec d a c s w = Ok (s', w') →
  entered (guard s') = false ∧ funds_step s w a c (deposits s') w'.
Proof. apply exec_funds. Qed.

(** ** Solvency *)

Definition token_total (t : address) (m : gmap (address * address) Z) : Z :=
  map_fold (λ k v acc, (if decide (k.1 = t) then v else 0) + acc) 0 m.

Lemma token_total_new t m k v :
  m !! k = None → token_total t (<[k := v]> m) = (if decide (k.1 = t) then v else 0) + token_total t m.
Proof.
  intros Hk. unfold token_total.
  apply (map_fold_insert_L (λ k v acc, (if decide (k.1 = t) then v else 0) + acc)); [|done].
  intros. lia.
Qed.

Lemma token_total_insert t m k v :
  token_total t (<[k := v]> m) = token_total t m + (if decide (k.1 = t) then v - mget 0 m k else 0).
Proof.
  unfold mget. destruct (m !! k) as [x|] eqn:Hk; cbn [default].
  - rewrite <- (insert_delete_id m k x Hk) at 2. rewrite <- insert_delete_eq.
    rewrite !token_total_new by apply lookup_delete_eq. case_decide; cbn; lia.
  - rewrite token_total_new by done. case_decide; cbn; lia.
Qed.

Definition solvent (s : st) (w : W) : Prop :=
  ∀ t, token_total t (deposits s) ≤ balanceOf w t (self env).
Definition deposits_nonneg (s : st) : Prop := ∀ k, 0 ≤ mget 0 (deposits s) k.

(** Histories of the vault: calls by others than the vault itself, and anything
    the rest of the chain does that takes no tokens from the vault. *)
Inductive reachable : st → W → Prop :=
  | reach_init m w : reachable (deployed m) w
  | reach_call d a c s w s' w' :
      reachable s w → a ≠ self env → exec d a c s w = Ok (s', w') → reachable s' w'
  | reach_env s w w' :
      reachable s w → (∀ t, balanceOf w t (self env) ≤ balanceOf w' t (self env)) → reachable s w'.

Context `{!ERC20Laws W}.

Lemma paid_in t a v w w' t' :
  0 < v → a ≠ self env → transferFrom t (self env) a (self env) v w = Ok (true, w') →
  balanceOf w' t' (self env) = balanceOf w t' (self env) + (if decide (t = t') then v else 0).
Proof.
  intros Hv Ha E. apply transferFrom_moves in E; [|lia]. case_decide; subst.
  - by apply (moved_to _ _ _ _ _ _ E).
  - rewrite (moved_other _ _ _ _ _ _ t' (self env) E); [lia|naive_solver].
Qed.
Lemma paid_out t a v w w' t' :
  0 < v → a ≠ self env → transfer t (self env) a v w = Ok (true, w') →
  balanceOf w' t' (self env) = balanceOf w t' (self env) - (if decide (t = t') then v else 0).
Proof.
  intros Hv Ha E. apply transfer_moves in E; [|lia]. case_decide; subst.
  - apply (moved_from _ _ _ _ _ _ E). done.
  - rewrite (moved_other _ _ _ _ _ _ t' (self env) E); [lia|naive_solver].
Qed.

(** Changing one deposit to [y >= 0] keeps the vault solvent when its balance of
    that token changes by as much. *)
Lemma solvent_adjust t o y s w s' w' :
  <[(t, o) := y]> (deposits s) = deposits s' → 0 ≤ y →
  (∀ t', balanceOf w' t' (self env) = balanceOf w t' (self env)
           + (if decide (t = t') then y - mget 0 (deposits s) (t, o) else 0)) →
  solvent s w → deposits_nonneg s → solvent s' w' ∧ deposits_nonneg s'.
Proof.
  intros Hd Hy Hb Hs Hn. split; intros k; rewrite <- Hd.
  - rewrite token_total_insert, Hb. specialize (Hs k). cbn. case_decide; lia.
  - rewrite mget_insert. case_decide; [done|apply Hn].
Qed.

Lemma funds_step_solvent a c s w s' w' :
  a ≠ self env → solvent s w → deposits_nonneg s → funds_step s w a c (deposits s') w' →
  solvent s' w' ∧ deposits_nonneg s'.
Proof.
  intros Ha Hs Hn E.
  inversion E as [b x Hb Hc Hd|b x Hb Hc Hd|b t v w2 Hv Ht Hx Hb Hc Hd|b t v w2 Hv Ht Hb Hc Hd
                 |b t v p o w2 Hm Hp Hv Ht Hb Hc Hd]; subst.
  1,2: unfold solvent, deposits_nonneg in *; rewrite <- Hd; by split.
  - eapply solvent_adjust; [exact Hd| |intros t'; rewrite (paid_in _ _ _ _ _ t' Hv Ha Ht)|done..].
    + specialize (Hn (t, a)). lia.
    + case_decide; lia.
  - destruct Hv as [Hv Hle].
    eapply solvent_adjust; [exact Hd|lia|intros t'; rewrite (paid_out _ _ _ _ _ t' Hv Ha Ht)|done..].
    case_decide; lia.
  - destruct Hv as [Hv Hle].
    eapply solvent_adjust; [exact Hd|lia|intros t'; rewrite (paid_out _ _ _ _ _ t' Hv Ha Ht)|done..].
    case_decide; lia.
Qed.

Lemma reachable_inv s w :
  reachable s w → entered (guard s) = false ∧ solvent s w ∧ deposits_nonneg s.
Proof.
  induction 1 as [m w|d a c s w s' w' _ (Hg & Hs & Hn) Ha E|s w w' _ (Hg & Hs & Hn) Hle].
  - split; [apply guard_init_free|]. split; intros k; cbn.
    + unfold token_total. rewrite map_fold_empty. apply balance_nonneg.
    + by rewrite mget_empty.
  - apply exec_funds in E as [Hg' E]; [|done]. split; [done|]. by eapply funds_step_solvent.
  - split; [done|]. split; [|done]. intros t. etrans; [apply Hs|apply Hle].
Qed.

(** C1: Solvency: in every state the vault can reach, for every token, the
    deposits recorded for all users together are covered by the vault's token
    balance, no deposit is negative and the lock is free; re-entrant tokens
    included. *)
Theorem vault_solvent s w :
  reachable s w → solvent s w ∧ deposits_nonneg s ∧ entered (guard s) = false.
Proof. intros Hr. apply reachable_inv in Hr as (? & ? & ?). done. Qed.

Lemma funds_step_loss a c (s s' : st) w w' t o :
  deposits_nonneg s → funds_step s w a c (deposits s') w' →
  mget 0 (deposits s') (t, o) < mget 0 (deposits s) (t, o) →
  (∃ v, c = Withdraw t v ∧ a = o) ∨
  (∃ v p, c = Claim t v p ∧ abi_decode_address p = Ok o ∧ mget false (isVaultManager s) a = true).
Proof.
  intros Hn E Hlt.
  inversion E as [b x Hb Hc Hd|b x Hb Hc Hd|b tk v w2 Hv Ht Hx Hb Hc Hd|b tk v w2 Hv Ht Hb Hc Hd
                 |b tk v p ow w2 Hm Hp Hv Ht Hb Hc Hd]; subst; rewrite <- Hd in Hlt; try lia;
    rewrite mget_insert in Hlt; case_decide; simplify_eq; try lia; eauto 10.
Qed.

(** C9: Custody: along any history, a call that lowers the deposit recorded
    for a user is either that user's own withdrawal of that token or a claim by
    a current vault manager whose proof names the user. *)
Theorem deposits_only_taken_by_owner_or_manager d a c s w s' w' t o :
  reachable s w → exec d a c s w = Ok (s', w') →
  mget 0 (deposits s') (t, o) < mget 0 (deposits s) (t, o) →
  (∃ v, c = Withdraw t v ∧ a = o) ∨
  (∃ v p, c = Claim t v p ∧ abi_decode_address p = Ok o ∧ mget false (isVaultManager s) a = true).
Proof.
  intros Hr E Hlt. apply reachable_inv in Hr as (Hg & _ & Hn).
  apply exec_funds in E as [_ E]; [|done]. by eapply funds_step_loss.
Qed.

(** ** Managers *)

Definition is_manager (s : st) (a : address) : Prop := mget false (isVaultManager s) a = true.
Definition managed (s : st) : Prop := ∃ a, is_manager s a.

Lemma reenter_managed d t s w s' w' :
  (∀ a c s0 w0 s1 w1, exec d a c s0 w0 = Ok (s1, w1) → managed s0 → managed s1) →
  reenter (exec d) t s w = (s', w') → managed s → managed s'.
Proof.
  intros IHd. unfold reenter. generalize (hooks t w) as cs. intros cs. revert s w.
  induction cs as [|[a c] cs IH]; intros s w E Hm; cbn in E; [by simplify_eq|].
  destruct (exec d a c s w) as [[s1 w1]|r] eqn:E1; eauto.
Qed.

Lemma run_transfer_managed d t to v s w ok s' w' :
  (∀ a c s0 w0 s1 w1, exec d a c s0 w0 = Ok (s1, w1) → managed s0 → managed s1) →
  run_transfer (exec d) t to v s w = Ok (ok, s', w') → managed s → managed s'.
Proof.
  intros IHd E. unfold run_transfer in E. destruct (reenter _ _ _ _) as [s1 w1] eqn:Er.
  apply bind_Ok in E as ([b w2] & _ & E). simplify_eq. by eapply reenter_managed.
Qed.

Lemma exec_managed d a c s w s' w' : exec d a c s w = Ok (s', w') → managed s → managed s'.
Proof.
  revert a c s w s' w'. induction d as [|d IH]; intros a c s w s' w' E Hm; [done|].
  destruct c; cbn [exec] in E.
  - unfold addVaultManager, onlyVaultManager in E. inv_res. exists a. unfold is_manager. cbn.
    rewrite mget_insert. by case_decide.
  - unfold removeVaultManager, onlyVaultManager in E. inv_res. exists a. unfold is_manager. cbn.
    unfold addr_eqb in *. guards. cbn in *. rewrite mget_insert_ne by done. done.
  - apply nonReentrant_Ok in E as (g & s1 & _ & E & ->).
    apply bind_Ok in E as ([] & _ & E). apply bind_Ok in E as ([[ok s2] w2] & Et & E).
    apply bind_Ok in E as ([] & _ & E). apply bind_Ok in E as (x & _ & E). simplify_eq.
    unfold run_transferFrom in Et. destruct (reenter _ _ _ _) as [s3 w3] eqn:Er.
    apply bind_Ok in Et as ([b w4] & _ & Et). simplify_eq.
    exact (reenter_managed _ _ _ _ _ _ IH Er Hm).
  - apply nonReentrant_Ok in E as (g & s1 & _ & E & ->).
    apply bind_Ok in E as ([] & _ & E). apply bind_Ok in E as ([] & _ & E).
    apply bind_Ok in E as (x & _ & E). apply bind_Ok in E as ([[ok s2] w2] & Et & E).
    apply bind_Ok in E as ([] & _ & E). simplify_eq.
    exact (run_transfer_managed _ _ _ _ _ _ _ _ _ IH Et Hm).
  - apply nonReentrant_Ok in E as (g & s1 & _ & E & ->).
    apply bind_Ok in E as ([] & _ & E). apply bind_Ok in E as ([] & _ & E).
    apply bind_Ok in E as (o & _ & E). apply bind_Ok in E as ([] & _ & E).
    apply bind_Ok in E as (x & _ & E). apply bind_Ok in E as ([[ok s2] w2] & Et & E).
    apply bind_Ok in E as ([] & _ & E). simplify_eq.
    exact (run_transfer_managed _ _ _ _ _ _ _ _ _ IH Et Hm).
Qed.

(** The vault is never left without a manager: every reachable state has
    one, whatever managers (or re-entrant tokens acting as managers) remove. *)
Theorem vault_always_managed s w : reachable s w → ∃ a, is_manager s a.
Proof.
  induction 1 as [m w|d a c s w s' w' _ IH _ E|]; [|by eapply exec_managed|done].
  exists (msg_sender m). unfold is_manager, mget. cbn. by rewrite lookup_singleton_eq.
Qed.

(** ** Depositors are paid *)

Lemma token_total_nonneg (t : address) (m : gmap (address * address) Z) :
  (∀ k, 0 ≤ mget 0 m k) → 0 ≤ token_total t m.
Proof.
  induction m as [|k v m Hk IH] using map_ind; intros Hn; [done|].
  assert (0 ≤ token_total t m) as Ht.
  { apply IH. intros k'. destruct (decide (k = k')) as [<-|Hne].
    - unfold mget. by rewrite Hk.
    - specialize (Hn k'). by rewrite mget_insert_ne in Hn. }
  rewrite token_total_new by done. specialize (Hn k). rewrite mget_insert_eq in Hn.
  case_decide; lia.
Qed.

Lemma deposit_le_total (t a : address) (m : gmap (address * address) Z) :
  (∀ k, 0 ≤ mget 0 m k) → mget 0 m (t, a) ≤ token_total t m.
Proof.
  intros Hn. assert (0 ≤ token_total t (<[(t, a) := 0]> m)) as Hz.
  { apply token_total_nonneg. intros k. rewrite mget_insert. case_decide; [done|apply Hn]. }
  rewrite token_total_insert in Hz. cbn in Hz. case_decide; [lia|done].
Qed.

(** C8: A depositor can always get out: in every reachable state and for every
    amount up to the recorded deposit, [withdraw] returns (whatever the token
    calls back), lowers the deposit by the amount and pays it, for a token whose
    transfer succeeds when the payer holds the amount. *)
Theorem depositor_can_withdraw d a t v s w :
  reachable s w → a ≠ self env → 0 < v ≤ mget 0 (deposits s) (t, a) →
  (∀ w0, v ≤ balanceOf w0 t (self env) → ∃ w1, transfer t (self env) a v w0 = Ok (true, w1)) →
  ∃ s' w', exec (S d) a (Withdraw t v) s w = Ok (s', w') ∧
    mget 0 (deposits s') (t, a) = mget 0 (deposits s) (t, a) - v ∧
    balanceOf w' t a = balanceOf w t a + v.
Proof.
  intros Hr Ha [Hv Hle] Hpays. apply reachable_inv in Hr as (Hg & Hs & Hn).
  destruct (Hpays w) as [w1 Hw1].
  { specialize (Hs t). pose proof (deposit_le_total t a _ Hn). lia. }
  destruct (enter_free _ Hg) as (g & Eg & Hgt).
  set (s0 := set_deposit t a (mget 0 (deposits s) (t, a) - v) (set_guard g s)).
  destruct (reenter (exec d) t s0 w) as [s1 w0] eqn:Er.
  destruct (reenter_locked d t s0 w s1 w0 Hgt Er) as [[Hd _] ->].
  exists (set_guard (leave (guard s1)) (emit (Withdrawn a t v) s1)), w1. split; [|split].
  - cbn [exec]. unfold withdraw, nonReentrant. rewrite Eg, Ok_bind.
    rewrite (proj2 (require_Ok (0 <? v) _ tt)) by (by apply Z.ltb_lt). rewrite Ok_bind.
    rewrite (proj2 (require_Ok _ _ tt)) by (by apply Z.leb_le). rewrite Ok_bind.
    rewrite (proj2 (csub_Ok _ _ _)) by (split; [reflexivity|done]). rewrite Ok_bind.
    unfold run_transfer. change (msg_sender (as_sender a)) with a.
    change (deposits (set_guard g s)) with (deposits s). subst s0. rewrite Er, Hw1, !Ok_bind. done.
  - cbn. rewrite Hd. subst s0. cbn. by rewrite mget_insert_eq.
  - apply transfer_moves in Hw1; [|lia]. by apply (moved_to _ _ _ _ _ _ Hw1).
Qed.
End vault.

(** ** Concrete runs *)

#[local] Instance bool_guard : ReentrancyGuard bool.
Proof.
  refine {| guard_init := false; entered := id; leave := λ _, false;
            enter := λ g, if g then Revert (Error "ReentrancyGuard: reentrant call") else Ok true |};
    [done|intros [] ?; done|intros [] ?; [done|eauto]|done].
Defined.

(** A token 7 that, while being called, tries to withdraw for user 2 and to
    make user 3 a manager on behalf of manager 1. *)
Definition evil_hooks (t : address) (w : ledger) : list (address * call) :=
  if t =? 7 then [(2, Withdraw 7 5); (1, AddVaultManager 3)] else [].
Definition vault_env : msg :=
  {| msg_sender := 1; msg_value := 0; self := 100; chainid := 1; timestamp := 0 |}.
Definition vault_w0 : ledger := <[(7, 2) := 50]> ∅.
Definition vault_step (a : address) (c : call) (sw : state bool * ledger) : state bool * ledger :=
  match exec evil_hooks vault_env 1024 a c sw.1 sw.2 with Ok sw' => sw' | Revert _ => sw end.
Definition vault_1 := vault_step 2 (Deposit 7 40) (deployed vault_env, vault_w0).

Lemma vault_1_reachable : reachable evil_hooks vault_env vault_1.1 vault_1.2.
Proof.
  eapply (reach_call _ _ 1024 2 (Deposit 7 40) (deployed vault_env) vault_w0); [constructor|done|].
  by vm_compute.
Qed.

Lemma vault_refines_spec_witness :
  funds_step vault_env vault_1.1 vault_1.2 1 (Claim 7 5 (abi_words [2]))
    (deposits (vault_step 1 (Claim 7 5 (abi_words [2])) vault_1).1)
    (vault_step 1 (Claim 7 5 (abi_words [2])) vault_1).2.
Proof. eapply (vault_refines_spec evil_hooks vault_env 1024 1 _ vault_1.1); by vm_compute. Defined.

Lemma vault_solvent_witness :
  mget 0 (deposits vault_1.1) (7, 2) = 40 ∧ solvent vault_env vault_1.1 vault_1.2.
Proof. split; [by vm_compute|]. apply (vault_solvent evil_hooks vault_env), vault_1_reachable. Defined.

Lemma deposits_only_taken_by_owner_or_manager_witness :
  ∃ v p, Claim 7 30 (abi_words [2]) = Claim 7 v p ∧ abi_decode_address p = Ok 2.
Proof.
  destruct (deposits_only_taken_by_owner_or_manager evil_hooks vault_env 1024 1 (Claim 7 30 (abi_words [2]))
    vault_1.1 vault_1.2 (vault_step 1 (Claim 7 30 (abi_words [2])) vault_1).1
    (vault_step 1 (Claim 7 30 (abi_words [2])) vault_1).2 7 2) as [(v & E & _)|(v & p & E & Hp & _)].
  - apply vault_1_reachable.
  - by vm_compute.
  - by vm_compute.
  - discriminate E.
  - exists v, p. split; [exact E|exact Hp].
Defined.

Lemma vault_always_managed_witness : ∃ a, is_manager vault_1.1 a.
Proof. apply (vault_always_managed evil_hooks vault_env vault_1.1 vault_1.2), vault_1_reachable. Defined.

Lemma depositor_can_withdraw_witness :
  ∃ s' w', exec evil_hooks vault_env 1 2 (Withdraw 7 40) vault_1.1 vault_1.2 = Ok (s', w') ∧
    balanceOf w' 7 2 = balanceOf vault_1.2 7 2 + 40.
Proof.
  destruct (depositor_can_withdraw evil_hooks vault_env 0 2 7 40 vault_1.1 vault_1.2)
    as (s' & w' & E & _ & Hb).
  - apply vault_1_reachable.
  - done.
  - by vm_compute.
  - intros w0 Hle. cbn in *. unfold ledger_move.
    destruct (Z.ltb_spec (ledger_get w0 7 100) 40); [lia|]. eauto.
  - exists s', w'. split; [exact E|exact Hb].
Defined.
