(* ===== verification/Primes.v ===== *)
(** The two P-256 moduli are prime.  The verifier inverts with Fermat's little
    theorem (u^(f-2) mod f), which is an inverse only because the field prime
    and the group order are primes; here both are proved prime from Pocklington
    certificates, checked by evaluation. *)
From Stdlib Require Import ZArith Zpow_facts Znumtheory Zmod.
From S2P Require Import Prelude.

(** ** Divisors *)

Lemma prime_divisor m : 1 < m → ∃ r, Z.prime r ∧ (r | m).
Proof.
  intros Hm. assert (0 ≤ m) as H0 by lia. revert m H0 Hm.
  refine (Zlt_0_ind (λ m, 1 < m → ∃ r, Z.prime r ∧ (r | m)) _). intros m IH _ Hm. destruct (prime_dec m) as [Hp|Hn].
  - exists m. split; [by apply prime_alt|apply Z.divide_refl].
  - destruct (not_prime_divide m Hm Hn) as (d & Hd & Hdm).
    destruct (IH d ltac:(lia) ltac:(lia)) as (r & Hr & Hrd). exists r. split; [done|by etrans].
Qed.

(** A composite number has a prime divisor at most its square root. *)
Lemma composite_small_divisor m : 1 < m → ¬ Z.prime m → ∃ r, Z.prime r ∧ (r | m) ∧ r * r ≤ m.
Proof.
  intros Hm Hn. rewrite prime_alt in Hn.
  destruct (not_prime_divide m Hm Hn) as (d & Hd & k & Hk).
  assert (0 < k) by nia. assert (k ≠ 1) by (intros ->; lia).
  assert (∃ e, 1 < e ∧ (e | m) ∧ e * e ≤ m) as (e & He & Hem & Hle).
  { destruct (Z.le_ge_cases d k).
    - exists d. split_and!; [lia|by exists k|nia].
    - exists k. split_and!; [lia|exists d; lia|nia]. }
  destruct (prime_divisor e He) as (r & Hr & Hre). exists r. split; [done|]. split; [by etrans|].
  pose proof (Z.divide_pos_le r e ltac:(lia) Hre). pose proof (Z.prime_ge_2 _ Hr). nia.
Qed.

Definition product (qs : list Z) : Z := foldr Z.mul 1 qs.

Lemma product_pos qs : Forall Z.prime qs → 0 < product qs.
Proof.
  induction 1 as [|q qs Hq _ IH]; cbn; [done|]. pose proof (Z.prime_ge_2 _ Hq).
  apply Z.mul_pos_pos; [lia|done].
Qed.

Lemma prime_divides_product q qs : Z.prime q → Forall Z.prime qs → (q | product qs) → q ∈ qs.
Proof.
  intros Hq Hqs. induction Hqs as [|x qs Hx Hqs IH]; cbn; intros Hd.
  - apply Z.divide_1_r_nonneg in Hd; [|pose proof (Z.prime_ge_2 _ Hq); lia].
    pose proof (Z.prime_ge_2 _ Hq). lia.
  - apply Z.divide_prime_mul in Hd as [Hd|Hd]; [|by apply list_elem_of_further, IH|done].
    apply Z.divide_prime_prime in Hd as ->; [apply list_elem_of_here|done..].
Qed.

Lemma product_divides qs m :
  Forall Z.prime qs → NoDup qs → Forall (λ q, (q | m)) qs → (product qs | m).
Proof.
  intros Hp Hn Hd. induction qs as [|q qs IH]; [by apply Z.divide_1_l|]. cbn.
  apply Forall_cons in Hp as [Hq Hp]. apply NoDup_cons in Hn as [Hnin Hn].
  apply Forall_cons in Hd as [Hdq Hd]. destruct (IH Hp Hn Hd) as [k ->].
  apply Z.mul_divide_mono_r. apply (Z.gauss q (product qs)); [by rewrite Z.mul_comm|].
  apply Z.coprime_prime_l; [done|]. intros Hx. by apply Hnin, prime_divides_product.
Qed.

(** ** Pocklington's criterion *)

(** If [x] has order dividing both [q] and [r - 1], which are coprime, [x] is 1. *)
Lemma coprime_orders r x q :
  Z.prime r → 0 < q → Z.coprime q (r - 1) → x ^ q mod r = 1 → x mod r = 1.
Proof.
  intros Hr Hq Hc Hx. pose proof (Z.prime_ge_2 _ Hr) as H2.
  assert (x mod r ≠ 0) as Hnz.
  { intros E. rewrite <- Z.mod_pow_l, E, Z.pow_0_l, Z.mod_0_l in Hx by lia. lia. }
  pose proof (Z.fermat_nz r x Hr Hnz) as Hf.
  assert (∀ e k, 0 ≤ e → 0 ≤ k → x ^ e mod r = 1 → x ^ (e * k) mod r = 1) as Hpow.
  { intros e k He Hk E. rewrite Z.pow_mul_r, <- Z.mod_pow_l, E, Z.pow_1_l, Z.mod_small by lia. done. }
  apply Z.Bezout_coprime in Hc as (u & v & Huv).
  assert (∀ s t, 0 ≤ s → 0 ≤ t → x ^ s mod r = 1 → x ^ t mod r = 1 → s = 1 + t → x mod r = 1) as Hfin.
  { intros s t Hs Ht Es Et ->. rewrite Z.pow_add_r, Z.pow_1_r, Z.mul_mod, Et, Z.mul_1_r, Z.mod_mod in Es by lia.
    done. }
  destruct (Z.le_gt_cases v 0) as [Hv|Hv].
  - assert (0 ≤ (r - 1) * - v) by (apply Z.mul_nonneg_nonneg; lia).
    assert (0 < u) by nia.
    apply (Hfin (q * u) ((r - 1) * - v)); [nia|done|by apply Hpow; lia| |nia]. apply Hpow; [lia..|done].
  - assert (0 ≤ (r - 1) * v) by (apply Z.mul_nonneg_nonneg; lia).
    assert (u ≤ 0) by nia.
    apply (Hfin ((r - 1) * v) (q * - u)); [done|nia| |by apply Hpow; lia|nia]. apply Hpow; [lia..|done].
Qed.

Lemma pocklington_divides N x q r :
  1 < N → Z.prime q → Z.prime r → (r | N) →
  x ^ q mod N = 1 → Z.gcd (x mod N - 1) N = 1 → (q | r - 1).
Proof.
  intros HN Hq Hr HrN Hx Hg. pose proof (Z.prime_ge_2 _ Hq). pose proof (Z.prime_ge_2 _ Hr).
  destruct (Zdivide_dec q (r - 1)) as [|Hnd]; [done|]. exfalso.
  assert (∀ z, (z mod N) mod r = z mod r) as Hmm by (intros; by apply Z.mod_mod_divide).
  assert (x mod r = 1) as Hx1.
  { apply (coprime_orders r x q Hr); [lia|by apply Z.coprime_prime_l|].
    rewrite <- Hmm, Hx. apply Z.mod_small. lia. }
  assert ((r | 1)) as Hr1.
  { rewrite <- Hg. apply Z.gcd_greatest; [|done]. apply Z.mod_divide; [lia|].
    rewrite Zminus_mod, Hmm, Hx1, (Z.mod_small 1), Z.sub_diag by lia. done. }
  apply Z.divide_1_r_nonneg in Hr1; lia.
Qed.

(** The certificate: distinct primes [qs] whose product [P] exceeds the square
    root of [N], and a base [b] with b^P = 1 and b^(P/q) - 1 invertible. *)
Definition pocklington (N b : Z) (qs : list Z) : bool :=
  let P := product qs in
  (1 <? N) && bool_decide (NoDup qs) && (N <? (P + 1) * (P + 1)) &&
  forallb (λ q, let x := Zpow_mod b (P / q) N in
                (Zpow_mod x q N =? 1) && (Z.gcd (x - 1) N =? 1)) qs.

Lemma pocklington_prime N b qs : Forall Z.prime qs → pocklington N b qs = true → Z.prime N.
Proof.
  unfold pocklington. intros Hqs Hc. guards. rename select (forallb _ _ = true) into Hall.
  destruct (prime_dec N) as [Hp|Hn]; [by apply prime_alt|exfalso]. rewrite <- prime_alt in Hn.
  destruct (composite_small_divisor N ltac:(lia) Hn) as (r & Hr & HrN & Hle).
  pose proof (Z.prime_ge_2 _ Hr). pose proof (product_pos qs Hqs).
  assert ((product qs | r - 1)) as Hd; [|apply Z.divide_pos_le in Hd; nia].
  apply product_divides; [done..|]. rewrite Forall_forall in Hqs |- *. intros q Hq.
  rewrite List.forallb_forall in Hall. specialize (Hall q ltac:(by apply list_elem_of_In)). cbn in Hall. guards.
  rewrite !Zpow_mod_correct in * by lia. rewrite Z.mod_pow_l in *.
  apply (pocklington_divides N (b ^ (product qs / q)) q r); auto.
Qed.

(** Trial division, for the small leaves of the certificates. *)
Definition trial (N : Z) : bool :=
  (1 <? N) && forallb (λ d, negb (N mod d =? 0)) (seqZ 2 (Z.sqrt N - 1)).

Lemma trial_prime N : trial N = true → Z.prime N.
Proof.
  unfold trial. intros Hc. guards. rename select (forallb _ _ = true) into Hall.
  destruct (prime_dec N) as [Hp|Hn]; [by apply prime_alt|exfalso]. rewrite <- prime_alt in Hn.
  destruct (composite_small_divisor N ltac:(lia) Hn) as (r & Hr & HrN & Hle).
  pose proof (Z.prime_ge_2 _ Hr). rewrite List.forallb_forall in Hall.
  apply Z.sqrt_le_square in Hle; [|lia..].
  specialize (Hall r). rewrite <- list_elem_of_In, elem_of_seqZ in Hall. specialize (Hall ltac:(lia)).
  guards. apply Hall, Z.mod_divide; [lia|done].
Qed.

Ltac small_prime := apply trial_prime; vm_compute; reflexivity.
Ltac by_certificate a qs :=
  lazymatch goal with |- Z.prime ?N =>
    let b := eval vm_compute in (Zpow_mod a ((N - 1) / product qs) N) in
    apply (pocklington_prime _ b qs)
  end;
    [repeat (apply Forall_cons; split); [assumption..|apply Forall_nil_2]|vm_compute; reflexivity].

Definition p256_p : Z := 0xFFFFFFFF00000001000000000000000000000000FFFFFFFFFFFFFFFFFFFFFFFF.
Definition p256_n : Z := 0xFFFFFFFF00000000FFFFFFFFFFFFFFFFBCE6FAADA7179E84F3B9CAC2FC632551.

Lemma p256_p_prime : Z.prime p256_p.
Proof.
  assert (Z.prime 313) by small_prime. assert (Z.prime 5) by small_prime.
  assert (Z.prime 4349) by small_prime. assert (Z.prime 3677) by small_prime.
  assert (Z.prime 197) by small_prime.
  assert (Z.prime 704251) by by_certificate 2 [313; 5].
  assert (Z.prime 78283) by by_certificate 2 [4349].
  assert (Z.prime 46076956964474543) by by_certificate 2 [704251; 78283].
  assert (Z.prime 66417393611) by by_certificate 2 [3677; 197].
  assert (Z.prime 11290956913871) by by_certificate 2 [66417393611].
  assert (Z.prime 774023187263532362759620327192479577272145303)
    by by_certificate 2 [46076956964474543; 11290956913871].
  assert (Z.prime 835945042244614951780389953367877943453916927241)
    by by_certificate 2 [774023187263532362759620327192479577272145303].
  by_certificate 2 [835945042244614951780389953367877943453916927241].
Qed.

Lemma p256_n_prime : Z.prime p256_n.
Proof.
  assert (Z.prime 43) by small_prime. assert (Z.prime 7) by small_prime.
  assert (Z.prime 3) by small_prime. assert (Z.prime 3023) by small_prime.
  assert (Z.prime 337) by small_prime.
  assert (Z.prime 155317) by by_certificate 3 [43; 7; 3].
  assert (Z.prime 191039911) by by_certificate 2 [155317].
  assert (Z.prime 208150935158385979) by by_certificate 2 [191039911; 3023].
  assert (Z.prime 2624747550333869278416773953) by by_certificate 2 [208150935158385979].
  assert (Z.prime 104471) by by_certificate 2 [337].
  assert (Z.prime 3969899) by by_certificate 2 [104471].
  assert (Z.prime 1002328039319) by by_certificate 2 [3969899].
  by_certificate 2 [2624747550333869278416773953; 1002328039319].
Qed.

#[global] Opaque p256_p p256_n.
