(* ===== verification/Weierstrass.v ===== *)
(** Short Weierstrass curves y^2 = x^3 + a x + b over a prime field, as a
    reference for the verifier contracts: the textbook chord-and-tangent law on
    affine points (with [None] the point at infinity), and the inversion-free
    XYZZ formulas of the contracts (madd-2008-s, dbl-2008-s-1, mdbl-2008-s-1)
    proved to compute it in every case, exceptional ones included.  The Jacobian
    addition (add-2007-bl) is proved to compute the chord law only: it has no
    doubling case. *)
From Stdlib Require Import ZArith Znumtheory Zmod Field.
From S2P Require Import Prelude.

Section curve.
Context {m : Z} (Hm : Z.prime m) (Hm2 : 2 < m).
Abbreviation F := (Zmod m).
Variables (a b : F).
#[local] Open Scope Zmod_scope.

Add Field F_field : (Zmod.field_theory m Hm).

#[global] Instance F_eq_dec : EqDecision F.
Proof. refine (λ x y, cast_if (decide (Zmod.to_Z x = Zmod.to_Z y))); [by apply Zmod.to_Z_inj|congruence]. Defined.

Abbreviation two := (Zmod.one + Zmod.one : F).
Abbreviation three := (Zmod.one + Zmod.one + Zmod.one : F).

Lemma two_nz : two ≠ Zmod.zero.
Proof.
  intros E%(f_equal Zmod.to_Z). rewrite Zmod.to_Z_add, Zmod.to_Z_1_pos, Zmod.to_Z_0, Z.mod_small in E by lia. lia.
Qed.
Lemma mul_nz (x y : F) : x ≠ Zmod.zero → y ≠ Zmod.zero → x * y ≠ Zmod.zero.
Proof. intros Hx Hy E. apply Zmod.mul_0_iff_prime in E as [|]; done. Qed.
Lemma mul_z (x y : F) : x * y = Zmod.zero → x ≠ Zmod.zero → y = Zmod.zero.
Proof. intros E Hx. by apply Zmod.mul_0_iff_prime in E as [|]. Qed.
Lemma sub_z (x y : F) : x - y = Zmod.zero ↔ x = y.
Proof. split; [|intros ->; ring]. intros E. replace x with ((x - y) + y) by ring. rewrite E. ring. Qed.

(** ** Affine points *)

Abbreviation point := (option (F * F)).

Definition on_curve (P : point) : Prop :=
  match P with
  | None => True
  | Some (x, y) => y * y = x * x * x + a * x + b
  end.

(** The third intersection, negated, of the line of slope [l] through (x1, y1). *)
Definition third (l x1 y1 x2 : F) : F * F :=
  let x3 := l * l - x1 - x2 in (x3, l * (x1 - x3) - y1).

Definition aff_double (P : point) : point :=
  match P with
  | None => None
  | Some (x, y) =>
      if decide (y = Zmod.zero) then None
      else Some (third (Zmod.mdiv (three * (x * x) + a) (two * y)) x y x)
  end.

Definition aff_add (P Q : point) : point :=
  match P, Q with
  | None, _ => Q
  | _, None => P
  | Some (x1, y1), Some (x2, y2) =>
      if decide (x1 = x2) then
        if decide (y1 = y2) then aff_double Q else None
      else Some (third (Zmod.mdiv (y2 - y1) (x2 - x1)) x1 y1 x2)
  end.

Lemma mdiv_cancel (x y : F) : y ≠ Zmod.zero → Zmod.mdiv x y * y = x.
Proof. intros Hy. field. exact Hy. Qed.

(** An equation up to a multiple of a known one. *)
Lemma eq_up_to (u v k x y : F) : x = y → u - v = k * (x - y) → u = v.
Proof. intros -> E. apply sub_z. rewrite E. ring. Qed.

Lemma third_double l x y :
  l * (two * y) = three * (x * x) + a → y * y = x * x * x + a * x + b →
  on_curve (Some (third l x y x)).
Proof.
  unfold third, on_curve. intros Hl Hc. set (x3 := l * l - x - x).
  apply (eq_up_to _ _ Zmod.one (y * y) (x * x * x + a * x + b)); [done|].
  transitivity (y * y - (x * x * x + a * x + b) + (x3 - x) * (l * (two * y) - (three * (x * x) + a)));
    [subst x3; ring|rewrite Hl; ring].
Qed.

Lemma third_chord l x1 y1 x2 y2 :
  x2 - x1 ≠ Zmod.zero → l * (x2 - x1) = y2 - y1 →
  y1 * y1 = x1 * x1 * x1 + a * x1 + b → y2 * y2 = x2 * x2 * x2 + a * x2 + b →
  on_curve (Some (third l x1 y1 x2)).
Proof.
  unfold third, on_curve. intros Hx Hl H1 H2. apply sub_z.
  apply (mul_z (x2 - x1)); [|done]. set (x3 := l * l - x1 - x2).
  set (y3 := l * (x1 - x3) - y1).
  assert (l * (x2 - x1) + y1 = y2) as Hy2 by (rewrite Hl; ring).
  transitivity ((y1 * y1 - (x1 * x1 * x1 + a * x1 + b)) * (x2 - x3) +
    ((l * (x2 - x1) + y1) * (l * (x2 - x1) + y1) - (x2 * x2 * x2 + a * x2 + b)) * (x3 - x1));
    [subst y3 x3; ring|]. rewrite Hy2, H1, H2. ring.
Qed.

Lemma on_curve_double P : on_curve P → on_curve (aff_double P).
Proof.
  destruct P as [[x y]|]; [|done]. cbn [aff_double]. case_decide as Hy; [done|]. intros Hc.
  apply third_double; [|done]. apply mdiv_cancel, mul_nz; [apply two_nz|done].
Qed.
Lemma on_curve_add P Q : on_curve P → on_curve Q → on_curve (aff_add P Q).
Proof.
  destruct P as [[x1 y1]|], Q as [[x2 y2]|]; try done. cbn [aff_add]. intros HP HQ.
  case_decide as Hx; [case_decide; [by apply on_curve_double|done]|].
  assert (x2 - x1 ≠ Zmod.zero) by (rewrite sub_z; congruence).
  eapply third_chord; [done|by apply mdiv_cancel|done|done].
Qed.

(** ** XYZZ coordinates

    (X, Y, ZZ, ZZZ) with ZZ^3 = ZZZ^2 stands for (X/ZZ, Y/ZZZ); ZZ = ZZZ = 0
    for the point at infinity. *)
Record xyzz := XYZZ { cX : F; cY : F; cZZ : F; cZZZ : F }.

Definition represents (c : xyzz) (P : point) : Prop :=
  match P with
  | None => cZZ c = Zmod.zero ∧ cZZZ c = Zmod.zero
  | Some (x, y) =>
      cZZ c ≠ Zmod.zero ∧ cZZ c * cZZ c * cZZ c = cZZZ c * cZZZ c ∧
      cX c = x * cZZ c ∧ cY c = y * cZZZ c
  end.

Definition dbl (c : xyzz) : xyzz :=
  let U := two * cY c in
  let V := U * U in
  let W := U * V in
  let S := cX c * V in
  let M := three * (cX c * cX c) + a * (cZZ c * cZZ c) in
  let X3 := M * M - two * S in
  XYZZ X3 (M * (S - X3) - W * cY c) (V * cZZ c) (W * cZZZ c).

Definition madd (c : xyzz) (x2 y2 : F) : xyzz :=
  let R := y2 * cZZZ c - cY c in
  let P := x2 * cZZ c - cX c in
  let PP := P * P in
  let PPP := PP * P in
  let Q := cX c * PP in
  let X3 := R * R - PPP - two * Q in
  XYZZ X3 (R * (Q - X3) - cY c * PPP) (cZZ c * PP) (cZZZ c * PPP).

Lemma represents_zzz c x y : represents c (Some (x, y)) → cZZZ c ≠ Zmod.zero.
Proof.
  intros (Hz & E & _) H0. rewrite H0 in E.
  replace (Zmod.zero * Zmod.zero : F) with (Zmod.zero : F) in E by ring.
  by apply (mul_nz _ _ (mul_nz _ _ Hz Hz) Hz).
Qed.

Lemma represents_affine x y : represents (XYZZ x y Zmod.one Zmod.one) (Some (x, y)).
Proof. cbn. split; [apply Zmod.one_neq_zero; lia|]. split_and!; ring. Qed.

Lemma dbl_spec c x y : represents c (Some (x, y)) → represents (dbl c) (aff_double (Some (x, y))).
Proof.
  intros Hc. pose proof (represents_zzz _ _ _ Hc) as Hzzz. destruct Hc as (Hz & E & HX & HY).
  cbn [aff_double]. case_decide as Hy.
  - subst y. cbn. rewrite HY. split; ring.
  - assert (two * y ≠ Zmod.zero) as H2y by (apply mul_nz; [apply two_nz|done]).
    set (l := Zmod.mdiv _ _). assert (l * (two * y) = three * (x * x) + a) as Hl by (by apply mdiv_cancel).
    clearbody l. destruct c as [X Y ZZ ZZZ]. cbn in *. subst X Y.
    assert (three * (x * ZZ * (x * ZZ)) + a * (ZZ * ZZ) = ZZ * ZZ * (l * (two * y))) as HM by (rewrite Hl; ring).
    set (V := two * (y * ZZZ) * (two * (y * ZZZ))).
    assert (ZZ * ZZ * (l * (two * y)) * (ZZ * ZZ * (l * (two * y))) - two * (x * ZZ * V) =
            (l * l - x - x) * (V * ZZ)) as HX3.
    { apply (eq_up_to _ _ (two * two * (y * y) * (l * l) * ZZ) _ _ E). subst V. ring. }
    rewrite HM, HX3. split; [subst V; repeat apply mul_nz; done || apply two_nz|].
    split; [apply (eq_up_to _ _ (V * V * V) _ _ E); subst V; ring|]. split; [done|].
    apply (eq_up_to _ _ (two * y * l * V * (x - (l * l - x - x))) _ _ E). ring.
Qed.

Lemma madd_P c x y x2 : represents c (Some (x, y)) →
  x2 * cZZ c - cX c = Zmod.zero ↔ x = x2.
Proof.
  intros (Hz & _ & HX & _). rewrite HX. split; [|intros ->; ring]. intros E.
  symmetry. apply sub_z, (mul_z (cZZ c)); [|done]. rewrite <- E. ring.
Qed.
Lemma madd_R c x y y2 : represents c (Some (x, y)) →
  y2 * cZZZ c - cY c = Zmod.zero ↔ y = y2.
Proof.
  intros Hc. pose proof (represents_zzz _ _ _ Hc) as Hzzz. destruct Hc as (_ & _ & _ & HY).
  rewrite HY. split; [|intros ->; ring]. intros E.
  symmetry. apply sub_z, (mul_z (cZZZ c)); [|done]. rewrite <- E. ring.
Qed.

Lemma madd_spec c x y x2 y2 :
  represents c (Some (x, y)) → x ≠ x2 →
  represents (madd c x2 y2) (aff_add (Some (x, y)) (Some (x2, y2))).
Proof.
  intros Hc Hx. pose proof (represents_zzz _ _ _ Hc) as Hzzz. destruct Hc as (Hz & E & HX & HY).
  cbn [aff_add]. rewrite decide_False by done.
  assert (x2 - x ≠ Zmod.zero) as Hdx by (rewrite sub_z; congruence).
  set (l := Zmod.mdiv _ _). assert (l * (x2 - x) = y2 - y) as Hl by (by apply mdiv_cancel).
  clearbody l. destruct c as [X Y ZZ ZZZ]. cbn in *. subst X Y.
  assert (x2 * ZZ - x * ZZ ≠ Zmod.zero) as HP.
  { replace (x2 * ZZ - x * ZZ) with ((x2 - x) * ZZ) by ring. by apply mul_nz. }
  assert (y2 * ZZZ - y * ZZZ = l * (x2 - x) * ZZZ) as HR by (rewrite Hl; ring). rewrite HR.
  set (PP := (x2 * ZZ - x * ZZ) * (x2 * ZZ - x * ZZ)).
  assert (l * (x2 - x) * ZZZ * (l * (x2 - x) * ZZZ) - PP * (x2 * ZZ - x * ZZ) - two * (x * ZZ * PP) =
          (l * l - x - x2) * (ZZ * PP)) as HX3.
  { apply (eq_up_to _ _ (- (l * l * ((x2 - x) * (x2 - x)))) _ _ E). subst PP. ring. }
  rewrite HX3. split; [subst PP; repeat apply mul_nz; done|].
  split; [apply (eq_up_to _ _ (PP * PP * PP) _ _ E); subst PP; ring|]. split; [done|].
  subst PP. ring.
Qed.

(** ** Jacobian coordinates

    (X, Y, Z) stands for (X/Z^2, Y/Z^3), and for infinity when Z = 0. *)
Record jacobian := Jac { jX : F; jY : F; jZ : F }.

Definition jrepresents (c : jacobian) (P : point) : Prop :=
  match P with
  | None => jZ c = Zmod.zero
  | Some (x, y) =>
      jZ c ≠ Zmod.zero ∧ jX c = x * (jZ c * jZ c) ∧ jY c = y * (jZ c * jZ c * jZ c)
  end.

(** The chord law: [aff_add] without its tangent case, so that a point added to
    itself gives infinity. *)
Definition chord (P Q : point) : point :=
  match P, Q with
  | None, _ => Q
  | _, None => P
  | Some (x1, y1), Some (x2, y2) =>
      if decide (x1 = x2) then None
      else Some (third (Zmod.mdiv (y2 - y1) (x2 - x1)) x1 y1 x2)
  end.

Lemma chord_None_r P : chord P None = P.
Proof. by destruct P as [[]|]. Qed.
Lemma aff_add_self P : aff_add P P = aff_double P.
Proof. destruct P as [[x y]|]; [|done]. cbn [aff_add]. by rewrite !decide_True. Qed.
Lemma chord_self P : chord P P = None.
Proof. destruct P as [[x y]|]; [|done]. cbn. by rewrite decide_True. Qed.
Lemma chord_add P Q : P ≠ Q ∨ P = None → chord P Q = aff_add P Q.
Proof.
  destruct P as [[x1 y1]|], Q as [[x2 y2]|]; try done. cbn. intros Hne.
  case_decide; [|done]. case_decide; [|done]. subst. naive_solver.
Qed.

Definition jdbl (c : jacobian) : jacobian :=
  let S := two * two * (jX c * (jY c * jY c)) in
  let M := three * (jX c * jX c) + a * (jZ c * jZ c * (jZ c * jZ c)) in
  let X3 := M * M - two * S in
  Jac X3 (M * (S - X3) - two * two * two * (jY c * jY c * (jY c * jY c))) (two * (jY c * jZ c)).

Definition jadd (c d : jacobian) : jacobian :=
  let U1 := jX c * (jZ d * jZ d) in
  let S1 := jY c * (jZ d * jZ d * jZ d) in
  let H := jX d * (jZ c * jZ c) - U1 in
  let I := two * H * (two * H) in
  let J := H * I in
  let R := two * (jY d * (jZ c * jZ c * jZ c) - S1) in
  let V := U1 * I in
  let X3 := R * R - J - two * V in
  Jac X3 (R * (V - X3) - two * S1 * J) (two * (jZ c * jZ d) * H).

Lemma jrepresents_affine x y : jrepresents (Jac x y Zmod.one) (Some (x, y)).
Proof. cbn. split; [apply Zmod.one_neq_zero; lia|]. split; ring. Qed.

Lemma jdbl_spec c P : jrepresents c P → jrepresents (jdbl c) (aff_double P).
Proof.
  destruct P as [[x y]|]; cbn [aff_double]; [|intros E; cbn in *; rewrite E; ring].
  intros (Hz & HX & HY). case_decide as Hy; [subst y; cbn; rewrite HY; ring|].
  assert (two * y ≠ Zmod.zero) as H2y by (apply mul_nz; [apply two_nz|done]).
  set (l := Zmod.mdiv _ _). assert (l * (two * y) = three * (x * x) + a) as Hl by (by apply mdiv_cancel).
  clearbody l. destruct c as [X Y C]. cbn in *. subst X Y.
  set (M := three * _ + _). assert (M = C * C * (C * C) * (l * (two * y))) as HM by (subst M; rewrite Hl; ring).
  rewrite HM. split; [repeat apply mul_nz; done || apply two_nz|]. split; ring.
Qed.

Lemma jadd_spec c d P Q :
  jrepresents c P → jrepresents d Q → P ≠ None → Q ≠ None → jrepresents (jadd c d) (chord P Q).
Proof.
  destruct P as [[x1 y1]|], Q as [[x2 y2]|]; try done. intros (Hz1 & HX1 & HY1) (Hz2 & HX2 & HY2) _ _.
  destruct c as [X1 Y1 C1], d as [X2 Y2 C2]. cbn in *. subst X1 Y1 X2 Y2.
  case_decide as Hx; [subst x2; cbn; ring|].
  assert (x2 - x1 ≠ Zmod.zero) as Hdx by (rewrite sub_z; congruence).
  set (l := Zmod.mdiv _ _). assert (l * (x2 - x1) = y2 - y1) as Hl by (by apply mdiv_cancel).
  clearbody l. cbn. replace y2 with (l * (x2 - x1) + y1) by (rewrite Hl; ring).
  split.
  - apply mul_nz; [repeat apply mul_nz; done || apply two_nz|].
    replace (_ - _) with ((x2 - x1) * (C1 * C1 * (C2 * C2))) by ring. repeat apply mul_nz; done.
  - split; ring.
Qed.
End curve.
