(* ===== verification/P256Verifier.v ===== *)
(** The P-256 signature verifier
    (contracts/enclave-smart-account/P256Verifier.sol): ECDSA verification over
    secp256r1 with the Strauss-Shamir trick in XYZZ coordinates, behind the
    EIP-7212 calling convention.  [console.log] calls have no effect and are
    left out. *)
From Stdlib Require Import ZArith Zpow_facts Zmod Field.
From S2P Require Import Prelude Bytes Primes Weierstrass.

(** ** The modexp precompile (EIP-198, address 0x05)

    Input: three length words, then base, exponent and modulus; missing bytes
    read as zero.  The output has the modulus' length. *)
Definition padded_read (data : bytes) (off len : nat) : Z :=
  be_val (take len (drop off data ++ replicate len 0)).
Definition precompile_modexp (input : bytes) : bytes :=
  let blen := Z.to_nat (padded_read input 0 32) in
  let elen := Z.to_nat (padded_read input 32 32) in
  let mlen := Z.to_nat (padded_read input 64 32) in
  let base := padded_read input 96 blen in
  let exp := padded_read input (96 + blen) elen in
  let m := padded_read input (96 + blen + elen) mlen in
  be_bytes mlen (if m =? 0 then 0 else Zpow_mod base exp m).

(** ** The contract *)

Definition p : Z := p256_p.
Definition a : Z := 0xFFFFFFFF00000001000000000000000000000000FFFFFFFFFFFFFFFFFFFFFFFC.
Definition b : Z := 0x5AC635D8AA3A93E7B3EBBD55769886BC651D06B0CC53B0F63BCE3C3E27D2604B.
Definition GX : Z := 0x6B17D1F2E12C4247F8BCE6E563A440F277037D812DEB33A0F4A13945D898C296.
Definition GY : Z := 0x4FE342E2FE1A7F9B8EE7EB4A7C0F9E162BCE33576B315ECECBB6406837BF51F5.
Definition n : Z := p256_n.
Definition minus_2modp : Z := 0xFFFFFFFF00000001000000000000000000000000FFFFFFFFFFFFFFFFFFFFFFFD.
Definition minus_2modn : Z := 0xFFFFFFFF00000000FFFFFFFFFFFFFFFFBCE6FAADA7179E84F3B9CAC2FC63254F.

#[local] Abbreviation mulmod := Evm.mulmod.
#[local] Abbreviation addmod := Evm.addmod.

(** [assert(success)] panics with 0x01; the precompile always succeeds. *)
Definition modInv (u f minus_2modf : Z) : res Z :=
  let '(success, ret) := (true, precompile_modexp (abi_words [32; 32; 32; u; minus_2modf; f])) in
  _ ← (if success then Ok tt else Revert (Panic 0x01));
  abi_decode_uint256 ret.
Definition nModInv (u : Z) : res Z := modInv u n minus_2modn.
Definition pModInv (u : Z) : res Z := modInv u p minus_2modp.

Definition ecAffine_PointAtInf : Z * Z := (0, 0).
Definition ecZZ_PointAtInf : Z * Z * Z * Z := (0, 0, 0, 0).
Definition ecAff_IsInf (x y : Z) : bool := (x =? 0) && (y =? 0).
Definition ecZZ_IsInf (zz zzz : Z) : bool := (zz =? 0) && (zzz =? 0).

Definition ecAff_satisfiesCurveEqn (x y : Z) : bool :=
  let LHS := mulmod y y p in
  let RHS := addmod (mulmod (mulmod x x p) x p) (mulmod a x p) p in
  let RHS := addmod RHS b p in
  LHS =? RHS.

Definition ecAff_isValidPubkey (x y : Z) : bool :=
  if (p <=? x) || (p <=? y) || ((x =? 0) && (y =? 0)) then false
  else ecAff_satisfiesCurveEqn x y.

Definition ecZZ_SetAff (x y zz zzz : Z) : res (Z * Z) :=
  if ecZZ_IsInf zz zzz then Ok ecAffine_PointAtInf
  else
    zzzInv ← pModInv zzz;
    let zInv := mulmod zz zzzInv p in
    let zzInv := mulmod zInv zInv p in
    Ok (mulmod x zzInv p, mulmod y zzzInv p).

(** Solidity's [p - x] is checked: it panics when [x > p]. *)
Definition ecZZ_double_affine (x1 y1 : Z) : res (Z * Z * Z * Z) :=
  if ecAff_IsInf x1 y1 then Ok ecZZ_PointAtInf
  else
    let comp_U := mulmod 2 y1 p in
    let zz3 := mulmod comp_U comp_U p in
    let zzz3 := mulmod comp_U zz3 p in
    let comp_S := mulmod x1 zz3 p in
    let comp_M := addmod (mulmod 3 (mulmod x1 x1 p) p) a p in
    let x3 := addmod (mulmod comp_M comp_M p) (mulmod minus_2modp comp_S p) p in
    nx3 ← csub p x3;
    nzzz3 ← csub p zzz3;
    let y3 := addmod (mulmod comp_M (addmod comp_S nx3 p) p) (mulmod nzzz3 y1 p) p in
    Ok (x3, y3, zz3, zzz3).

Definition ecZZ_double_zz (x1 y1 zz1 zzz1 : Z) : res (Z * Z * Z * Z) :=
  if ecZZ_IsInf zz1 zzz1 then Ok ecZZ_PointAtInf
  else
    let comp_U := mulmod 2 y1 p in
    let comp_V := mulmod comp_U comp_U p in
    let comp_W := mulmod comp_U comp_V p in
    let comp_S := mulmod x1 comp_V p in
    let comp_M := addmod (mulmod 3 (mulmod x1 x1 p) p) (mulmod a (mulmod zz1 zz1 p) p) p in
    let x3 := addmod (mulmod comp_M comp_M p) (mulmod minus_2modp comp_S p) p in
    nx3 ← csub p x3;
    nW ← csub p comp_W;
    let y3 := addmod (mulmod comp_M (addmod comp_S nx3 p) p) (mulmod nW y1 p) p in
    let zz3 := mulmod comp_V zz1 p in
    let zzz3 := mulmod comp_W zzz1 p in
    Ok (x3, y3, zz3, zzz3).

Definition ecZZ_dadd_affine (x1 y1 zz1 zzz1 x2 y2 : Z) : res (Z * Z * Z * Z) :=
  if ecAff_IsInf x2 y2 then
    if ecZZ_IsInf zz1 zzz1 then Ok ecZZ_PointAtInf else Ok (x1, y1, zz1, zzz1)
  else if ecZZ_IsInf zz1 zzz1 then Ok (x2, y2, 1, 1)
  else
    ny1 ← csub p y1;
    let comp_R := addmod (mulmod y2 zzz1 p) ny1 p in
    nx1 ← csub p x1;
    let comp_P := addmod (mulmod x2 zz1 p) nx1 p in
    if negb (comp_P =? 0) then
      let comp_PP := mulmod comp_P comp_P p in
      let comp_PPP := mulmod comp_PP comp_P p in
      let zz3 := mulmod zz1 comp_PP p in
      let zzz3 := mulmod zzz1 comp_PPP p in
      let comp_Q := mulmod x1 comp_PP p in
      nPPP ← csub p comp_PPP;
      let x3 := addmod (addmod (mulmod comp_R comp_R p) nPPP p) (mulmod minus_2modp comp_Q p) p in
      nx3 ← csub p x3;
      ny1 ← csub p y1;
      let y3 := addmod (mulmod (addmod comp_Q nx3 p) comp_R p) (mulmod ny1 comp_PPP p) p in
      Ok (x3, y3, zz3, zzz3)
    else if comp_R =? 0 then ecZZ_double_affine x2 y2
    else Ok ecZZ_PointAtInf.

Definition ecAff_add (x1 y1 x2 y2 : Z) : res (Z * Z) :=
  if ecAff_IsInf x1 y1 then Ok (x2, y2)
  else if ecAff_IsInf x2 y2 then Ok (x1, y1)
  else
    '(x1, y1, zz1, zzz1) ← ecZZ_dadd_affine x1 y1 1 1 x2 y2;
    ecZZ_SetAff x1 y1 zz1 zzz1.

(** The operands are at most 2 and 1, so the checked sum cannot overflow. *)
Definition compute_bitpair (index scalar_u scalar_v : Z) : Z :=
  Z.shiftl (Z.land (Z.shiftr scalar_v index) 1) 1 + Z.land (Z.shiftr scalar_u index) 1.

(** Gas for the two loops: [index] starts at 255 and each iteration decrements
    it, so 256 iterations and the final test of the condition suffice. *)
Definition loop_fuel : nat := 257.

(** First loop: state (index, bitpair). *)
Definition find_first_body (scalar_u scalar_v : Z) (s : Z * Z) : res (flow (Z * Z)) :=
  let bitpair := compute_bitpair s.1 scalar_u scalar_v in
  let index := s.1 - 1 in
  if negb (bitpair =? 0) then Ok (Break (index, bitpair)) else Ok (Next (index, bitpair)).
Definition find_first_bitpair (scalar_u scalar_v : Z) : res (Z * Z) :=
  while loop_fuel (λ s, 0 <=? s.1) (find_first_body scalar_u scalar_v) (255, 0).

(** Second loop: state (index, (X, Y, zz, zzz)). *)
Definition mulmuladd_body (QX QY HX HY scalar_u scalar_v : Z) (s : Z * (Z * Z * Z * Z))
    : res (flow (Z * (Z * Z * Z * Z))) :=
  let '(index, (X, Y, zz, zzz)) := s in
  '(X, Y, zz, zzz) ← ecZZ_double_zz X Y zz zzz;
  let bitpair := compute_bitpair index scalar_u scalar_v in
  let index := index - 1 in
  if bitpair =? 0 then Ok (Next (index, (X, Y, zz, zzz)))
  else
    let '(TX, TY) := if bitpair =? 1 then (GX, GY) else if bitpair =? 2 then (QX, QY) else (HX, HY) in
    P ← ecZZ_dadd_affine X Y zz zzz TX TY;
    Ok (Next (index, P)).
Definition mulmuladd_loop (QX QY HX HY scalar_u scalar_v : Z) (s : Z * (Z * Z * Z * Z))
    : res (Z * (Z * Z * Z * Z)) :=
  while loop_fuel (λ s, 0 <=? s.1) (mulmuladd_body QX QY HX HY scalar_u scalar_v) s.

Definition ecZZ_mulmuladd (QX QY scalar_u scalar_v : Z) : res Z :=
  if (scalar_u =? 0) && (scalar_v =? 0) then Ok 0
  else
    '(HX, HY) ← ecAff_add GX GY QX QY;
    '(index, bitpair) ← find_first_bitpair scalar_u scalar_v;
    let '(X, Y) := if bitpair =? 1 then (GX, GY) else if bitpair =? 2 then (QX, QY)
                   else if bitpair =? 3 then (HX, HY) else (0, 0) in
    '(_, (X, Y, zz, zzz)) ← mulmuladd_loop QX QY HX HY scalar_u scalar_v (index, (X, Y, 1, 1));
    zzInv ← pModInv zz;
    Ok (mulmod X zzInv p).

Definition ecdsa_verify (message_hash r s : Z) (pubKey : Z * Z) : res bool :=
  if (r =? 0) || (n <=? r) || (s =? 0) || (n <=? s) then Ok false
  else if negb (ecAff_isValidPubkey pubKey.1 pubKey.2) then Ok false
  else
    sInv ← nModInv s;
    let scalar_u := mulmod message_hash sInv n in
    let scalar_v := mulmod r sInv n in
    r_x ← ecZZ_mulmuladd pubKey.1 pubKey.2 scalar_u scalar_v;
    Ok (r_x mod n =? r).

(** The EIP-7212 entry point. *)
Definition fallback (input : bytes) : res bytes :=
  if negb (length input =? 160)%nat then Ok (word 0)
  else
    hash ← slice input 0 32;
    r ← slice input 32 64;
    s ← slice input 64 96;
    x ← slice input 96 128;
    y ← slice input 128 160;
    valid ← ecdsa_verify (be_val hash) (be_val r) (be_val s) (be_val x, be_val y);
    Ok (word (if (valid : bool) then 1 else 0)).

(** ** Field elements

    [fe x]: [x] is a reduced residue modulo [p]; [el x] is its field element. *)
Definition fe (x : Z) : Prop := 0 ≤ x < p.
#[global] Instance fe_dec x : Decision (fe x).
Proof. unfold fe. apply _. Defined.
Abbreviation F := (Zmod p).
Abbreviation el := (Zmod.of_Z p).
Definition aF : F := el a.
Definition bF : F := el b.

Lemma p_prime : Z.prime p.
Proof. exact p256_p_prime. Qed.
Lemma n_prime : Z.prime n.
Proof. exact p256_n_prime. Qed.
Lemma p_big : 2 < p < 2 ^ 256.
Proof. by vm_compute. Qed.
Lemma n_big : 2 < n < 2 ^ 256.
Proof. by vm_compute. Qed.
Lemma minus_2modp_eq : minus_2modp = p - 2.
Proof. by vm_compute. Qed.
Lemma minus_2modn_eq : minus_2modn = n - 2.
Proof. by vm_compute. Qed.
#[global] Opaque p n minus_2modp minus_2modn a b GX GY.

Lemma fe_mulmod x y : fe (mulmod x y p).
Proof.
  unfold fe, Evm.mulmod. pose proof p_big. rewrite (proj2 (Z.eqb_neq p 0)) by lia.
  apply Z.mod_pos_bound. lia.
Qed.
Lemma fe_addmod x y : fe (addmod x y p).
Proof.
  unfold fe, Evm.addmod. pose proof p_big. rewrite (proj2 (Z.eqb_neq p 0)) by lia.
  apply Z.mod_pos_bound. lia.
Qed.
Lemma csub_fe x : fe x → csub p x = Ok (p - x).
Proof. unfold fe, csub. intros. by rewrite (proj2 (Z.leb_le x p)) by lia. Qed.
Lemma fe_1 : fe 1.
Proof. pose proof p_big. unfold fe. lia. Qed.
Lemma fe_0 : fe 0.
Proof. pose proof p_big. unfold fe. lia. Qed.
#[local] Hint Resolve fe_mulmod fe_addmod fe_1 fe_0 : core.

Lemma el_mulmod x y : el (mulmod x y p) = Zmod.mul (el x) (el y).
Proof.
  unfold Evm.mulmod. pose proof p_big. rewrite (proj2 (Z.eqb_neq p 0)) by lia.
  by rewrite Zmod.of_Z_mod, Zmod.of_Z_mul.
Qed.
Lemma el_addmod x y : el (addmod x y p) = Zmod.add (el x) (el y).
Proof.
  unfold Evm.addmod. pose proof p_big. rewrite (proj2 (Z.eqb_neq p 0)) by lia.
  by rewrite Zmod.of_Z_mod, Zmod.of_Z_add.
Qed.
Lemma el_p : el p = Zmod.zero.
Proof. rewrite <- Zmod.of_Z_mod, Z_mod_same_full. apply Zmod.of_Z_0. Qed.
Lemma el_neg x : el (p - x) = Zmod.opp (el x).
Proof. rewrite Zmod.of_Z_sub, el_p. done. Qed.
Lemma el_2 : el 2 = Zmod.add Zmod.one Zmod.one.
Proof. change 2 with (1 + 1). by rewrite Zmod.of_Z_add, Zmod.of_Z_1. Qed.
Lemma el_3 : el 3 = Zmod.add (Zmod.add Zmod.one Zmod.one) Zmod.one.
Proof. change 3 with (2 + 1). by rewrite Zmod.of_Z_add, el_2, Zmod.of_Z_1. Qed.
Lemma el_minus_2 : el minus_2modp = Zmod.opp (Zmod.add Zmod.one Zmod.one).
Proof. by rewrite minus_2modp_eq, el_neg, el_2. Qed.
Lemma el_zero x : fe x → el x = Zmod.zero ↔ x = 0.
Proof.
  intros Hx. rewrite <- (Zmod.of_Z_0 p), Zmod.of_Z_inj, Z.mod_0_l by (pose proof p_big; lia).
  by rewrite Z.mod_small by done.
Qed.
Lemma to_Z_el x : fe x → Zmod.to_Z (el x) = x.
Proof. intros. by apply Zmod.to_Z_of_Z_small. Qed.

Ltac to_field :=
  repeat first [rewrite el_mulmod | rewrite el_addmod | rewrite el_neg
               | rewrite el_2 | rewrite el_3 | rewrite el_minus_2].

(** ** Inversion *)

Lemma padded_read_word zs off i z :
  off = (32 * i)%nat → zs !! i = Some z → u256 z → padded_read (abi_words zs) off 32 = z.
Proof.
  intros -> Hi Hz. unfold padded_read. pose proof (lookup_lt_Some _ _ _ Hi).
  rewrite <- (app_nil_r (abi_words zs)), drop_abi_words_app, app_nil_r by lia.
  rewrite (drop_S _ _ _ Hi), abi_words_cons, <- app_assoc.
  rewrite take_app_length' by (by rewrite length_word). by apply be_val_word.
Qed.

Lemma be_bytes_32 z : be_bytes 32 z = abi_words [z].
Proof. rewrite abi_words_cons. by rewrite app_nil_r. Qed.

Lemma modInv_pow u f e :
  u256 u → u256 f → u256 e → f ≠ 0 → modInv u f e = Ok (u ^ e mod f).
Proof.
  intros Hu Hf He Hnz. unfold modInv, precompile_modexp.
  set (zs := [32; 32; 32; u; e; f]).
  assert (u256 32) as H32 by done.
  rewrite (padded_read_word zs 0 0 32), (padded_read_word zs 32 1 32), (padded_read_word zs 64 2 32) by done.
  change (Z.to_nat 32) with 32%nat.
  rewrite (padded_read_word zs 96 3 u), (padded_read_word zs (96 + 32) 4 e),
    (padded_read_word zs (96 + 32 + 32) 5 f) by done.
  rewrite (proj2 (Z.eqb_neq f 0)), Zpow_mod_correct by done. rewrite Ok_bind, be_bytes_32.
  unfold abi_decode_uint256. rewrite <- (app_nil_r (abi_words _)).
  apply (abi_word_at_words [_] [] 0 _ eq_refl). unfold uint in *.
  pose proof (Z.mod_pos_bound (u ^ e) f). lia.
Qed.

Lemma pModInv_el u : fe u → ∃ v, pModInv u = Ok v ∧ fe v ∧ el v = Zmod.inv (el u).
Proof.
  intros Hu. pose proof p_big. exists (u ^ (p - 2) mod p). unfold pModInv, fe in *. rewrite minus_2modp_eq.
  split; [apply modInv_pow; unfold uint; lia|]. split; [apply Z.mod_pos_bound; lia|].
  rewrite Zmod.of_Z_mod.
  assert (el (u ^ (p - 2)) = Zmod.pow (el u) (p - 2)) as ->.
  { apply Zmod.to_Z_inj. rewrite Zmod.to_Z_pow_nonneg_r, !Zmod.to_Z_of_Z, Z.mod_pow_l by lia. done. }
  destruct (decide (el u = Zmod.zero)) as [->|Hnz]; [|by apply Zmod.fermat_inv, p_prime].
  rewrite Zmod.inv_0. apply Zmod.pow_0_l. lia.
Qed.

Lemma nModInv_inv s : 0 < s < n → nModInv s = Ok (Z.invmod s n).
Proof.
  intros Hs. pose proof n_big. unfold nModInv. rewrite minus_2modn_eq.
  rewrite modInv_pow by (unfold uint; lia). f_equal.
  assert (Zmod.of_Z n s ≠ Zmod.zero) as Hnz by (apply Zmod.of_Z_nz; rewrite Z.mod_small; lia).
  pose proof (f_equal Zmod.to_Z (Zmod.fermat_inv (Zmod.of_Z n s) Hnz n_prime)) as E.
  rewrite Zmod.to_Z_pow_nonneg_r, Zmod.to_Z_inv, Zmod.to_Z_of_Z, Z.mod_pow_l, Z.invmod_mod_l in E by lia.
  exact E.
Qed.

(** ** Points

    What the contract's coordinate tuples stand for: [affine x y P] with (0, 0)
    the point at infinity, [zzpoint c P] for the XYZZ tuples. *)
Abbreviation point := (option (F * F)).

Definition affine (x y : Z) (P : point) : Prop :=
  fe x ∧ fe y ∧ P = if ecAff_IsInf x y then None else Some (el x, el y).
Definition zzpoint (c : Z * Z * Z * Z) (P : point) : Prop :=
  let '(x, y, zz, zzz) := c in
  fe x ∧ fe y ∧ fe zz ∧ fe zzz ∧ represents (XYZZ (el x) (el y) (el zz) (el zzz)) P.

#[local] Abbreviation double := (aff_double aF).
#[local] Abbreviation add := (aff_add aF).

Lemma one_nz : (Zmod.one : F) ≠ Zmod.zero.
Proof. apply Zmod.one_neq_zero. pose proof p_big. lia. Qed.

Lemma IsInf_spec x y : ecAff_IsInf x y = true ↔ x = 0 ∧ y = 0.
Proof. unfold ecAff_IsInf. rewrite andb_true_iff, !Z.eqb_eq. done. Qed.

Lemma zz_inf x y zz zzz P :
  zzpoint (x, y, zz, zzz) P → ecZZ_IsInf zz zzz = bool_decide (P = None).
Proof.
  intros (_ & _ & Hz & Hzz & Hr). unfold ecZZ_IsInf. destruct P as [[px py]|].
  - rewrite bool_decide_eq_false_2 by done. destruct Hr as (Hnz & _). cbn in Hnz.
    rewrite el_zero in Hnz by done. by rewrite (proj2 (Z.eqb_neq zz 0)).
  - rewrite bool_decide_eq_true_2 by done. destruct Hr as [E1 E2]. cbn in E1, E2.
    rewrite el_zero in E1, E2 by done. by subst.
Qed.

Lemma zzpoint_inf : zzpoint ecZZ_PointAtInf None.
Proof. cbn. rewrite Zmod.of_Z_0. split_and!; auto. Qed.
#[local] Hint Resolve zzpoint_inf : core.

Lemma zzpoint_affine x y : fe x → fe y → zzpoint (x, y, 1, 1) (Some (el x, el y)).
Proof.
  intros Hx Hy. cbn [zzpoint]. do 4 (split; [auto|]). rewrite Zmod.of_Z_1.
  apply represents_affine; [apply p_prime|apply p_big].
Qed.

Add Field p_field : (Zmod.field_theory p p_prime).

(** Run the checked subtractions from [p]. *)
Ltac negations := repeat first [rewrite csub_fe by auto | rewrite Ok_bind].

(** Coordinates equal up to ring identities. *)
Ltac same_coords H :=
  lazymatch type of H with represents (XYZZ ?X ?Y ?U ?V) ?P =>
    lazymatch goal with |- represents (XYZZ ?X' ?Y' ?U' ?V') P =>
      replace (XYZZ X' Y' U' V') with (XYZZ X Y U V) by (f_equal; ring); exact H
    end
  end.

Lemma double_zz_ok c P :
  zzpoint c P → ∃ c', (let '(x, y, zz, zzz) := c in ecZZ_double_zz x y zz zzz) = Ok c' ∧ zzpoint c' (double P).
Proof.
  destruct c as [[[x y] zz] zzz]. intros Hc. unfold ecZZ_double_zz. rewrite (zz_inf _ _ _ _ _ Hc).
  case_bool_decide as HP; [subst P; eauto|]. destruct P as [[px py]|]; [|done].
  negations. eexists. split; [done|].
  destruct Hc as (_ & _ & _ & _ & Hr). cbn [zzpoint]. do 4 (split; [auto|]). to_field.
  apply (dbl_spec p_prime (proj1 p_big) aF) in Hr. unfold dbl in Hr. cbn [cX cY cZZ cZZZ] in Hr.
  change (el a) with aF.
  same_coords Hr.
Qed.

Lemma double_affine_ok x y P :
  affine x y P → ∃ c', ecZZ_double_affine x y = Ok c' ∧ zzpoint c' (double P).
Proof.
  intros (Hx & Hy & ->). unfold ecZZ_double_affine. destruct (ecAff_IsInf x y); [eauto|].
  negations. eexists. split; [done|].
  destruct (zzpoint_affine x y Hx Hy) as (_ & _ & _ & _ & Hr).
  apply (dbl_spec p_prime (proj1 p_big) aF) in Hr. unfold dbl in Hr. cbn [cX cY cZZ cZZZ] in Hr.
  cbn [zzpoint]. do 4 (split; [auto|]). to_field. change (el a) with aF. rewrite Zmod.of_Z_1 in Hr.
  same_coords Hr.
Qed.

Lemma dadd_affine_ok c P x2 y2 Q :
  zzpoint c P → affine x2 y2 Q →
  ∃ c', (let '(x, y, zz, zzz) := c in ecZZ_dadd_affine x y zz zzz x2 y2) = Ok c' ∧ zzpoint c' (add P Q).
Proof.
  destruct c as [[[x y] zz] zzz]. intros Hc HQ. pose proof HQ as (Hx2 & Hy2 & EQ).
  unfold ecZZ_dadd_affine. rewrite (zz_inf _ _ _ _ _ Hc). destruct (ecAff_IsInf x2 y2) eqn:EI; subst Q.
  { case_bool_decide; [subst P; eauto|]. eexists. split; [done|]. by destruct P as [[]|]. }
  case_bool_decide as HP; [subst P; eauto using zzpoint_affine|]. destruct P as [[px py]|]; [|done].
  pose proof Hc as (Hx & Hy & _ & _ & Hr). negations.
  set (cP := addmod (mulmod x2 zz p) (p - x) p). set (cR := addmod (mulmod y2 zzz p) (p - y) p).
  assert (el cP = Zmod.sub (Zmod.mul (el x2) (el zz)) (el x)) as EP by (subst cP; to_field; ring).
  assert (el cR = Zmod.sub (Zmod.mul (el y2) (el zzz)) (el y)) as ER by (subst cR; to_field; ring).
  assert (cP = 0 ↔ px = el x2) as HP0.
  { rewrite <- el_zero by (subst cP; auto). rewrite EP. apply (madd_P p_prime _ _ _ _ Hr). }
  assert (cR = 0 ↔ py = el y2) as HR0.
  { rewrite <- el_zero by (subst cR; auto). rewrite ER. apply (madd_R p_prime _ _ _ _ Hr). }
  destruct (Z.eqb_spec cP 0) as [E0|E0]; cbn [negb].
  - destruct (Z.eqb_spec cR 0) as [F0|F0]; cbn [aff_add];
      rewrite decide_True by tauto; [rewrite decide_True by tauto|rewrite decide_False by tauto; eauto].
    apply double_affine_ok. split_and!; [done..|by rewrite EI].
  - negations. eexists. split; [done|].
    apply (madd_spec p_prime aF _ _ _ (el x2) (el y2)) in Hr; [|tauto].
    unfold madd in Hr. cbn [cX cY cZZ cZZZ] in Hr. cbn [zzpoint]. do 4 (split; [auto|]). to_field.
    rewrite EP, ER. same_coords Hr.
Qed.

(** The origin is not on the curve, so (0, 0) can stand for infinity. *)
#[local] Abbreviation curve := (on_curve aF bF).

Lemma bF_nz : bF ≠ Zmod.zero.
Proof. apply Zmod.of_Z_nz. by vm_compute. Qed.
Lemma origin_not_on_curve : ¬ curve (Some (Zmod.zero, Zmod.zero)).
Proof.
  cbn. intros E. apply bF_nz. transitivity (Zmod.mul Zmod.zero Zmod.zero : F); [|ring]. rewrite E. ring.
Qed.

Lemma affine_intro x y P :
  fe x → fe y → Some (el x, el y) = P → curve P → affine x y P.
Proof.
  intros Hx Hy <- HP. split_and!; [done..|]. destruct (ecAff_IsInf x y) eqn:E; [|done].
  apply IsInf_spec in E as [-> ->]. rewrite Zmod.of_Z_0 in HP. by apply origin_not_on_curve in HP.
Qed.

Lemma affine_inf : affine 0 0 None.
Proof. split_and!; auto. Qed.

Lemma SetAff_ok c P :
  zzpoint c P → curve P →
  ∃ x y, (let '(x, y, zz, zzz) := c in ecZZ_SetAff x y zz zzz) = Ok (x, y) ∧ affine x y P.
Proof.
  destruct c as [[[x y] zz] zzz]. intros Hc HP. unfold ecZZ_SetAff. rewrite (zz_inf _ _ _ _ _ Hc).
  case_bool_decide as Hn; [subst P; eauto using affine_inf|]. destruct P as [[px py]|]; [|done].
  pose proof Hc as (_ & _ & _ & Hzzz & Hr).
  destruct (pModInv_el zzz Hzzz) as (iv & -> & Hiv & Ei). rewrite Ok_bind.
  eexists _, _. split; [done|]. apply affine_intro; [auto..| |done].
  pose proof (represents_zzz p_prime _ _ _ Hr) as Hnz. destruct Hr as (Hz & E & HX & HY). cbn in *.
  to_field. rewrite Ei, HX, HY. f_equal. f_equal.
  - transitivity (Zmod.mul px (Zmod.mdiv (Zmod.mul (Zmod.mul (el zz) (el zz)) (el zz)) (Zmod.mul (el zzz) (el zzz))));
      [field; done|]. rewrite E. field. done.
  - field. done.
Qed.

Lemma ecAff_add_ok x1 y1 P x2 y2 Q :
  affine x1 y1 P → affine x2 y2 Q → curve P → curve Q →
  ∃ x y, ecAff_add x1 y1 x2 y2 = Ok (x, y) ∧ affine x y (add P Q).
Proof.
  intros HP HQ HcP HcQ. pose proof HP as (Hx1 & Hy1 & EP). pose proof HQ as (Hx2 & Hy2 & EQ).
  unfold ecAff_add. destruct (ecAff_IsInf x1 y1) eqn:E1.
  { subst P. eexists _, _. split; [done|]. by destruct Q as [[]|]. }
  destruct (ecAff_IsInf x2 y2) eqn:E2.
  { subst Q. eexists _, _. split; [done|]. by destruct P as [[]|]. }
  destruct (dadd_affine_ok (x1, y1, 1, 1) P x2 y2 Q) as (c & Ec & Hc); [|done|].
  { subst P. by apply zzpoint_affine. }
  rewrite Ec, Ok_bind. apply (SetAff_ok c _ Hc).
  apply on_curve_add; [apply p_prime|apply p_big|done|done].
Qed.

(** ** The reference: affine double-and-add on pairs of bits *)

Definition G : point := Some (el GX, el GY).
Definition select (Q : point) (u v : bool) : point :=
  match u, v with
  | false, false => None
  | true, false => G
  | false, true => Q
  | true, true => add G Q
  end.
Fixpoint lincomb (Q : point) (u v : Z) (k : nat) (acc : point) : point :=
  match k with
  | O => acc
  | S j =>
      let i := Z.of_nat j in
      lincomb Q u v j (add (double acc) (select Q (Z.testbit u i) (Z.testbit v i)))
  end.

Lemma compute_bitpair_bits i u v :
  0 ≤ i → compute_bitpair i u v =
    match Z.testbit u i, Z.testbit v i with
    | false, false => 0 | true, false => 1 | false, true => 2 | true, true => 3 end.
Proof.
  intros Hi. unfold compute_bitpair. rewrite Z.shiftl_mul_pow2 by lia.
  change 1 with (Z.ones 1) at 1 3. rewrite !Z.land_ones, !Z.shiftr_div_pow2 by lia.
  rewrite <- !Z.bit0_mod, !Z.div_pow2_bits, !Z.add_0_l by lia.
  by destruct (Z.testbit u i), (Z.testbit v i).
Qed.

Lemma G_affine : affine GX GY G.
Proof.
  split_and!; [by vm_compute..|]. unfold G.
  assert (ecAff_IsInf GX GY = false) as -> by (by vm_compute). done.
Qed.
Lemma satisfiesCurveEqn_spec x y :
  ecAff_satisfiesCurveEqn x y = true ↔ curve (Some (el x, el y)).
Proof.
  unfold ecAff_satisfiesCurveEqn. rewrite Z.eqb_eq. cbn [on_curve]. split.
  - intros E%(f_equal el). revert E. to_field. fold aF bF. intros ->. ring.
  - intros E. rewrite <- (to_Z_el (mulmod y y p)), <- (to_Z_el (addmod _ b p)) by auto. f_equal.
    to_field. fold aF bF. rewrite E. ring.
Qed.
Lemma G_on_curve : curve G.
Proof. apply satisfiesCurveEqn_spec. by vm_compute. Qed.

(** C31: The point operations of the contract implement the affine chord and
    tangent law.  For an XYZZ tuple that represents [P] and an affine pair that
    represents [Q] (both with reduced coordinates, (0, 0) and zz = zzz = 0 the
    point at infinity), ecZZ_double_zz, ecZZ_double_affine and ecZZ_dadd_affine
    never panic in a checked subtraction and return a tuple that represents 2P,
    2Q and P + Q, the doubling and the cancelling case of the addition included;
    for points on the curve ecZZ_SetAff returns the affine pair of the same point
    and ecAff_add that of the sum. *)
Theorem xyzz_operations_refine_group (x y zz zzz x2 y2 : Z) (P Q : point) :
  zzpoint (x, y, zz, zzz) P → affine x2 y2 Q →
  (∃ c, ecZZ_double_zz x y zz zzz = Ok c ∧ zzpoint c (aff_double aF P)) ∧
  (∃ c, ecZZ_double_affine x2 y2 = Ok c ∧ zzpoint c (aff_double aF Q)) ∧
  (∃ c, ecZZ_dadd_affine x y zz zzz x2 y2 = Ok c ∧ zzpoint c (aff_add aF P Q)) ∧
  (on_curve aF bF P → ∃ xa ya, ecZZ_SetAff x y zz zzz = Ok (xa, ya) ∧ affine xa ya P) ∧
  (∀ x1 y1 P1, affine x1 y1 P1 → on_curve aF bF P1 → on_curve aF bF Q →
     ∃ xa ya, ecAff_add x1 y1 x2 y2 = Ok (xa, ya) ∧ affine xa ya (aff_add aF P1 Q)).
Proof.
  intros HP HQ. split_and!.
  - exact (double_zz_ok _ _ HP).
  - exact (double_affine_ok _ _ _ HQ).
  - exact (dadd_affine_ok _ _ _ _ _ HP HQ).
  - exact (SetAff_ok _ _ HP).
  - intros x1 y1 P1 H1 HcP HcQ. by apply ecAff_add_ok.
Qed.
(** G + G is the doubling case. *)
Lemma xyzz_operations_refine_group_witness :
  (∃ c, ecZZ_dadd_affine GX GY 1 1 GX GY = Ok c ∧ zzpoint c (aff_add aF G G)) ∧
  (∃ xa ya, ecAff_add GX GY GX GY = Ok (xa, ya) ∧ affine xa ya (aff_add aF G G)).
Proof.
  destruct (xyzz_operations_refine_group GX GY 1 1 GX GY G G
    (zzpoint_affine GX GY (proj1 G_affine) (proj1 (proj2 G_affine))) G_affine) as (_ & _ & H1 & _ & H2).
  exact (conj H1 (H2 GX GY G G_affine G_on_curve G_on_curve)).
Defined.

(** ** The loops *)

Lemma index_test k : (0 <=? Z.of_nat k - 1) = negb (k =? 0)%nat.
Proof. destruct k; cbn [Nat.eqb negb]; [done|]. apply Z.leb_le. lia. Qed.
Lemma index_S k : Z.of_nat (S k) - 1 = Z.of_nat k.
Proof. lia. Qed.

Lemma find_first_body_eq u v index bp :
  find_first_body u v (index, bp) =
    if negb (compute_bitpair index u v =? 0) then Ok (Break (index - 1, compute_bitpair index u v))
    else Ok (Next (index - 1, compute_bitpair index u v)).
Proof. done. Qed.
Lemma mulmuladd_body_eq QX QY HX HY u v index X Y zz zzz :
  mulmuladd_body QX QY HX HY u v (index, (X, Y, zz, zzz)) =
    '(X, Y, zz, zzz) ← ecZZ_double_zz X Y zz zzz;
    if compute_bitpair index u v =? 0 then Ok (Next (index - 1, (X, Y, zz, zzz)))
    else
      let '(TX, TY) := if compute_bitpair index u v =? 1 then (GX, GY)
                       else if compute_bitpair index u v =? 2 then (QX, QY) else (HX, HY) in
      P ← ecZZ_dadd_affine X Y zz zzz TX TY;
      Ok (Next (index - 1, P)).
Proof. done. Qed.

(** The state of the first loop at index [k - 1]. *)
Lemma find_first_loop u v k fuel :
  (k < fuel)%nat →
  ∃ j bp, while fuel (λ s, 0 <=? s.1) (find_first_body u v) (Z.of_nat k - 1, 0) = Ok (Z.of_nat j - 1, bp) ∧ (j ≤ k)%nat ∧
    ((bp = 0 ∧ ∀ i, 0 ≤ i < Z.of_nat k → Z.testbit u i = false ∧ Z.testbit v i = false) ∨
     (bp ≠ 0 ∧ bp = compute_bitpair (Z.of_nat j) u v ∧
      ∀ Q, lincomb Q u v k None = lincomb Q u v j (select Q (Z.testbit u (Z.of_nat j)) (Z.testbit v (Z.of_nat j))))).
Proof.
  revert fuel. induction k as [|k IH]; intros fuel Hf; (destruct fuel as [|fuel]; [lia|]); rewrite while_S.
  { exists 0%nat, 0. split; [done|]. split; [lia|]. left. split; [done|]. lia. }
  cbn [fst]. rewrite index_test. cbn [Nat.eqb negb]. rewrite index_S, find_first_body_eq.
  destruct (Z.eqb_spec (compute_bitpair (Z.of_nat k) u v) 0) as [E|E]; cbn [negb]; rewrite Ok_bind; cbn iota.
  - rewrite E. destruct (IH fuel ltac:(lia)) as (j & bp & -> & Hj & Hb). exists j, bp. split; [done|]. split; [lia|].
    rewrite compute_bitpair_bits in E by lia.
    assert (Z.testbit u (Z.of_nat k) = false ∧ Z.testbit v (Z.of_nat k) = false) as [Eu Ev]
      by (destruct (Z.testbit u _), (Z.testbit v _); cbn in *; lia || done).
    destruct Hb as [[-> Hz]|(Hn & -> & HQ)]; [left|right].
    + split; [done|]. intros i Hi. destruct (decide (i = Z.of_nat k)) as [->|]; [done|]. apply Hz. lia.
    + split_and!; [done..|]. intros Q. cbn [lincomb]. rewrite Eu, Ev. cbn. apply HQ.
  - eexists k, _. split; [done|]. split; [lia|]. right. split_and!; [done..|]. intros Q. cbn [lincomb]. done.
Qed.

Section mulmuladd.
Context (QX QY HX HY u v : Z) (Q : point).
Hypotheses (HQ : affine QX QY Q) (HH : affine HX HY (add G Q)).

Lemma mulmuladd_loop_ok k fuel c P :
  (k < fuel)%nat → zzpoint c P →
  ∃ c', while fuel (λ s, 0 <=? s.1) (mulmuladd_body QX QY HX HY u v) (Z.of_nat k - 1, c) = Ok (-1, c') ∧ zzpoint c' (lincomb Q u v k P).
Proof.
  pose proof G_affine as HG. revert fuel c P. induction k as [|k IH]; intros fuel c P Hf Hc;
    (destruct fuel as [|fuel]; [lia|]); rewrite while_S; [by exists c|].
  cbn [fst]. rewrite index_test. cbn [Nat.eqb negb]. rewrite index_S.
  destruct c as [[[X Y] zz] zzz]. rewrite mulmuladd_body_eq.
  destruct (double_zz_ok _ _ Hc) as ([[[X' Y'] zz'] zzz'] & -> & Hc'). rewrite Ok_bind. cbv zeta.
  rewrite compute_bitpair_bits by lia. cbn [lincomb].
  destruct (Z.testbit u (Z.of_nat k)), (Z.testbit v (Z.of_nat k)); cbn [select Z.eqb Pos.eqb].
  all: try (match goal with H : affine ?x ?y ?R |- context [ecZZ_dadd_affine _ _ _ _ ?x ?y] =>
              destruct (dadd_affine_ok _ _ _ _ _ Hc' H) as (c'' & -> & Hc'') end;
            rewrite !Ok_bind; apply IH; [lia|done]).
  rewrite Ok_bind. apply IH; [lia|]. by destruct (double P) as [[]|].
Qed.
End mulmuladd.

Lemma lincomb_zero_bits Q u v k :
  (∀ i, 0 ≤ i < Z.of_nat k → Z.testbit u i = false ∧ Z.testbit v i = false) → lincomb Q u v k None = None.
Proof.
  induction k as [|k IH]; [done|]. intros Hz. cbn [lincomb].
  destruct (Hz (Z.of_nat k)) as [-> ->]; [lia|]. cbn. apply IH. intros i Hi. apply Hz. lia.
Qed.

Lemma all_bits_zero x : u256 x → (∀ i, 0 ≤ i < 256 → Z.testbit x i = false) → x = 0.
Proof.
  intros Hx Hz. apply Z.bits_inj'. intros i Hi. rewrite Z.bits_0.
  destruct (decide (i < 256)); [by apply Hz; lia|].
  rewrite <- (Z.mod_small x (2 ^ 256)) by done. apply Z.mod_pow2_bits_high. lia.
Qed.

(** What the contract returns for a point: its x coordinate, 0 at infinity. *)
Definition x_coordinate (P : point) : Z :=
  match P with Some (x, _) => Zmod.to_Z x | None => 0 end.

(** Projecting the result: X / ZZ, and 0 at infinity. *)
Lemma project_ok x y zz zzz P :
  zzpoint (x, y, zz, zzz) P → (zzInv ← pModInv zz; Ok (mulmod x zzInv p)) = Ok (x_coordinate P).
Proof.
  intros (_ & _ & Hz & _ & Hr). destruct (pModInv_el zz Hz) as (iv & -> & _ & Ei). rewrite Ok_bind. f_equal.
  rewrite <- (to_Z_el (mulmod x iv p)), el_mulmod, Ei by auto.
  destruct P as [[px py]|]; cbn [represents cX cY cZZ cZZZ x_coordinate] in *.
  - destruct Hr as (Hnz & _ & HX & _). f_equal. rewrite HX. field. done.
  - destruct Hr as [-> _]. rewrite Zmod.inv_0.
    replace (Zmod.mul (el x) Zmod.zero) with (Zmod.zero : F) by ring. apply Zmod.to_Z_0.
Qed.

(** The starting tuple of the second loop has zz = zzz = 1 even when (X, Y) is
    the point at infinity; the first doubling turns it into a proper one. *)
Lemma lincomb_start X Y P Q u v k :
  affine X Y P → ∃ P', zzpoint (X, Y, 1, 1) P' ∧ x_coordinate (lincomb Q u v k P') = x_coordinate (lincomb Q u v k P).
Proof.
  intros (HX & HY & ->). exists (Some (el X, el Y)). split; [by apply zzpoint_affine|].
  destruct (ecAff_IsInf X Y) eqn:E; [|done]. apply IsInf_spec in E as [-> ->].
  rewrite Zmod.of_Z_0. destruct k as [|k]; cbn [lincomb]; [apply Zmod.to_Z_0|]. cbn [aff_double].
  by rewrite decide_True.
Qed.

Lemma mulmuladd_ok QX QY u v Q :
  affine QX QY Q → curve Q → u256 u → u256 v →
  ecZZ_mulmuladd QX QY u v = Ok (x_coordinate (lincomb Q u v 256 None)).
Proof.
  intros HQ HcQ Hu Hv. unfold ecZZ_mulmuladd. destruct ((u =? 0) && (v =? 0)) eqn:E0.
  { apply andb_true_iff in E0 as [->%Z.eqb_eq ->%Z.eqb_eq]. rewrite lincomb_zero_bits; [done|].
    intros i _. by rewrite Z.testbit_0_l. }
  destruct (ecAff_add_ok _ _ _ _ _ _ G_affine HQ G_on_curve HcQ) as (HX & HY & -> & HH). rewrite Ok_bind.
  unfold find_first_bitpair, loop_fuel.
  destruct (find_first_loop u v 256 257 ltac:(lia)) as (j & bp & E & Hj & Hb).
  change (Z.of_nat 256 - 1) with 255 in E. rewrite E, Ok_bind. clear E.
  destruct Hb as [[-> Hz]|(Hn & Eb & HL)].
  { assert (u = 0 ∧ v = 0) as [-> ->]; [|done].
    split; apply all_bits_zero; [done| |done|]; intros i Hi; by apply Hz. }
  rewrite HL. unfold mulmuladd_loop, loop_fuel.
  assert (∃ X Y, (if bp =? 1 then (GX, GY) else if bp =? 2 then (QX, QY) else if bp =? 3 then (HX, HY) else (0, 0))
            = (X, Y) ∧ affine X Y (select Q (Z.testbit u (Z.of_nat j)) (Z.testbit v (Z.of_nat j))))
    as (X & Y & -> & HXY).
  { rewrite compute_bitpair_bits in Eb by lia. subst bp.
    destruct (Z.testbit u (Z.of_nat j)), (Z.testbit v (Z.of_nat j));
      cbn [select Z.eqb Pos.eqb] in *; [eauto using G_affine..|done]. }
  destruct (lincomb_start X Y _ Q u v j HXY) as (P' & HP' & <-).
  destruct (mulmuladd_loop_ok QX QY HX HY u v Q HQ HH j 257 _ P' ltac:(lia) HP') as ([[[X1 Y1] zz1] zzz1] & -> & Hc).
  rewrite Ok_bind. by eapply project_ok.
Qed.

(** ** ECDSA *)

(** Verification as in FIPS 186: r and s in [1, n-1], the key an affine point of
    the curve, and r the x coordinate, modulo n, of (h/s) G + (r/s) Q. *)
Definition ecdsa_valid (h r s x y : Z) : Prop :=
  0 < r < n ∧ 0 < s < n ∧ fe x ∧ fe y ∧ curve (Some (el x, el y)) ∧
  let w := Z.invmod s n in
  x_coordinate (lincomb (Some (el x, el y)) ((h * w) mod n) ((r * w) mod n) 256 None) mod n = r.

Lemma isValidPubkey_spec x y :
  0 ≤ x → 0 ≤ y → ecAff_isValidPubkey x y = true ↔ fe x ∧ fe y ∧ curve (Some (el x, el y)).
Proof.
  intros Hx Hy. unfold ecAff_isValidPubkey, fe.
  destruct ((p <=? x) || (p <=? y) || ((x =? 0) && (y =? 0))) eqn:E.
  - split; [done|]. intros (? & ? & Hc). exfalso. rewrite !orb_true_iff, andb_true_iff, !Z.leb_le, !Z.eqb_eq in E.
    destruct E as [[?|?]|[-> ->]]; [lia..|]. rewrite Zmod.of_Z_0 in Hc. by apply origin_not_on_curve in Hc.
  - guards. rewrite satisfiesCurveEqn_spec. split; [|tauto]. intros. split_and!; try done; lia.
Qed.

Lemma ecdsa_verify_ok h r s x y :
  u256 h → u256 r → u256 s → u256 x → u256 y →
  ∃ v, ecdsa_verify h r s (x, y) = Ok v ∧ (v = true ↔ ecdsa_valid h r s x y).
Proof.
  intros Hh Hr Hs Hx Hy. unfold ecdsa_verify, ecdsa_valid. cbn [fst snd]. pose proof n_big.
  destruct ((r =? 0) || (n <=? r) || (s =? 0) || (n <=? s)) eqn:E.
  { exists false. split; [done|]. split; [done|]. intros (? & ? & _). exfalso.
    rewrite !orb_true_iff, !Z.leb_le, !Z.eqb_eq in E. lia. }
  guards. unfold uint in *. destruct (ecAff_isValidPubkey x y) eqn:EK; cbn [negb].
  2: { exists false. split; [done|]. split; [done|]. intros (_ & _ & ? & ? & ? & _).
       rewrite (proj2 (isValidPubkey_spec x y ltac:(lia) ltac:(lia))) in EK; [done|tauto]. }
  apply isValidPubkey_spec in EK as (Fx & Fy & Hc); [|lia..].
  rewrite nModInv_inv, Ok_bind by lia. unfold Evm.mulmod. rewrite (proj2 (Z.eqb_neq n 0)) by lia.
  set (w := Z.invmod s n).
  rewrite (mulmuladd_ok x y _ _ (Some (el x, el y))), Ok_bind.
  - eexists. split; [done|]. rewrite Z.eqb_eq. split; [|tauto]. intros. split_and!; try done; lia.
  - by apply affine_intro.
  - done.
  - pose proof (Z.mod_pos_bound (h * w) n). unfold uint. lia.
  - pose proof (Z.mod_pos_bound (r * w) n). unfold uint. lia.
Qed.

(** C3: ecdsa_verify returns on every 256-bit input (no checked subtraction
    underflows, no loop runs out, the precompile's answer decodes), and returns
    true exactly when the signature is valid in the sense of [ecdsa_valid]: the
    inversion-free XYZZ double-and-add computes what textbook affine arithmetic
    modulo the prime p does, the points at infinity included. *)
Theorem ecdsa_verify_correct (h r s x y : Z) :
  u256 h → u256 r → u256 s → u256 x → u256 y →
  ∃ v, ecdsa_verify h r s (x, y) = Ok v ∧ (v = true ↔ ecdsa_valid h r s x y).
Proof. apply ecdsa_verify_ok. Qed.

Lemma ecdsa_verify_correct_witness :
  ecdsa_verify 5 0 7 (GX, GY) = Ok false ∧
  ∃ v, ecdsa_verify 5 n 7 (GX, GY) = Ok v ∧ (v = true ↔ ecdsa_valid 5 n 7 GX GY).
Proof.
  split; [by vm_compute|].
  refine (ecdsa_verify_correct 5 n 7 GX GY _ _ _ _ _); apply (bool_decide_unpack _); by vm_compute.
Defined.

(** ** Ranges and termination on arbitrary coordinates *)

Definition reduced (c : Z * Z * Z * Z) : Prop :=
  let '(x, y, zz, zzz) := c in fe x ∧ fe y ∧ fe zz ∧ fe zzz.
#[global] Instance reduced_dec c : Decision (reduced c).
Proof. destruct c as [[[x y] zz] zzz]. cbn. apply _. Defined.

Lemma reduced_intro x y zz zzz : fe x → fe y → fe zz → fe zzz → reduced (x, y, zz, zzz).
Proof. intros. unfold reduced. auto. Qed.
Lemma reduced_inf : reduced ecZZ_PointAtInf.
Proof. by apply reduced_intro. Qed.
#[local] Hint Resolve reduced_intro reduced_inf : core.

Lemma double_zz_reduced c :
  reduced c → ∃ c', (let '(x, y, zz, zzz) := c in ecZZ_double_zz x y zz zzz) = Ok c' ∧ reduced c'.
Proof.
  destruct c as [[[x y] zz] zzz]. intros _. unfold ecZZ_double_zz.
  destruct (ecZZ_IsInf zz zzz); [eauto|].
  negations. eauto.
Qed.
Lemma double_affine_reduced x y : ∃ c', ecZZ_double_affine x y = Ok c' ∧ reduced c'.
Proof.
  unfold ecZZ_double_affine. destruct (ecAff_IsInf x y); [eauto|].
  negations. eauto.
Qed.
Lemma dadd_affine_reduced c x2 y2 :
  reduced c → fe x2 → fe y2 →
  ∃ c', (let '(x, y, zz, zzz) := c in ecZZ_dadd_affine x y zz zzz x2 y2) = Ok c' ∧ reduced c'.
Proof.
  destruct c as [[[x y] zz] zzz]. intros (Hx & Hy & Hz & Hzz) Hx2 Hy2. unfold ecZZ_dadd_affine.
  destruct (ecAff_IsInf x2 y2), (ecZZ_IsInf zz zzz); eauto.
  negations. destruct (negb _); [|destruct (_ =? 0); [apply double_affine_reduced|]].
  - negations. eauto.
  - eauto.
Qed.
Lemma SetAff_reduced c :
  reduced c → ∃ x y, (let '(x, y, zz, zzz) := c in ecZZ_SetAff x y zz zzz) = Ok (x, y) ∧ fe x ∧ fe y.
Proof.
  destruct c as [[[x y] zz] zzz]. intros (_ & _ & _ & Hz). unfold ecZZ_SetAff.
  destruct (ecZZ_IsInf zz zzz); [by eexists _, _; split; [|auto]|].
  destruct (pModInv_el zzz Hz) as (iv & -> & _). rewrite Ok_bind. eexists _, _. split; [done|]. auto.
Qed.
Lemma ecAff_add_reduced x1 y1 x2 y2 :
  fe x1 → fe y1 → fe x2 → fe y2 → ∃ x y, ecAff_add x1 y1 x2 y2 = Ok (x, y) ∧ fe x ∧ fe y.
Proof.
  intros. unfold ecAff_add. destruct (ecAff_IsInf x1 y1); [eauto|]. destruct (ecAff_IsInf x2 y2); [eauto|].
  destruct (dadd_affine_reduced (x1, y1, 1, 1) x2 y2) as (c & -> & Hc); [auto|done..|].
  rewrite Ok_bind. by apply SetAff_reduced.
Qed.

(** A loop that counts [index] down and keeps an invariant ends at -1. *)
Lemma countdown {C} (I : C → Prop) (body : Z * C → res (flow (Z * C))) k fuel c :
  (∀ i c, I c → ∃ c', body (i, c) = Ok (Next (i - 1, c')) ∧ I c') →
  (k < fuel)%nat → I c → ∃ c', while fuel (λ s, 0 <=? s.1) body (Z.of_nat k - 1, c) = Ok (-1, c') ∧ I c'.
Proof.
  intros Hb. revert fuel c. induction k as [|k IH]; intros fuel c Hf Hc;
    (destruct fuel as [|fuel]; [lia|]); rewrite while_S; [by exists c|].
  cbn [fst]. rewrite index_test, index_S. cbn [Nat.eqb negb].
  destruct (Hb (Z.of_nat k) c Hc) as (c' & -> & Hc'). rewrite Ok_bind. apply IH; [lia|done].
Qed.

Lemma mulmuladd_body_reduced QX QY HX HY u v i c :
  fe QX → fe QY → fe HX → fe HY → reduced c →
  ∃ c', mulmuladd_body QX QY HX HY u v (i, c) = Ok (Next (i - 1, c')) ∧ reduced c'.
Proof.
  intros. destruct c as [[[X Y] zz] zzz]. rewrite mulmuladd_body_eq.
  destruct (double_zz_reduced (X, Y, zz, zzz)) as ([[[X' Y'] zz'] zzz'] & -> & Hc'); [done|]. rewrite Ok_bind.
  destruct (compute_bitpair i u v =? 0); [eauto|].
  destruct G_affine as (HGX & HGY & _).
  assert (∃ TX TY, (if compute_bitpair i u v =? 1 then (GX, GY)
            else if compute_bitpair i u v =? 2 then (QX, QY) else (HX, HY)) = (TX, TY) ∧ fe TX ∧ fe TY)
    as (TX & TY & -> & HTX & HTY).
  { destruct (_ =? 1); [eauto|]. destruct (_ =? 2); eauto. }
  destruct (dadd_affine_reduced (X', Y', zz', zzz') TX TY) as (c'' & -> & Hc''); [done..|].
  rewrite Ok_bind. eauto.
Qed.

(** C32: The scalar multiplication terminates: for any reduced coordinates
    (points of the curve or not) and any scalars, the two loops finish within
    their 256 iterations each and ecZZ_mulmuladd returns a residue in [0, p). *)
Theorem mulmuladd_terminates (QX QY u v : Z) :
  fe QX → fe QY → ∃ x, ecZZ_mulmuladd QX QY u v = Ok x ∧ fe x.
Proof.
  intros HQX HQY. unfold ecZZ_mulmuladd. destruct (_ && _); [eauto|].
  destruct G_affine as (HGX & HGY & _).
  destruct (ecAff_add_reduced GX GY QX QY) as (HX & HY & -> & FX & FY); [done..|]. rewrite Ok_bind.
  destruct (find_first_loop u v 256 257 ltac:(lia)) as (j & bp & E & Hj & _).
  unfold find_first_bitpair, loop_fuel. change (Z.of_nat 256 - 1) with 255 in E. rewrite E, Ok_bind. clear E.
  assert (∃ X Y, (if bp =? 1 then (GX, GY) else if bp =? 2 then (QX, QY) else if bp =? 3 then (HX, HY) else (0, 0))
            = (X, Y) ∧ fe X ∧ fe Y) as (X & Y & -> & HX' & HY').
  { destruct (_ =? 1); [eauto|]. destruct (_ =? 2); [eauto|]. destruct (_ =? 3); eauto. }
  destruct (countdown reduced (mulmuladd_body QX QY HX HY u v) j 257 (X, Y, 1, 1))
    as ([[[X1 Y1] zz1] zzz1] & E & _ & _ & Hz & _).
  { intros. by apply mulmuladd_body_reduced. }
  { lia. }
  { auto. }
  unfold mulmuladd_loop, loop_fuel. rewrite E, Ok_bind.
  destruct (pModInv_el zz1 Hz) as (iv & -> & _). rewrite Ok_bind. eauto.
Qed.
Lemma mulmuladd_terminates_witness : ∃ x, ecZZ_mulmuladd 1 1 (2 ^ 255) 3 = Ok x ∧ fe x.
Proof. refine (mulmuladd_terminates 1 1 (2 ^ 255) 3 _ _); apply (bool_decide_unpack _); by vm_compute. Defined.
