(* ===== verification/Secp256r1.v ===== *)
(** The second P-256 verifier (contracts/enclave-smart-account/SECP256R1.sol): a
    library that multiplies with a two-bit window over sixteen precomputed points
    in Jacobian coordinates.  Every function of the file, the assembly blocks
    with wrapping arithmetic, and the modexp precompile with its price. *)
From Stdlib Require Import ZArith Zpow_facts Zmod Field.
From S2P Require Import Prelude Bytes Primes Weierstrass P256Verifier.

(** ** The price of the modexp precompile

    [modexp] forwards 1500 gas, so whether the call succeeds depends on the
    chain's price.  EIP-2565 (Berlin) and EIP-7883 (Osaka), on the length words
    and the exponent's leading 32 bytes. *)
Class ModexpPrice := modexp_price : bytes → Z.

Definition modexp_iterations (step : Z) (input : bytes) : Z :=
  let blen := padded_read input 0 32 in
  let elen := padded_read input 32 32 in
  let head := padded_read input (96 + Z.to_nat blen) (Z.to_nat (Z.min elen 32)) in
  Z.max 1 ((if elen <=? 32 then 0 else step * (elen - 32)) + Z.log2 head).
Definition modexp_words (input : bytes) : Z :=
  (Z.max (padded_read input 0 32) (padded_read input 64 32) + 7) / 8.

Definition eip2565 : ModexpPrice := λ input,
  let words := modexp_words input in
  Z.max 200 (words * words * modexp_iterations 8 input / 3).
Definition eip7883 : ModexpPrice := λ input,
  let words := modexp_words input in
  let complexity := if words <=? 4 then 16 else 2 * (words * words) in
  Z.max 500 (complexity * modexp_iterations 16 input).

(** ** The library *)

Module SECP256R1.

Record PassKey := mkPassKey { pubKeyX : Z; pubKeyY : Z }.
Record JPoint := mkJPoint { x : Z; y : Z; z : Z }.

Definition GX : Z := 0x6B17D1F2E12C4247F8BCE6E563A440F277037D812DEB33A0F4A13945D898C296.
Definition GY : Z := 0x4FE342E2FE1A7F9B8EE7EB4A7C0F9E162BCE33576B315ECECBB6406837BF51F5.
Definition PP : Z := 0xFFFFFFFF00000001000000000000000000000000FFFFFFFFFFFFFFFFFFFFFFFF.
Definition NN : Z := 0xFFFFFFFF00000000FFFFFFFFFFFFFFFFBCE6FAADA7179E84F3B9CAC2FC632551.
Definition A : Z := 0xFFFFFFFF00000001000000000000000000000000FFFFFFFFFFFFFFFFFFFFFFFC.
Definition B : Z := 0x5AC635D8AA3A93E7B3EBBD55769886BC651D06B0CC53B0F63BCE3C3E27D2604B.
Definition MOST_SIGNIFICANT : Z := 0xc000000000000000000000000000000000000000000000000000000000000000.

#[local] Abbreviation mulmod := Evm.mulmod.
#[local] Abbreviation addmod := Evm.addmod.

(** [jAdd]: add-2007-bl.  Each [if lt(a, b) { a := add(pd, a) }] followed by a
    [sub] is a subtraction modulo [pd]; the sum may wrap. *)
Definition jAdd (p1 p2 p3 q1 q2 q3 : Z) : Z * Z * Z :=
  if p3 =? 0 then (q1, q2, q3)
  else if q3 =? 0 then (p1, p2, p3)
  else
    let pd := 0xFFFFFFFF00000001000000000000000000000000FFFFFFFFFFFFFFFFFFFFFFFF in
    let z1z1 := mulmod p3 p3 pd in
    let z2z2 := mulmod q3 q3 pd in
    let u1 := mulmod p1 z2z2 pd in
    let u2 := mulmod q1 z1z1 pd in
    let s1 := mulmod p2 (mulmod z2z2 q3 pd) pd in
    let s2 := mulmod q2 (mulmod z1z1 p3 pd) pd in
    let p3q3 := addmod p3 q3 pd in
    let u2 := if u2 <? u1 then Evm.add pd u2 else u2 in
    let h := Evm.sub u2 u1 in
    let i := mulmod 2 h pd in
    let i := mulmod i i pd in
    let j := mulmod h i pd in
    let s2 := if s2 <? s1 then Evm.add pd s2 else s2 in
    let rr := mulmod 2 (Evm.sub s2 s1) pd in
    let r1 := mulmod rr rr pd in
    let v := mulmod u1 i pd in
    let j2v := addmod j (mulmod 2 v pd) pd in
    let r1 := if r1 <? j2v then Evm.add pd r1 else r1 in
    let r1 := Evm.sub r1 j2v in
    let s12j := mulmod (mulmod 2 s1 pd) j pd in
    let v := if v <? r1 then Evm.add pd v else v in
    let r2 := mulmod rr (Evm.sub v r1) pd in
    let r2 := if r2 <? s12j then Evm.add pd r2 else r2 in
    let r2 := Evm.sub r2 s12j in
    let z1z1 := addmod z1z1 z2z2 pd in
    let j2v := mulmod p3q3 p3q3 pd in
    let j2v := if j2v <? z1z1 then Evm.add pd j2v else j2v in
    let r3 := mulmod (Evm.sub j2v z1z1) h pd in
    (r1, r2, r3).

Definition modifiedJacobianDouble (x y z : Z) : Z * Z * Z :=
  let pd := 0xFFFFFFFF00000001000000000000000000000000FFFFFFFFFFFFFFFFFFFFFFFF in
  let z2 := mulmod z z pd in
  let az4 := mulmod 0xFFFFFFFF00000001000000000000000000000000FFFFFFFFFFFFFFFFFFFFFFFC (mulmod z2 z2 pd) pd in
  let y2 := mulmod y y pd in
  let s := mulmod 4 (mulmod x y2 pd) pd in
  let u := mulmod 8 (mulmod y2 y2 pd) pd in
  let m := addmod (mulmod 3 (mulmod x x pd) pd) az4 pd in
  let twos := mulmod 2 s pd in
  let m2 := mulmod m m pd in
  let m2 := if m2 <? twos then Evm.add pd m2 else m2 in
  let x3 := Evm.sub m2 twos in
  let s := if s <? x3 then Evm.add pd s else s in
  let y3 := mulmod m (Evm.sub s x3) pd in
  let y3 := if y3 <? u then Evm.add pd y3 else y3 in
  let y3 := Evm.sub y3 u in
  let z3 := mulmod 2 (mulmod y z pd) pd in
  (x3, y3, z3).

Definition jPointAdd (p1 p2 : JPoint) : JPoint :=
  let '(x, y, z) := jAdd p1.(x) p1.(y) p1.(z) p2.(x) p2.(y) p2.(z) in mkJPoint x y z.
Definition jPointDouble (p : JPoint) : JPoint :=
  let '(x, y, z) := modifiedJacobianDouble p.(x) p.(y) p.(z) in mkJPoint x y z.

(** [JPoint[16]]. *)
Definition preComputeJacobianPoints (passKey : PassKey) : list JPoint :=
  let p0 := mkJPoint 0 0 0 in
  let p1 := mkJPoint passKey.(pubKeyX) passKey.(pubKeyY) 1 in
  let p2 := jPointDouble p1 in
  let p3 := jPointAdd p1 p2 in
  let p4 := mkJPoint GX GY 1 in
  let p5 := jPointAdd p4 p1 in
  let p6 := jPointAdd p4 p2 in
  let p7 := jPointAdd p4 p3 in
  let p8 := jPointDouble p4 in
  let p9 := jPointAdd p8 p1 in
  let p10 := jPointAdd p8 p2 in
  let p11 := jPointAdd p8 p3 in
  let p12 := jPointAdd p4 p8 in
  let p13 := jPointAdd p12 p1 in
  let p14 := jPointAdd p12 p2 in
  let p15 := jPointAdd p12 p3 in
  [p0; p1; p2; p3; p4; p5; p6; p7; p8; p9; p10; p11; p12; p13; p14; p15].

Section library.
Context `{ModexpPrice}.

(** [staticcall(gas, 0x5, ...)]: out of gas when the price exceeds [gas]. *)
Definition staticcall_modexp (gas : Z) (input : bytes) : bool * bytes :=
  if gas <? modexp_price input then (false, []) else (true, precompile_modexp input).

(** The output (at most 32 bytes) overwrites the start of the input's memory. *)
Definition modexp (_base _exp _mod : Z) : res Z :=
  let _base := if _mod <? _base then (if _mod =? 0 then 0 else _base mod _mod) else _base in
  let freemem := abi_words [0x20; 0x20; 0x20; _base; _exp; _mod] in
  let '(success, ret) := staticcall_modexp 1500 freemem in
  if (success : bool) then
    let out := take 32 ret in
    Ok (be_val (take 32 (out ++ drop (length out) freemem)))
  else Revert NoData.

Definition primemod (value p : Z) : res Z :=
  e ← csub p 2; modexp value e p.

Definition affineFromJacobian (x y z : Z) : res (Z * Z) :=
  if z =? 0 then Ok (0, 0)
  else
    zinv ← primemod z PP;
    let zinvsq := mulmod zinv zinv PP in
    Ok (mulmod x zinvsq PP, mulmod y (mulmod zinvsq zinv PP) PP).

(** One iteration of the window loop; the state is (bits, u1, u2, (x, y, z)). *)
Definition shamir_body (points : list JPoint) (s : Z * Z * Z * (Z * Z * Z)) : res (flow (Z * Z * Z * (Z * Z * Z))) :=
  let '(bits, u1, u2, (x, y, z)) := s in
  let '(x, y, z) :=
    if 0 <? z then
      let '(x, y, z) := modifiedJacobianDouble x y z in modifiedJacobianDouble x y z
    else (x, y, z) in
  let index := Z.lor (Z.shiftr (Z.land u1 MOST_SIGNIFICANT) 252) (Z.shiftr (Z.land u2 MOST_SIGNIFICANT) 254) in
  '(x, y, z) ← (if 0 <? index then
      match points !! Z.to_nat index with
      | Some q => Ok (jAdd x y z q.(SECP256R1.x) q.(SECP256R1.y) q.(SECP256R1.z))
      | None => Revert (Panic 0x32)
      end
    else Ok (x, y, z));
  let u1 := wrap (Z.shiftl u1 2) in
  let u2 := wrap (Z.shiftl u2 2) in
  bits ← csub bits 1;
  Ok (Next (bits, u1, u2, (x, y, z))).

(** [bits] counts down from 128: 128 iterations and the final test. *)
Definition shamirMultJacobian (points : list JPoint) (u1 u2 : Z) : res (Z * Z) :=
  '(_, _, _, (x, y, z)) ← while 129 (λ s, 0 <? s.1.1.1) (shamir_body points) (128, u1, u2, (0, 0, 0));
  affineFromJacobian x y z.

Definition verifyWithPrecompute (points : list JPoint) (r s e : Z) : res bool :=
  if (NN <=? r) || (NN <=? s) then Ok false
  else
    w ← primemod s NN;
    let u1 := mulmod e w NN in
    let u2 := mulmod r w NN in
    '(x, y) ← shamirMultJacobian points u1 u2;
    Ok (x =? r).

Definition verify (passKey : PassKey) (r s e : Z) : res bool :=
  if (NN <=? r) || (NN <=? s) then Ok false
  else verifyWithPrecompute (preComputeJacobianPoints passKey) r s e.
End library.
End SECP256R1.

(** ** Field arithmetic *)

Lemma pd_eq : 0xFFFFFFFF00000001000000000000000000000000FFFFFFFFFFFFFFFFFFFFFFFF = p.
Proof. by vm_compute. Qed.
Lemma PP_eq : SECP256R1.PP = p.
Proof. by vm_compute. Qed.
Lemma NN_eq : SECP256R1.NN = n.
Proof. by vm_compute. Qed.
Lemma a_eq : 0xFFFFFFFF00000001000000000000000000000000FFFFFFFFFFFFFFFFFFFFFFFC = a.
Proof. by vm_compute. Qed.
Lemma GX_eq : SECP256R1.GX = GX.
Proof. by vm_compute. Qed.
Lemma GY_eq : SECP256R1.GY = GY.
Proof. by vm_compute. Qed.

#[local] Abbreviation mulmod := Evm.mulmod.
#[local] Abbreviation addmod := Evm.addmod.
#[local] Hint Resolve fe_mulmod fe_addmod fe_0 fe_1 : core.

(** The borrow before a subtraction: the difference modulo [p], although the sum
    with [p] overflows 256 bits for most operands. *)
Definition subp (x y : Z) : Z := Evm.sub (if x <? y then Evm.add p x else x) y.

Lemma subp_eq x y : fe x → fe y → subp x y = (x - y) mod p.
Proof.
  unfold fe, subp, Evm.sub, Evm.add, wrap. intros Hx Hy. pose proof p_big. pose proof W256_eq.
  destruct (Z.ltb_spec x y).
  - rewrite Zminus_mod_idemp_l, (Z.mod_small _ W256) by lia.
    rewrite <- (Z_mod_plus_full _ 1), Z.mod_small by lia. lia.
  - rewrite !Z.mod_small; lia.
Qed.
Lemma fe_subp x y : fe x → fe y → fe (subp x y).
Proof. intros. rewrite subp_eq by done. unfold fe. pose proof p_big. apply Z.mod_pos_bound. lia. Qed.
Lemma el_subp x y : fe x → fe y → el (subp x y) = Zmod.sub (el x) (el y).
Proof. intros. rewrite subp_eq by done. by rewrite Zmod.of_Z_mod, Zmod.of_Z_sub. Qed.
#[local] Hint Resolve fe_subp : core.

Lemma el_4 : el 4 = Zmod.mul (Zmod.add Zmod.one Zmod.one) (Zmod.add Zmod.one Zmod.one).
Proof. change 4 with (2 * 2). by rewrite Zmod.of_Z_mul, el_2. Qed.
Lemma el_8 : el 8 = Zmod.mul (Zmod.mul (Zmod.add Zmod.one Zmod.one) (Zmod.add Zmod.one Zmod.one)) (Zmod.add Zmod.one Zmod.one).
Proof. change 8 with (4 * 2). by rewrite Zmod.of_Z_mul, el_4, el_2. Qed.

(** The two formulas with the subtractions named. *)
Lemma jAdd_eq p1 p2 p3 q1 q2 q3 :
  SECP256R1.jAdd p1 p2 p3 q1 q2 q3 =
    if p3 =? 0 then (q1, q2, q3) else if q3 =? 0 then (p1, p2, p3) else
    let z1z1 := mulmod p3 p3 p in
    let z2z2 := mulmod q3 q3 p in
    let u1 := mulmod p1 z2z2 p in
    let s1 := mulmod p2 (mulmod z2z2 q3 p) p in
    let h := subp (mulmod q1 z1z1 p) u1 in
    let i := mulmod (mulmod 2 h p) (mulmod 2 h p) p in
    let j := mulmod h i p in
    let rr := mulmod 2 (subp (mulmod q2 (mulmod z1z1 p3 p) p) s1) p in
    let v := mulmod u1 i p in
    let r1 := subp (mulmod rr rr p) (addmod j (mulmod 2 v p) p) in
    let r2 := subp (mulmod rr (subp v r1) p) (mulmod (mulmod 2 s1 p) j p) in
    let r3 := mulmod (subp (mulmod (addmod p3 q3 p) (addmod p3 q3 p) p) (addmod z1z1 z2z2 p)) h p in
    (r1, r2, r3).
Proof. unfold SECP256R1.jAdd, subp. rewrite pd_eq. cbv zeta. reflexivity. Qed.

Lemma modifiedJacobianDouble_eq x y z :
  SECP256R1.modifiedJacobianDouble x y z =
    let z2 := mulmod z z p in
    let y2 := mulmod y y p in
    let s := mulmod 4 (mulmod x y2 p) p in
    let m := addmod (mulmod 3 (mulmod x x p) p) (mulmod a (mulmod z2 z2 p) p) p in
    let x3 := subp (mulmod m m p) (mulmod 2 s p) in
    (x3, subp (mulmod m (subp s x3) p) (mulmod 8 (mulmod y2 y2 p) p), mulmod 2 (mulmod y z p) p).
Proof. unfold SECP256R1.modifiedJacobianDouble, subp. rewrite pd_eq, a_eq. cbv zeta. reflexivity. Qed.

(** ** What a coordinate triple stands for

    The coordinates of a key are not checked to be below [p], so only Z is
    reduced. *)
Definition jtriple (c : Z * Z * Z) (P : point) : Prop :=
  let '(x, y, z) := c in fe z ∧ jrepresents (Jac (el x) (el y) (el z)) P.
#[local] Abbreviation double := (aff_double aF).

Add Field p_field2 : (Zmod.field_theory p p_prime).

Ltac same_jacobian H :=
  lazymatch type of H with jrepresents (Jac ?X ?Y ?C) ?P =>
    lazymatch goal with |- jrepresents (Jac ?X' ?Y' ?C') P =>
      replace (Jac X' Y' C') with (Jac X Y C) by (f_equal; ring); exact H
    end
  end.
Ltac to_field' :=
  repeat first [rewrite el_subp by auto 10 | rewrite el_mulmod | rewrite el_addmod
               | rewrite el_2 | rewrite el_3 | rewrite el_4 | rewrite el_8].

Lemma jtriple_inf x y z P : jtriple (x, y, z) P → (z =? 0) = bool_decide (P = None).
Proof.
  intros [Hz Hr]. destruct P as [[px py]|].
  - rewrite bool_decide_eq_false_2 by done. destruct Hr as [Hnz _]. cbn in Hnz.
    rewrite el_zero in Hnz by done. by apply Z.eqb_neq.
  - rewrite bool_decide_eq_true_2 by done. cbn in Hr. rewrite el_zero in Hr by done. by apply Z.eqb_eq.
Qed.

Lemma jtriple_affine x y : jtriple (x, y, 1) (Some (el x, el y)).
Proof.
  split; [auto|]. rewrite Zmod.of_Z_1. apply jrepresents_affine; [apply p_prime|apply p_big].
Qed.
Lemma jtriple_zero : jtriple (0, 0, 0) None.
Proof. split; [auto|]. cbn. apply Zmod.of_Z_0. Qed.

Lemma double_jtriple x y z P :
  jtriple (x, y, z) P → jtriple (SECP256R1.modifiedJacobianDouble x y z) (double P).
Proof.
  intros [Hz Hr]. rewrite modifiedJacobianDouble_eq. cbv zeta. split; [auto|].
  apply (jdbl_spec p_prime (proj1 p_big) aF) in Hr. unfold jdbl in Hr. cbn [jX jY jZ] in Hr.
  to_field'. change (el a) with aF. same_jacobian Hr.
Qed.

Lemma jAdd_jtriple x1 y1 z1 x2 y2 z2 P Q :
  jtriple (x1, y1, z1) P → jtriple (x2, y2, z2) Q →
  jtriple (SECP256R1.jAdd x1 y1 z1 x2 y2 z2) (chord P Q).
Proof.
  intros HP HQ. rewrite jAdd_eq, (jtriple_inf _ _ _ _ HP), (jtriple_inf _ _ _ _ HQ).
  case_bool_decide as EP; [by subst P|]. case_bool_decide as EQ; [subst Q; by rewrite chord_None_r|].
  destruct HP as [Hz1 HP], HQ as [Hz2 HQ]. cbv zeta. split; [auto|].
  pose proof (jadd_spec p_prime (proj1 p_big) _ _ _ _ HP HQ EP EQ) as Hr.
  unfold jadd in Hr. cbn [jX jY jZ] in Hr. to_field'. same_jacobian Hr.
Qed.

Definition jpoint (q : SECP256R1.JPoint) (P : point) : Prop :=
  jtriple (SECP256R1.x q, SECP256R1.y q, SECP256R1.z q) P.

Lemma jPointAdd_jpoint q r Q R :
  jpoint q Q → jpoint r R → jpoint (SECP256R1.jPointAdd q r) (chord Q R).
Proof.
  intros Hq Hr. pose proof (jAdd_jtriple _ _ _ _ _ _ _ _ Hq Hr) as Hj. unfold SECP256R1.jPointAdd.
  destruct (SECP256R1.jAdd _ _ _ _ _ _) as [[? ?] ?]. exact Hj.
Qed.
Lemma jPointDouble_jpoint q Q : jpoint q Q → jpoint (SECP256R1.jPointDouble q) (double Q).
Proof.
  intros Hq. pose proof (double_jtriple _ _ _ _ Hq) as Hj. unfold SECP256R1.jPointDouble.
  destruct (SECP256R1.modifiedJacobianDouble _ _ _) as [[? ?] ?]. exact Hj.
Qed.
Lemma jpoint_zero : jpoint (SECP256R1.mkJPoint 0 0 0) None.
Proof. exact jtriple_zero. Qed.
#[local] Hint Resolve jPointAdd_jpoint jPointDouble_jpoint jpoint_zero : core.

(** ** The reference: the table and a two-bit window over any addition *)

(** Entry [4 i + j] is iG + jQ. *)
Definition table (add : point → point → point) (Q : point) : list point :=
  let Q2 := double Q in let Q3 := add Q Q2 in
  let G2 := double G in let G3 := add G G2 in
  [None; Q; Q2; Q3; G; add G Q; add G Q2; add G Q3;
   G2; add G2 Q; add G2 Q2; add G2 Q3; G3; add G3 Q; add G3 Q2; add G3 Q3].

Definition digit (u : Z) (j : nat) : Z := (u / 4 ^ Z.of_nat j) mod 4.
Definition pick (T : list point) (u v : Z) (j : nat) : point :=
  default None (T !! Z.to_nat (4 * digit u j + digit v j)).
Fixpoint windowed (add : point → point → point) (T : list point) (u v : Z) (k : nat) (acc : point) : point :=
  match k with
  | O => acc
  | S j => windowed add T u v j (add (double (double acc)) (pick T u v j))
  end.

Lemma preCompute_table pk :
  Forall2 jpoint (SECP256R1.preComputeJacobianPoints pk)
    (table chord (Some (el (SECP256R1.pubKeyX pk), el (SECP256R1.pubKeyY pk)))).
Proof.
  unfold SECP256R1.preComputeJacobianPoints, table. rewrite GX_eq, GY_eq. cbv zeta.
  assert (jpoint (SECP256R1.mkJPoint GX GY 1) G) as HG by apply jtriple_affine.
  assert (jpoint (SECP256R1.mkJPoint (SECP256R1.pubKeyX pk) (SECP256R1.pubKeyY pk) 1)
    (Some (el (SECP256R1.pubKeyX pk), el (SECP256R1.pubKeyY pk)))) as HQ by apply jtriple_affine.
  revert HG HQ. generalize (SECP256R1.mkJPoint GX GY 1) G. intros g P HG.
  generalize (SECP256R1.mkJPoint (SECP256R1.pubKeyX pk) (SECP256R1.pubKeyY pk) 1)
    (Some (el (SECP256R1.pubKeyX pk), el (SECP256R1.pubKeyY pk))). intros q Q HQ.
  do 16 (constructor; [by auto 10|]). constructor.
Qed.

(** ** The window

    The index is built from the top two bits of the shifted scalars. *)
Lemma top_bits c k u :
  u256 u → 0 ≤ c ≤ 2 → k = 254 - c →
  Z.shiftr (Z.land u SECP256R1.MOST_SIGNIFICANT) k = (u / 2 ^ 254) * 2 ^ c.
Proof.
  intros Hu Hc ->. rewrite Z.shiftr_land.
  replace (Z.shiftr SECP256R1.MOST_SIGNIFICANT (254 - c)) with (3 * 2 ^ c).
  2: { assert (c = 0 ∨ c = 1 ∨ c = 2) as [->|[->| ->]] by lia; by vm_compute. }
  rewrite <- (Z.shiftl_mul_pow2 3), <- (Z.shiftl_mul_pow2 (u / _)), <- Z.shiftr_div_pow2 by lia.
  apply Z.bits_inj'. intros i Hi. rewrite Z.land_spec, Z.shiftr_spec, !Z.shiftl_spec by lia.
  destruct (decide (i < c)).
  { rewrite !Z.testbit_neg_r with (n := i - c) by lia. by rewrite andb_false_r. }
  rewrite Z.shiftr_spec by lia. replace (i - c + 254) with (i + (254 - c)) by lia.
  destruct (decide (i - c < 2)).
  { assert (i - c = 0 ∨ i - c = 1) as [->| ->] by lia; by rewrite andb_true_r. }
  rewrite <- (Z.mod_small u (2 ^ 256)) by done. by rewrite Z.mod_pow2_bits_high by lia.
Qed.

Lemma index_eq u1 u2 :
  u256 u1 → u256 u2 →
  Z.lor (Z.shiftr (Z.land u1 SECP256R1.MOST_SIGNIFICANT) 252) (Z.shiftr (Z.land u2 SECP256R1.MOST_SIGNIFICANT) 254)
  = 4 * (u1 / 2 ^ 254) + u2 / 2 ^ 254.
Proof.
  intros H1 H2. rewrite (top_bits 2 252 u1 H1), (top_bits 0 254 u2 H2) by lia.
  assert (∀ u, u256 u → 0 ≤ u / 2 ^ 254 < 4) as Hq.
  { intros u [Hu Hv]. split; [apply Z.div_pos; lia|]. apply Z.div_lt_upper_bound; lia. }
  pose proof (Hq u1 H1). pose proof (Hq u2 H2). generalize dependent (u1 / 2 ^ 254). generalize dependent (u2 / 2 ^ 254).
  intros j Hj i Hi.
  assert (i = 0 ∨ i = 1 ∨ i = 2 ∨ i = 3) as Ei by lia. assert (j = 0 ∨ j = 1 ∨ j = 2 ∨ j = 3) as Ej by lia.
  destruct Ei as [->|[->|[->| ->]]], Ej as [->|[->|[->| ->]]]; done.
Qed.

(** The scalar with [k] digits left: shifted up to the top of the word. *)
Definition shifted (u : Z) (k : nat) : Z := (u * 4 ^ (128 - Z.of_nat k)) mod 2 ^ 256.

Lemma shifted_u256 u k : u256 (shifted u k).
Proof. apply Z.mod_pos_bound. lia. Qed.
Lemma shifted_digit u k : (k < 128)%nat → shifted u (S k) / 2 ^ 254 = digit u k.
Proof.
  intros Hk. unfold shifted, digit. change (2 ^ 256) with (2 ^ 254 * 4).
  rewrite (Z.rem_mul_r _ (2 ^ 254) 4) by lia.
  rewrite Z.add_comm, Z.mul_comm, Z.div_add_l, (Z.div_small (_ mod _)), Z.add_0_r by (try apply Z.mod_pos_bound; lia).
  f_equal. replace (2 ^ 254) with (4 ^ Z.of_nat k * 4 ^ (128 - Z.of_nat (S k))).
  - rewrite Z.div_mul_cancel_r; [done|apply Z.pow_nonzero; lia..].
  - rewrite <- Z.pow_add_r by lia. replace (Z.of_nat k + _) with 127 by lia. by vm_compute.
Qed.
Lemma shifted_shl u k : (k < 128)%nat → wrap (Z.shiftl (shifted u (S k)) 2) = shifted u k.
Proof.
  intros Hk. unfold wrap, shifted. rewrite W256_eq, Z.shiftl_mul_pow2, Z.mul_mod_idemp_l by lia. f_equal.
  replace (128 - Z.of_nat k) with (128 - Z.of_nat (S k) + 1) by lia. rewrite Z.pow_add_r by lia. ring.
Qed.
Lemma shifted_start u : u256 u → shifted u 128 = u.
Proof. intros. unfold shifted. change (128 - Z.of_nat 128) with 0. rewrite Z.mul_1_r. by apply Z.mod_small. Qed.

(** ** Inversion through the precompile *)

Definition modexp_input (b e m : Z) : bytes := abi_words [0x20; 0x20; 0x20; b; e; m].

Section input.
Context (b e m : Z) (Hb : u256 b) (He : u256 e) (Hm : u256 m).

Lemma modexp_input_iterations step : modexp_iterations step (modexp_input b e m) = Z.max 1 (Z.log2 e).
Proof.
  unfold modexp_iterations, modexp_input. set (zs := [_; _; _; b; e; m]). assert (u256 32) by done.
  rewrite (padded_read_word zs 0 0 32), (padded_read_word zs 32 1 32) by done.
  change (Z.to_nat (Z.min 32 32)) with 32%nat. change (Z.to_nat 32) with 32%nat. by rewrite (padded_read_word zs (96 + 32) 4 e) by done.
Qed.
Lemma modexp_input_words : modexp_words (modexp_input b e m) = 4.
Proof.
  unfold modexp_words, modexp_input. set (zs := [_; _; _; b; e; m]). assert (u256 32) by done.
  by rewrite (padded_read_word zs 0 0 32), (padded_read_word zs 64 2 32) by done.
Qed.

Lemma eip2565_affordable : @modexp_price eip2565 (modexp_input b e m) ≤ 1500.
Proof.
  unfold modexp_price, eip2565. rewrite modexp_input_words, modexp_input_iterations.
  assert (Z.log2 e ≤ 255).
  { destruct (decide (e = 0)) as [->|]; [done|]. unfold uint in He. apply Z.lt_succ_r, Z.log2_lt_pow2; cbn; lia. }
  pose proof (Z.div_le_mono (4 * 4 * Z.max 1 (Z.log2 e)) (16 * 255) 3). change (16 * 255 / 3) with 1360 in *. lia.
Qed.
Lemma eip7883_price : @modexp_price eip7883 (modexp_input b e m) = Z.max 500 (16 * Z.max 1 (Z.log2 e)).
Proof. unfold modexp_price, eip7883. by rewrite modexp_input_words, modexp_input_iterations. Qed.

Lemma precompile_input : m ≠ 0 → precompile_modexp (modexp_input b e m) = be_bytes 32 (b ^ e mod m).
Proof.
  intros Hnz. unfold precompile_modexp, modexp_input. set (zs := [_; _; _; b; e; m]). assert (u256 32) by done.
  rewrite (padded_read_word zs 0 0 32), (padded_read_word zs 32 1 32), (padded_read_word zs 64 2 32) by done.
  change (Z.to_nat 32) with 32%nat.
  rewrite (padded_read_word zs 96 3 b), (padded_read_word zs (96 + 32) 4 e),
    (padded_read_word zs (96 + 32 + 32) 5 m) by done.
  by rewrite (proj2 (Z.eqb_neq m 0)), Zpow_mod_correct by done.
Qed.
End input.

Lemma modexp_ok b e m :
  u256 b → u256 e → u256 m → 0 < m → @SECP256R1.modexp eip2565 b e m = Ok (b ^ e mod m).
Proof.
  intros Hb He Hm Hnz. unfold SECP256R1.modexp, SECP256R1.staticcall_modexp.
  rewrite (proj2 (Z.eqb_neq m 0)) by lia. cbv zeta. set (b' := if m <? b then _ else b).
  assert (u256 b' ∧ b' mod m = b mod m) as [Hb' Eb].
  { subst b'. destruct (m <? b); [|done]. rewrite Z.mod_mod by lia.
    pose proof (Z.mod_pos_bound b m). unfold uint in *. split; [lia|done]. }
  fold (modexp_input b' e m).
  rewrite (proj2 (Z.ltb_ge 1500 _)) by (by apply eip2565_affordable).
  rewrite precompile_input by (done || lia). cbv beta iota zeta. rewrite (take_ge (be_bytes _ _)) by (rewrite length_be_bytes; lia).
  rewrite take_app_length' by (by rewrite length_be_bytes).
  rewrite be_val_be_bytes. f_equal. change (256 ^ Z.of_nat 32) with (2 ^ 256).
  rewrite Z.mod_small by (pose proof (Z.mod_pos_bound (b' ^ e) m); unfold uint in *; lia).
  rewrite <- Z.mod_pow_l, Eb, Z.mod_pow_l. done.
Qed.

Lemma primemod_p u : fe u → ∃ v, @SECP256R1.primemod eip2565 u SECP256R1.PP = Ok v ∧ el v = Zmod.inv (el u).
Proof.
  intros Hu. destruct (pModInv_el u Hu) as (v & E & _ & Ev). exists v. split; [|done]. pose proof p_big.
  unfold SECP256R1.primemod. rewrite PP_eq. unfold csub. rewrite (proj2 (Z.leb_le 2 p)) by lia. rewrite Ok_bind.
  unfold fe in Hu. rewrite modexp_ok by (unfold uint; lia). unfold pModInv in E.
  rewrite minus_2modp_eq, modInv_pow in E by (unfold uint; lia). exact E.
Qed.
Lemma primemod_n s : u256 s → @SECP256R1.primemod eip2565 s SECP256R1.NN = Ok (s ^ (n - 2) mod n).
Proof.
  intros Hs. pose proof n_big. unfold SECP256R1.primemod. rewrite NN_eq.
  unfold csub. rewrite (proj2 (Z.leb_le 2 n)) by lia. rewrite Ok_bind.
  apply modexp_ok; [done|unfold uint; lia..|lia].
Qed.

Definition y_coordinate (P : point) : Z :=
  match P with Some (_, y) => Zmod.to_Z y | None => 0 end.

Lemma affineFromJacobian_ok x y z P :
  jtriple (x, y, z) P → @SECP256R1.affineFromJacobian eip2565 x y z = Ok (x_coordinate P, y_coordinate P).
Proof.
  intros HP. unfold SECP256R1.affineFromJacobian. rewrite (jtriple_inf _ _ _ _ HP).
  case_bool_decide as EP; [by subst P|]. destruct HP as [Hz HP]. destruct P as [[px py]|]; [|done].
  destruct (primemod_p z Hz) as (v & -> & Ev). rewrite Ok_bind. cbv zeta. rewrite PP_eq.
  destruct HP as (Hnz & HX & HY). cbn [jX jY jZ x_coordinate y_coordinate] in *.
  rewrite <- (to_Z_el (mulmod x _ p)), <- (to_Z_el (mulmod y _ p)) by auto.
  to_field'. rewrite HX, HY, Ev. do 3 f_equal; field; done.
Qed.

(** ** The loop *)

Section loop.
Context `{ModexpPrice} (points : list SECP256R1.JPoint) (T : list point) (u v : Z).
Hypotheses (HT : Forall2 jpoint points T) (Hlen : length T = 16%nat) (Hzero : T !! 0%nat = Some None).

Lemma digit_range w j : 0 ≤ digit w j < 4.
Proof. unfold digit. apply Z.mod_pos_bound. lia. Qed.

Lemma window_step x y z P j :
  jtriple (x, y, z) P →
  ∃ c, (if 0 <? 4 * digit u j + digit v j then
          match points !! Z.to_nat (4 * digit u j + digit v j) with
          | Some q => Ok (SECP256R1.jAdd x y z (SECP256R1.x q) (SECP256R1.y q) (SECP256R1.z q))
          | None => Revert (Panic 0x32)
          end
        else Ok (x, y, z)) = Ok c ∧ jtriple c (chord P (pick T u v j)).
Proof.
  intros HP. unfold pick. pose proof (digit_range u j). pose proof (digit_range v j).
  destruct (Z.ltb_spec 0 (4 * digit u j + digit v j)) as [Hpos|Hz].
  - destruct (lookup_lt_is_Some_2 T (Z.to_nat (4 * digit u j + digit v j))) as [Q EQ]; [lia|].
    destruct (Forall2_lookup_r _ _ _ _ _ HT EQ) as (q & -> & Hq). rewrite EQ.
    eexists. split; [done|]. by apply jAdd_jtriple.
  - replace (4 * digit u j + digit v j) with 0 by lia. change (Z.to_nat 0) with 0%nat. rewrite Hzero.
    eexists. split; [done|]. cbn [from_option id]. by rewrite chord_None_r.
Qed.

Lemma double_twice x y z P :
  jtriple (x, y, z) P →
  ∃ x' y' z', (if 0 <? z then
      let '(x, y, z) := SECP256R1.modifiedJacobianDouble x y z in SECP256R1.modifiedJacobianDouble x y z
    else (x, y, z)) = (x', y', z') ∧ jtriple (x', y', z') (double (double P)).
Proof.
  intros HP. pose proof (jtriple_inf _ _ _ _ HP) as Ez. pose proof HP as [[Hz _] _].
  destruct (Z.ltb_spec 0 z).
  - pose proof (double_jtriple _ _ _ _ HP) as H1.
    destruct (SECP256R1.modifiedJacobianDouble x y z) as [[x1 y1] z1].
    pose proof (double_jtriple _ _ _ _ H1) as H2.
    destruct (SECP256R1.modifiedJacobianDouble x1 y1 z1) as [[x2 y2] z2]. eauto 10.
  - assert (z = 0) as -> by lia. symmetry in Ez. apply bool_decide_eq_true in Ez as ->. eauto 10.
Qed.

Lemma shamir_body_ok k x y z P :
  (k < 128)%nat → jtriple (x, y, z) P →
  ∃ c, SECP256R1.shamir_body points (Z.of_nat (S k), shifted u (S k), shifted v (S k), (x, y, z)) =
      Ok (Next (Z.of_nat k, shifted u k, shifted v k, c)) ∧
    jtriple c (chord (double (double P)) (pick T u v k)).
Proof.
  intros Hk HP. unfold SECP256R1.shamir_body.
  destruct (double_twice _ _ _ _ HP) as (x' & y' & z' & -> & HP').
  rewrite index_eq, !shifted_digit by (apply shifted_u256 || lia).
  destruct (window_step _ _ _ _ k HP') as ([[x2 y2] z2] & -> & HP2). rewrite Ok_bind. cbv zeta.
  rewrite !shifted_shl by lia. unfold csub. rewrite (proj2 (Z.leb_le 1 (Z.of_nat (S k)))) by lia. rewrite !Ok_bind.
  replace (Z.of_nat (S k) - 1) with (Z.of_nat k) by lia. eauto.
Qed.

Lemma shamir_loop k fuel c P :
  (k ≤ 128)%nat → (k < fuel)%nat → jtriple c P →
  ∃ u' v' c', while fuel (λ s, 0 <? s.1.1.1) (SECP256R1.shamir_body points)
      (Z.of_nat k, shifted u k, shifted v k, c) = Ok (0, u', v', c') ∧
    jtriple c' (windowed chord T u v k P).
Proof.
  revert fuel c P. induction k as [|k IH]; intros fuel c P Hk Hf HP;
    (destruct fuel as [|fuel]; [lia|]); rewrite while_S; cbn [fst]; [eauto|].
  rewrite (proj2 (Z.ltb_lt 0 (Z.of_nat (S k)))) by lia. destruct c as [[x y] z].
  destruct (shamir_body_ok k x y z P) as (c' & -> & HP'); [lia|done|]. rewrite Ok_bind. cbn [windowed].
  apply IH; [lia|lia|done].
Qed.
End loop.

Lemma shamir_ok points T u v :
  Forall2 jpoint points T → length T = 16%nat → T !! 0%nat = Some None → u256 u → u256 v →
  @SECP256R1.shamirMultJacobian eip2565 points u v =
    let R := windowed chord T u v 128 None in Ok (x_coordinate R, y_coordinate R).
Proof.
  intros HT Hl Hz Hu Hv. unfold SECP256R1.shamirMultJacobian.
  destruct (shamir_loop points T u v HT Hl Hz 128 129 (0, 0, 0) None) as (u' & v' & [[x y] z] & E & Hc);
    [lia|lia|exact jtriple_zero|]. rewrite !shifted_start in E by done. change (Z.of_nat 128) with 128 in E.
  rewrite E, Ok_bind. by apply affineFromJacobian_ok.
Qed.

(** ** Verification *)

(** The scalar multiplication [verify] performs, over any addition. *)
Definition secp_point (add : point → point → point) (pk : SECP256R1.PassKey) (r s e : Z) : point :=
  let w := s ^ (n - 2) mod n in
  let Q := Some (el (SECP256R1.pubKeyX pk), el (SECP256R1.pubKeyY pk)) in
  windowed add (table add Q) ((e * w) mod n) ((r * w) mod n) 128 None.

Lemma secp_verify_ok pk r s e :
  u256 r → u256 s → 0 ≤ e →
  @SECP256R1.verify eip2565 pk r s e =
    Ok (bool_decide (r < n ∧ s < n ∧ x_coordinate (secp_point chord pk r s e) = r)).
Proof.
  intros Hr Hs He. unfold SECP256R1.verify, SECP256R1.verifyWithPrecompute.
  rewrite primemod_n, NN_eq by done. pose proof n_big.
  destruct ((n <=? r) || (n <=? s)) eqn:E.
  { rewrite bool_decide_eq_false_2; [done|]. apply orb_true_iff in E. rewrite !Z.leb_le in E. lia. }
  guards. rewrite Ok_bind. unfold Evm.mulmod. rewrite (proj2 (Z.eqb_neq n 0)) by lia. cbv zeta.
  assert (∀ x, u256 (x mod n)) as Hn.
  { intros x. unfold uint. pose proof (Z.mod_pos_bound x n). lia. }
  rewrite (shamir_ok _ _ _ _ (preCompute_table pk) eq_refl eq_refl (Hn _) (Hn _)).
  cbv zeta. rewrite Ok_bind. f_equal. unfold secp_point.
  set (R := x_coordinate _). destruct (Z.eqb_spec R r); symmetry.
  - by apply bool_decide_eq_true_2.
  - apply bool_decide_eq_false_2. tauto.
Qed.

(** C18: SECP256R1.verify terminates on every 256-bit input at the Berlin price of
    modexp and accepts exactly when r, s < n and r equals (as an integer, not
    modulo n) the x coordinate of the windowed sum (e/s) G + (r/s) Q over the
    sixteen-entry table, computed with affine arithmetic in which a point added
    to itself gives infinity.  The key is not checked to be on the curve, nor r
    and s to be non-zero. *)
Theorem secp256r1_verify_windowed (pk : SECP256R1.PassKey) (r s e : Z) :
  u256 r → u256 s → 0 ≤ e →
  @SECP256R1.verify eip2565 pk r s e =
    Ok (bool_decide (r < n ∧ s < n ∧ x_coordinate (secp_point chord pk r s e) = r)).
Proof. apply secp_verify_ok. Qed.
Lemma secp256r1_verify_windowed_witness :
  @SECP256R1.verify eip2565 (SECP256R1.mkPassKey 1 2) 3 4 5 =
    Ok (bool_decide (3 < n ∧ 4 < n ∧ x_coordinate (secp_point chord (SECP256R1.mkPassKey 1 2) 3 4 5) = 3)).
Proof. apply (secp256r1_verify_windowed (SECP256R1.mkPassKey 1 2) 3 4 5); unfold uint; lia. Defined.

Lemma digit_0 j : digit 0 j = 0.
Proof. unfold digit. by rewrite Z.div_0_l by (apply Z.pow_nonzero; lia). Qed.
Lemma windowed_zero add Q k : add None None = None → windowed add (table add Q) 0 0 k None = None.
Proof.
  intros Ha. induction k as [|k IH]; [done|]. cbn [windowed]. unfold pick. rewrite !digit_0. cbn [aff_double].
  change (default None (table add Q !! Z.to_nat (4 * 0 + 0))) with (@None (F * F)). by rewrite Ha.
Qed.

(** The 1500 gas forwarded to the precompile do not pay for an inversion at the
    Osaka price. *)
Lemma verify_eip7883 pk r s e :
  0 ≤ r < n → 0 ≤ s < n → @SECP256R1.verify eip7883 pk r s e = Revert NoData.
Proof.
  intros Hr Hs. pose proof n_big. unfold SECP256R1.verify, SECP256R1.verifyWithPrecompute. rewrite NN_eq.
  rewrite !(proj2 (Z.leb_gt n _)) by lia. cbn [orb]. unfold SECP256R1.primemod.
  unfold csub. rewrite (proj2 (Z.leb_le 2 n)), Ok_bind by lia.
  unfold SECP256R1.modexp, SECP256R1.staticcall_modexp. rewrite (proj2 (Z.ltb_ge n s)) by lia.
  fold (modexp_input s (n - 2) n).
  assert (Z.log2 (n - 2) = 255) as El by (by vm_compute).
  rewrite eip7883_price, El by (unfold uint; lia). done.
Qed.

(** C19: The signature (0, 0) is not excluded by SECP256R1.verify.  At the Berlin
    price of modexp it is accepted for every key and every message: the inverse
    of zero comes out as zero, and the point at infinity has x coordinate 0.  At
    the Osaka price, where no inversion is affordable, the same call reverts. *)
Theorem secp256r1_accepts_zero_signature (pk : SECP256R1.PassKey) (e : Z) :
  0 ≤ e → @SECP256R1.verify eip2565 pk 0 0 e = Ok true ∧ @SECP256R1.verify eip7883 pk 0 0 e = Revert NoData.
Proof.
  intros He. pose proof n_big. split; [|apply verify_eip7883; lia].
  rewrite secp_verify_ok by (done || unfold uint; lia). f_equal. apply bool_decide_eq_true_2.
  split; [lia|]. split; [lia|]. unfold secp_point.
  rewrite Z.pow_0_l, Z.mod_0_l, !Z.mul_0_r, Z.mod_0_l, windowed_zero by (done || lia). done.
Qed.
Lemma secp256r1_accepts_zero_signature_witness :
  @SECP256R1.verify eip2565 (SECP256R1.mkPassKey GX GY) 0 0 7 = Ok true ∧
  @SECP256R1.verify eip7883 (SECP256R1.mkPassKey GX GY) 0 0 7 = Revert NoData.
Proof. apply (secp256r1_accepts_zero_signature (SECP256R1.mkPassKey GX GY) 7). lia. Defined.

(** At the Osaka price of modexp every verification that gets past the range
    checks reverts. *)
Theorem secp256r1_reverts_under_eip7883 (pk : SECP256R1.PassKey) (r s e : Z) :
  0 ≤ r < n → 0 ≤ s < n → @SECP256R1.verify eip7883 pk r s e = Revert NoData.
Proof. apply verify_eip7883. Qed.
Lemma secp256r1_reverts_under_eip7883_witness :
  @SECP256R1.verify eip7883 (SECP256R1.mkPassKey GX GY) 1 1 7 = Revert NoData.
Proof. apply (secp256r1_reverts_under_eip7883 (SECP256R1.mkPassKey GX GY) 1 1 7); pose proof n_big; lia. Defined.

(** ** The missing doubling case *)

(** Operands an addition may meet without falling into the missing case. *)
Definition distinct (P Q : point) : Prop := P ≠ Q ∨ P = None.
Fixpoint no_self (T : list point) (u v : Z) (k : nat) (acc : point) : Prop :=
  match k with
  | O => True
  | S j =>
      let P := double (double acc) in
      distinct P (pick T u v j) ∧ no_self T u v j (chord P (pick T u v j))
  end.

(** Where no point is ever added to itself, the chord law is the group law. *)
Lemma windowed_no_self T u v k acc :
  no_self T u v k acc → windowed chord T u v k acc = windowed (aff_add aF) T u v k acc.
Proof.
  revert acc. induction k as [|k IH]; intros acc; [done|]. cbn [windowed no_self]. intros [Hd Hk].
  by rewrite <- (chord_add aF _ _ Hd), IH.
Qed.

Lemma pow_inverse s : 0 < s < n → (s * (s ^ (n - 2) mod n)) mod n = 1.
Proof.
  intros Hs. pose proof n_big. pose proof (nModInv_inv s Hs) as E. unfold nModInv in E.
  rewrite minus_2modn_eq, modInv_pow in E by (unfold uint; lia). injection E as ->.
  rewrite Z.mul_comm, Z.invmod_ok, Z.gcd_comm, (Z.coprime_prime_small n s n_prime) by lia.
  apply Z.mod_small. lia.
Qed.

Lemma windowed_one add Q k :
  add None None = None → add None (add G Q) = add G Q →
  windowed add (table add Q) 1 1 (S k) None = add G Q.
Proof.
  intros Ha Hg. induction k as [|k IH]; [exact Hg|].
  change (windowed add (table add Q) 1 1 (S (S k)) None) with
    (windowed add (table add Q) 1 1 (S k) (add None (pick (table add Q) 1 1 (S k)))).
  assert (digit 1 (S k) = 0) as Ed.
  { unfold digit. rewrite Z.div_small; [done|]. split; [lia|]. apply Z.pow_gt_1; lia. }
  unfold pick. rewrite Ed. change (default None (table add Q !! Z.to_nat (4 * 0 + 0))) with (@None (F * F)).
  by rewrite Ha.
Qed.

(** A signature with the private key 1 (so that Q = G) and nonce 2. *)
Definition doubled_x : Z := 0x7CF27B188D034F7E8A52380304B51AC3C08969E277F21B35A60B48FC47669978.
Lemma jtriple_x x y z P v :
  jtriple (x, y, z) P → fe v → z ≠ 0 → el x = el (mulmod v (mulmod z z p) p) → x_coordinate P = v.
Proof.
  intros HP Hv Hz E. pose proof (jtriple_inf _ _ _ _ HP) as EP. rewrite (proj2 (Z.eqb_neq z 0)) in EP by done.
  destruct P as [[px py]|]; [|by rewrite bool_decide_eq_true_2 in EP].
  destruct HP as [_ (Hnz & HX & _)]. cbn [jX jY jZ x_coordinate] in *. revert HX. rewrite E. to_field'. intros HX.
  rewrite <- (to_Z_el v) by done. f_equal. symmetry.
  transitivity (Zmod.mdiv (Zmod.mul (el v) (Zmod.mul (el z) (el z))) (Zmod.mul (el z) (el z)));
    [field; done|rewrite HX; field; done].
Qed.
Definition doubled_G : Z * Z * Z := Eval vm_compute in SECP256R1.modifiedJacobianDouble GX GY 1.
Lemma doubled_G_eq : SECP256R1.modifiedJacobianDouble GX GY 1 = doubled_G.
Proof. by vm_compute. Qed.
Lemma doubled_G_x : doubled_G.1.1 = mulmod doubled_x (mulmod doubled_G.2 doubled_G.2 p) p ∧ doubled_G.2 ≠ 0 ∧ fe doubled_x.
Proof. apply (bool_decide_unpack _). by vm_compute. Qed.
Lemma double_G_x : x_coordinate (double G) = doubled_x.
Proof.
  pose proof (double_jtriple _ _ _ _ (jtriple_affine GX GY)) as HG. rewrite doubled_G_eq in HG. fold G in HG.
  pose proof doubled_G_x as (E & Hz & Hf). destruct doubled_G as [[X Y] C]. cbn [fst snd] in *.
  apply (jtriple_x _ _ _ _ _ HG Hf Hz). by rewrite E.
Qed.

Lemma doubled_x_range : 0 < doubled_x < n.
Proof. by vm_compute. Qed.

Lemma lincomb_one Q : lincomb Q 1 1 256 None = aff_add aF G Q.
Proof.
  assert (∀ k, lincomb Q 1 1 (S k) None = aff_add aF G Q) as Hk; [|apply Hk].
  induction k as [|k IH]; [by destruct Q as [[]|]|].
  change (lincomb Q 1 1 (S (S k)) None) with
    (lincomb Q 1 1 (S k) (aff_add aF None (select Q (Z.testbit 1 (Z.of_nat (S k))) (Z.testbit 1 (Z.of_nat (S k)))))).
  rewrite Z.bits_above_log2 by (cbn; lia). exact IH.
Qed.

Lemma doubled_signature_valid : ecdsa_valid doubled_x doubled_x doubled_x GX GY.
Proof.
  pose proof doubled_x_range as Hr. destruct G_affine as (HX & HY & _).
  unfold ecdsa_valid. split; [done|]. split; [done|]. split; [done|]. split; [done|]. split; [apply G_on_curve|].
  cbv zeta. rewrite Z.mul_comm, Z.invmod_ok, Z.gcd_comm, (Z.coprime_prime_small n doubled_x n_prime) by lia.
  rewrite (Z.mod_small 1 n) by (pose proof n_big; lia). fold G. rewrite lincomb_one.
  rewrite aff_add_self, double_G_x. apply Z.mod_small. lia.
Qed.

Lemma secp_verify_false pk r s e :
  u256 r → u256 s → 0 ≤ e → x_coordinate (secp_point chord pk r s e) ≠ r →
  @SECP256R1.verify eip2565 pk r s e = Ok false.
Proof. intros. rewrite secp_verify_ok by done. rewrite bool_decide_eq_false_2; [done|]. tauto. Qed.
Lemma secp_point_generator r :
  0 < r < n → secp_point chord (SECP256R1.mkPassKey GX GY) r r r = None.
Proof.
  intros Hr. unfold secp_point. rewrite pow_inverse by exact Hr. cbn [SECP256R1.pubKeyX SECP256R1.pubKeyY].
  fold G. rewrite windowed_one; [apply chord_self|done|]. by rewrite chord_self.
Qed.

(** SECP256R1.verify rejects signatures that ECDSA (and P256Verifier) accepts:
    jAdd has no doubling case, so the precomputed G + Q is infinity for the key
    Q = G, and a signature whose two scalars are 1 fails. *)
Theorem secp256r1_rejects_valid_signature :
  ∃ r s e, ecdsa_valid e r s GX GY ∧
    @SECP256R1.verify eip2565 (SECP256R1.mkPassKey GX GY) r s e = Ok false.
Proof.
  exists doubled_x, doubled_x, doubled_x. split; [apply doubled_signature_valid|].
  pose proof doubled_x_range. pose proof n_big.
  apply secp_verify_false; [unfold uint; lia..|]. rewrite secp_point_generator by lia. cbn [x_coordinate]. lia.
Qed.
