(* ===== verification/AccountBase.v ===== *)
(** What the two kinds of account share: the calls they make, batches, the
    prefund payment of BaseAccount, OpenZeppelin's Initializable and
    UUPSUpgradeable (all in P256SmartAccountFactory_Flattened.sol).

    The definitions are over any storage type [S]: P256SmartAccount.sol and
    eoa-account/SmartAccount.sol write the same code over their own. *)
From S2P Require Import Prelude Bytes UserOperation.

(** The contracts an account talks to, in a world [W]. *)
Class Host (W : Type) := {
  registry_call : W → address → string → res address;        (* EnclaveRegistry(a).getRegistryAddress(name) *)
  verify_call : W → address → Z → Z → Z → Z * Z → res bool;  (* P256V(a).verify(h, r, s, key) *)
  uint_call : W → address → bytes → res Z;                   (* a view call that returns a uint256 *)
  has_code : W → address → bool;
  uuid_call : W → address → res Z                            (* IERC1822Proxiable(a).proxiableUUID() *)
}.

Definition selector `{EvmCrypto} (sig : string) : bytes := take 4 (word (keccak256 (str_bytes sig))).

(** ** Initializable *)

(** The [initializer] modifier around [body]; [flags] and [set_flags] access
    [_initialized] and [_initializing]; [deployed_code]: whether the account's
    address has code, which it has not while its constructor runs. *)
Definition initializer_of {S} (flags : S → Z * bool) (set_flags : Z → bool → S → S)
    (deployed_code : bool) (body : S → res S) (s : S) : res S :=
  let isTopLevelCall := negb (flags s).2 in
  _ ← require ((isTopLevelCall && ((flags s).1 <? 1)) || (negb deployed_code && ((flags s).1 =? 1)))
        "Initializable: contract is already initialized";
  let s := set_flags 1 (if isTopLevelCall then true else (flags s).2) s in
  s ← body s;
  Ok (set_flags (flags s).1 (if isTopLevelCall then false else (flags s).2) s).

Lemma initializer_of_initialized {S} flags set_flags body (s : S) :
  flags s = (1, false) →
  initializer_of flags set_flags true body s = Revert (Error "Initializable: contract is already initialized").
Proof. intros E. unfold initializer_of. by rewrite E. Qed.

(** ** Calls and batches *)

Section calls.
Context {S W : Type}.
(** A call made by the account: success, return data, and the account and the
    rest of the chain afterwards. *)
Variable call : address → Z → bytes → S → W → bool * bytes * S * W.

Definition _call (target : address) (value : Z) (data : bytes) (s : S) (w : W) : res (S * W) :=
  let '(success, result, s', w') := call target value data s w in
  if (success : bool) then Ok (s', w') else Revert (Bubble result).

(** A high-level call of another contract: its code must exist. *)
Definition _call_contract `{Host W} (target : address) (value : Z) (data : bytes) (s : S) (w : W) : res (S * W) :=
  _ ← require_ (has_code w target);
  _call target value data s w.

(** Reading an array out of range panics. *)
Definition index {A} (l : list A) (i : nat) : res A :=
  match l !! i with Some x => Ok x | None => Revert (Panic 0x32) end.

(** One [for] loop of executeBatch; [value_at] is 0 or [value[i]]. *)
Definition batch_loop (value_at : nat → res Z) (dest : list address) (func : list bytes)
    (s : S) (w : W) : res (nat * (S * W)) :=
  while (Datatypes.S (length dest)) (λ st, (st.1 <? length dest)%nat)
    (λ '(i, (s, w)),
      d ← index dest i;
      v ← value_at i;
      f ← index func i;
      sw ← _call d v f s w;
      Ok (Next (Datatypes.S i, sw)))
    (0%nat, (s, w)).

(** executeBatch after its guard. *)
Definition execute_batch (dest : list address) (value : list Z) (func : list bytes) (s : S) (w : W) : res (S * W) :=
  _ ← require ((length dest =? length func)%nat &&
               ((length value =? 0)%nat || (length value =? length func)%nat)) "wrong array lengths";
  if (length value =? 0)%nat then snd <$> batch_loop (λ _, Ok 0) dest func s w
  else snd <$> batch_loop (index value) dest func s w.

(** BaseAccount._payPrefund: the payment's failure is ignored. *)
Definition _payPrefund (m : msg) (missingAccountFunds : Z) (s : S) (w : W) : S * W :=
  if negb (missingAccountFunds =? 0) then
    let '(success, _, s', w') := call (msg_sender m) missingAccountFunds [] s w in
    if (success : bool) then (s', w') else (s, w)
  else (s, w).

(** Reference for batches: the calls in order, each of which must succeed. *)
Fixpoint run_calls (cs : list (address * Z * bytes)) (s : S) (w : W) : res (S * W) :=
  match cs with
  | [] => Ok (s, w)
  | (d, v, f) :: rest =>
      let '(success, result, s', w') := call d v f s w in
      if (success : bool) then run_calls rest s' w' else Revert (Bubble result)
  end.

Definition batch (dest : list address) (value : list Z) (func : list bytes) : list (address * Z * bytes) :=
  zip (zip dest (if (length value =? 0)%nat then replicate (length dest) 0 else value)) func.

Lemma batch_loop_run value_at vs dest func s w :
  length func = length dest → length vs = length dest → (∀ i, (i < length dest)%nat → value_at i = index vs i) →
  snd <$> batch_loop value_at dest func s w = run_calls (zip (zip dest vs) func) s w.
Proof.
  intros Hf Hv Hat. unfold batch_loop.
  assert (∀ k i s w, (i + k = length dest)%nat →
    snd <$> while (Datatypes.S k) (λ st, (st.1 <? length dest)%nat)
      (λ '(i, (s, w)), d ← index dest i; v ← value_at i; f ← index func i;
         sw ← _call d v f s w; Ok (Next (Datatypes.S i, sw))) (i, (s, w)) =
    run_calls (zip (zip (drop i dest) (drop i vs)) (drop i func)) s w) as Hloop.
  { induction k as [|k IH]; intros i s0 w0 Hk.
    - rewrite while_S. cbn [fst]. rewrite (proj2 (Nat.ltb_ge _ _)) by lia. by rewrite drop_ge by lia.
    - rewrite while_S. cbn [fst]. rewrite (proj2 (Nat.ltb_lt _ _)) by lia.
      destruct (lookup_lt_is_Some_2 dest i ltac:(lia)) as [d Hd].
      destruct (lookup_lt_is_Some_2 vs i ltac:(lia)) as [v Hvi].
      destruct (lookup_lt_is_Some_2 func i ltac:(lia)) as [f Hfi].
      rewrite (drop_S _ _ _ Hd), (drop_S _ _ _ Hvi), (drop_S _ _ _ Hfi). cbn [zip zip_with run_calls].
      rewrite Hat by lia. unfold index. rewrite Hd, Hvi, Hfi, !Ok_bind. unfold _call.
      destruct (call d v f s0 w0) as [[[[] r] s1] w1]; [|done]. rewrite !Ok_bind. apply IH. lia. }
  specialize (Hloop (length dest) 0%nat s w eq_refl). by rewrite !drop_0 in Hloop.
Qed.

Lemma execute_batch_runs dest value func s w :
  execute_batch dest value func s w =
    if bool_decide (length func = length dest ∧ (value = [] ∨ length value = length dest))
    then run_calls (batch dest value func) s w
    else Revert (Error "wrong array lengths").
Proof.
  unfold execute_batch.
  case_bool_decide as Hl.
  - destruct Hl as [Hf Hv]. rewrite Hf, Nat.eqb_refl. cbn [andb]. unfold batch. destruct Hv as [->|Hv].
    + cbn [length Nat.eqb orb require]. rewrite Ok_bind. apply batch_loop_run; [done|by rewrite length_replicate|].
      intros i Hi. unfold index. by rewrite lookup_replicate_2.
    + rewrite Hv, Nat.eqb_refl, orb_true_r. cbn [require]. rewrite Ok_bind.
      destruct (Nat.eqb_spec (length dest) 0) as [E0|E0]; apply batch_loop_run; try done.
      { by rewrite length_replicate. }
      { intros. lia. }
  - rewrite (proj2 (andb_false_iff _ _)); [done|]. rewrite orb_false_iff, !Nat.eqb_neq.
    destruct (decide (length dest = length func)) as [E|E]; [right|by left].
    split; intros E0; apply Hl; (split; [done|]); [left; by apply nil_length_inv|right; congruence].
Qed.
End calls.

(** ** UUPSUpgradeable *)

Definition _IMPLEMENTATION_SLOT : Z := 0x360894a13ba1a3210667c828492db98dca3e2076cc3735a920a3ca505d382bbc.
(** upgradeTo up to the new implementation's slot being written: [impl] is the
    address of this code, [current] the slot's content, [authorized] what
    [_authorizeUpgrade] answers. *)
Definition upgrade_checks {W} `{Host W} (m : msg) (impl current newImplementation : address) (authorized : res unit)
    (w : W) : res unit :=
  _ ← require (negb (addr_eqb (self m) impl)) "Function must be called through delegatecall";
  _ ← require (addr_eqb current impl) "Function must be called through active proxy";
  _ ← authorized;
  slot ← match uuid_call w newImplementation with
         | Ok slot => Ok slot
         | Revert _ => Revert (Error "ERC1967Upgrade: new implementation is not UUPS")
         end;
  _ ← require (slot =? _IMPLEMENTATION_SLOT) "ERC1967Upgrade: unsupported proxiableUUID";
  require (has_code w newImplementation) "ERC1967: new implementation is not a contract".

Lemma upgrade_unauthorized {W} `{Host W} m impl current n r (w : W) :
  is_ok (upgrade_checks m impl current n (Revert r) w) = false.
Proof. unfold upgrade_checks. by destruct (negb _), (addr_eqb current impl). Qed.
