(* ===== verification/P256V.v ===== *)
(** The two wrappers around a P-256 verifier at another address:
    P256V.sol, which the account calls, and P256VerifierYul.sol; and the
    verifier contract's dispatch (its function or its EIP-7212 fallback) seen
    through them.  What an address answers to a static call is a parameter. *)
From S2P Require Import Prelude Bytes UserOperation AccountBase P256Verifier.

(** [staticcall]: success flag and return data. *)
Class StaticCalls := staticcall : address → bytes → bool * bytes.

(** [abi.decode(data, (bool))]: one word, which must be 0 or 1. *)
Definition abi_decode_bool (data : bytes) : res bool :=
  z ← abi_word_at data 0;
  _ ← require_ ((z =? 0) || (z =? 1));
  Ok (z =? 1).

Module P256V.
Record state := State { precompile : address }.

Section contract.
Context `{StaticCalls}.

Definition verify (message_hash r s : Z) (pubKey : Z * Z) (st : state) : res bool :=
  let publicKey := abi_words [pubKey.1; pubKey.2] in
  let signature := abi_words [r; s] in
  let input := word message_hash ++ signature ++ publicKey in
  let '(success, output) := staticcall (precompile st) input in
  _ ← require success "Verification failed";
  abi_decode_bool output.
End contract.
End P256V.

Module P256VerifierYul.
(** The verifier's address is immutable: part of the code, not of the storage. *)
Record state := State { verifierContract : address; storage : gmap Z Z }.
Definition deployed (_verifierContract : address) : state :=
  {| verifierContract := _verifierContract; storage := ∅ |}.

Section contract.
Context `{StaticCalls}.

(** [input] and [result] are stack variables holding 0: the words are stored
    from memory offset 0, the callee's answer is written at offset 0, and the
    variable [result] stays 0.  The callee is the value of the storage slot
    numbered [yulAddress].  (Offset 64, the free-memory pointer, is overwritten
    by [s]; what that costs in gas is not modelled.) *)
Definition ecdsa_verify (hash r s : Z) (pubKey : Z * Z) (st : state) : res bool :=
  let result := 0 in
  let x := pubKey.1 in
  let y := pubKey.2 in
  let yulAddress := verifierContract st in
  let memory := abi_words [hash; r; s; x; y] in
  let success := (staticcall (mget 0 (storage st) yulAddress mod 2 ^ 160) (take 160 memory)).1 in
  _ ← require success "P256 verify call failed";
  Ok (nth 31 (word result) 0 =? 1).

Definition fallback (input : bytes) (st : state) : res bytes :=
  if negb (length input =? 160)%nat then Ok (word 0)
  else
    hash ← slice input 0 32;
    r ← slice input 32 64;
    s ← slice input 64 96;
    x ← slice input 96 128;
    y ← slice input 128 160;
    valid ← ecdsa_verify (be_val hash) (be_val r) (be_val s) (be_val x, be_val y) st;
    Ok (word (if (valid : bool) then 1 else 0)).
End contract.
End P256VerifierYul.

(** ** The verifier behind its calling convention *)

Lemma slice_word zs x y i z :
  x = (32 * i)%nat → y = (x + 32)%nat → zs !! i = Some z → slice (abi_words zs) x y = Ok (word z).
Proof.
  intros -> -> Hi. apply slice_Ok. pose proof (lookup_lt_Some _ _ _ Hi).
  rewrite length_abi_words. split; [lia|].
  rewrite <- (app_nil_r (abi_words zs)), drop_abi_words_app, app_nil_r, (drop_S _ _ _ Hi), abi_words_cons by lia.
  by rewrite take_app_length' by (rewrite length_word; lia).
Qed.

Lemma fallback_ok h r s x y :
  u256 h → u256 r → u256 s → u256 x → u256 y →
  ∃ v, fallback (abi_words [h; r; s; x; y]) = Ok (word (b2z v)) ∧ (v = true ↔ ecdsa_valid h r s x y).
Proof.
  intros Hh Hr Hs Hx Hy. destruct (ecdsa_verify_ok h r s x y) as (v & Hv & Hiff); [done..|].
  exists v. split; [|done]. unfold fallback. rewrite length_abi_words. cbn [length Nat.mul Nat.add Nat.eqb negb].
  set (zs := [h; r; s; x; y]).
  rewrite (slice_word zs 0 32 0 h), (slice_word zs 32 64 1 r), (slice_word zs 64 96 2 s),
    (slice_word zs 96 128 3 x), (slice_word zs 128 160 4 y) by done.
  rewrite !Ok_bind, !be_val_word, Hv by done. done.
Qed.

Lemma fallback_total input : is_bytes input → ∃ v : bool, fallback input = Ok (word (b2z v)).
Proof.
  intros Hb. unfold fallback. destruct (Nat.eqb_spec (length input) 160) as [Hl|]; cbn [negb]; [|by exists false].
  assert (∀ i, (i + 32 ≤ 160)%nat → slice input i (i + 32) = Ok (take 32 (drop i input)) ∧
             u256 (be_val (take 32 (drop i input)))) as Hs.
  { intros i Hi. split; [apply slice_Ok; rewrite Nat.add_sub'; split; [lia|done]|].
    pose proof (be_val_range (take 32 (drop i input)) ltac:(by apply is_bytes_take, is_bytes_drop)) as Hr.
    rewrite length_take, length_drop in Hr. replace (32 `min` (length input - i))%nat with 32%nat in Hr by lia.
    exact Hr. }
  destruct (Hs 0%nat ltac:(lia)) as [E0 R0], (Hs 32%nat ltac:(lia)) as [E1 R1], (Hs 64%nat ltac:(lia)) as [E2 R2],
    (Hs 96%nat ltac:(lia)) as [E3 R3], (Hs 128%nat ltac:(lia)) as [E4 R4].
  cbn [Nat.add] in *. rewrite E0, E1, E2, E3, E4, !Ok_bind.
  destruct (ecdsa_verify_ok _ _ _ _ _ R0 R1 R2 R3 R4) as (v & -> & _). rewrite Ok_bind. by exists v.
Qed.

(** ** Dispatch of the deployed verifier *)
Section dispatch.
Context `{EvmCrypto}.

Definition ecdsa_verify_signature : string := "ecdsa_verify(bytes32,uint256,uint256,uint256[2])".

(** The arguments of both functions: five words. *)
Definition decode_verify_args (data : bytes) : res (Z * Z * Z * (Z * Z)) :=
  _ ← require_ ((160 <=? length data)%nat);
  h ← abi_word_at data 0;
  r ← abi_word_at data 32;
  s ← abi_word_at data 64;
  x ← abi_word_at data 96;
  y ← abi_word_at data 128;
  Ok (h, r, s, (x, y)).

Definition calls (sig : string) (data : bytes) : bool :=
  (4 <=? length data)%nat && bool_decide (take 4 data = selector sig).

(** A message to P256Verifier: its public function when the data
    starts with its selector, the fallback otherwise. *)
Definition P256Verifier_entry (data : bytes) : res bytes :=
  if calls ecdsa_verify_signature data then
    '(h, r, s, k) ← decode_verify_args (drop 4 data);
    v ← ecdsa_verify h r s k;
    Ok (word (b2z v))
  else fallback data.

(** What a chain with the verifier contract at [a] answers. *)
Definition serves_verifier `{StaticCalls} (a : address) : Prop :=
  ∀ input, match P256Verifier_entry input with
           | Ok out => staticcall a input = (true, out)
           | Revert _ => (staticcall a input).1 = false
           end.

Lemma abi_decode_bool_word (v : bool) : abi_decode_bool (word (b2z v)) = Ok v.
Proof.
  unfold abi_decode_bool. replace (word (b2z v)) with (abi_words [b2z v] ++ []).
  - pose proof (abi_word_at_words [b2z v] [] 0 (b2z v) eq_refl ltac:(by destruct v)) as E.
    change (32 * 0)%nat with 0%nat in E. rewrite E. by destruct v.
  - by rewrite abi_words_cons, !app_nil_r.
Qed.

(** The first four of the bytes P256V sends are those of the message hash. *)
Lemma calls_hash h zs : calls ecdsa_verify_signature (abi_words (h :: zs)) =
  bool_decide (take 4 (word h) = selector ecdsa_verify_signature).
Proof.
  unfold calls. rewrite abi_words_cons, take_app_le by (rewrite length_word; lia).
  by rewrite (proj2 (Nat.leb_le _ _)) by (rewrite length_app, length_word; lia).
Qed.

Lemma P256V_verify_input `{StaticCalls} h r s x y st :
  P256V.verify h r s (x, y) st =
    let '(success, output) := staticcall (P256V.precompile st) (abi_words [h; r; s; x; y]) in
    _ ← require success "Verification failed"; abi_decode_bool output.
Proof.
  unfold P256V.verify. cbn [fst snd].
  assert (word h ++ abi_words [r; s] ++ abi_words [x; y] = abi_words [h; r; s; x; y]) as ->; [|done].
  by rewrite !abi_words_cons, <- !app_assoc.
Qed.

Lemma P256V_verify_ok `{StaticCalls} st h r s x y :
  serves_verifier (P256V.precompile st) → take 4 (word h) ≠ selector ecdsa_verify_signature →
  u256 h → u256 r → u256 s → u256 x → u256 y →
  ∃ v, P256V.verify h r s (x, y) st = Ok v ∧ (v = true ↔ ecdsa_valid h r s x y).
Proof.
  intros Hst Hsel Hh Hr Hs Hx Hy. destruct (fallback_ok h r s x y) as (v & Hv & Hiff); [done..|].
  exists v. split; [|done]. rewrite P256V_verify_input. specialize (Hst (abi_words [h; r; s; x; y])).
  unfold P256Verifier_entry in Hst. rewrite calls_hash, bool_decide_false, Hv in Hst by done.
  rewrite Hst. cbn [require]. rewrite Ok_bind. apply abi_decode_bool_word.
Qed.

(** Data that starts with the selector is dispatched to the function, whose
    five words do not fit in the 156 bytes left. *)
Lemma P256V_verify_selector `{StaticCalls} st h r s x y :
  serves_verifier (P256V.precompile st) → take 4 (word h) = selector ecdsa_verify_signature →
  P256V.verify h r s (x, y) st = Revert (Error "Verification failed").
Proof.
  intros Hst Hsel. rewrite P256V_verify_input. specialize (Hst (abi_words [h; r; s; x; y])).
  unfold P256Verifier_entry in Hst. rewrite calls_hash, bool_decide_true in Hst by done.
  unfold decode_verify_args in Hst. rewrite length_drop, length_abi_words in Hst.
  cbn in Hst. destruct (staticcall _ _) as [[] ?]; [done|by cbn].
Qed.

(** C17: Behind P256V, the verifier contract is a decision procedure for ECDSA
    over P-256, except on message hashes that start with the four bytes of
    ecdsa_verify's selector: whenever the address P256V was deployed with runs
    P256Verifier, [verify] returns, and returns true exactly for the valid
    signatures, on every hash without that prefix, and reverts with
    Verification failed on every hash with it (P256Verifier dispatches the 160
    bytes to its public function instead of the fallback). *)
Theorem p256v_decides_ecdsa (SC : StaticCalls) (st : P256V.state) (h r s x y : Z) :
  serves_verifier (P256V.precompile st) →
  u256 h → u256 r → u256 s → u256 x → u256 y →
  if bool_decide (take 4 (word h) = selector ecdsa_verify_signature)
  then P256V.verify h r s (x, y) st = Revert (Error "Verification failed")
  else ∃ v, P256V.verify h r s (x, y) st = Ok v ∧ (v = true ↔ ecdsa_valid h r s x y).
Proof.
  intros Hst Hh Hr Hs Hx Hy. case_bool_decide; [by apply P256V_verify_selector|by apply P256V_verify_ok].
Qed.

(** A chain whose only contract is the verifier, at address 0x100. *)
Definition verifier_chain : StaticCalls := λ addr input,
  if addr =? 0x100 then match P256Verifier_entry input with Ok out => (true, out) | Revert _ => (false, []) end
  else (true, []).

Lemma verifier_chain_serves : @serves_verifier verifier_chain 0x100.
Proof. intros input. unfold staticcall, verifier_chain. rewrite Z.eqb_refl. by destruct (P256Verifier_entry input). Qed.
End dispatch.

Definition prefixed_hash : Z := be_val (@selector sample_crypto ecdsa_verify_signature) * 2 ^ 224.
Lemma p256v_decides_ecdsa_witness :
  let verify h := @P256V.verify (@verifier_chain sample_crypto) h 2 3 (4, 5) (P256V.State 0x100) in
  (∃ v, verify 1 = Ok v ∧ (v = true ↔ ecdsa_valid 1 2 3 4 5)) ∧
  verify prefixed_hash = Revert (Error "Verification failed").
Proof.
  intros verify.
  pose proof (λ h Hh, @p256v_decides_ecdsa sample_crypto verifier_chain (P256V.State 0x100) h 2 3 4 5
    verifier_chain_serves Hh ltac:(done) ltac:(done) ltac:(done) ltac:(done)) as T.
  assert (u256 prefixed_hash) as Hp by (by vm_compute).
  split.
  - generalize (T 1 ltac:(done)). case_bool_decide as E; [vm_compute in E; discriminate E|]. exact id.
  - generalize (T prefixed_hash Hp). case_bool_decide as E; [exact id|]. destruct E. vm_compute. reflexivity.
Defined.

(** A callee that answers a bad signature with no data, as RIP-7212 chains do,
    makes [verify] revert instead of returning false. *)
Lemma p256v_reverts_on_empty_answer `{StaticCalls} st h r s k :
  (∀ input, staticcall (P256V.precompile st) input = (true, [])) →
  P256V.verify h r s k st = Revert NoData.
Proof. intros Hst. unfold P256V.verify. by rewrite Hst. Qed.

(** P256VerifierYul accepts nothing: whatever the chain, the configured
    verifier and the signature, ecdsa_verify never returns true (it loads the
    callee from an empty storage slot and tests a variable that is never
    assigned), so its EIP-7212 entry point never answers 1. *)
Theorem p256_verifier_yul_rejects_all (SC : StaticCalls) (verifier h r s x y : Z) (input : bytes) :
  P256VerifierYul.ecdsa_verify h r s (x, y) (P256VerifierYul.deployed verifier) ≠ Ok true ∧
  P256VerifierYul.fallback input (P256VerifierYul.deployed verifier) ≠ Ok (word 1).
Proof.
  assert (∀ h r s k, P256VerifierYul.ecdsa_verify h r s k (P256VerifierYul.deployed verifier) ≠ Ok true) as Hv.
  { intros. unfold P256VerifierYul.ecdsa_verify. intros E. apply bind_Ok in E as ([] & _ & E). by vm_compute in E. }
  assert (word 0 ≠ word 1) as Hw by (intros E; apply word_inj in E; done).
  split; [apply Hv|]. unfold P256VerifierYul.fallback. destruct (negb _); [congruence|]. intros E.
  do 6 (apply bind_Ok in E as (? & ? & E)). rename select (P256VerifierYul.ecdsa_verify _ _ _ _ _ = _) into Hr.
  destruct x5; [by apply Hv in Hr|congruence].
Qed.
