(* ===== verification/P256SmartAccount.v ===== *)
(** The passkey account (contracts/enclave-smart-account/P256SmartAccount.sol)
    over BaseAccount, Initializable and UUPSUpgradeable
    (P256SmartAccountFactory_Flattened.sol).

    A user operation is accepted when the P-256 key signed a WebAuthn assertion
    whose challenge is the operation's hash; everything else the account does is
    reserved to its EntryPoint, to itself and, for replacing the key, to its
    guardians.  Outgoing calls may come back: [call] is a parameter that returns
    the callee's answer and the account's state after any call made back into
    it.  [console.log] and events have no effect on the state. *)
From S2P Require Import Prelude Bytes EnclaveRegistry Base64URL UserOperation AccountBase P256Verifier P256V.

(** The EVM's sha256 precompile; only its range is assumed. *)
Class Sha256 := {
  sha256 : bytes → Z;
  sha256_range : ∀ bs, u256 (sha256 bs)
}.


(** ** abi.decode of dynamic values

    A [bytes] or [string] component: the head word at [pos] is its offset. *)
Definition abi_bytes_at (data : bytes) (pos : nat) : res bytes :=
  off ← abi_word_at data pos;
  _ ← require_ (off <? 2 ^ 64);
  _ ← require_ (off + 31 <? Z.of_nat (length data));
  len ← abi_word_at data (Z.to_nat off);
  _ ← (if len <? 2 ^ 64 then Ok tt else Revert (Panic 0x41));
  _ ← require_ (off + 32 + len <=? Z.of_nat (length data));
  Ok (take (Z.to_nat len) (drop (Z.to_nat off + 32) data)).

(** [abi.decode(sig, (bytes32, uint256, uint256, bytes, string, string))] *)
Record assertion := Assertion {
  keyHash : Z; sig_r : Z; sig_s : Z;
  authenticatorData : bytes; clientDataJSONPre : bytes; clientDataJSONPost : bytes
}.
Definition abi_decode_assertion (data : bytes) : res assertion :=
  _ ← require_ ((192 <=? length data)%nat);
  k ← abi_word_at data 0;
  r ← abi_word_at data 32;
  s ← abi_word_at data 64;
  ad ← abi_bytes_at data 96;
  pre ← abi_bytes_at data 128;
  post ← abi_bytes_at data 160;
  Ok {| keyHash := k; sig_r := r; sig_s := s; authenticatorData := ad;
        clientDataJSONPre := pre; clientDataJSONPost := post |}.

(** ** State *)

Record state := State {
  guardians : list address;
  isGuardian : gmap address bool;
  enclaveRegistry : address;
  pubKey : Z * Z;
  _initialized : Z;               (* uint8 *)
  _initializing : bool;
  implementation : address        (* the ERC-1967 slot *)
}.

(** The storage of a proxy before anything ran, and of the implementation
    contract after its constructor ([_disableInitializers]). *)
Definition blank : state := State [] ∅ 0 (0, 0) 0 false 0.
Definition _disableInitializers (s : state) : res state :=
  _ ← require (negb (_initializing s)) "Initializable: contract is initializing";
  if negb (_initialized s =? 255)
  then Ok (State (guardians s) (isGuardian s) (enclaveRegistry s) (pubKey s) 255 (_initializing s) (implementation s))
  else Ok s.
Definition constructed : res state := _disableInitializers blank.

Definition set_guardian (a : address) (v : bool) (s : state) : state :=
  State (guardians s) (<[a := v]> (isGuardian s)) (enclaveRegistry s) (pubKey s) (_initialized s) (_initializing s)
    (implementation s).
Definition set_guardians (l : list address) (s : state) : state :=
  State l (isGuardian s) (enclaveRegistry s) (pubKey s) (_initialized s) (_initializing s) (implementation s).
Definition set_pubKey (k : Z * Z) (s : state) : state :=
  State (guardians s) (isGuardian s) (enclaveRegistry s) k (_initialized s) (_initializing s) (implementation s).
Definition set_registry (a : address) (s : state) : state :=
  State (guardians s) (isGuardian s) a (pubKey s) (_initialized s) (_initializing s) (implementation s).
Definition set_init (v : Z) (b : bool) (s : state) : state :=
  State (guardians s) (isGuardian s) (enclaveRegistry s) (pubKey s) v b (implementation s).
Definition set_implementation (a : address) (s : state) : state :=
  State (guardians s) (isGuardian s) (enclaveRegistry s) (pubKey s) (_initialized s) (_initializing s) a.

(** ** Initialization *)

(** The [initializer] modifier around [body]; [deployed_code]: whether the
    account's address has code, which it has not while its constructor runs. *)
Definition initializer : bool → (state → res state) → state → res state :=
  initializer_of (λ s, (_initialized s, _initializing s)) set_init.

Definition _initialize (_pubKey : Z * Z) (_enclaveRegistry : address) (s : state) : res state :=
  Ok (set_pubKey _pubKey (set_registry _enclaveRegistry s)).
Definition initialize (deployed_code : bool) (_pubKey : Z * Z) (_enclaveRegistry : address) : state → res state :=
  initializer deployed_code (_initialize _pubKey _enclaveRegistry).

(** ** Guardians and ownership *)

Definition _onlyOwner (m : msg) : res unit :=
  require (addr_eqb (msg_sender m) (self m)) "only owner".
Definition _requireFromOwnerOrGuardian (m : msg) (s : state) : res unit :=
  require (addr_eqb (msg_sender m) (self m) || mget false (isGuardian s) (msg_sender m))
    "account: Not Owner ot guardian".

Definition addGuardian (m : msg) (_guardian : address) (s : state) : res state :=
  _ ← _onlyOwner m;
  _ ← require (negb (addr_eqb _guardian zero_address)) "account: guardian address should be NonZero";
  _ ← require (negb (mget false (isGuardian s) _guardian)) "account: Guardian already exists";
  Ok (set_guardian _guardian true s).

(** The loop over [guardians]: replace the first match by the last element and
    pop; [break]. *)
Definition drop_guardian (_guardian : address) (l : list address) : list address :=
  match list_find (λ g, g = _guardian) l with
  | Some (i, _) => take (length l - 1) (<[i := default 0 (last l)]> l)
  | None => l
  end.
Definition removeGuardian (m : msg) (_guardian : address) (s : state) : res state :=
  _ ← _onlyOwner m;
  _ ← require (mget false (isGuardian s) _guardian) "account: Guardian does not exist";
  let s := set_guardian _guardian false s in
  Ok (set_guardians (drop_guardian _guardian (guardians s)) s).

Definition transferOwnership (m : msg) (_newPubKey : Z * Z) (s : state) : res state :=
  _ ← _requireFromOwnerOrGuardian m s;
  Ok (set_pubKey _newPubKey s).

Definition getGuardianCount (s : state) : Z := Z.of_nat (length (guardians s)).
Definition _authorizeUpgrade (m : msg) (newImplementation : address) : res unit := _onlyOwner m.

Definition SIG_VALIDATION_FAILED : Z := 1.
Definition MAGIC_VALUE : Z := 0x1626ba7e.

Section account.
Context {W : Type} `{Host W} `{Sha256} `{EvmCrypto}.
(** A call made by the account: success, return data, and the account and the
    rest of the chain afterwards. *)
Variable call : address → Z → bytes → state → W → bool * bytes * state * W.

(** ** Signatures *)

Definition webauthn_hash (a : assertion) (userOpHash : Z) : Z :=
  let opHashBase64 := Base64URL.encode (word userOpHash) in
  let clientDataJSON := clientDataJSONPre a ++ opHashBase64 ++ clientDataJSONPost a in
  let clientHash := sha256 clientDataJSON in
  sha256 (authenticatorData a ++ word clientHash).

Definition _verifySignature (a : assertion) (userOpHash : Z) (s : state) (w : W) : res bool :=
  let sigHash := webauthn_hash a userOpHash in
  verifier ← registry_call w (enclaveRegistry s) "p256Verifier";
  verify_call w verifier sigHash (sig_r a) (sig_s a) (pubKey s).

Definition _validateSignature (u : UserOperation) (userOpHash : Z) (s : state) (w : W) : res Z :=
  a ← abi_decode_assertion (signature u);
  ok ← _verifySignature a userOpHash s w;
  Ok (if (negb ok : bool) then SIG_VALIDATION_FAILED else 0).

Definition isValidSignature (_hash : Z) (_signature : bytes) (s : state) (w : W) : res Z :=
  a ← abi_decode_assertion _signature;
  ok ← _verifySignature a _hash s w;
  Ok (if (ok : bool) then MAGIC_VALUE else 0xffffffff).

(** ** Calls *)

Definition entryPoint (s : state) (w : W) : res address := registry_call w (enclaveRegistry s) "entryPoint".

Definition _requireFromEntryPoint (m : msg) (s : state) (w : W) : res unit :=
  ep ← entryPoint s w;
  require (addr_eqb (msg_sender m) ep) "account: not from EntryPoint".
Definition _requireFromEntryPointOrOwner (m : msg) (s : state) (w : W) : res unit :=
  ep ← entryPoint s w;
  require (addr_eqb (msg_sender m) ep || addr_eqb (msg_sender m) (self m)) "account: not Owner or EntryPoint".

Definition execute (m : msg) (dest : address) (value : Z) (func : bytes) (s : state) (w : W) : res (state * W) :=
  _ ← _requireFromEntryPointOrOwner m s w;
  _call call dest value func s w.

Definition executeBatch (m : msg) (dest : list address) (value : list Z) (func : list bytes)
    (s : state) (w : W) : res (state * W) :=
  _ ← _requireFromEntryPointOrOwner m s w;
  execute_batch call dest value func s w.

Definition validateUserOp (m : msg) (u : UserOperation) (userOpHash missingAccountFunds : Z)
    (s : state) (w : W) : res (Z * (state * W)) :=
  _ ← _requireFromEntryPoint m s w;
  validationData ← _validateSignature u userOpHash s w;
  Ok (validationData, _payPrefund call m missingAccountFunds s w).

(** ** EntryPoint deposit *)

Definition getNonce (m : msg) (s : state) (w : W) : res Z :=
  ep ← entryPoint s w;
  uint_call w ep (selector "getNonce(address,uint192)" ++ abi_words [self m; 0]).
Definition getDeposit (m : msg) (s : state) (w : W) : res Z :=
  ep ← entryPoint s w;
  uint_call w ep (selector "balanceOf(address)" ++ abi_words [self m]).
Definition addDeposit (m : msg) (s : state) (w : W) : res (state * W) :=
  ep ← entryPoint s w;
  _call_contract call ep (msg_value m) (selector "depositTo(address)" ++ abi_words [self m]) s w.
Definition withdrawDepositTo (m : msg) (withdrawAddress : address) (amount : Z) (s : state) (w : W) : res (state * W) :=
  _ ← _onlyOwner m;
  ep ← entryPoint s w;
  _call_contract call ep 0 (selector "withdrawTo(address,uint256)" ++ abi_words [withdrawAddress; amount]) s w.

(** ** Upgrades (UUPSUpgradeable.upgradeTo; [impl]: the address of this code) *)

Definition upgradeTo (m : msg) (impl newImplementation : address) (s : state) (w : W) : res state :=
  _ ← upgrade_checks m impl (implementation s) newImplementation (_authorizeUpgrade m newImplementation) w;
  Ok (set_implementation newImplementation s).
End account.

(** ** Encoding of assertions *)

Definition abi_encode_assertion (a : assertion) : bytes :=
  let t1 := abi_tail (authenticatorData a) in
  let t2 := abi_tail (clientDataJSONPre a) in
  let t3 := abi_tail (clientDataJSONPost a) in
  abi_words [keyHash a; sig_r a; sig_s a; 192; 192 + Z.of_nat (length t1);
             192 + Z.of_nat (length t1) + Z.of_nat (length t2)] ++ t1 ++ t2 ++ t3.

Definition wf_assertion (a : assertion) : Prop :=
  u256 (keyHash a) ∧ u256 (sig_r a) ∧ u256 (sig_s a) ∧
  Z.of_nat (length (authenticatorData a)) < 2 ^ 60 ∧ Z.of_nat (length (clientDataJSONPre a)) < 2 ^ 60 ∧
  Z.of_nat (length (clientDataJSONPost a)) < 2 ^ 60.

Lemma length_abi_tail bs : (length bs + 32 ≤ length (abi_tail bs) < length bs + 64)%nat.
Proof.
  Transparent abi_tail. unfold abi_tail, pad32. rewrite !length_app, length_word, length_replicate.
  pose proof (Nat.mod_upper_bound (32 - length bs mod 32) 32). lia.
  Opaque abi_tail.
Qed.
Lemma abi_tail_split bs rest :
  abi_tail bs ++ rest = word (Z.of_nat (length bs)) ++ bs ++ drop (length bs) (pad32 bs) ++ rest.
Proof.
  Transparent abi_tail. unfold abi_tail, pad32. rewrite drop_app_length, <- !app_assoc. done.
  Opaque abi_tail.
Qed.

Lemma abi_word_at_app pre z post off :
  off = length pre → u256 z → abi_word_at (pre ++ word z ++ post) off = Ok z.
Proof.
  Transparent abi_word_at. intros -> Hz. unfold abi_word_at.
  rewrite !length_app, length_word, (proj2 (Nat.leb_le _ _)) by lia. cbn [require_]. rewrite Ok_bind.
  rewrite drop_app_length, take_app_length' by (by rewrite length_word). by rewrite be_val_word.
  Opaque abi_word_at.
Qed.

Lemma abi_bytes_at_tail head bs rest pos off :
  abi_word_at (head ++ abi_tail bs ++ rest) pos = Ok off → off = Z.of_nat (length head) →
  off < 2 ^ 64 → Z.of_nat (length bs) < 2 ^ 64 →
  abi_bytes_at (head ++ abi_tail bs ++ rest) pos = Ok bs.
Proof.
  intros Hw -> Ho Hl. pose proof (length_abi_tail bs).
  set (data := head ++ abi_tail bs ++ rest) in *. set (off := Z.of_nat (length head)) in *.
  assert (off + 32 + Z.of_nat (length bs) ≤ Z.of_nat (length data)) as Hd by (subst data off; rewrite !length_app; lia).
  assert (abi_word_at data (length head) = Ok (Z.of_nat (length bs))) as Hlen.
  { subst data. rewrite abi_tail_split. apply abi_word_at_app; [done|unfold uint; lia]. }
  assert (take (length bs) (drop (length head + 32) data) = bs) as Ht.
  { subst data. rewrite abi_tail_split, <- drop_drop, drop_app_length, drop_app_length' by (by rewrite length_word).
    by rewrite take_app_length. }
  apply Z.ltb_lt in Ho, Hl. assert (off + 31 <? Z.of_nat (length data) = true) as Ho31 by (apply Z.ltb_lt; lia).
  apply Z.leb_le in Hd. unfold abi_bytes_at. rewrite Hw, Ok_bind, Ho. cbn [require_]. rewrite Ok_bind, Ho31.
  cbn [require_]. rewrite Ok_bind. replace (Z.to_nat off) with (length head) by (subst off; lia).
  rewrite Hlen, Ok_bind, Hl, Ok_bind, Hd. cbn [require_]. by rewrite Ok_bind, Nat2Z.id, Ht.
Qed.

Lemma assertion_decode_encode a : wf_assertion a → abi_decode_assertion (abi_encode_assertion a) = Ok a.
Proof.
  intros (Hk & Hr & Hs & H1 & H2 & H3). unfold abi_decode_assertion, abi_encode_assertion.
  pose proof (length_abi_tail (authenticatorData a)). pose proof (length_abi_tail (clientDataJSONPre a)).
  pose proof (length_abi_tail (clientDataJSONPost a)).
  set (t1 := abi_tail (authenticatorData a)) in *. set (t2 := abi_tail (clientDataJSONPre a)) in *.
  set (t3 := abi_tail (clientDataJSONPost a)) in *.
  set (zs := [keyHash a; sig_r a; sig_s a; 192; 192 + Z.of_nat (length t1);
              192 + Z.of_nat (length t1) + Z.of_nat (length t2)]).
  assert (∀ i z off, off = (32 * i)%nat → zs !! i = Some z → u256 z →
            abi_word_at (abi_words zs ++ t1 ++ t2 ++ t3) off = Ok z) as Hw.
  { intros i z off -> Hi Hz. by apply abi_word_at_words. }
  rewrite (proj2 (Nat.leb_le _ _)) by (rewrite length_app, length_abi_words; cbn; lia). cbn [require_]. rewrite Ok_bind.
  rewrite (Hw 0%nat (keyHash a) 0%nat eq_refl eq_refl Hk), (Hw 1%nat (sig_r a) 32%nat eq_refl eq_refl Hr),
    (Hw 2%nat (sig_s a) 64%nat eq_refl eq_refl Hs), !Ok_bind.
  assert (abi_bytes_at (abi_words zs ++ t1 ++ t2 ++ t3) 96 = Ok (authenticatorData a)) as E1.
  { eapply abi_bytes_at_tail; [by apply (Hw 3%nat 192)| |lia..]. by rewrite length_abi_words. }
  assert (abi_bytes_at (abi_words zs ++ t1 ++ t2 ++ t3) 128 = Ok (clientDataJSONPre a)) as E2.
  { rewrite app_assoc in Hw |- *.
    eapply abi_bytes_at_tail; [apply (Hw 4%nat _ _ eq_refl eq_refl); unfold uint; lia| |lia..].
    rewrite length_app, length_abi_words. cbn. lia. }
  assert (abi_bytes_at (abi_words zs ++ t1 ++ t2 ++ t3) 160 = Ok (clientDataJSONPost a)) as E3.
  { rewrite (app_assoc t1), (app_assoc (abi_words zs)) in Hw |- *. rewrite <- (app_nil_r t3) in Hw |- *.
    eapply abi_bytes_at_tail; [apply (Hw 5%nat _ _ eq_refl eq_refl); unfold uint; lia| |lia..].
    rewrite !length_app, length_abi_words. cbn. lia. }
  rewrite E1, E2, E3, !Ok_bind. by destruct a.
Qed.

Lemma abi_decode_assertion_short data : (length data < 192)%nat → abi_decode_assertion data = Revert NoData.
Proof. intros Hl. unfold abi_decode_assertion. by rewrite (proj2 (Nat.leb_gt _ _)). Qed.

(** ** The external interface *)

Inductive ext_call :=
  | Receive
  | Execute (dest : address) (value : Z) (func : bytes)
  | ExecuteBatch (dest : list address) (value : list Z) (func : list bytes)
  | Initialize (_pubKey : Z * Z) (_enclaveRegistry : address)
  | ValidateUserOp (u : UserOperation) (userOpHash missingAccountFunds : Z)
  | AddGuardian (_guardian : address)
  | RemoveGuardian (_guardian : address)
  | TransferOwnership (_newPubKey : Z * Z)
  | AddDeposit
  | WithdrawDepositTo (withdrawAddress : address) (amount : Z)
  | UpgradeTo (newImplementation : address)
  | UpgradeToAndCall (newImplementation : address) (data : bytes).

Section interface.
Context {W : Type} `{Host W} `{Sha256} `{EvmCrypto}.
Variable call : address → Z → bytes → state → W → bool * bytes * state * W.
(** [Address.functionDelegateCall]: another contract's code on this storage. *)
Variable delegatecall : address → bytes → state → W → bool * bytes * state * W.

Definition upgradeToAndCall (m : msg) (impl newImplementation : address) (data : bytes) (s : state) (w : W)
    : res (state * W) :=
  s ← upgradeTo m impl newImplementation s w;
  let '(success, result, s', w') := delegatecall newImplementation data s w in
  if (success : bool) then Ok (s', w') else Revert (Bubble result).

(** A message to the account, once its proxy is deployed; [impl] is the address
    of the code the proxy runs. *)
Definition handle (impl : address) (m : msg) (c : ext_call) (s : state) (w : W) : res (state * W) :=
  match c with
  | Receive => Ok (s, w)
  | Execute dest value func => execute call m dest value func s w
  | ExecuteBatch dest value func => executeBatch call m dest value func s w
  | Initialize k r => s ← initialize true k r s; Ok (s, w)
  | ValidateUserOp u h f => snd <$> validateUserOp call m u h f s w
  | AddGuardian g => s ← addGuardian m g s; Ok (s, w)
  | RemoveGuardian g => s ← removeGuardian m g s; Ok (s, w)
  | TransferOwnership k => s ← transferOwnership m k s; Ok (s, w)
  | AddDeposit => addDeposit call m s w
  | WithdrawDepositTo a n => withdrawDepositTo call m a n s w
  | UpgradeTo n => s ← upgradeTo m impl n s w; Ok (s, w)
  | UpgradeToAndCall n d => upgradeToAndCall m impl n d s w
  end.

(** [EntryPoint.depositTo] credits the account and does not call it back. *)
Definition deposit_passive (m : msg) (s : state) (w : W) : Prop :=
  ∀ ep v, entryPoint s w = Ok ep →
    (call ep v (selector "depositTo(address)" ++ abi_words [self m]) s w).1.2 = s.

Lemma initialize_initialized k r s :
  _initialized s = 1 → _initializing s = false →
  initialize true k r s = Revert (Error "Initializable: contract is already initialized").
Proof. intros E1 E2. unfold initialize, initializer. apply initializer_of_initialized. by rewrite E1, E2. Qed.

Lemma not_self (m : msg) : msg_sender m ≠ self m → _onlyOwner m = Revert (Error "only owner").
Proof. intros E. unfold _onlyOwner, addr_eqb. by rewrite (proj2 (Z.eqb_neq _ _) E). Qed.

Lemma upgradeTo_not_self m impl n s w r :
  msg_sender m ≠ self m → upgradeTo m impl n s w ≠ Ok r.
Proof.
  intros E Hu. unfold upgradeTo, _authorizeUpgrade in Hu. rewrite not_self in Hu by done.
  apply bind_Ok in Hu as (? & Hu & _). pose proof (upgrade_unauthorized m impl (implementation s) n (Error "only owner") w) as Hn.
  by rewrite Hu in Hn.
Qed.

(** C4: Nobody else can touch the account: once initialized, a call by an
    address that is neither the account itself nor its EntryPoint (and whatever
    function it calls, with whatever arguments) reverts or leaves the account's
    state as it was, unless the caller is a guardian replacing the public key
    with transferOwnership. *)
Theorem strangers_change_nothing (impl : address) (m : msg) (c : ext_call) (s : state) (w : W) s' w' :
  _initialized s = 1 → _initializing s = false → deposit_passive m s w →
  msg_sender m ≠ self m → entryPoint s w ≠ Ok (msg_sender m) →
  handle impl m c s w = Ok (s', w') →
  s' = s ∨ ∃ k, c = TransferOwnership k ∧ mget false (isGuardian s) (msg_sender m) = true ∧ s' = set_pubKey k s.
Proof.
  intros Hi Hj Hdep Hself Hep E.
  assert (∀ B (f : unit → res B) x, (_requireFromEntryPointOrOwner m s w ≫= f) ≠ Ok x) as Hx1.
  { intros B f x. unfold _requireFromEntryPointOrOwner, addr_eqb. destruct (entryPoint s w) as [ep|]; [|done].
    rewrite Ok_bind. rewrite !(proj2 (Z.eqb_neq _ _)) by congruence. done. }
  destruct c; cbn [handle] in E.
  - inv_res. by left.
  - by apply Hx1 in E.
  - by apply Hx1 in E.
  - by rewrite initialize_initialized in E.
  - unfold validateUserOp, _requireFromEntryPoint, addr_eqb in E.
    destruct (entryPoint s w) as [ep|]; [|done]. rewrite Ok_bind in E.
    by rewrite (proj2 (Z.eqb_neq _ _)) in E by congruence.
  - unfold addGuardian in E. by rewrite not_self in E.
  - unfold removeGuardian in E. by rewrite not_self in E.
  - unfold transferOwnership, _requireFromOwnerOrGuardian, addr_eqb in E.
    rewrite (proj2 (Z.eqb_neq _ _)) in E by done. inv_res. right. eauto.
  - unfold addDeposit in E. destruct (entryPoint s w) as [ep|] eqn:Eep; [|done]. rewrite Ok_bind in E.
    unfold _call_contract, _call in E. inv_res. specialize (Hdep ep (msg_value m) Eep).
    destruct (call _ _ _ _ _) as [[[[] ?] ?] ?]; [|done]. inv_res. by left.
  - unfold withdrawDepositTo in E. by rewrite not_self in E.
  - apply bind_Ok in E as (? & E & _). by apply upgradeTo_not_self in E.
  - unfold upgradeToAndCall in E. apply bind_Ok in E as (? & E & _). by apply upgradeTo_not_self in E.
Qed.
End interface.

(** ** Accepting user operations *)

(** What the account expects, for a message hash, of the verifier its registry
    names. *)
Class DecidesEcdsa {W} `{Host W} (w : W) (va : address) (h : Z) : Prop :=
  verify_decides : ∀ r s x y, u256 h → u256 r → u256 s → u256 x → u256 y →
    ∃ v, verify_call w va h r s (x, y) = Ok v ∧ (v = true ↔ ecdsa_valid h r s x y).

(** P256V in front of P256Verifier provides it, unless the hash starts with the
    selector of ecdsa_verify. *)
Lemma p256v_decides {W} `{Host W} `{StaticCalls} `{EvmCrypto} (w : W) va st h :
  (∀ h r s k, verify_call w va h r s k = P256V.verify h r s k st) →
  serves_verifier (P256V.precompile st) → take 4 (word h) ≠ selector ecdsa_verify_signature →
  DecidesEcdsa w va h.
Proof. intros Hv Hst Hsel r s x y Hh Hr Hs Hx Hy. rewrite Hv. by apply P256V_verify_ok. Qed.

Lemma abi_word_at_range data off z : abi_word_at data off = Ok z → is_bytes data → u256 z.
Proof.
  Transparent abi_word_at. unfold abi_word_at. intros E Hb. inv_res. guards.
  rename select ((_ <=? _)%nat = true) into Hl. apply Nat.leb_le in Hl.
  pose proof (be_val_range (take 32 (drop off data)) ltac:(by apply is_bytes_take, is_bytes_drop)) as Hr.
  rewrite length_take, length_drop in Hr. by replace (32 `min` (length data - off))%nat with 32%nat in Hr by lia.
  Opaque abi_word_at.
Qed.

Lemma decoded_range data a :
  abi_decode_assertion data = Ok a → is_bytes data → u256 (sig_r a) ∧ u256 (sig_s a).
Proof.
  unfold abi_decode_assertion. intros E Hb. apply bind_Ok in E as (_ & _ & E).
  apply bind_Ok in E as (k & _ & E). apply bind_Ok in E as (r & Er & E). apply bind_Ok in E as (s & Es & E).
  do 3 (apply bind_Ok in E as (? & _ & E)). injection E as <-. eauto using abi_word_at_range.
Qed.

Section validation.
Context {W : Type} `{Host W} `{Sha256} `{EvmCrypto}.
Variable call : address → Z → bytes → state → W → bool * bytes * state * W.

Lemma verifySignature_ok a h s (w : W) va :
  registry_call w (enclaveRegistry s) "p256Verifier" = Ok va → DecidesEcdsa w va (webauthn_hash a h) →
  u256 (sig_r a) → u256 (sig_s a) → u256 (pubKey s).1 → u256 (pubKey s).2 →
  ∃ v, _verifySignature a h s w = Ok v ∧
       (v = true ↔ ecdsa_valid (webauthn_hash a h) (sig_r a) (sig_s a) (pubKey s).1 (pubKey s).2).
Proof.
  intros Hreg HV Hr Hs Hx Hy. unfold _verifySignature. rewrite Hreg, Ok_bind.
  destruct (pubKey s) as [x y]. apply verify_decides; try done. apply sha256_range.
Qed.

(** [validateUserOp] returns, and answers by the verdict on the assertion. *)
Lemma validateUserOp_verdict m u h funds s (w : W) a va :
  entryPoint s w = Ok (msg_sender m) →
  registry_call w (enclaveRegistry s) "p256Verifier" = Ok va → DecidesEcdsa w va (webauthn_hash a h) →
  abi_decode_assertion (signature u) = Ok a → is_bytes (signature u) →
  u256 (pubKey s).1 → u256 (pubKey s).2 →
  ∃ vd sw, validateUserOp call m u h funds s w = Ok (vd, sw) ∧
    vd = (if bool_decide (vd = 0) then 0 else SIG_VALIDATION_FAILED) ∧
    (vd = 0 ↔ ecdsa_valid (webauthn_hash a h) (sig_r a) (sig_s a) (pubKey s).1 (pubKey s).2).
Proof.
  intros Hep Hreg HV Ha Hb Hx Hy. destruct (decoded_range _ _ Ha Hb) as [Hr Hs].
  destruct (verifySignature_ok a h s w va) as (v & Hv & Hiff); [done..|].
  unfold validateUserOp, _requireFromEntryPoint, _validateSignature, addr_eqb.
  rewrite Hep, Ok_bind, Z.eqb_refl. cbn [require]. rewrite Ok_bind, Ha, Ok_bind, Hv, !Ok_bind.
  eexists _, _. split; [done|]. destruct v; cbn [negb].
  - split; [done|]. tauto.
  - split; [done|]. split; [done|]. intros E%Hiff. done.
Qed.

(** C5: The EntryPoint's validateUserOp of a well-formed assertion always
    returns, with 0 (valid) exactly when the account's P-256 key signed
    sha256(authenticatorData ++ sha256(pre ++ base64url(userOpHash) ++ post))
    and with SIG_VALIDATION_FAILED otherwise, whenever the registry's
    p256Verifier decides ECDSA for that hash, as P256V over P256Verifier does
    unless the hash starts with the selector of ecdsa_verify. *)
Theorem account_accepts_exactly_signed (m : msg) (u : UserOperation) (h funds : Z) (s : state) (w : W) a va :
  entryPoint s w = Ok (msg_sender m) →
  registry_call w (enclaveRegistry s) "p256Verifier" = Ok va → DecidesEcdsa w va (webauthn_hash a h) →
  abi_decode_assertion (signature u) = Ok a → is_bytes (signature u) →
  u256 (pubKey s).1 → u256 (pubKey s).2 →
  ∃ vd sw, validateUserOp call m u h funds s w = Ok (vd, sw) ∧
    vd = (if bool_decide (vd = 0) then 0 else SIG_VALIDATION_FAILED) ∧
    (vd = 0 ↔ ecdsa_valid (webauthn_hash a h) (sig_r a) (sig_s a) (pubKey s).1 (pubKey s).2).
Proof. apply validateUserOp_verdict. Qed.

(** EIP-1271 and EIP-4337 agree: isValidSignature answers the magic value
    exactly when validating an operation with the same hash and signature
    returns 0, answers 0xffffffff exactly when that returns
    SIG_VALIDATION_FAILED, and reverts exactly when that reverts, with the same
    data. *)
Theorem isValidSignature_agrees (u : UserOperation) (h : Z) (s : state) (w : W) :
  isValidSignature h (signature u) s w =
    match _validateSignature u h s w with
    | Ok v => Ok (if v =? 0 then MAGIC_VALUE else 0xffffffff)
    | Revert r => Revert r
    end.
Proof.
  unfold isValidSignature, _validateSignature. destruct (abi_decode_assertion _) as [a|]; [|done].
  rewrite !Ok_bind. by destruct (_verifySignature _ _ _ _) as [[]|].
Qed.

(** C20: A signature is bound to one operation: if the same assertion hashes to
    the same digest for two operation hashes, then the operation hashes are
    equal, or the two client data strings that differ only in the challenge
    (the base64url of each hash) are a sha256 collision, or the two strings of
    authenticator data and client data digest are one. *)
Theorem assertion_binds_operation (a : assertion) (h h' : Z) :
  u256 h → u256 h' → webauthn_hash a h = webauthn_hash a h' →
  let clientDataJSON k := clientDataJSONPre a ++ encode (word k) ++ clientDataJSONPost a in
  let signed k := authenticatorData a ++ word (sha256 (clientDataJSON k)) in
  h = h' ∨
  (clientDataJSON h ≠ clientDataJSON h' ∧ sha256 (clientDataJSON h) = sha256 (clientDataJSON h')) ∨
  (signed h ≠ signed h' ∧ sha256 (signed h) = sha256 (signed h')).
Proof.
  intros Hh Hh' E clientDataJSON signed. change (sha256 (signed h) = sha256 (signed h')) in E.
  destruct (decide (signed h = signed h')) as [Es|]; [|by do 2 right].
  apply app_inv_head, word_inj in Es; [|apply sha256_range..].
  destruct (decide (clientDataJSON h = clientDataJSON h')) as [Ej|]; [left|by right; left].
  apply app_inv_head, app_inv_tail in Ej.
  apply word_inj; [done..|]. by apply encode_inj; [apply word_bytes..|].
Qed.
End validation.

(** ** Invariants

    The account's own state-changing functions, by any sender; every other
    function changes the state only through them, called back.  An upgrade
    replaces the code, so steps are those of this implementation. *)
Inductive step (me : address) : state → state → Prop :=
  | step_initialize k r s s' : initialize true k r s = Ok s' → step me s s'
  | step_addGuardian m g s s' : self m = me → addGuardian m g s = Ok s' → step me s s'
  | step_removeGuardian m g s s' : self m = me → removeGuardian m g s = Ok s' → step me s s'
  | step_transferOwnership m k s s' : self m = me → transferOwnership m k s = Ok s' → step me s s'.

(** An account as the factory leaves it: initialized in the proxy's constructor. *)
Definition created (impl : address) (k : Z * Z) (r : address) : res state :=
  initialize false k r (set_implementation impl blank).

Record account_inv (s : state) : Prop := {
  inv_guardians : guardians s = [];
  inv_initialized : _initialized s = 1;
  inv_initializing : _initializing s = false;
  inv_zero : mget false (isGuardian s) zero_address = false
}.

Lemma created_inv impl k r s : created impl k r = Ok s → account_inv s.
Proof. unfold created, initialize, initializer. cbn. intros [= <-]. by split. Qed.

Lemma step_inv me s s' : step me s s' → account_inv s → account_inv s'.
Proof.
  intros Hs Hi. pose proof Hi as [Hg Hn Hz H0]. destruct Hs as [k r s s' E|m g s s' Em E|m g s s' Em E|m k s s' Em E].
  - by rewrite initialize_initialized in E.
  - unfold addGuardian, addr_eqb in E. inv_res. guards. split; cbn; try done.
    rewrite mget_insert_ne; done.
  - unfold removeGuardian in E. inv_res. guards. split; cbn; try done; [by rewrite Hg|].
    rewrite mget_insert. by case_decide.
  - unfold transferOwnership in E. inv_res. by split.
Qed.

Lemma account_reachable_inv me impl k r s0 s : created impl k r = Ok s0 → rtc (step me) s0 s → account_inv s.
Proof.
  intros H0%created_inv Hr. induction Hr as [|s s1 s2 Hs _ IH]; [done|]. eauto using step_inv.
Qed.

(** C23: In every state an account reaches from its creation, whoever calls it:
    it is at version 1 and outside an initializer, so that it is initialized
    once and for all (initialize reverts), the zero address is not a guardian,
    and the array [guardians] is empty: getGuardianCount
    answers 0 however many guardians were added, because addGuardian never
    pushes to the array. *)
Theorem account_always_initialized_and_uncounted (me impl : address) (k : Z * Z) (r : address) (s0 s : state) :
  created impl k r = Ok s0 → rtc (step me) s0 s →
  _initialized s = 1 ∧ _initializing s = false ∧
  getGuardianCount s = 0 ∧ mget false (isGuardian s) zero_address = false ∧
  ∀ k' r', initialize true k' r' s = Revert (Error "Initializable: contract is already initialized").
Proof.
  intros H0 Hr. destruct (account_reachable_inv _ _ _ _ _ _ H0 Hr) as [Hg Hn Hz Hzero].
  unfold getGuardianCount. rewrite Hg. split_and!; [done..|]. intros. by apply initialize_initialized.
Qed.

Definition demo_self : msg :=
  {| msg_sender := 0xACC; msg_value := 0; self := 0xACC; chainid := 1; timestamp := 0 |}.
Definition demo_account : state := State [] ∅ 0x4E9 (7, 8) 1 false 0x1111.
Lemma account_always_initialized_and_uncounted_witness :
  mget false (isGuardian (set_guardian 0x6A true demo_account)) 0x6A = true ∧
  _initializing (set_guardian 0x6A true demo_account) = false ∧
  getGuardianCount (set_guardian 0x6A true demo_account) = 0.
Proof.
  split; [by vm_compute|].
  assert (addGuardian demo_self 0x6A demo_account = Ok (set_guardian 0x6A true demo_account)) as E by (by vm_compute).
  refine (match account_always_initialized_and_uncounted 0xACC 0x1111 (7, 8) 0x4E9 demo_account _ eq_refl _ with
          | conj _ (conj Hi (conj Hc _)) => conj Hi Hc end).
  eapply rtc_l; [|apply rtc_refl]. exact (step_addGuardian 0xACC demo_self 0x6A _ _ eq_refl E).
Defined.

(** ** Batches

    Reference: the calls in order, each of which must succeed. *)
Section batches.
Context {W : Type} `{Host W} `{Sha256} `{EvmCrypto}.
Variable call : address → Z → bytes → state → W → bool * bytes * state * W.

(** C22: executeBatch runs the calls in order and all of them or none: for an
    authorised caller it equals running the list of (dest, value, func) one
    after the other (values 0 when the value array is empty), reverting with
    the return data of the first call that fails; arrays of other lengths
    revert with the documented message before any call is made. *)
Theorem executeBatch_refines (m : msg) (dest : list address) (value : list Z) (func : list bytes) (s : state) (w : W) :
  executeBatch call m dest value func s w =
    match _requireFromEntryPointOrOwner m s w with
    | Revert r => Revert r
    | Ok _ =>
        if bool_decide (length func = length dest ∧ (value = [] ∨ length value = length dest))
        then run_calls call (batch dest value func) s w
        else Revert (Error "wrong array lengths")
    end.
Proof.
  unfold executeBatch. destruct (_requireFromEntryPointOrOwner m s w) as [[]|r]; [|done].
  rewrite Ok_bind. apply execute_batch_runs.
Qed.
End batches.

(** ** Concrete runs

    A registry at 0x4E9 that names an EntryPoint at 0xE9 and, at 0x256, a P256V
    in front of the verifier contract. *)
Definition demo_book : EnclaveRegistry.state :=
  {| EnclaveRegistry.owner := 1; registry := <["entryPoint" := 0xE9]> {[ "p256Verifier" := 0x256 ]} |}.
#[local] Instance demo_host : Host unit := {|
  registry_call _ a n := if a =? 0x4E9 then getRegistryAddress n demo_book else Revert NoData;
  verify_call _ a h r s k :=
    if a =? 0x256 then @P256V.verify (@verifier_chain sample_crypto) h r s k (P256V.State 0x100) else Revert NoData;
  uint_call _ _ _ := Ok 0;
  has_code _ a := a =? 0xE9;
  uuid_call _ _ := Revert NoData
|}.
#[local] Instance demo_sha256 : Sha256 := {| sha256 bs := be_val bs mod 2 ^ 256; sha256_range := sample_hash_range |}.
Definition demo_call : address → Z → bytes → state → unit → bool * bytes * state * unit :=
  λ _ _ _ s w, (true, [], s, w).
Definition demo_assertion : assertion :=
  Assertion 1 2 3 [73; 150; 5] (str_bytes "{challenge:") (str_bytes "}").
Definition demo_userop : UserOperation :=
  let u := sample_op 0xACC [] in
  {| sender := sender u; nonce := nonce u; initCode := initCode u; callData := callData u;
     callGasLimit := callGasLimit u; verificationGasLimit := verificationGasLimit u;
     preVerificationGas := preVerificationGas u; maxFeePerGas := maxFeePerGas u;
     maxPriorityFeePerGas := maxPriorityFeePerGas u; paymasterAndData := paymasterAndData u;
     signature := abi_encode_assertion demo_assertion |}.
Definition from (a : address) : msg :=
  {| msg_sender := a; msg_value := 5; self := 0xACC; chainid := 1; timestamp := 0 |}.

Lemma demo_assertion_wf : wf_assertion demo_assertion.
Proof. apply (bool_decide_unpack _); by vm_compute. Qed.
#[local] Instance demo_verifier : DecidesEcdsa tt 0x256 (webauthn_hash demo_assertion 99).
Proof.
  refine (@p256v_decides unit demo_host (@verifier_chain sample_crypto) sample_crypto tt 0x256 (P256V.State 0x100) _
            (λ _ _ _ _, eq_refl) (@verifier_chain_serves sample_crypto) _).
  vm_compute. discriminate.
Qed.

Lemma account_accepts_exactly_signed_witness :
  ∃ vd sw, validateUserOp demo_call (from 0xE9) demo_userop 99 0 demo_account tt = Ok (vd, sw) ∧
    vd = (if bool_decide (vd = 0) then 0 else SIG_VALIDATION_FAILED) ∧
    (vd = 0 ↔ ecdsa_valid (webauthn_hash demo_assertion 99) 2 3 7 8).
Proof.
  refine (account_accepts_exactly_signed demo_call (from 0xE9) demo_userop 99 0 demo_account tt demo_assertion 0x256
            _ _ demo_verifier (assertion_decode_encode _ demo_assertion_wf) _ _ _).
  - by vm_compute.
  - by vm_compute.
  - apply (bool_decide_unpack _). by vm_compute.
  - by vm_compute.
  - by vm_compute.
Defined.

(** A guardian replaces the key; a stranger's deposit changes nothing. *)
Definition guarded_account : state := set_guardian 0x6A true demo_account.
Lemma strangers_change_nothing_witness :
  set_pubKey (1, 2) guarded_account = guarded_account ∨
  ∃ k, TransferOwnership (1, 2) = TransferOwnership k ∧
       mget false (isGuardian guarded_account) 0x6A = true ∧
       set_pubKey (1, 2) guarded_account = set_pubKey k guarded_account.
Proof.
  refine (@strangers_change_nothing unit demo_host demo_sha256 sample_crypto demo_call (λ _ _ s w, (true, [], s, w))
            0x1111 (from 0x6A) (TransferOwnership (1, 2)) guarded_account tt _ tt _ _ _ _ _ _); by vm_compute.
Defined.

(** With a hash that collides everywhere, the client data strings collide. *)
Definition constant_sha256 : Sha256 := {| sha256 _ := 0; sha256_range _ := conj (Z.le_refl 0) eq_refl |}.
Definition demo_clientDataJSON (k : Z) : bytes := str_bytes "{challenge:" ++ encode (word k) ++ str_bytes "}".
Lemma assertion_binds_operation_witness :
  let signed k := [73; 150; 5] ++ word (@sha256 constant_sha256 (demo_clientDataJSON k)) in
  1 = 2 ∨
  (demo_clientDataJSON 1 ≠ demo_clientDataJSON 2 ∧
   @sha256 constant_sha256 (demo_clientDataJSON 1) = @sha256 constant_sha256 (demo_clientDataJSON 2)) ∨
  (signed 1 ≠ signed 2 ∧ @sha256 constant_sha256 (signed 1) = @sha256 constant_sha256 (signed 2)).
Proof.
  refine (@assertion_binds_operation constant_sha256 demo_assertion 1 2 _ _ _); by vm_compute.
Defined.
