(* ===== verification/GuardianRecovery.v ===== *)
(** Recovering a passkey account through a guardian: the operations of
    P256SmartAccount.sol composed the way the account is used.  The account's
    owner functions accept only the account itself, so a guardian is added and
    removed by an operation that the EntryPoint passes to execute and execute
    sends back to the account. *)
From S2P Require Import Prelude Bytes EnclaveRegistry UserOperation AccountBase P256Verifier P256V P256SmartAccount.

Section recovery.
Context {W : Type} `{Host W} `{Sha256} `{EvmCrypto}.

(** abi.encodeCall(addGuardian, (g)) and abi.encodeCall(removeGuardian, (g)) *)
Definition addGuardian_call (g : address) : bytes := selector "addGuardian(address)" ++ abi_words [g].
Definition removeGuardian_call (g : address) : bytes := selector "removeGuardian(address)" ++ abi_words [g].
(** A message of the account to itself. *)
Definition self_msg (m : msg) : msg :=
  {| msg_sender := self m; msg_value := 0; self := self m; chainid := chainid m; timestamp := timestamp m |}.

(** The EVM runs the account's own code for a call to its address: the function
    whose selector the data has, from the account, with its effects undone when
    it reverts. *)
Definition ran (r : res state) (data : reason → bytes) (s : state) (w : W) : bool * bytes * state * W :=
  match r with Ok s' => (true, [], s', w) | Revert e => (false, data e, s, w) end.
Class Loopback (call : address → Z → bytes → state → W → bool * bytes * state * W) (m : msg) := {
  revert_data : reason → bytes;
  loop_addGuardian : ∀ g s w, uint 160 g →
    call (self m) 0 (addGuardian_call g) s w = ran (addGuardian (self_msg m) g s) revert_data s w;
  loop_removeGuardian : ∀ g s w, uint 160 g →
    call (self m) 0 (removeGuardian_call g) s w = ran (removeGuardian (self_msg m) g s) revert_data s w
}.

Context (call : address → Z → bytes → state → W → bool * bytes * state * W) (m : msg) `{!Loopback call m}.

Lemma execute_from_entryPoint dest v f s w :
  entryPoint s w = Ok (msg_sender m) → execute call m dest v f s w = _call call dest v f s w.
Proof.
  intros Hep. unfold execute, _requireFromEntryPointOrOwner. rewrite Hep, Ok_bind.
  unfold addr_eqb. rewrite Z.eqb_refl. done.
Qed.

Lemma addGuardian_self g s :
  g ≠ zero_address → addGuardian (self_msg m) g s =
    if mget false (isGuardian s) g then Revert (Error "account: Guardian already exists") else Ok (set_guardian g true s).
Proof.
  intros Hg. unfold addGuardian, _onlyOwner, addr_eqb. cbn [msg_sender self self_msg]. rewrite Z.eqb_refl.
  apply Z.eqb_neq in Hg. rewrite Hg. cbn. by destruct (mget false (isGuardian s) g).
Qed.
Lemma removeGuardian_self g s :
  removeGuardian (self_msg m) g s =
    if mget false (isGuardian s) g
    then Ok (set_guardians (drop_guardian g (guardians s)) (set_guardian g false s))
    else Revert (Error "account: Guardian does not exist").
Proof.
  unfold removeGuardian, _onlyOwner, addr_eqb. cbn [msg_sender self self_msg]. rewrite Z.eqb_refl. cbn.
  by destruct (mget false (isGuardian s) g).
Qed.

(** What a guardian may do: replace the key, and nothing once removed. *)
Lemma transferOwnership_guardian mg k s :
  msg_sender mg ≠ self mg →
  transferOwnership mg k s =
    if mget false (isGuardian s) (msg_sender mg) then Ok (set_pubKey k s)
    else Revert (Error "account: Not Owner ot guardian").
Proof.
  intros Hne. unfold transferOwnership, _requireFromOwnerOrGuardian, addr_eqb. apply Z.eqb_neq in Hne.
  rewrite Hne. cbn. by destruct (mget false (isGuardian s) (msg_sender mg)).
Qed.

Lemma execute_addGuardian g s w :
  entryPoint s w = Ok (msg_sender m) → uint 160 g → g ≠ zero_address → mget false (isGuardian s) g = false →
  execute call m (self m) 0 (addGuardian_call g) s w = Ok (set_guardian g true s, w).
Proof.
  intros Hep Hr Hg Hn. rewrite execute_from_entryPoint by done. unfold _call.
  by rewrite loop_addGuardian, addGuardian_self, Hn by done.
Qed.
Lemma execute_removeGuardian g s w :
  entryPoint s w = Ok (msg_sender m) → uint 160 g → mget false (isGuardian s) g = true →
  execute call m (self m) 0 (removeGuardian_call g) s w =
    Ok (set_guardians (drop_guardian g (guardians s)) (set_guardian g false s), w).
Proof.
  intros Hep Hr Hn. rewrite execute_from_entryPoint by done. unfold _call.
  by rewrite loop_removeGuardian, removeGuardian_self, Hn by done.
Qed.

(** C21: Recovery works: for an address [g] that is not yet a guardian (and is
    refused as long as it is not), an operation that executes addGuardian on the
    account makes it one; its transferOwnership then replaces the key; from then
    on validateUserOp answers 0 exactly to assertions of the new key, where the
    registry's verifier decides ECDSA for the signed hash; and after an operation that executes
    removeGuardian, [g] is refused again and the new key is still in place. *)
Theorem guardian_recovery (g : address) (mg : msg) (k k' : Z * Z) (s : state) (w : W) va :
  entryPoint s w = Ok (msg_sender m) →
  registry_call w (enclaveRegistry s) "p256Verifier" = Ok va →
  uint 160 g → g ≠ zero_address → g ≠ self m → mget false (isGuardian s) g = false →
  msg_sender mg = g → self mg = self m → u256 k.1 → u256 k.2 →
  let refused s := transferOwnership mg k' s = Revert (Error "account: Not Owner ot guardian") in
  refused s ∧
  ∃ s1, execute call m (self m) 0 (addGuardian_call g) s w = Ok (s1, w) ∧
  ∃ s2, transferOwnership mg k s1 = Ok s2 ∧ pubKey s2 = k ∧
    (∀ u h funds a, abi_decode_assertion (signature u) = Ok a → is_bytes (signature u) →
       DecidesEcdsa w va (webauthn_hash a h) →
       ∃ vd sw, validateUserOp call m u h funds s2 w = Ok (vd, sw) ∧
         (vd = 0 ↔ ecdsa_valid (webauthn_hash a h) (sig_r a) (sig_s a) k.1 k.2)) ∧
  ∃ s3, execute call m (self m) 0 (removeGuardian_call g) s2 w = Ok (s3, w) ∧ refused s3 ∧ pubKey s3 = k.
Proof.
  intros Hep Hreg Hr Hz Hself Hn Hmg Hsm Hk1 Hk2 refused.
  assert (∀ k s, transferOwnership mg k s =
    if mget false (isGuardian s) g then Ok (set_pubKey k s) else Revert (Error "account: Not Owner ot guardian")) as Ht.
  { intros k0 s0. rewrite transferOwnership_guardian by congruence. by rewrite Hmg. }
  split; [unfold refused; by rewrite Ht, Hn|].
  exists (set_guardian g true s). split; [by apply execute_addGuardian|].
  exists (set_pubKey k (set_guardian g true s)). split; [rewrite Ht; cbn; by rewrite mget_insert_eq|].
  split; [done|]. split.
  - intros u h funds a Ha Hb HV.
    destruct (validateUserOp_verdict call m u h funds (set_pubKey k (set_guardian g true s)) w a va)
      as (vd & sw & E & _ & Hiff); [done..|]. by exists vd, sw.
  - eexists. split; [apply execute_removeGuardian; [done..|cbn; by rewrite mget_insert_eq]|].
    split; [|done]. unfold refused. rewrite Ht. cbn. by rewrite mget_insert_eq.
Qed.
End recovery.

(** ** A concrete recovery

    An account that runs its own code for calls to itself, over a hash under
    which the two selectors differ. *)
Lemma prefix_hash_range bs : u256 (be_val (take 32 (bs ++ replicate 32 0)) mod 2 ^ 256).
Proof. apply Z.mod_pos_bound. done. Qed.
Definition prefix_crypto : EvmCrypto := {|
  keccak256 bs := be_val (take 32 (bs ++ replicate 32 0)) mod 2 ^ 256; keccak256_range := prefix_hash_range;
  ecrecover _ _ r _ := r mod 2 ^ 160 |}.

Section witness.
#[local] Existing Instance prefix_crypto.
#[local] Existing Instance demo_host.
#[local] Existing Instance demo_sha256.
#[local] Existing Instance demo_verifier.

Definition loop_call (m : msg) (target : address) (value : Z) (data : bytes) (s : state) (w : unit)
    : bool * bytes * state * unit :=
  let g := be_val (drop 4 data) in
  if negb (target =? self m) then (true, [], s, w)
  else if bool_decide (take 4 data = selector "addGuardian(address)")
  then ran (addGuardian (self_msg m) g s) (λ _, []) s w
  else if bool_decide (take 4 data = selector "removeGuardian(address)")
  then ran (removeGuardian (self_msg m) g s) (λ _, []) s w
  else (false, [], s, w).

Lemma loop_argument sig g : uint 160 g →
  take 4 (selector sig ++ abi_words [g]) = selector sig ∧ be_val (drop 4 (selector sig ++ abi_words [g])) = g.
Proof.
  intros Hg. assert (length (selector sig) = 4%nat) as Hl.
  { unfold selector. by rewrite length_take, length_word. }
  rewrite take_app_length', drop_app_length' by done. split; [done|].
  change (abi_words [g]) with (word g ++ []). rewrite app_nil_r. apply be_val_word. by apply (uint_le 160).
Qed.

#[local] Instance loop_back m : Loopback (loop_call m) m.
Proof.
  refine {| revert_data := λ _, [] |}; intros g s w Hg; unfold loop_call, addGuardian_call, removeGuardian_call;
    rewrite Z.eqb_refl; cbn [negb].
  - destruct (loop_argument "addGuardian(address)" g Hg) as [-> ->]. by rewrite bool_decide_true.
  - destruct (loop_argument "removeGuardian(address)" g Hg) as [-> ->].
    rewrite bool_decide_false by (vm_compute; discriminate). by rewrite bool_decide_true.
Qed.

Lemma guardian_recovery_witness :
  let m := from 0xE9 in let call := loop_call m in
  let mg := {| msg_sender := 0x6A; msg_value := 0; self := 0xACC; chainid := 1; timestamp := 0 |} in
  ∃ s1 s2, execute call m 0xACC 0 (addGuardian_call 0x6A) demo_account tt = Ok (s1, tt) ∧
    transferOwnership mg (1, 2) s1 = Ok s2 ∧ pubKey s2 = (1, 2) ∧
    (∃ vd sw, validateUserOp call m demo_userop 99 0 s2 tt = Ok (vd, sw) ∧
       (vd = 0 ↔ ecdsa_valid (webauthn_hash demo_assertion 99) 2 3 1 2)) ∧
    is_ok (transferOwnership mg (3, 4) demo_account) = false.
Proof.
  intros m call mg.
  destruct (guardian_recovery call m 0x6A mg (1, 2) (3, 4) demo_account tt 0x256)
    as (Hno & s1 & H1 & s2 & H2 & Hk & Hval & _);
    [by vm_compute..|].
  exists s1, s2. split; [exact H1|]. split; [exact H2|]. split; [exact Hk|].
  split; [|by rewrite Hno].
  refine (Hval demo_userop 99 0 demo_assertion _ _ demo_verifier).
  - exact (assertion_decode_encode _ demo_assertion_wf).
  - apply (bool_decide_unpack _). by vm_compute.
Defined.
End witness.
