(* ===== verification/P256SmartAccountFactory.v ===== *)
(** The account factory (P256SmartAccountFactory.sol) with Create2 and
    ERC1967Proxy (P256SmartAccountFactory_Flattened.sol): deterministic
    addresses, one proxy per (key, registry, salt).  The proxy's creation code
    is the compiler's, a parameter. *)
From S2P Require Import Prelude Bytes EnclaveRegistry UserOperation AccountBase P256SmartAccount.

Record factory := Factory { factory_address : address; accountImplementation : address }.

(** The accounts that exist, with their storage, and the addresses of other
    contracts. *)
Record world := World { accounts : gmap address P256SmartAccount.state; other_code : gset address }.
Definition code_length_positive (a : address) (w : world) : bool :=
  bool_decide (is_Some (accounts w !! a) ∨ a ∈ other_code w).

Section factory.
Context `{EvmCrypto} (creationCode : bytes).

(** Create2.computeAddress: keccak256(0xff ++ deployer ++ salt ++ hash), low
    160 bits; it is also where the CREATE2 instruction deploys. *)
Definition create2_preimage (salt bytecodeHash : Z) (deployer : address) : bytes :=
  [0xff] ++ be_bytes 20 deployer ++ word salt ++ word bytecodeHash.
Definition computeAddress (salt bytecodeHash : Z) (deployer : address) : address :=
  keccak256 (create2_preimage salt bytecodeHash deployer) mod 2 ^ 160.

(** abi.encodeCall(P256SmartAccount.initialize, (_pubkey, enclaveRegistry)) *)
Definition initialize_call (_pubkey : Z * Z) (enclaveRegistry : address) : bytes :=
  selector "initialize(uint256[2],address)" ++ abi_words [_pubkey.1; _pubkey.2; enclaveRegistry].
(** The proxy's creation code and its constructor arguments (address, bytes). *)
Definition init_code (impl : address) (data : bytes) : bytes :=
  creationCode ++ abi_words [impl; 64] ++ abi_tail data.

Definition getAccountAddress (f : factory) (_pubkey : Z * Z) (enclaveRegistry : address) (salt : Z) : address :=
  computeAddress salt (keccak256 (init_code (accountImplementation f) (initialize_call _pubkey enclaveRegistry)))
    (factory_address f).

(** [new ERC1967Proxy{salt: salt}(impl, initialize(k, r))]: fails when the
    address is taken; the constructor sets the implementation, which must have
    code, and runs [initialize] on the proxy's storage before the proxy has
    code of its own. *)
Definition new_proxy (f : factory) (impl : address) (k : Z * Z) (r : address) (salt : Z) (w : world)
    : res (address * world) :=
  let a := computeAddress salt (keccak256 (init_code impl (initialize_call k r))) (factory_address f) in
  _ ← require_ (negb (code_length_positive a w));
  _ ← require (code_length_positive impl w) "ERC1967: new implementation is not a contract";
  s ← created impl k r;
  Ok (a, World (<[a := s]> (accounts w)) (other_code w)).

Definition createAccount (f : factory) (_pubkey : Z * Z) (enclaveRegistry : address) (salt : Z) (w : world)
    : res (address * world) :=
  let addr := getAccountAddress f _pubkey enclaveRegistry salt in
  if code_length_positive addr w then Ok (addr, w)
  else new_proxy f (accountImplementation f) _pubkey enclaveRegistry salt w.

Lemma created_state impl k r :
  created impl k r = Ok (P256SmartAccount.State [] ∅ r k 1 false impl).
Proof. done. Qed.

Lemma createAccount_cases f k r salt w :
  createAccount f k r salt w =
    let a := getAccountAddress f k r salt in
    if code_length_positive a w then Ok (a, w)
    else if code_length_positive (accountImplementation f) w then
      Ok (a, World (<[a := P256SmartAccount.State [] ∅ r k 1 false (accountImplementation f)]> (accounts w)) (other_code w))
    else Revert (Error "ERC1967: new implementation is not a contract").
Proof.
  unfold createAccount, new_proxy. cbv zeta.
  destruct (code_length_positive (getAccountAddress f k r salt) w) eqn:E; [done|].
  change (computeAddress _ _ _) with (getAccountAddress f k r salt).
  rewrite E. cbn [negb require_]. rewrite Ok_bind.
  by destruct (code_length_positive (accountImplementation f) w).
Qed.

(** C25: createAccount is idempotent and lands on the predicted address: it
    returns getAccountAddress, where afterwards there is code; when the address
    was free it is now an account with exactly the given key and registry,
    already initialized, no guardian, and running the factory's implementation;
    calling it again, by anyone, returns the same address and changes nothing;
    no other account is touched. *)
Theorem createAccount_idempotent (f : factory) (k : Z * Z) (r : address) (salt : Z) (w w' : world) (a : address) :
  createAccount f k r salt w = Ok (a, w') →
  a = getAccountAddress f k r salt ∧ code_length_positive a w' = true ∧
  createAccount f k r salt w' = Ok (a, w') ∧
  (∀ b, b ≠ a → accounts w' !! b = accounts w !! b) ∧
  (code_length_positive a w = false →
     accounts w' !! a = Some (P256SmartAccount.State [] ∅ r k 1 false (accountImplementation f))).
Proof.
  rewrite !createAccount_cases. cbv zeta. set (addr := getAccountAddress f k r salt).
  destruct (code_length_positive addr w) eqn:Ec.
  - intros [= <- <-]. rewrite Ec. split_and!; try done.
  - destruct (code_length_positive (accountImplementation f) w) eqn:Ei; [|done]. intros [= <- <-].
    set (w' := World _ _).
    assert (code_length_positive addr w' = true) as Ec'.
    { apply bool_decide_eq_true_2. left. subst w'. cbn. rewrite lookup_insert_eq. eauto. }
    rewrite Ec'. split_and!; try done; intros; subst w'; cbn; [by rewrite lookup_insert_ne|by rewrite lookup_insert_eq].
Qed.

Lemma create2_preimage_inj salt salt' bh bh' d :
  u256 salt → u256 salt' → u256 bh → u256 bh' →
  create2_preimage salt bh d = create2_preimage salt' bh' d → salt = salt' ∧ bh = bh'.
Proof.
  intros Hs Hs' Hb Hb' Ep. apply app_inv_head, app_inv_head in Ep.
  apply app_inj_1 in Ep as [Es Eb]; [|by rewrite !length_word].
  by apply word_inj in Es, Eb.
Qed.

Lemma init_code_inj impl (k k' : Z * Z) (r r' : address) :
  u256 k.1 → u256 k.2 → u256 k'.1 → u256 k'.2 → u256 r → u256 r' →
  init_code impl (initialize_call k r) = init_code impl (initialize_call k' r') → k = k' ∧ r = r'.
Proof.
  intros Hk1 Hk2 Hk1' Hk2' Hr Hr' Ed. unfold init_code in Ed. do 2 apply app_inv_head in Ed.
  apply abi_tail_inj in Ed.
  2, 3: unfold initialize_call; rewrite length_app, length_abi_words; unfold selector;
    rewrite length_take, length_word; by vm_compute.
  unfold initialize_call in Ed. apply app_inv_head, abi_words_inj in Ed.
  - destruct k, k'. by simplify_eq/=.
  - by rewrite !Forall_cons, Forall_nil.
  - by rewrite !Forall_cons, Forall_nil.
Qed.

(** C26: Addresses identify accounts: two parameter sets with the same predicted
    address are equal, or the proxy creation codes of the two are a keccak256
    collision, or the two strings CREATE2 hashes (factory, salt and hash of the
    creation code) collide on the low 160 bits of keccak256. *)
Theorem account_address_binding (f : factory) (k k' : Z * Z) (r r' : address) (salt salt' : Z) :
  u256 salt → u256 salt' → u256 k.1 → u256 k.2 → u256 k'.1 → u256 k'.2 → u256 r → u256 r' →
  getAccountAddress f k r salt = getAccountAddress f k' r' salt' →
  let d := init_code (accountImplementation f) (initialize_call k r) in
  let d' := init_code (accountImplementation f) (initialize_call k' r') in
  let p := create2_preimage salt (keccak256 d) (factory_address f) in
  let p' := create2_preimage salt' (keccak256 d') (factory_address f) in
  (k = k' ∧ r = r' ∧ salt = salt') ∨
  (d ≠ d' ∧ keccak256 d = keccak256 d') ∨
  (p ≠ p' ∧ keccak256 p mod 2 ^ 160 = keccak256 p' mod 2 ^ 160).
Proof.
  intros Hs Hs' Hk1 Hk2 Hk1' Hk2' Hr Hr' E d d' p p'. change (keccak256 p mod 2 ^ 160 = keccak256 p' mod 2 ^ 160) in E.
  destruct (decide (p = p')) as [Ep|]; [|by do 2 right].
  apply create2_preimage_inj in Ep as [Esalt Ehash]; [|done|done|apply keccak256_range..].
  destruct (decide (d = d')) as [Ed|]; [left|by right; left].
  by destruct (init_code_inj _ _ _ _ _ Hk1 Hk2 Hk1' Hk2' Hr Hr' Ed) as [-> ->].
Qed.
End factory.

(** ** Concrete runs *)

Definition demo_factory : factory := Factory 0xFAC 0x1111.
Definition demo_world : world := World ∅ {[ 0x1111 ]}.
Definition demo_address : address :=
  @getAccountAddress sample_crypto [1; 2; 3] demo_factory (7, 8) 0x4E9 0.
Lemma createAccount_idempotent_witness :
  let w' := World {[ demo_address := P256SmartAccount.State [] ∅ 0x4E9 (7, 8) 1 false 0x1111 ]} {[ 0x1111 ]} in
  @createAccount sample_crypto [1; 2; 3] demo_factory (7, 8) 0x4E9 0 demo_world = Ok (demo_address, w') ∧
  @createAccount sample_crypto [1; 2; 3] demo_factory (7, 8) 0x4E9 0 w' = Ok (demo_address, w').
Proof.
  cbv zeta. set (w' := World _ _).
  assert (@createAccount sample_crypto [1; 2; 3] demo_factory (7, 8) 0x4E9 0 demo_world = Ok (demo_address, w')) as E
    by (by vm_compute).
  split; [exact E|]. exact (proj1 (proj2 (proj2 (@createAccount_idempotent sample_crypto [1; 2; 3] _ _ _ _ _ _ _ E)))).
Defined.

(** A hash that collides everywhere. *)
Definition constant_crypto : EvmCrypto :=
  {| keccak256 _ := 0; keccak256_range _ := conj (Z.le_refl 0) eq_refl; ecrecover _ _ _ _ := 0 |}.
Lemma account_address_binding_witness :
  let d := init_code [1; 2; 3] 0x1111 (@initialize_call constant_crypto (1, 2) 5) in
  let d' := init_code [1; 2; 3] 0x1111 (@initialize_call constant_crypto (3, 4) 6) in
  let p := create2_preimage 7 (@keccak256 constant_crypto d) 0xFAC in
  let p' := create2_preimage 8 (@keccak256 constant_crypto d') 0xFAC in
  ((1, 2) = (3, 4) ∧ 5 = 6 ∧ 7 = 8) ∨
  (d ≠ d' ∧ @keccak256 constant_crypto d = @keccak256 constant_crypto d') ∨
  (p ≠ p' ∧ @keccak256 constant_crypto p mod 2 ^ 160 = @keccak256 constant_crypto p' mod 2 ^ 160).
Proof.
  refine (@account_address_binding constant_crypto [1; 2; 3] demo_factory (1, 2) (3, 4) 5 6 7 8 _ _ _ _ _ _ _ _ _);
    by vm_compute.
Defined.
