(* ===== verification/MultichainValidator.v ===== *)
(** The multichain passkey validator
    (contracts/enclave-smart-account/signatureModules/MultichainValidator.sol):
    one passkey signature over the root of a Merkle tree authorises every
    operation in it; and how the verifier contracts' entry points answer the two
    kinds of client that look them up in the registry.

    OpenZeppelin's MerkleProof.verify is not part of the repository: it is a
    parameter. *)
From S2P Require Import Prelude Bytes UserOperation AccountBase P256Verifier P256V P256SmartAccount.

(** ** abi.decode *)

(** A bytes32[] component, its offset in the head word at [pos]. *)
Definition abi_words_at (data : bytes) (pos : nat) : res (list Z) :=
  off ← abi_word_at data pos;
  _ ← require_ (off <? 2 ^ 64);
  _ ← require_ (off + 31 <? Z.of_nat (length data));
  len ← abi_word_at data (Z.to_nat off);
  _ ← (if len <? 2 ^ 64 then Ok tt else Revert (Panic 0x41));
  _ ← require_ (off + 32 + 32 * len <=? Z.of_nat (length data));
  Ok ((λ i, be_val (take 32 (drop (Z.to_nat off + 32 + 32 * i) data))) <$> seq 0 (Z.to_nat len)).

(** [abi.decode(signature, (bytes, address))]; only the first is used. *)
Definition decode_module_signature (data : bytes) : res bytes :=
  _ ← require_ ((64 <=? length data)%nat);
  moduleSignature ← abi_bytes_at data 0;
  _ ← abi_uint_at 160 data 32;
  Ok moduleSignature.

(** [abi.decode(moduleSignature, (uint48, uint48, bytes32, bytes32[], bytes))] *)
Record authorization := Authorization {
  auth_validUntil : Z; auth_validAfter : Z; merkleTreeRoot : Z; merkleProof : list Z; multichainSignature : bytes
}.
Definition decode_authorization (data : bytes) : res authorization :=
  _ ← require_ ((160 <=? length data)%nat);
  vu ← abi_uint_at 48 data 0;
  va ← abi_uint_at 48 data 32;
  root ← abi_word_at data 64;
  proof ← abi_words_at data 96;
  sig ← abi_bytes_at data 128;
  Ok {| auth_validUntil := vu; auth_validAfter := va; merkleTreeRoot := root; merkleProof := proof;
        multichainSignature := sig |}.

(** ** The contract *)

Record state := State { enclaveRegistry : address }.

(** What the validator asks of other contracts. *)
Class ValidatorHost (W : Type) := {
  validator_registry : W → address → string → res address;           (* getRegistryAddress(name) *)
  ecdsa_verify_call : W → address → Z → Z → Z → Z * Z → res bool;    (* P256Verifier(a).ecdsa_verify(h, r, s, key) *)
  pubKey_call : W → address → Z → res Z                              (* P256SmartAccount(a).pubKey(i) *)
}.

Section validator.
Context {W : Type} `{ValidatorHost W} `{Sha256} `{EvmCrypto}.
Variable MerkleProof_verify : list Z → Z → Z → bool.   (* proof, root, leaf *)

Definition op_leaf (validUntil validAfter userOpHash : Z) : Z :=
  keccak256 (be_bytes 6 validUntil ++ be_bytes 6 validAfter ++ word userOpHash).

(** The WebAuthn hash is P256SmartAccount's, of the root instead of the
    operation's hash; the key is the calling account's. *)
Definition _verifySignature (m : msg) (a : assertion) (root : Z) (s : state) (w : W) : res bool :=
  let sigHash := webauthn_hash a root in
  verifier ← validator_registry w (enclaveRegistry s) "p256Verifier";
  x ← pubKey_call w (msg_sender m) 0;
  y ← pubKey_call w (msg_sender m) 1;
  ecdsa_verify_call w verifier sigHash (sig_r a) (sig_s a) (x, y).

Definition validateUserOp (m : msg) (u : UserOperation) (userOpHash : Z) (s : state) (w : W) : res Z :=
  moduleSignature ← decode_module_signature (signature u);
  au ← decode_authorization moduleSignature;
  let leaf := op_leaf (auth_validUntil au) (auth_validAfter au) userOpHash in
  if negb (MerkleProof_verify (merkleProof au) (merkleTreeRoot au) leaf) then Revert (Error "Invalid UserOp")
  else
    a ← abi_decode_assertion (multichainSignature au);
    ok ← _verifySignature m a (merkleTreeRoot au) s w;
    Ok (if (ok : bool) then 0 else 1).

(** The registry's verifier decides ECDSA. *)
Definition verifier_decides (s : state) (w : W) : Prop :=
  ∃ va, validator_registry w (enclaveRegistry s) "p256Verifier" = Ok va ∧
    ∀ h r s' x y, u256 h → u256 r → u256 s' → u256 x → u256 y →
      ∃ v, ecdsa_verify_call w va h r s' (x, y) = Ok v ∧ (v = true ↔ ecdsa_valid h r s' x y).

Lemma abi_bytes_at_bytes data pos bs : is_bytes data → abi_bytes_at data pos = Ok bs → is_bytes bs.
Proof. unfold abi_bytes_at. intros Hb E. inv_res. by apply is_bytes_take, is_bytes_drop. Qed.

(** C24: The multichain validator accepts exactly the operations of a signed
    tree: for an authorization and assertion that decode, validateUserOp reverts
    with "Invalid UserOp" when the leaf of (window, operation hash) is not in the
    tree, and otherwise answers 0 or 1, 0 exactly when the P-256 key of the
    calling account signed the WebAuthn hash of the root.  The operation's hash
    enters only through the leaf. *)
Theorem multichain_accepts_signed_tree m u h s (w : W) ms au a x y :
  is_bytes (signature u) →
  decode_module_signature (signature u) = Ok ms → decode_authorization ms = Ok au →
  abi_decode_assertion (multichainSignature au) = Ok a →
  pubKey_call w (msg_sender m) 0 = Ok x → pubKey_call w (msg_sender m) 1 = Ok y → u256 x → u256 y →
  verifier_decides s w →
  let member := MerkleProof_verify (merkleProof au) (merkleTreeRoot au)
                  (op_leaf (auth_validUntil au) (auth_validAfter au) h) in
  if member
  then ∃ v, validateUserOp m u h s w = Ok v ∧ (v = 0 ∨ v = 1) ∧
         (v = 0 ↔ ecdsa_valid (webauthn_hash a (merkleTreeRoot au)) (sig_r a) (sig_s a) x y)
  else validateUserOp m u h s w = Revert (Error "Invalid UserOp").
Proof.
  intros Hb Hms Hau Ha Hx Hy Rx Ry (va & Hva & Hdec) member.
  assert (is_bytes ms) as Hbm.
  { unfold decode_module_signature in Hms. inv_res. eapply abi_bytes_at_bytes; eauto. }
  assert (is_bytes (multichainSignature au)) as Hbs.
  { unfold decode_authorization in Hau. inv_res. eapply abi_bytes_at_bytes; eauto. }
  destruct (decoded_range _ _ Ha Hbs) as [Hr Hs'].
  unfold validateUserOp. rewrite Hms, Ok_bind, Hau, Ok_bind. cbv zeta. fold member.
  destruct member; cbn [negb]; [|done]. rewrite Ha, Ok_bind. unfold _verifySignature. rewrite Hva, Ok_bind, Hx, Ok_bind, Hy, Ok_bind.
  destruct (Hdec (webauthn_hash a (merkleTreeRoot au)) (sig_r a) (sig_s a) x y) as (v & -> & Hv); [apply sha256_range|done..|].
  rewrite Ok_bind. eexists. split; [done|]. destruct v; naive_solver lia.
Qed.

(** The validity window of an authorization is not enforced: whatever
    validUntil and validAfter the signed leaf holds, an answer of the validator
    parses, as the EntryPoint does it, to a window without bounds. *)
Theorem multichain_window_ignored m u h s (w : W) v :
  validateUserOp m u h s w = Ok v →
  _parseValidationData v = {| aggregator := v; validAfter := 0; validUntil := uint48_max |} ∧
  ∃ ms au, decode_module_signature (signature u) = Ok ms ∧ decode_authorization ms = Ok au ∧
    MerkleProof_verify (merkleProof au) (merkleTreeRoot au)
      (op_leaf (auth_validUntil au) (auth_validAfter au) h) = true.
Proof.
  unfold validateUserOp. intros E. apply bind_Ok in E as (ms & Hms & E). apply bind_Ok in E as (au & Hau & E).
  cbv zeta in E. destruct (MerkleProof_verify _ _ _) eqn:Em; [|done]. cbn [negb] in E.
  apply bind_Ok in E as (a & _ & E). apply bind_Ok in E as (ok & _ & E). injection E as <-.
  split; [by destruct ok|]. eauto.
Qed.
End validator.

(** ** One registry entry, two kinds of client

    P256SmartAccount calls [verify] of the contract registered as p256Verifier,
    the multichain validator [ecdsa_verify]. *)
Section entries.
Context `{EvmCrypto}.

Definition verify_signature : string := "verify(bytes32,uint256,uint256,uint256[2])".
Definition calldata (sig : string) (h r s : Z) (key : Z * Z) : bytes :=
  selector sig ++ abi_words [h; r; s; key.1; key.2].

(** A message to P256V: its function, the getter of [precompile], or a revert. *)
Definition P256V_entry `{StaticCalls} (st : P256V.state) (data : bytes) : res bytes :=
  if calls verify_signature data then
    '(h, r, s, k) ← decode_verify_args (drop 4 data);
    v ← P256V.verify h r s k st;
    Ok (word (b2z v))
  else if calls "precompile()" data then Ok (word (P256V.precompile st))
  else Revert NoData.

Lemma calls_calldata sig sig' h r s k :
  calls sig (calldata sig' h r s k) = bool_decide (selector sig' = selector sig).
Proof.
  unfold calls, calldata. rewrite take_app_length' by (by unfold selector; rewrite length_take, length_word).
  rewrite (proj2 (Nat.leb_le _ _)); [done|]. rewrite length_app. unfold selector. rewrite length_take, length_word. lia.
Qed.

(** C16: No contract of the repository serves both kinds of client of the
    registry's p256Verifier entry.  With P256Verifier registered, as the
    deployment scripts do, P256SmartAccount answers SIG_VALIDATION_FAILED to
    every operation with a decodable signature: [verify] has another selector
    than [ecdsa_verify], and the fallback answers 0 to the 164 bytes of the call.
    With P256V registered, every multichain validation that reaches the verifier
    reverts. *)
Theorem registry_verifier_serves_one_client {W} `{Host W} {V} `{ValidatorHost V} `{StaticCalls} `{Sha256} :
  selector verify_signature ≠ selector ecdsa_verify_signature →
  selector "precompile()" ≠ selector ecdsa_verify_signature →
  (∀ (w : W) va st u h a,
     registry_call w (P256SmartAccount.enclaveRegistry st) "p256Verifier" = Ok va →
     (∀ h r s k, verify_call w va h r s k = P256Verifier_entry (calldata verify_signature h r s k) ≫= abi_decode_bool) →
     abi_decode_assertion (signature u) = Ok a →
     P256SmartAccount._validateSignature u h st w = Ok SIG_VALIDATION_FAILED) ∧
  (∀ (w : V) va st pv m a root,
     validator_registry w (enclaveRegistry st) "p256Verifier" = Ok va →
     (∀ h r s k, ecdsa_verify_call w va h r s k = P256V_entry pv (calldata ecdsa_verify_signature h r s k) ≫= abi_decode_bool) →
     is_ok (_verifySignature m a root st w) = false).
Proof.
  intros Hs1 Hs2. split.
  - intros w va st u h a Hva Hv Ha. unfold P256SmartAccount._validateSignature. rewrite Ha, Ok_bind.
    unfold P256SmartAccount._verifySignature. cbv zeta. rewrite Hva, Ok_bind, Hv. unfold P256Verifier_entry.
    rewrite calls_calldata, bool_decide_false by done. unfold P256Verifier.fallback.
    rewrite (proj2 (Nat.eqb_neq (length _) 160)); cbn [negb].
    + rewrite Ok_bind. change (word 0) with (word (b2z false)). by rewrite abi_decode_bool_word, Ok_bind.
    + unfold calldata, selector. rewrite length_app, length_abi_words, length_take, length_word. cbn. lia.
  - intros w va st pv m a root Hva Hv. unfold _verifySignature. cbv zeta. rewrite Hva, Ok_bind.
    destruct (pubKey_call w (msg_sender m) 0) as [x|]; [|done]. rewrite Ok_bind.
    destruct (pubKey_call w (msg_sender m) 1) as [y|]; [|done]. rewrite Ok_bind, Hv. unfold P256V_entry.
    by rewrite !calls_calldata, !bool_decide_false by congruence.
Qed.
End entries.

(** ** Concrete runs *)
Section witnesses.
#[local] Existing Instance sample_crypto.
#[local] Instance chain_sha256 : Sha256 := {| sha256 bs := be_val bs mod 2 ^ 256; sha256_range := sample_hash_range |}.
(** The verifier contract itself behind the registry's entry. *)
#[local] Instance chain_validator : ValidatorHost unit := {|
  validator_registry _ _ _ := Ok 0x256;
  ecdsa_verify_call _ _ h r s k := P256Verifier.ecdsa_verify h r s k;
  pubKey_call _ _ i := Ok (7 + i)
|}.
(** A tree with one leaf. *)
Definition single_leaf (proof : list Z) (root leaf : Z) : bool := bool_decide (proof = []) && (root =? leaf).

Definition multichain_signature (vu va root : Z) : bytes :=
  let ms := abi_words [vu; va; root; 160; 192; 0] ++ abi_tail (abi_encode_assertion demo_assertion) in
  abi_words [64; 0xBEE] ++ abi_tail ms.
Definition multichain_op (vu va h : Z) : UserOperation := {|
  sender := 0xACC; nonce := 0; initCode := []; callData := []; callGasLimit := 0; verificationGasLimit := 0;
  preVerificationGas := 0; maxFeePerGas := 0; maxPriorityFeePerGas := 0; paymasterAndData := [];
  signature := multichain_signature vu va (op_leaf vu va h) |}.

Definition demo_module : bytes := match decode_module_signature (signature (multichain_op 9 5 77)) with Ok x => x | Revert _ => [] end.
Definition demo_authorization : authorization :=
  match decode_authorization demo_module with Ok x => x | Revert _ => Authorization 0 0 0 [] [] end.
Definition demo_signed : assertion :=
  match abi_decode_assertion (multichainSignature demo_authorization) with Ok x => x | Revert _ => demo_assertion end.

Lemma chain_decides : verifier_decides (State 0x4E9) tt.
Proof. exists 0x256. split; [done|]. intros. cbn. by apply ecdsa_verify_ok. Qed.

Lemma demo_module_decodes : decode_module_signature (signature (multichain_op 9 5 77)) = Ok demo_module.
Proof. by vm_compute. Qed.
Lemma demo_authorization_decodes : decode_authorization demo_module = Ok demo_authorization.
Proof. by vm_compute. Qed.
Lemma demo_signed_decodes : abi_decode_assertion (multichainSignature demo_authorization) = Ok demo_signed.
Proof. by vm_compute. Qed.
Lemma demo_multichain_bytes : is_bytes (signature (multichain_op 9 5 77)).
Proof. apply (bool_decide_unpack _). by vm_compute. Qed.
Definition demo_member (h : Z) : bool :=
  single_leaf (merkleProof demo_authorization) (merkleTreeRoot demo_authorization)
    (op_leaf (auth_validUntil demo_authorization) (auth_validAfter demo_authorization) h).

Lemma demo_members : demo_member 77 = true ∧ demo_member 78 = false.
Proof. split; vm_compute; reflexivity. Qed.
Lemma demo_key : u256 7 ∧ u256 8.
Proof. split; by vm_compute. Qed.

Lemma multichain_accepts_signed_tree_witness :
  (∃ v, validateUserOp single_leaf demo_self (multichain_op 9 5 77) 77 (State 0x4E9) tt = Ok v) ∧
  validateUserOp single_leaf demo_self (multichain_op 9 5 77) 78 (State 0x4E9) tt = Revert (Error "Invalid UserOp").
Proof.
  pose proof (λ h, multichain_accepts_signed_tree single_leaf demo_self (multichain_op 9 5 77) h (State 0x4E9) tt
    demo_module demo_authorization demo_signed 7 8 demo_multichain_bytes demo_module_decodes demo_authorization_decodes
    demo_signed_decodes eq_refl eq_refl (proj1 demo_key) (proj2 demo_key) chain_decides) as T.
  cbv zeta in T. destruct demo_members as [H77 H78]. unfold demo_member in H77, H78. split.
  - specialize (T 77). rewrite H77 in T. destruct T as (v & E & _). exists v. exact E.
  - specialize (T 78). rewrite H78 in T. exact T.
Defined.

(** The leaf's window ended in 1970. *)
Lemma multichain_window_ignored_witness :
  validateUserOp single_leaf demo_self (multichain_op 9 5 77) 77 (State 0x4E9) tt = Ok 1 ∧
  validUntil (_parseValidationData 1) = uint48_max.
Proof.
  assert (validateUserOp single_leaf demo_self (multichain_op 9 5 77) 77 (State 0x4E9) tt = Ok 1) as E
    by (vm_compute; reflexivity).
  split; [exact E|]. rewrite (proj1 (multichain_window_ignored single_leaf demo_self _ 77 (State 0x4E9) tt 1 E)).
  reflexivity.
Defined.
End witnesses.

Section registry_witness.
(** A hash under which the functions' selectors differ, as keccak256's do. *)
Lemma head_hash_range bs : u256 (be_val (take 32 bs) mod 2 ^ 256).
Proof. apply Z.mod_pos_bound. done. Qed.
#[local] Instance head_crypto : EvmCrypto := {|
  keccak256 bs := be_val (take 32 bs) mod 2 ^ 256; keccak256_range := head_hash_range; ecrecover _ _ r _ := r mod 2 ^ 160 |}.
#[local] Instance head_sha256 : Sha256 := {| sha256 bs := be_val (take 32 bs) mod 2 ^ 256; sha256_range := head_hash_range |}.
(** P256Verifier registered as p256Verifier. *)
#[local] Instance raw_host : Host unit := {|
  registry_call _ _ _ := Ok 0x256;
  verify_call _ _ h r s k := P256Verifier_entry (calldata verify_signature h r s k) ≫= abi_decode_bool;
  uint_call _ _ _ := Ok 0; has_code _ _ := true; uuid_call _ _ := Revert NoData |}.
(** P256V registered as p256Verifier. *)
#[local] Instance wrapped_host : ValidatorHost unit := {|
  validator_registry _ _ _ := Ok 0x256;
  ecdsa_verify_call _ _ h r s k :=
    @P256V_entry head_crypto (@verifier_chain head_crypto) (P256V.State 0x100) (calldata ecdsa_verify_signature h r s k) ≫= abi_decode_bool;
  pubKey_call _ _ i := Ok (7 + i) |}.

Lemma registry_verifier_serves_one_client_witness :
  P256SmartAccount._validateSignature demo_userop 99 demo_account tt = Ok SIG_VALIDATION_FAILED ∧
  is_ok (_verifySignature demo_self demo_assertion 5 (State 0x4E9) tt) = false.
Proof.
  assert (abi_decode_assertion (signature demo_userop) = Ok demo_assertion) as Ha by (vm_compute; reflexivity).
  destruct (@registry_verifier_serves_one_client head_crypto unit raw_host unit wrapped_host (@verifier_chain head_crypto) head_sha256)
    as [T1 T2]; [by vm_compute|by vm_compute|]. split.
  - exact (T1 tt 0x256 demo_account demo_userop 99 demo_assertion eq_refl (λ _ _ _ _, eq_refl) Ha).
  - exact (T2 tt 0x256 (State 0x4E9) (P256V.State 0x100) demo_self demo_assertion 5 eq_refl (λ _ _ _ _, eq_refl)).
Defined.
End registry_witness.
