(* ===== verification/SmartAccount.v ===== *)
(** The EOA-owned account and its factory
    (contracts/enclave-smart-balance/eoa-account/SmartAccount.sol and
    SmartAccountFactory.sol) over BaseAccount, Initializable and UUPSUpgradeable.
    An operation is accepted when the owner's ECDSA key signed its hash.  The
    token callbacks it inherits (TokenCallbackHandler of account-abstraction's
    samples) are not part of the repository and answer constants. *)
From S2P Require Import Prelude Bytes UserOperation AccountBase P256SmartAccount P256SmartAccountFactory.

Module SmartAccount.
Record state := State {
  owner : address;
  entrypoint : address;
  _initialized : Z;               (* uint8 *)
  _initializing : bool;
  implementation : address        (* the ERC-1967 slot *)
}.
Definition blank : state := State 0 0 0 false 0.
Definition set_init (v : Z) (b : bool) (s : state) : state := State (owner s) (entrypoint s) v b (implementation s).

Definition initializer : bool → (state → res state) → state → res state :=
  initializer_of (λ s, (_initialized s, _initializing s)) set_init.
Definition _initialize (anOwner _entrypoint : address) (s : state) : res state :=
  Ok (State anOwner _entrypoint (_initialized s) (_initializing s) (implementation s)).
Definition initialize (deployed_code : bool) (anOwner _entryPoint : address) : state → res state :=
  initializer deployed_code (_initialize anOwner _entryPoint).

Definition entryPoint (s : state) : address := entrypoint s.
Definition _onlyOwner (m : msg) (s : state) : res unit :=
  require (addr_eqb (msg_sender m) (owner s) || addr_eqb (msg_sender m) (self m)) "only owner".
(** Unlike [_onlyOwner], not through the account itself. *)
Definition _requireFromEntryPointOrOwner (m : msg) (s : state) : res unit :=
  require (addr_eqb (msg_sender m) (entryPoint s) || addr_eqb (msg_sender m) (owner s)) "account: not Owner or EntryPoint".
(** Declared and never called. *)
Definition _requireFromOwnerOrGaurdian (m : msg) (s : state) : res unit :=
  require (addr_eqb (msg_sender m) (owner s) || addr_eqb (msg_sender m) (self m)) "account: Not Owner ot guardian".
Definition _requireFromEntryPoint (m : msg) (s : state) : res unit :=
  require (addr_eqb (msg_sender m) (entryPoint s)) "account: not from EntryPoint".
Definition _authorizeUpgrade (m : msg) (newImplementation : address) (s : state) : res unit := _onlyOwner m s.

Section account.
Context {W : Type} `{Host W} `{EvmCrypto}.
Variable call : address → Z → bytes → state → W → bool * bytes * state * W.

Definition _validateSignature (u : UserOperation) (userOpHash : Z) (s : state) : res Z :=
  let hash := ECDSA.toEthSignedMessageHash userOpHash in
  recovered ← ECDSA.recover hash (signature u);
  Ok (if negb (addr_eqb (owner s) recovered) then SIG_VALIDATION_FAILED else 0).

Definition execute (m : msg) (dest : address) (value : Z) (func : bytes) (s : state) (w : W) : res (state * W) :=
  _ ← _requireFromEntryPointOrOwner m s;
  _call call dest value func s w.
Definition executeBatch (m : msg) (dest : list address) (value : list Z) (func : list bytes)
    (s : state) (w : W) : res (state * W) :=
  _ ← _requireFromEntryPointOrOwner m s;
  execute_batch call dest value func s w.

Definition validateUserOp (m : msg) (u : UserOperation) (userOpHash missingAccountFunds : Z)
    (s : state) (w : W) : res (Z * (state * W)) :=
  _ ← _requireFromEntryPoint m s;
  validationData ← _validateSignature u userOpHash s;
  Ok (validationData, _payPrefund call m missingAccountFunds s w).

Definition getNonce (m : msg) (s : state) (w : W) : res Z :=
  uint_call w (entryPoint s) (selector "getNonce(address,uint192)" ++ abi_words [self m; 0]).
Definition getDeposit (m : msg) (s : state) (w : W) : res Z :=
  uint_call w (entryPoint s) (selector "balanceOf(address)" ++ abi_words [self m]).
Definition addDeposit (m : msg) (s : state) (w : W) : res (state * W) :=
  _call_contract call (entryPoint s) (msg_value m) (selector "depositTo(address)" ++ abi_words [self m]) s w.
Definition withdrawDepositTo (m : msg) (withdrawAddress : address) (amount : Z) (s : state) (w : W) : res (state * W) :=
  _ ← _onlyOwner m s;
  _call_contract call (entryPoint s) 0 (selector "withdrawTo(address,uint256)" ++ abi_words [withdrawAddress; amount]) s w.

Definition upgradeTo (m : msg) (impl newImplementation : address) (s : state) (w : W) : res state :=
  _ ← upgrade_checks m impl (implementation s) newImplementation (_authorizeUpgrade m newImplementation s) w;
  Ok (State (owner s) (entrypoint s) (_initialized s) (_initializing s) newImplementation).

(** [Address.functionDelegateCall]: another contract's code on this storage. *)
Variable delegatecall : address → bytes → state → W → bool * bytes * state * W.
Definition upgradeToAndCall (m : msg) (impl newImplementation : address) (data : bytes) (s : state) (w : W)
    : res (state * W) :=
  s ← upgradeTo m impl newImplementation s w;
  let '(success, result, s', w') := delegatecall newImplementation data s w in
  if (success : bool) then Ok (s', w') else Revert (Bubble result).

(** ** The external interface *)
Inductive ext_call :=
  | Receive
  | Execute (dest : address) (value : Z) (func : bytes)
  | ExecuteBatch (dest : list address) (value : list Z) (func : list bytes)
  | Initialize (anOwner _entryPoint : address)
  | ValidateUserOp (u : UserOperation) (userOpHash missingAccountFunds : Z)
  | AddDeposit
  | WithdrawDepositTo (withdrawAddress : address) (amount : Z)
  | UpgradeTo (newImplementation : address)
  | UpgradeToAndCall (newImplementation : address) (data : bytes).

Definition handle (impl : address) (m : msg) (c : ext_call) (s : state) (w : W) : res (state * W) :=
  match c with
  | Receive => Ok (s, w)
  | Execute dest value func => execute m dest value func s w
  | ExecuteBatch dest value func => executeBatch m dest value func s w
  | Initialize o e => s ← initialize true o e s; Ok (s, w)
  | ValidateUserOp u h f => snd <$> validateUserOp m u h f s w
  | AddDeposit => addDeposit m s w
  | WithdrawDepositTo a n => withdrawDepositTo m a n s w
  | UpgradeTo n => s ← upgradeTo m impl n s w; Ok (s, w)
  | UpgradeToAndCall n d => upgradeToAndCall m impl n d s w
  end.

(** Every call the account makes for a stranger is the deposit to its EntryPoint. *)
Definition deposit_passive (m : msg) (s : state) (w : W) : Prop :=
  ∀ v, (call (entryPoint s) v (selector "depositTo(address)" ++ abi_words [self m]) s w).1.2 = s.

Lemma stranger_not_owner m s :
  msg_sender m ≠ owner s → msg_sender m ≠ self m → _onlyOwner m s = Revert (Error "only owner").
Proof. intros Ho Hs. unfold _onlyOwner, addr_eqb. by rewrite !(proj2 (Z.eqb_neq _ _)). Qed.

Lemma upgradeTo_stranger m impl n s w x :
  msg_sender m ≠ owner s → msg_sender m ≠ self m → upgradeTo m impl n s w ≠ Ok x.
Proof.
  intros Ho Hs E. unfold upgradeTo, _authorizeUpgrade in E. rewrite stranger_not_owner in E by done.
  apply bind_Ok in E as (? & E & _).
  pose proof (upgrade_unauthorized m impl (implementation s) n (Error "only owner") w) as Hn. by rewrite E in Hn.
Qed.

Lemma stranger_guard {B} m s (f : unit → res B) x :
  msg_sender m ≠ owner s → msg_sender m ≠ entryPoint s → (_requireFromEntryPointOrOwner m s ≫= f) ≠ Ok x.
Proof. intros Ho He. unfold _requireFromEntryPointOrOwner, addr_eqb. by rewrite !(proj2 (Z.eqb_neq _ _)). Qed.
End account.
End SmartAccount.
Import SmartAccount.

(** The EOA account obeys its owner only: once initialized, a call by an
    address that is not the owner, the EntryPoint or the account itself reverts
    or leaves the account's state as it was, whatever function is called. *)
Theorem eoa_strangers_change_nothing {W} `{Host W} `{EvmCrypto} call delegatecall
    (impl : address) (m : msg) (c : ext_call) (s : SmartAccount.state) (w : W) s' w' :
  SmartAccount._initialized s = 1 → SmartAccount._initializing s = false → SmartAccount.deposit_passive call m s w →
  msg_sender m ≠ owner s → msg_sender m ≠ SmartAccount.entryPoint s → msg_sender m ≠ self m →
  SmartAccount.handle call delegatecall impl m c s w = Ok (s', w') → s' = s.
Proof.
  intros Hi Hj Hdep Ho He Hs E. destruct c; cbn [SmartAccount.handle] in E.
  - by inv_res.
  - by apply stranger_guard in E.
  - by apply stranger_guard in E.
  - unfold SmartAccount.initialize, SmartAccount.initializer in E.
    by rewrite initializer_of_initialized in E by (by rewrite Hi, Hj).
  - unfold SmartAccount.validateUserOp, SmartAccount._requireFromEntryPoint, addr_eqb in E.
    by rewrite (proj2 (Z.eqb_neq _ _) He) in E.
  - unfold SmartAccount.addDeposit, _call_contract, _call in E. inv_res. specialize (Hdep (msg_value m)).
    destruct (call _ _ _ _ _) as [[[[] ?] ?] ?]; [|done]. by inv_res.
  - unfold SmartAccount.withdrawDepositTo in E. by rewrite stranger_not_owner in E.
  - apply bind_Ok in E as (? & E & _). by apply upgradeTo_stranger in E.
  - apply bind_Ok in E as (? & E & _). by apply upgradeTo_stranger in E.
Qed.

(** C27: The EOA account accepts exactly its owner's signatures: for the
    EntryPoint, validateUserOp answers 0 iff the 65-byte signature recovers, on
    the prefixed hash of userOpHash, to the owner; it answers
    SIG_VALIDATION_FAILED iff it recovers to another address; and it reverts with
    ECDSA's message iff nothing is recovered.  A zero owner can sign nothing. *)
Theorem eoa_accepts_exactly_owner {W} `{Host W} `{EvmCrypto} call
    (m : msg) (u : UserOperation) (h funds : Z) (s : SmartAccount.state) (w : W) :
  msg_sender m = SmartAccount.entryPoint s →
  let recovered := ECDSA.recover (ECDSA.toEthSignedMessageHash h) (signature u) in
  let validated := fst <$> SmartAccount.validateUserOp call m u h funds s w in
  (validated = Ok 0 ↔ recovered = Ok (owner s)) ∧
  (validated = Ok SIG_VALIDATION_FAILED ↔ ∃ a, recovered = Ok a ∧ a ≠ owner s) ∧
  (∀ r, validated = Revert r ↔ recovered = Revert r) ∧
  (validated = Ok 0 → owner s ≠ zero_address ∧ length (signature u) = 65%nat).
Proof.
  intros Hm recovered validated.
  assert (validated = (λ a, if negb (addr_eqb (owner s) a) then SIG_VALIDATION_FAILED else 0) <$> recovered) as E.
  { subst validated. unfold SmartAccount.validateUserOp, SmartAccount._requireFromEntryPoint, addr_eqb.
    rewrite Hm, Z.eqb_refl. cbn [require]. rewrite Ok_bind. unfold SmartAccount._validateSignature. fold recovered.
    by destruct recovered. }
  clearbody validated. subst validated.
  assert ((λ a, if negb (addr_eqb (owner s) a) then SIG_VALIDATION_FAILED else 0) <$> recovered = Ok 0 ↔
          recovered = Ok (owner s)) as H1.
  { destruct recovered as [a|r]; cbn; [|done]. unfold addr_eqb. destruct (Z.eqb_spec (owner s) a); cbn; naive_solver. }
  split_and!; [exact H1| | |].
  - destruct recovered as [a|r]; cbn; [|naive_solver]. unfold addr_eqb. destruct (Z.eqb_spec (owner s) a); cbn; naive_solver.
  - intros r. destruct recovered; cbn; naive_solver.
  - intros E%H1. by apply ECDSA.recover_Ok in E as (? & ? & _).
Qed.

(** executeBatch of the EOA account runs its calls in order, all or none. *)
Lemma eoa_executeBatch_refines {W} call m dest value func (s : SmartAccount.state) (w : W) :
  SmartAccount.executeBatch call m dest value func s w =
    (_ ← SmartAccount._requireFromEntryPointOrOwner m s;
     if bool_decide (length func = length dest ∧ (value = [] ∨ length value = length dest))
     then run_calls call (batch dest value func) s w
     else Revert (Error "wrong array lengths")).
Proof.
  unfold SmartAccount.executeBatch. destruct (SmartAccount._requireFromEntryPointOrOwner m s) as [[]|]; [|done].
  rewrite !Ok_bind. apply execute_batch_runs.
Qed.

(** ** SmartAccountFactory.sol *)
Module SmartAccountFactory.
Inductive event := AccountCreated (scwAddress ownerAddress : address).
(** The accounts that exist, the addresses of other contracts, the log. *)
Record world := World {
  accounts : gmap address SmartAccount.state; other_code : gset address; log : list event }.
Definition code_length_positive (a : address) (w : world) : bool :=
  bool_decide (is_Some (accounts w !! a) ∨ a ∈ other_code w).

Section factory.
Context `{EvmCrypto} (creationCode : bytes).

(** abi.encodeCall(SmartAccount.initialize, (owner, entrypoint)) *)
Definition initialize_call (owner entrypoint : address) : bytes :=
  selector "initialize(address,address)" ++ abi_words [owner; entrypoint].
Definition getAccountAddress (f : factory) (owner entrypoint : address) (salt : Z) : address :=
  computeAddress salt (keccak256 (init_code creationCode (accountImplementation f) (initialize_call owner entrypoint)))
    (factory_address f).

(** [new ERC1967Proxy{salt: salt}(impl, initialize(owner, entrypoint))], at the
    address CREATE2 gives; see [P256SmartAccountFactory.new_proxy]. *)
Definition new_proxy (f : factory) (impl owner entrypoint : address) (salt : Z) (w : world) : res (address * world) :=
  let a := computeAddress salt (keccak256 (init_code creationCode impl (initialize_call owner entrypoint)))
             (factory_address f) in
  _ ← require_ (negb (code_length_positive a w));
  _ ← require (code_length_positive impl w) "ERC1967: new implementation is not a contract";
  s ← SmartAccount.initialize false owner entrypoint (State 0 0 0 false impl);
  Ok (a, World (<[a := s]> (accounts w)) (other_code w) (log w)).

Definition createAccount (f : factory) (owner entrypoint : address) (salt : Z) (w : world) : res (address * world) :=
  let addr := getAccountAddress f owner entrypoint salt in
  if code_length_positive addr w then Ok (addr, w)
  else
    '(ret, w) ← new_proxy f (accountImplementation f) owner entrypoint salt w;
    Ok (ret, World (accounts w) (other_code w) (log w ++ [AccountCreated addr owner])).
End factory.
End SmartAccountFactory.

(** The EOA factory lands on the predicted address and creates once: when
    the implementation is deployed, createAccount returns getAccountAddress; on
    a free address the account there is initialized with the given owner and
    entry point, one AccountCreated event names it, and a second call returns
    the same address and changes nothing, not even the log. *)
Theorem eoa_createAccount_once `{EvmCrypto} creationCode (f : factory) (o e : address) (salt : Z)
    (w : SmartAccountFactory.world) :
  SmartAccountFactory.code_length_positive (accountImplementation f) w = true →
  let a := SmartAccountFactory.getAccountAddress creationCode f o e salt in
  ∃ w', SmartAccountFactory.createAccount creationCode f o e salt w = Ok (a, w') ∧
    SmartAccountFactory.createAccount creationCode f o e salt w' = Ok (a, w') ∧
    (∀ b, b ≠ a → SmartAccountFactory.accounts w' !! b = SmartAccountFactory.accounts w !! b) ∧
    if SmartAccountFactory.code_length_positive a w then w' = w
    else SmartAccountFactory.accounts w' !! a = Some (State o e 1 false (accountImplementation f)) ∧
         SmartAccountFactory.log w' = SmartAccountFactory.log w ++ [SmartAccountFactory.AccountCreated a o].
Proof.
  intros Hi a. unfold SmartAccountFactory.createAccount. cbv zeta. fold a.
  destruct (SmartAccountFactory.code_length_positive a w) eqn:Ec.
  - exists w. by rewrite Ec.
  - unfold SmartAccountFactory.new_proxy. cbv zeta.
    change (computeAddress _ _ _) with a. rewrite Ec, Hi. cbn [negb require_ require]. rewrite !Ok_bind.
    change (SmartAccount.initialize _ _ _ _) with (Ok (State o e 1 false (accountImplementation f))). rewrite !Ok_bind.
    eexists. split; [reflexivity|]. set (w' := SmartAccountFactory.World _ _ _).
    assert (SmartAccountFactory.code_length_positive a w' = true) as Ec'.
    { apply bool_decide_eq_true_2. left. subst w'. cbn. rewrite lookup_insert_eq. eauto. }
    rewrite Ec'. subst w'. cbn. split_and!; try done; [intros; by rewrite lookup_insert_ne|by rewrite lookup_insert_eq].
Qed.

(** ** Concrete runs *)
Section witnesses.
#[local] Existing Instance sample_crypto.
#[local] Instance eoa_host : Host unit := {|
  registry_call _ _ _ := Revert NoData; verify_call _ _ _ _ _ _ := Revert NoData; uint_call _ _ _ := Ok 0;
  has_code _ _ := true; uuid_call _ _ := Ok _IMPLEMENTATION_SLOT
|}.
Definition eoa_call : address → Z → bytes → SmartAccount.state → unit → bool * bytes * SmartAccount.state * unit :=
  λ _ _ _ s w, (true, [], s, w).
Definition eoa_account : SmartAccount.state := State 0xD02F 0xE9 1 false 0x1111.
Definition eoa_msg (a : address) : msg :=
  {| msg_sender := a; msg_value := 0; self := 0xACC; chainid := 1; timestamp := 0 |}.
Definition eoa_op (sig : bytes) : UserOperation := {|
  sender := 0xACC; nonce := 0; initCode := []; callData := []; callGasLimit := 0; verificationGasLimit := 0;
  preVerificationGas := 0; maxFeePerGas := 0; maxPriorityFeePerGas := 0; paymasterAndData := []; signature := sig |}.

(** Anyone can add to the deposit; the account stays as it was. *)
Lemma eoa_strangers_change_nothing_witness :
  SmartAccount.handle eoa_call (λ _ _ s w, (true, [], s, w)) 0x1111 (eoa_msg 0xBAD) (SmartAccount.Execute 1 2 []) eoa_account tt
    = Revert (Error "account: not Owner or EntryPoint") ∧
  ∀ s' w', SmartAccount.handle eoa_call (λ _ _ s w, (true, [], s, w)) 0x1111 (eoa_msg 0xBAD) SmartAccount.AddDeposit
    eoa_account tt = Ok (s', w') → s' = eoa_account.
Proof.
  split; [by vm_compute|]. intros s' w'.
  apply (eoa_strangers_change_nothing eoa_call (λ _ _ s w, (true, [], s, w)) 0x1111 (eoa_msg 0xBAD)
    SmartAccount.AddDeposit eoa_account tt); done.
Defined.

Lemma eoa_accepts_exactly_owner_witness :
  fst <$> SmartAccount.validateUserOp eoa_call (eoa_msg 0xE9) (eoa_op (word 0xD02F ++ word 1 ++ [27])) 77 0 eoa_account tt = Ok 0.
Proof.
  apply (eoa_accepts_exactly_owner eoa_call (eoa_msg 0xE9) (eoa_op (word 0xD02F ++ word 1 ++ [27])) 77 0 eoa_account tt);
    by vm_compute.
Defined.

Lemma eoa_createAccount_once_witness :
  let w := SmartAccountFactory.World ∅ {[ 0x1111 ]} [] in
  ∃ w', SmartAccountFactory.createAccount [1; 2; 3] (Factory 0xFAC 0x1111) 5 0xE9 0 w
    = Ok (SmartAccountFactory.getAccountAddress [1; 2; 3] (Factory 0xFAC 0x1111) 5 0xE9 0, w').
Proof.
  intros w. destruct (eoa_createAccount_once [1; 2; 3] (Factory 0xFAC 0x1111) 5 0xE9 0 w) as (w' & E & _).
  - by vm_compute.
  - by exists w'.
Defined.
End witnesses.
