(* ===== verification/Ethers.v ===== *)
(** The scripting layer of the deployment scripts (scripts/**/*.ts).

    A script is an async JavaScript function that awaits calls of hardhat's
    [ethers]; each awaited call either resolves to a value or rejects with an
    error.  Here a script is a value of the free monad [script] over the calls
    [op] the scripts make, so that it can be run against any environment that
    answers the calls.  hardhat, ethers and the chain are not part of the
    repository: the environment is the class [HardhatEnv], an argument. *)
From S2P Require Import Prelude Bytes UserOperation.

(** Values a script passes to contracts or prints.  A hexadecimal address
    literal is [JAddr]; a string that is not one is [JStr]. *)
Inductive jsval :=
  | JUndefined
  | JNull
  | JBool (b : bool)
  | JNum (z : Z)
  | JStr (s : string)
  | JAddr (a : address)
  | JBytes (bs : bytes)
  | JArr (l : list jsval)
  | JObj (fields : list (string * jsval))
  | JUserOp (u : UserOperation).

Inductive jserror :=
  | TypeError                        (* property of undefined *)
  | JSError (msg : string)           (* throw new Error(msg) *)
  | Rejected (msg : string).         (* an awaited ethers call rejected *)

(** A contract handle: the artifact whose ABI it uses, and [target]. *)
Record contract := Contract { artifact : string; target : address }.
Record factory := Factory { factory_artifact : string }.

(** [factory.attach(addr)] and [new ethers.Contract(addr, abi, signer)]. *)
Definition attach (f : factory) (a : address) : contract := Contract (factory_artifact f) a.

(** [ethers.provider] and [ethers.getDefaultProvider(url)]. *)
Inductive provider := HardhatProvider | DefaultProvider (url : string).

Inductive op : Set → Type :=
  | GetSigners : op (list address)
  | ProviderGetSigner : op address
  | GetContractFactory (name : string) : op factory
  | GetContractAt (name : string) (a : address) : op contract
  | Deploy (f : factory) (args : list jsval) : op contract
  | WaitForDeployment (c : contract) : op unit
  | Send (c : contract) (method : string) (args : list jsval) (value : Z) : op Z   (* transaction hash *)
  | Wait (tx : Z) : op unit
  | Call (c : contract) (method : string) (args : list jsval) : op jsval
  | SendTransaction (from : address) (to : address) (value : Z) : op Z
  | GetBalance (a : address) : op Z
  | FormatEther (wei : Z) : op string
  | GetTransactionCount (a : address) : op Z
  | CreateRandomWallet : op (address * Z)
  | DateNow : op Z                                   (* milliseconds *)
  | Sha256 (bs : bytes) : op bytes
  | GetLatestBlock (p : provider) : op (option Z)    (* its baseFeePerGas *)
  | EstimateGas (p : provider) (from to : address) (data : bytes) : op Z
  | SignMessage (signer : address) (message : bytes) : op bytes
  | P256RandomPrivateKey : op bytes
  | P256GetPublicKey (privKey : bytes) : op bytes
  | P256Sign (message privKey : bytes) : op (Z * Z)  (* r, s *)
  | P256Verify (sig : Z * Z) (message pubKey : bytes) : op bool
  | EcGetPublicHex (pubKey : bytes) : op (list Ascii.ascii)  (* elliptic: uncompressed point, in hex *)
  | HttpPost (url : string) (body : jsval) : op (option (Z * Z * Z))  (* data.result: the three gas limits *)
  | Log (args : list jsval) : op unit
  | LogError (label : string) (e : option jserror) : op unit.

Inductive script (A : Type) : Type :=
  | Ret (a : A)
  | Throw (e : jserror)
  | Vis {R : Set} (o : op R) (k : R + jserror → script A).
Arguments Ret {A} a.
Arguments Throw {A} e.
Arguments Vis {A R} o k.

Fixpoint script_bind_ {A B} (p : script A) (f : A → script B) : script B :=
  match p with
  | Ret a => f a
  | Throw e => Throw e
  | Vis o k => Vis o (λ r, script_bind_ (k r) f)
  end.
#[global] Instance script_ret : MRet script := λ _ a, Ret a.
#[global] Instance script_bind : MBind script := λ _ _ f p, script_bind_ p f.

(** [try { p } catch (e) { h e }] *)
Fixpoint try_catch {A} (p : script A) (h : jserror → script A) : script A :=
  match p with
  | Ret a => Ret a
  | Throw e => h e
  | Vis o k => Vis o (λ r, try_catch (k r) h)
  end.

(** [await o] *)
Definition await {R : Set} (o : op R) : script R :=
  Vis o (λ r, match r with inl v => Ret v | inr e => Throw e end).

Definition console_log (args : list jsval) : script unit := await (Log args).
Definition console_error (label : string) (e : option jserror) : script unit := await (LogError label e).

(** [parseEther] of a literal with at most three decimals, given in thousandths. *)
Definition parseEther_milli (m : Z) : Z := m * 10 ^ 15.

(** Reading index [i] of an array: [undefined] out of range, which the scripts
    then dereference. *)
Definition at_index {A} (l : list A) (i : nat) : script A :=
  match l !! i with Some x => Ret x | None => Throw TypeError end.

(** ** Running [main]

    Exit status of [main().catch(e => { console.error(e); process.exitCode = 1 })]
    (also with [process.exit(1)]), and of a bare [main();], whose unhandled
    rejection ends the process with status 1. *)
Definition exit_catch (main : script unit) : script Z :=
  try_catch (main ≫= λ _, Ret 0) (λ e, await (LogError "" (Some e)) ≫= λ _, Ret 1).
Definition exit_bare (main : script unit) : script Z :=
  try_catch (main ≫= λ _, Ret 0) (λ _, Ret 1).

(** ** Environments and runs *)

Class HardhatEnv (W : Type) := {
  perform : ∀ {R : Set}, op R → W → (R + jserror) * W
}.

Fixpoint run {W} `{HardhatEnv W} {A} (p : script A) (w : W) : (A + jserror) * W :=
  match p with
  | Ret a => (inl a, w)
  | Throw e => (inr e, w)
  | Vis o k => let '(r, w') := perform o w in run (k r) w'
  end.

(** Weakest precondition of a run. *)
Definition wp {W} `{HardhatEnv W} {A} (p : script A) (Q : A + jserror → W → Prop) (w : W) : Prop :=
  Q (run p w).1 (run p w).2.

Section wp.
Context {W : Type} `{HardhatEnv W}.

Lemma wp_ret {A} (a : A) Q (w : W) : Q (inl a) w → wp (Ret a) Q w.
Proof. done. Qed.
Lemma wp_throw {A} e (Q : A + jserror → W → Prop) w : Q (inr e) w → wp (Throw e) Q w.
Proof. done. Qed.
Lemma wp_vis {A} {R : Set} (o : op R) k (Q : A + jserror → W → Prop) w :
  wp (k (perform o w).1) Q (perform o w).2 → wp (Vis o k) Q w.
Proof. unfold wp. cbn. by destruct (perform o w). Qed.

Lemma wp_mono {A} (p : script A) (Q Q' : A + jserror → W → Prop) w :
  wp p Q w → (∀ r w', Q r w' → Q' r w') → wp p Q' w.
Proof. unfold wp. auto. Qed.

Lemma run_bind {A B} (p : script A) (f : A → script B) w :
  run (p ≫= f) w = match run p w with (inl a, w') => run (f a) w' | (inr e, w') => (inr e, w') end.
Proof.
  revert w. induction p as [a|e|R o k IH]; intros w; [done..|].
  cbn. destruct (perform o w) as [r w']. apply IH.
Qed.
Lemma run_try_catch {A} (p : script A) h w :
  run (try_catch p h) w = match run p w with (inl a, w') => (inl a, w') | (inr e, w') => run (h e) w' end.
Proof.
  revert w. induction p as [a|e|R o k IH]; intros w; [done..|].
  cbn. destruct (perform o w) as [r w']. apply IH.
Qed.

Lemma wp_bind {A B} (p : script A) (f : A → script B) Q (w : W) :
  wp p (λ r w', match r with inl a => wp (f a) Q w' | inr e => Q (inr e) w' end) w →
  wp (p ≫= f) Q w.
Proof. unfold wp. rewrite run_bind. by destruct (run p w) as [[a|e] w']. Qed.
Lemma wp_try_catch {A} (p : script A) h Q (w : W) :
  wp p (λ r w', match r with inl a => Q (inl a) w' | inr e => wp (h e) Q w' end) w →
  wp (try_catch p h) Q w.
Proof. unfold wp. rewrite run_try_catch. by destruct (run p w) as [[a|e] w']. Qed.
Lemma wp_await {R : Set} (o : op R) (Q : R + jserror → W → Prop) w :
  Q (perform o w).1 (perform o w).2 → wp (await o) Q w.
Proof. unfold wp, await. cbn. by destruct (perform o w) as [[a|e] w']. Qed.

(** The exit status: 0 exactly when [main] resolves. *)
Lemma wp_exit_catch main (Q : Z → W → Prop) w :
  (∀ l e w', Q 1 w' → Q 1 (perform (LogError l e) w').2) →
  wp main (λ r w', match r with inl _ => Q 0 w' | inr _ => Q 1 w' end) w →
  wp (exit_catch main) (λ r w', match r with inl c => Q c w' | inr _ => Q 1 w' end) w.
Proof.
  intros Hlog Hm. apply wp_try_catch, wp_bind. eapply wp_mono; [exact Hm|].
  intros [u|e] w' Hq; [done|]. apply wp_bind, wp_await. specialize (Hlog "" (Some e) w' Hq).
  by destruct (perform (LogError "" (Some e)) w') as [[]].
Qed.
Lemma wp_exit_bare main (Q : Z → W → Prop) w :
  wp main (λ r w', match r with inl _ => Q 0 w' | inr _ => Q 1 w' end) w →
  wp (exit_bare main) (λ r w', match r with inl c => Q c w' | inr _ => Q 1 w' end) w.
Proof. intros Hm. apply wp_try_catch, wp_bind. eapply wp_mono; [exact Hm|]. by intros [u|e]. Qed.
End wp.
