(* ===== verification/Mining.v ===== *)
(** Transactions between being sent and being mined.

    An ethers call that sends a transaction resolves when the transaction is
    handed to the network; [tx.wait()] and [waitForDeployment()] resolve when it
    has been mined and did not revert, and reject when it reverted.  The world
    therefore shows what was mined and what is still pending, in the order the
    signer sent it: transactions of one account are mined in the order of their
    nonces.  Transactions of other accounts that run at the same time are not
    part of the model. *)
From S2P Require Import Prelude Ethers.

(** A transaction over ledgers of type [L]: its hash, the address it creates a
    contract at, and its effect where it is mined ([None]: it reverts). *)
Record tx (L : Type) := Tx {
  tx_hash : Z;
  tx_creates : option address;
  tx_effect : L → option L
}.
Arguments Tx {L} _ _ _.
Arguments tx_hash {L} _.
Arguments tx_creates {L} _.
Arguments tx_effect {L} _ _.

(** A transaction that reverts leaves the ledger alone. *)
Definition mine {L} (l : L) (t : tx L) : L := default l (tx_effect t l).
Definition settle {L} (l : L) (ts : list (tx L)) : L := foldl mine l ts.

Class Mining (W L : Type) := {
  genesis : W → L;                (* the ledger before the recorded transactions *)
  mined : W → list (tx L);
  pending : W → list (tx L)
}.

Section ledgers.
Context {W L : Type} `{Mining W L}.

Definition history (w : W) : list (tx L) := mined w ++ pending w.
(** What a call sees, and what there is once everything sent is mined. *)
Definition latest (w : W) : L := settle (genesis w) (mined w).
Definition settled (w : W) : L := settle (genesis w) (history w).

(** The transactions selected by [P] are mined, and did not revert. *)
Definition included (P : tx L → Prop) (w : W) : Prop :=
  ∀ before t after, history w = before ++ t :: after → P t →
    (length before < length (mined w))%nat ∧ is_Some (tx_effect t (settle (genesis w) before)).
End ledgers.

(** The calls that send no transaction. *)
Definition is_query {R : Set} (o : op R) : bool :=
  match o with Deploy _ _ | Send _ _ _ _ | SendTransaction _ _ _ => false | _ => true end.

Class MiningLaws (W L : Type) `{HardhatEnv W} `{Mining W L} := {
  genesis_fixed : ∀ {R : Set} (o : op R) (w : W), genesis (perform o w).2 = genesis w;
  mined_grows : ∀ {R : Set} (o : op R) (w : W), mined w `prefix_of` mined (perform o w).2;
  query_sends_nothing : ∀ {R : Set} (o : op R) (w : W), is_query o = true → history (perform o w).2 = history w;
  wait_mined : ∀ h (w : W), (perform (Wait h) w).1 = inl tt →
    included (λ t, tx_hash t = h) (perform (Wait h) w).2;
  wait_deployed : ∀ c (w : W), (perform (WaitForDeployment c) w).1 = inl tt →
    included (λ t, tx_creates t = Some (target c)) (perform (WaitForDeployment c) w).2
}.

(** ** Reasoning *)

Lemma settle_app {L} (l : L) ts us : settle l (ts ++ us) = settle (settle l ts) us.
Proof. apply foldl_app. Qed.

Section laws.
Context {W L : Type} `{MiningLaws W L}.

Lemma latest_settled (w : W) : pending w = [] → latest w = settled w.
Proof. intros E. unfold latest, settled, history. by rewrite E, app_nil_r. Qed.

Lemma settled_same (w w' : W) : genesis w' = genesis w → history w' = history w → settled w' = settled w.
Proof. intros Eg Eh. unfold settled. by rewrite Eg, Eh. Qed.
Lemma settled_snoc (w w' : W) t :
  genesis w' = genesis w → history w' = history w ++ [t] → settled w' = mine (settled w) t.
Proof. intros Eg Eh. unfold settled. by rewrite Eg, Eh, settle_app. Qed.

Lemma query_settled {R : Set} (o : op R) (w : W) : is_query o = true → settled (perform o w).2 = settled w.
Proof. intros Ho. apply settled_same; [apply genesis_fixed|by apply query_sends_nothing]. Qed.

(** Once nothing is pending, queries keep it so. *)
Lemma query_pending {R : Set} (o : op R) (w : W) :
  is_query o = true → pending w = [] → pending (perform o w).2 = [].
Proof.
  intros Ho Hp. pose proof (query_sends_nothing o w Ho) as Eh. destruct (mined_grows o w) as [k Ek].
  unfold history in Eh. rewrite Hp, app_nil_r, Ek, <- app_assoc in Eh.
  assert (length (mined w ++ k ++ pending (perform o w).2) = length (mined w)) as El by (by rewrite Eh).
  rewrite !length_app in El. destruct (pending (perform o w).2); [done|cbn in El; lia].
Qed.

(** Waiting for the last transaction leaves nothing pending. *)
Lemma included_last (P : tx L → Prop) (w : W) before t :
  history w = before ++ [t] → P t → included P w →
  pending w = [] ∧ is_Some (tx_effect t (settle (genesis w) before)).
Proof.
  intros Eh Ht Hi. destruct (Hi before t [] Eh Ht) as [Hl Hs]. split; [|done].
  assert (length (history w) = S (length before)) as El by (rewrite Eh, length_app; cbn; lia).
  unfold history in El. rewrite length_app in El. destruct (pending w); [done|cbn in El; lia].
Qed.
End laws.

(** ** Transaction pools of in-memory chains

    They mine when a script waits, and only then. *)
Record pool (L : Type) := Pool {
  pool_genesis : L;
  pool_mined : list (tx L);
  pool_pending : list (tx L)
}.
Arguments Pool {L} _ _ _.
Arguments pool_genesis {L} _.
Arguments pool_mined {L} _.
Arguments pool_pending {L} _.

Section pools.
Context {L : Type}.

Definition fresh_pool (l : L) : pool L := Pool l [] [].
Definition pool_history (p : pool L) : list (tx L) := pool_mined p ++ pool_pending p.
Definition pool_settled (p : pool L) : L := settle (pool_genesis p) (pool_history p).
Definition pool_latest (p : pool L) : L := settle (pool_genesis p) (pool_mined p).
(** A hash no transaction has. *)
Definition next_hash (p : pool L) : Z := Z.of_nat (length (pool_history p)).
Definition enqueue (t : tx L) (p : pool L) : pool L := Pool (pool_genesis p) (pool_mined p) (pool_pending p ++ [t]).
Definition mine_all (p : pool L) : pool L := Pool (pool_genesis p) (pool_history p) [].

Fixpoint succeeded (P : tx L → bool) (l : L) (ts : list (tx L)) : bool :=
  match ts with
  | [] => true
  | t :: ts => (negb (P t) || bool_decide (is_Some (tx_effect t l))) && succeeded P (mine l t) ts
  end.
(** Mine everything; whether the selected transactions succeeded. *)
Definition wait_for (P : tx L → bool) (p : pool L) : (unit + jserror) * pool L :=
  (if succeeded P (pool_genesis p) (pool_history p) then inl tt else inr (Rejected "transaction reverted"), mine_all p).

Lemma succeeded_app P l before t after :
  succeeded P l (before ++ t :: after) = true → P t = true → is_Some (tx_effect t (settle l before)).
Proof.
  revert l. induction before as [|u before IH]; intros l; cbn [app succeeded settle foldl];
    intros [Hu Hs]%andb_true_iff Ht; [|by apply IH].
  rewrite Ht in Hu. by apply bool_decide_eq_true_1 in Hu.
Qed.

Lemma enqueue_history t p : pool_history (enqueue t p) = pool_history p ++ [t].
Proof. unfold pool_history. cbn. by rewrite app_assoc. Qed.
Lemma mine_all_history p : pool_history (mine_all p) = pool_history p.
Proof. unfold pool_history. cbn. by rewrite app_nil_r. Qed.

Lemma wait_for_included P p before t after :
  (wait_for P p).1 = inl tt → pool_history (mine_all p) = before ++ t :: after → P t = true →
  (length before < length (pool_mined (mine_all p)))%nat ∧ is_Some (tx_effect t (settle (pool_genesis p) before)).
Proof.
  unfold wait_for. cbn [fst]. destruct (succeeded P _ _) eqn:Es; [|done]. rewrite mine_all_history.
  intros _ Eh Ht. cbn. rewrite Eh in *. split; [rewrite length_app; cbn; lia|].
  by eapply succeeded_app.
Qed.
End pools.
