(* ===== verification/Chain.v ===== *)
(** The chain as the deployment scripts see it: which contract instance is at
    which address and what the EntryPoints hold for the paymasters, what a
    constructor or a transaction does to them, and what hardhat and ethers
    document of the calls of [Ethers.op] (class [HardhatLaws], over the
    transactions of [Mining]).  [SimChain] is a small in-memory chain that
    satisfies the laws. *)
From S2P Require Import Prelude Bytes UserOperation EnclaveRegistry VerifyingPaymaster FeeLogic TokenPaymaster Ethers Mining.

(** ** Instances and constructors *)

Inductive instance :=
  | IRegistry (s : EnclaveRegistry.state)
  | IVerifyingPaymaster (s : VerifyingPaymaster.state)
  | ISolverPaymaster (v1 : bool) (s : VerifyingPaymaster.state)
  | ITokenPaymaster (s : TokenPaymaster.state)
  | IFeeTestnet (s : Testnet.state)
  | IFeeMainnet (s : Mainnet.state)
  | IOther (name : string) (args : list jsval).    (* any other contract *)

Definition is_other (i : instance) : bool := match i with IOther _ _ => true | _ => false end.
Definition is_registry (i : instance) : bool := match i with IRegistry _ => true | _ => false end.

(** Number of constructor parameters of the repository's other contracts. *)
Definition constructor_arity (name : string) : option nat :=
  if bool_decide (name ∈ ["P256SmartAccount"; "P256SmartAccountFactory"; "P256Verifier";
       "GasNFT"; "NFTGasLogic"; "SmartAccount"; "SmartAccountFactory"; "EnclaveTokenVaultV0"]) then Some 0%nat
  else if bool_decide (name ∈ ["P256V"; "P256VerifierYul"; "MultichainPasskeyValidator"]) then Some 1%nat
  else if bool_decide (name ∈ ["TestNFT"; "MockUSDC"]) then Some 2%nat
  else if bool_decide (name = "EnclaveMultiTokenPaymaster") then Some 3%nat
  else if bool_decide (name ∈ ["EnclaveFeeLogicUniswap"; "EnclaveVerifyingNFTPaymaster"]) then Some 4%nat
  else None.

(** The instance a deployment creates; [None] when the arguments do not fit the
    constructor (their number, or a string where an address is expected). *)
Definition construct (m : msg) (name : string) (args : list jsval) : option instance :=
  if bool_decide (name = "EnclaveRegistry") then
    match args with [JAddr o] => Some (IRegistry (EnclaveRegistry.deployed o)) | _ => None end
  else if bool_decide (name = "EnclaveVerifyingPaymaster") then
    match args with
    | [JAddr ep; JAddr vs] => Some (IVerifyingPaymaster (VerifyingPaymaster.deployed m ep vs))
    | _ => None end
  else if bool_decide (name = "EnclaveSolverPaymaster") then
    match args with
    | [JAddr ep; JAddr vs] => Some (ISolverPaymaster false (VerifyingPaymaster.deployed m ep vs))
    | _ => None end
  else if bool_decide (name = "EnclaveSolverPaymasterV1") then
    match args with
    | [JAddr ep; JAddr vs] => Some (ISolverPaymaster true (VerifyingPaymaster.deployed m ep vs))
    | _ => None end
  else if bool_decide (name = "EnclaveVerifyingTokenPaymaster") then
    match args with
    | [JAddr ep; JAddr vs; JAddr tk; JAddr fl] => Some (ITokenPaymaster (TokenPaymaster.deployed m ep vs tk fl))
    | _ => None end
  else if bool_decide (name = "EnclaveFeeLogicTestnet") then
    match args with [] => Some (IFeeTestnet Testnet.deployed) | _ => None end
  else if bool_decide (name = "EnclaveFeeLogicMainnet") then
    match args with [JAddr feed; JNum d] => Some (IFeeMainnet (Mainnet.deployed m feed d)) | _ => None end
  else match constructor_arity name with
  | Some n => if bool_decide (length args = n) then Some (IOther name args) else None
  | None => Some (IOther name args)
  end.

(** ** Transactions and views on the modelled contracts *)

(** The instances, and the deposits by EntryPoint and account: what [balanceOf]
    of the EntryPoint answers for the account. *)
Record ledger := Ledger {
  instances : gmap address instance;
  deposits : gmap (address * address) Z
}.

(** EntryPoint.depositTo adds the value to the deposit of the account. *)
Definition credit (ep account : address) (v : Z) (d : gmap (address * address) Z) : gmap (address * address) Z :=
  <[(ep, account) := mget 0 d (ep, account) + v]> d.

(** The EntryPoint of a paymaster. *)
Definition entryPoint_of (i : instance) : option address :=
  match i with
  | IVerifyingPaymaster s | ISolverPaymaster _ s => Some (VerifyingPaymaster.entryPoint s)
  | ITokenPaymaster s => Some (TokenPaymaster.entryPoint s)
  | _ => None
  end.

(** The functions that change the instance itself; [None]: the contract has no
    such function. *)
Definition dispatch_instance (m : msg) (i : instance) (method : string) (args : list jsval) : option (res instance) :=
  match i, args with
  | IRegistry s, [JStr k; JAddr a] =>
      if bool_decide (method = "updateRegistryAddress")
      then Some (IRegistry <$> updateRegistryAddress m k a s) else None
  | ITokenPaymaster s, [JAddr a] =>
      if bool_decide (method = "updateFeeLogic") then Some ((ITokenPaymaster ∘ fst) <$> updateFeeLogic m a s)
      else if bool_decide (method = "updatePaymentToken")
      then Some ((ITokenPaymaster ∘ fst) <$> updatePaymentToken m a s) else None
  | IFeeMainnet s, [JAddr a] =>
      if bool_decide (method = "updateChainlinkDataFeed")
      then Some ((IFeeMainnet ∘ fst) <$> Mainnet.updateChainlinkDataFeed m a s) else None
  | IFeeMainnet s, [JNum d] =>
      if bool_decide (method = "updateMarkupDenominator")
      then Some ((IFeeMainnet ∘ fst) <$> Mainnet.updateMarkupDenominator m d s) else None
  | _, _ => None
  end.

(** A transaction to the instance [i] at [self m]: [deposit] of a paymaster
    forwards the value to [entryPoint.depositTo(address(this))], the other
    functions change the instance. *)
Definition dispatch (m : msg) (l : ledger) (i : instance) (method : string) (args : list jsval) : option (res ledger) :=
  match entryPoint_of i, bool_decide (method = "deposit"), args with
  | Some ep, true, [] => Some (Ok (Ledger (instances l) (credit ep (self m) (msg_value m) (deposits l))))
  | _, _, _ =>
      match dispatch_instance m i method args with
      | Some r => Some ((λ i', Ledger (<[self m := i']> (instances l)) (deposits l)) <$> r)
      | None => None
      end
  end.

(** [None]: no claim about the result. *)
Definition view (i : instance) (method : string) (args : list jsval) : option (res jsval) :=
  match i, args with
  | IRegistry s, [JStr k] =>
      if bool_decide (method = "getRegistryAddress") then Some (JAddr <$> getRegistryAddress k s) else None
  | ITokenPaymaster s, [] =>
      if bool_decide (method = "feeLogic") then Some (Ok (JAddr (feeLogic s))) else None
  | _, _ => None
  end.

(** Parameters of the factories' functions, for the handles' ABI. *)
Definition method_arity (artifact method : string) : option nat :=
  if bool_decide (artifact ∈ ["SmartAccountFactory"; "P256SmartAccountFactory"] ∧
                  method ∈ ["createAccount"; "getAccountAddress"]) then Some 3%nat
  else None.

(** Contracts declared under contracts/. *)
Definition repo_artifacts : list string :=
  ["MultichainPasskeyValidator"; "P256V"; "EnclaveVerifyingPaymaster"; "P256SmartAccount";
   "P256SmartAccountFactory"; "EnclaveFeeLogicUniswap"; "EnclaveVerifyingNFTPaymaster";
   "EnclaveFeeLogicMainnet"; "EnclaveVerifyingTokenPaymaster"; "GasNFT"; "UniswapHelper";
   "EnclaveFeeLogicTestnet"; "CustomFullMath"; "EnclaveMultiTokenPaymaster"; "NFTGasLogic";
   "P256Verifier"; "SECP256R1"; "EnclaveRegistry"; "Base64URL"; "P256VerifierYul"; "TestNFT";
   "SmartAccount"; "SmartAccountFactory"; "EnclaveSolverPaymaster"; "EnclaveTokenVaultV0";
   "EnclaveSolverPaymasterV1"; "MockUSDC"].

(** ** Chains that grow

    [extends m m']: every instance of [m] is still there, unchanged, and what
    was added is none of the modelled contracts. *)
Definition extends (m m' : gmap address instance) : Prop :=
  m ⊆ m' ∧ ∀ a i, m' !! a = Some i → m !! a = None → is_other i = true.

#[global] Instance extends_preorder : PreOrder extends.
Proof.
  split; [intros m; split; [done|congruence]|].
  intros m1 m2 m3 [H12 A12] [H23 A23]. split; [by etrans|]. intros a i H3 H1.
  destruct (m2 !! a) as [j|] eqn:H2; [|by eapply A23].
  pose proof (lookup_weaken _ _ _ _ H2 H23). simplify_eq. by eapply A12.
Qed.

Lemma extends_lookup m m' a i : extends m m' → m !! a = Some i → m' !! a = Some i.
Proof. intros [H _] Hi. by eapply lookup_weaken. Qed.

(** ** What hardhat and ethers document *)

Class Chain (W : Type) `{HardhatEnv W} `{Mining W ledger} := {
  signer : W → address;                       (* the first configured account *)
  tx_env : W → msg;                           (* chain id and block time *)
  external_artifacts : list string            (* contracts compiled from dependencies *)
}.

(** The contracts once everything sent is mined. *)
Definition contracts {W} `{Mining W ledger} (w : W) : gmap address instance := instances (settled w).

Definition tx_msg {W} `{Chain W} (w : W) (a : address) (v : Z) : msg :=
  {| msg_sender := signer w; msg_value := v; self := a;
     chainid := chainid (tx_env w); timestamp := timestamp (tx_env w) |}.

(** [t], sent in [w], deploys an instance of [name] at [a]: it reverts, or runs
    the constructor, which may deploy further contracts that are not modelled. *)
Definition creation {W} `{Chain W} (w : W) (name : string) (args : list jsval) (a : address) (t : tx ledger) : Prop :=
  tx_creates t = Some a ∧ contracts w !! a = None ∧
  ∃ i, construct (tx_msg w 0 0) name args = Some i ∧
    ∀ l, tx_effect t (settled w) = Some l →
      extends (<[a := i]> (contracts w)) (instances l) ∧ (is_other i = false → deposits l = deposits (settled w)).

(** [t], sent in [w], calls a function: it reverts, or runs the code of a
    modelled contract.  Other contracts change no modelled one, EntryPoint's
    handleOps apart, which runs accounts and paymasters. *)
Definition invocation {W} `{Chain W} (w : W) (c : contract) (me : string) (args : list jsval) (v : Z)
    (t : tx ledger) : Prop :=
  tx_creates t = None ∧
  ∀ l, tx_effect t (settled w) = Some l →
    match contracts w !! target c with
    | None | Some (IOther _ _) => me ≠ "handleOps" → extends (contracts w) (instances l)
    | Some i => dispatch (tx_msg w (target c) v) (settled w) i me args = Some (Ok l)
    end.

Class HardhatLaws (W : Type) `{Chain W} := {
  hardhat_mining :: MiningLaws W ledger;
  signer_stable : ∀ {R : Set} (o : op R) (w : W), signer (perform o w).2 = signer w;
  (* the accounts of a network start with the default signer *)
  getSigners_head : ∀ (w : W) l, (perform GetSigners w).1 = inl l → l = [] ∨ head l = Some (signer w);
  getSigner_first : ∀ (w : W) a, (perform ProviderGetSigner w).1 = inl a → a = signer w;
  (* only compiled contracts have a factory, and handles keep what they were made from *)
  factory_known : ∀ (w : W) n f, (perform (GetContractFactory n) w).1 = inl f →
    factory_artifact f = n ∧ n ∈ repo_artifacts ++ external_artifacts;
  contractAt_known : ∀ (w : W) n a c, (perform (GetContractAt n a) w).1 = inl c → c = Contract n a;
  (* arguments that do not fit the constructor reject before anything is sent *)
  deploy_misfit : ∀ f args (w : W), construct (tx_msg w 0 0) (factory_artifact f) args = None →
    (∃ e, (perform (Deploy f args) w).1 = inr e) ∧ history (perform (Deploy f args) w).2 = history w;
  (* deploy resolves once its transaction is sent *)
  deploy_resolves : ∀ f args (w : W) c, (perform (Deploy f args) w).1 = inl c →
    artifact c = factory_artifact f ∧ target c ≠ zero_address ∧
    ∃ t, history (perform (Deploy f args) w).2 = history w ++ [t] ∧
         creation w (factory_artifact f) args (target c) t;
  deploy_rejects : ∀ f args (w : W) e, (perform (Deploy f args) w).1 = inr e →
    history (perform (Deploy f args) w).2 = history w ∨
    ∃ a t, history (perform (Deploy f args) w).2 = history w ++ [t] ∧ creation w (factory_artifact f) args a t;
  (* a call that does not fit the handle's ABI rejects before anything is sent *)
  send_misfit : ∀ c me args v (w : W) n, method_arity (artifact c) me = Some n → length args ≠ n →
    (∃ e, (perform (Send c me args v) w).1 = inr e) ∧ history (perform (Send c me args v) w).2 = history w;
  (* a call resolves, to the transaction's hash, once its transaction is sent *)
  send_sends : ∀ c me args v (w : W),
    let '(r, w') := perform (Send c me args v) w in
    (history w' = history w ∧ ∃ e, r = inr e) ∨
    ∃ t, history w' = history w ++ [t] ∧ (∀ h, r = inl h → h = tx_hash t) ∧ invocation w c me args v t;
  transfer_sends : ∀ f t v (w : W),
    let w' := (perform (SendTransaction f t v) w).2 in
    history w' = history w ∨
    ∃ x, history w' = history w ++ [x] ∧
      ∀ l, tx_effect x (settled w) = Some l → extends (contracts w) (instances l);
  (* a view call answers from the mined state *)
  call_views : ∀ c me args (w : W) i x v, (perform (Call c me args) w).1 = inl v →
    instances (latest (perform (Call c me args) w).2) !! target c = Some i → view i me args = Some x → x = Ok v
}.

(** ** Rules for the awaited calls *)

Section rules.
Context {W : Type} `{HardhatLaws W}.

(** The part of the world the rules track. *)
Definition view_of (w : W) : ledger * list (tx ledger) * address := (genesis w, history w, signer w).

Lemma view_settled (w w' : W) : view_of w' = view_of w → settled w' = settled w.
Proof. unfold view_of. intros E. simplify_eq. by apply settled_same. Qed.
Lemma view_eqs (w w' : W) : view_of w' = view_of w → contracts w' = contracts w ∧ signer w' = signer w.
Proof.
  intros E. unfold contracts. rewrite (view_settled w w' E). unfold view_of in E. by simplify_eq.
Qed.
Lemma view_contracts (w w' : W) : view_of w' = view_of w → contracts w' = contracts w.
Proof. by intros [E _]%view_eqs. Qed.
Lemma view_intro {R : Set} (o : op R) (w : W) :
  history (perform o w).2 = history w → view_of (perform o w).2 = view_of w.
Proof. intros E. unfold view_of. by rewrite E, genesis_fixed, signer_stable. Qed.

(** What sending [t] leaves once it is mined. *)
Lemma contracts_snoc {R : Set} (o : op R) (w : W) t :
  history (perform o w).2 = history w ++ [t] →
  contracts (perform o w).2 = match tx_effect t (settled w) with Some l => instances l | None => contracts w end.
Proof.
  intros E. unfold contracts. rewrite (settled_snoc w _ t) by (done || apply genesis_fixed). unfold mine.
  by destruct (tx_effect t (settled w)).
Qed.

Lemma wp_query {R : Set} (o : op R) (Q : R + jserror → W → Prop) w :
  is_query o = true →
  (∀ r w', view_of w' = view_of w → (perform o w).1 = r → Q r w') → wp (await o) Q w.
Proof. intros Ho HQ. apply wp_await, HQ; [|done]. by apply view_intro, query_sends_nothing. Qed.

Lemma wp_query_bind {R : Set} {B} (o : op R) (f : R → script B) Q w :
  is_query o = true →
  (∀ e w', view_of w' = view_of w → Q (inr e) w') →
  (∀ v w', view_of w' = view_of w → (perform o w).1 = inl v → wp (f v) Q w') →
  wp (await o ≫= f) Q w.
Proof. intros Ho He Hv. apply wp_bind, wp_query; [done|]. intros [v|e] w' Hw E; eauto. Qed.

Lemma wp_factory_bind {B} n (f : factory → script B) Q w :
  (∀ e w', view_of w' = view_of w → Q (inr e) w') →
  (∀ w', view_of w' = view_of w → n ∈ repo_artifacts ++ external_artifacts → wp (f (Factory n)) Q w') →
  wp (await (GetContractFactory n) ≫= f) Q w.
Proof.
  intros He Hv. apply wp_query_bind; [done..|]. intros [m] w' Hw E.
  apply factory_known in E as [E Hin]. cbn in E. subst m. eauto.
Qed.

Lemma wp_contractAt_bind {B} n a (f : contract → script B) Q w :
  (∀ e w', view_of w' = view_of w → Q (inr e) w') →
  (∀ w', view_of w' = view_of w → wp (f (Contract n a)) Q w') →
  wp (await (GetContractAt n a) ≫= f) Q w.
Proof.
  intros He Hv. apply wp_query_bind; [done..|]. intros c w' Hw E.
  apply contractAt_known in E as ->. eauto.
Qed.

Lemma wp_getSigner_bind {B} (f : address → script B) Q w :
  (∀ e w', view_of w' = view_of w → Q (inr e) w') →
  (∀ w', view_of w' = view_of w → wp (f (signer w)) Q w') →
  wp (await ProviderGetSigner ≫= f) Q w.
Proof.
  intros He Hv. apply wp_query_bind; [done..|]. intros a w' Hw E.
  apply getSigner_first in E as ->. eauto.
Qed.

(** [const [signer, ...] = await ethers.getSigners()], then [signer] used. *)
Lemma wp_getSigners_bind {B} (f : list address → script B) Q w :
  (∀ e w', view_of w' = view_of w → Q (inr e) w') →
  (∀ l w', view_of w' = view_of w → l = [] ∨ head l = Some (signer w) → wp (f l) Q w') →
  wp (await GetSigners ≫= f) Q w.
Proof.
  intros He Hv. apply wp_query_bind; [done..|]. intros l w' Hw E.
  apply getSigners_head in E. eauto.
Qed.

Lemma wp_first_bind {B} (l : list address) (f : address → script B) Q (w : W) s :
  l = [] ∨ head l = Some s → Q (inr TypeError) w → wp (f s) Q w → wp (at_index l 0 ≫= f) Q w.
Proof. intros [->|Hl] He Hv; [done|]. destruct l; cbn in *; [done|]. by simplify_eq. Qed.

(** A deployment that was rejected, and one that was sent. *)
Lemma wp_deploy_bind {B} fa args (f : contract → script B) Q w :
  (∀ e w', view_of w' = view_of w → Q (inr e) w') →
  (∀ a t w', genesis w' = genesis w → signer w' = signer w → history w' = history w ++ [t] →
     creation w (factory_artifact fa) args a t →
     (∀ e, Q (inr e) w') ∧ (a ≠ zero_address → wp (f (Contract (factory_artifact fa) a)) Q w')) →
  wp (await (Deploy fa args) ≫= f) Q w.
Proof.
  intros He Hi. apply wp_bind, wp_await.
  pose proof (genesis_fixed (Deploy fa args) w) as Hg. pose proof (signer_stable (Deploy fa args) w) as Hs.
  destruct (perform (Deploy fa args) w).1 as [c|e] eqn:E.
  - destruct (deploy_resolves _ _ _ _ E) as (Ha & Hz & t & Hh & Hc).
    destruct c as [an at_]. cbn in *. subst an. by eapply (proj2 (Hi _ _ _ Hg Hs Hh Hc)).
  - destruct (deploy_rejects _ _ _ _ E) as [Hh|(a & t & Hh & Hc)]; [by apply He, view_intro|].
    by apply (proj1 (Hi _ _ _ Hg Hs Hh Hc)).
Qed.

(** Arguments that do not fit the constructor. *)
Lemma wp_deploy_misfit {B} fa args (f : contract → script B) Q w :
  construct (tx_msg w 0 0) (factory_artifact fa) args = None →
  (∀ e w', view_of w' = view_of w → Q (inr e) w') →
  wp (await (Deploy fa args) ≫= f) Q w.
Proof.
  intros Hc He. destruct (deploy_misfit fa args w Hc) as [[e E] Hx].
  apply wp_bind, wp_await. rewrite E. by apply He, view_intro.
Qed.

Lemma wp_send_misfit {B} c me args v n (f : Z → script B) Q w :
  method_arity (artifact c) me = Some n → length args ≠ n →
  (∀ e w', view_of w' = view_of w → Q (inr e) w') →
  wp (await (Send c me args v) ≫= f) Q w.
Proof.
  intros Ha Hn He. destruct (send_misfit c me args v w n Ha Hn) as [[e E] Hx].
  apply wp_bind, wp_await. rewrite E. by apply He, view_intro.
Qed.

(** A transaction that was not sent, and one that was. *)
Lemma wp_send_bind {B} c me args v (f : Z → script B) Q w :
  (∀ e w', view_of w' = view_of w → Q (inr e) w') →
  (∀ t w', genesis w' = genesis w → signer w' = signer w → history w' = history w ++ [t] →
     invocation w c me args v t → (∀ e, Q (inr e) w') ∧ wp (f (tx_hash t)) Q w') →
  wp (await (Send c me args v) ≫= f) Q w.
Proof.
  intros He Hd. apply wp_bind, wp_await. pose proof (send_sends c me args v w) as Hr.
  pose proof (view_intro (Send c me args v) w) as Hv.
  pose proof (genesis_fixed (Send c me args v) w) as Hg. pose proof (signer_stable (Send c me args v) w) as Hs.
  destruct (perform (Send c me args v) w) as [r w']. cbn in *.
  destruct Hr as [[Hh [e ->]]|(t & Hh & Hr & Ht)]; [by apply He, Hv|].
  destruct (Hd t w' Hg Hs Hh Ht) as [Hq1 Hq2]. destruct r as [h|e]; [|done]. by rewrite (Hr h eq_refl).
Qed.
End rules.

(** ** An in-memory chain *)

Module SimChain.
Record sim := Build_sim {
  sim_pool : pool ledger;
  sim_accounts : list address;
  sim_balances : gmap address Z;
  sim_log : list (list jsval)
}.
(** A chain with the given contracts and nothing sent yet. *)
Definition Sim (m : gmap address instance) (accounts : list address) (balances : gmap address Z)
    (log : list (list jsval)) : sim :=
  Build_sim (fresh_pool (Ledger m ∅)) accounts balances log.

Definition sim_signer (w : sim) : address := default 0 (head (sim_accounts w)).
Definition sim_env : msg := {| msg_sender := 0; msg_value := 0; self := 0; chainid := 31337; timestamp := 1 |}.
Definition sim_msg (w : sim) (a : address) (v : Z) : msg :=
  {| msg_sender := sim_signer w; msg_value := v; self := a;
     chainid := chainid sim_env; timestamp := timestamp sim_env |}.
Definition sim_external : list string := ["EntryPoint"; "ERC20"].

(** An address no instance has. *)
Definition next_address (m : gmap address instance) : address :=
  1 + map_fold (λ k _ acc, Z.max k acc) 0 m.

Definition sim_set (w : sim) (p : pool ledger) : sim :=
  Build_sim p (sim_accounts w) (sim_balances w) (sim_log w).
Definition sim_print (w : sim) (l : list jsval) : sim :=
  Build_sim (sim_pool w) (sim_accounts w) (sim_balances w) (sim_log w ++ [l]).
Definition sim_enqueue (t : tx ledger) (w : sim) : sim := sim_set w (enqueue t (sim_pool w)).
Definition sim_settled (w : sim) : ledger := pool_settled (sim_pool w).

Definition sim_deploy (f : factory) (args : list jsval) (w : sim) : (contract + jserror) * sim :=
  match construct (sim_msg w 0 0) (factory_artifact f) args with
  | None => (inr (Rejected "constructor arguments"), w)
  | Some i =>
      let a := next_address (instances (sim_settled w)) in
      let effect l := match instances l !! a with
                      | None => Some (Ledger (<[a := i]> (instances l)) (deposits l))
                      | Some _ => None
                      end in
      (inl (Contract (factory_artifact f) a), sim_enqueue (Tx (next_hash (sim_pool w)) (Some a) effect) w)
  end.

(** What a transaction does where it is mined. *)
Definition sim_effect (m : msg) (me : string) (args : list jsval) (l : ledger) : option ledger :=
  match instances l !! self m with
  | None | Some (IOther _ _) => Some l
  | Some i => match dispatch m l i me args with Some (Ok l') => Some l' | _ => None end
  end.

(** Before sending, the gas estimate rejects a transaction that would revert. *)
Definition sim_send (c : contract) (me : string) (args : list jsval) (v : Z) (w : sim) : (Z + jserror) * sim :=
  if match method_arity (artifact c) me with Some n => negb (length args =? n)%nat | None => false end
  then (inr (Rejected "no matching fragment"), w)
  else
    let effect := sim_effect (sim_msg w (target c) v) me args in
    if bool_decide (is_Some (effect (sim_settled w))) then
      let h := next_hash (sim_pool w) in (inl h, sim_enqueue (Tx h None effect) w)
    else (inr (Rejected "execution reverted"), w).

Definition sim_wait (P : tx ledger → bool) (w : sim) : (unit + jserror) * sim :=
  let '(r, p) := wait_for P (sim_pool w) in (r, sim_set w p).

Definition sim_call (c : contract) (me : string) (args : list jsval) (w : sim) : jsval + jserror :=
  match instances (pool_latest (sim_pool w)) !! target c with
  | None => inr (Rejected "could not decode result data")
  | Some i =>
      match view i me args with
      | Some (Ok v) => inl v
      | Some (Revert _) => inr (Rejected "execution reverted")
      | None => inl JUndefined
      end
  end.

Definition sim_perform {R : Set} (o : op R) (w : sim) : (R + jserror) * sim :=
  match o in op R return (R + jserror) * sim with
  | GetSigners => (inl (sim_accounts w), w)
  | ProviderGetSigner =>
      (match sim_accounts w with a :: _ => inl a | [] => inr (Rejected "no such account") end, w)
  | GetContractFactory n =>
      (if bool_decide (n ∈ repo_artifacts ++ sim_external) then inl (Factory n)
       else inr (Rejected "artifact not found"), w)
  | GetContractAt n a =>
      (if bool_decide (n ∈ repo_artifacts ++ sim_external) then inl (Contract n a)
       else inr (Rejected "artifact not found"), w)
  | Deploy f args => sim_deploy f args w
  | WaitForDeployment c => sim_wait (λ t, bool_decide (tx_creates t = Some (target c))) w
  | Send c me args v => sim_send c me args v w
  | Wait h => sim_wait (λ t, tx_hash t =? h) w
  | Call c me args => (sim_call c me args w, w)
  | SendTransaction _ _ _ => let h := next_hash (sim_pool w) in (inl h, sim_enqueue (Tx h None Some) w)
  | GetBalance a => (inl (mget 0 (sim_balances w) a), w)
  | FormatEther _ => (inl "", w)
  | GetTransactionCount _ => (inl 0, w)
  | CreateRandomWallet => (inl (0xE0A, 1), w)
  | DateNow => (inl 1700000000123, w)
  | Sha256 bs => (inl (word (be_val bs mod 2 ^ 256)), w)
  | GetLatestBlock _ => (inl (Some 1000000000), w)
  | EstimateGas _ _ _ _ => (inl 21000, w)
  | SignMessage _ m => (inl (word (be_val m) ++ word 1 ++ [27]), w)
  | P256RandomPrivateKey => (inl (word 1), w)
  | P256GetPublicKey _ => (inl (2 :: word 5), w)
  | P256Sign _ _ => (inl (3, 4), w)
  | P256Verify _ _ _ => (inl true, w)
  | EcGetPublicHex _ => (inl (replicate 130 (Ascii.ascii_of_nat 52)), w)
  | HttpPost _ _ => (inl (Some (100000, 200000, 300000)), w)
  | Log l => (inl tt, sim_print w l)
  | LogError s _ => (inl tt, sim_print w [JStr s])
  end.

#[global] Instance sim_hardhat : HardhatEnv sim := {| perform := @sim_perform |}.
#[global] Instance sim_mining : Mining sim ledger :=
  {| genesis w := pool_genesis (sim_pool w); mined w := pool_mined (sim_pool w);
     pending w := pool_pending (sim_pool w) |}.
#[global] Instance sim_chain : Chain sim :=
  {| signer := sim_signer; tx_env := λ _, sim_env; external_artifacts := sim_external |}.

Lemma next_address_fresh m : m !! next_address m = None ∧ next_address m ≠ zero_address.
Proof.
  unfold next_address.
  assert (∀ k, is_Some (m !! k) → k ≤ map_fold (λ k (_ : instance) acc, Z.max k acc) 0 m) as Hle.
  { apply (map_fold_weak_ind (λ b m, ∀ k, is_Some (m !! k) → k ≤ b)).
    - intros k [i Hi]. by rewrite lookup_empty in Hi.
    - intros i x m' r Hi IH k Hk. rewrite lookup_insert_is_Some in Hk.
      destruct Hk as [->|[_ Hk%IH]]; lia. }
  assert (0 ≤ map_fold (λ k (_ : instance) acc, Z.max k acc) 0 m) as Hge.
  { apply (map_fold_weak_ind (λ b _, 0 ≤ b)); [done|]. intros. lia. }
  split; [|unfold zero_address; lia].
  destruct (m !! _) as [i|] eqn:E; [|done]. specialize (Hle _ (mk_is_Some _ _ E)). lia.
Qed.

(** How a call moves the pool: it stays, takes a transaction, or is mined. *)
Inductive moves (p : pool ledger) : pool ledger → Prop :=
  | moves_stays : moves p p
  | moves_enqueues t : moves p (enqueue t p)
  | moves_mines : moves p (mine_all p).

Lemma sim_send_cases c me args v w :
  let '(r, w') := sim_send c me args v w in
  (w' = w ∧ ∃ e, r = inr e) ∨
  let t := Tx (next_hash (sim_pool w)) None (sim_effect (sim_msg w (target c) v) me args) in
  r = inl (tx_hash t) ∧ w' = sim_enqueue t w.
Proof.
  unfold sim_send. destruct (match method_arity _ _ with Some _ => _ | None => _ end); [eauto|].
  destruct (bool_decide _); eauto.
Qed.
Lemma sim_deploy_cases f args w :
  let '(r, w') := sim_deploy f args w in
  (construct (sim_msg w 0 0) (factory_artifact f) args = None ∧ w' = w ∧ ∃ e, r = inr e) ∨
  ∃ i c t, construct (sim_msg w 0 0) (factory_artifact f) args = Some i ∧ r = inl c ∧ w' = sim_enqueue t w ∧
    artifact c = factory_artifact f ∧ target c = next_address (instances (sim_settled w)) ∧
    tx_creates t = Some (target c) ∧
    ∀ l, tx_effect t (sim_settled w) = Some l →
      l = Ledger (<[target c := i]> (instances (sim_settled w))) (deposits (sim_settled w)).
Proof.
  unfold sim_deploy. destruct (construct _ _ _) as [i|] eqn:E; [|eauto 10]. right.
  eexists i, _, _. do 3 (split; [reflexivity|]). cbn. do 3 (split; [reflexivity|]).
  intros l. destruct (instances _ !! _); [done|]. by intros [= <-].
Qed.

Lemma sim_moves {R : Set} (o : op R) w :
  moves (sim_pool w) (sim_pool (sim_perform o w).2) ∧ sim_accounts (sim_perform o w).2 = sim_accounts w ∧
  (is_query o = true → pool_history (sim_pool (sim_perform o w).2) = pool_history (sim_pool w)).
Proof.
  destruct o; cbn; try (split_and!; [apply moves_stays|done..]).
  - pose proof (sim_deploy_cases f args w) as Hd. destruct (sim_deploy f args w) as [r w'].
    destruct Hd as [(_ & -> & _)|(i & c & t & _ & _ & -> & _)]; (split_and!; [|done..]); constructor.
  - split_and!; [apply moves_mines|done|intros _; apply mine_all_history].
  - pose proof (sim_send_cases c method args value w) as Hd. destruct (sim_send c method args value w) as [r w'].
    destruct Hd as [[-> _]|[_ ->]]; (split_and!; [|done..]); constructor.
  - split_and!; [apply moves_mines|done|intros _; apply mine_all_history].
  - split_and!; [apply moves_enqueues|done..].
Qed.

#[global] Instance sim_mining_laws : MiningLaws sim ledger.
Proof.
  split.
  - intros R o w. cbn. by destruct (sim_moves o w) as [[] _].
  - intros R o w. cbn. destruct (sim_moves o w) as [[] _]; cbn; [done..|]. by apply prefix_app_r.
  - intros R o w Ho. by apply (sim_moves o w).
  - intros h w E before t after Eh Ht. cbn in *. subst h.
    eapply (wait_for_included (λ t', tx_hash t' =? tx_hash t)); [exact E|exact Eh|apply Z.eqb_refl].
  - intros c w E before t after Eh Ht. cbn in *.
    eapply (wait_for_included (λ t', bool_decide (tx_creates t' = Some (target c)))); [exact E|exact Eh|].
    by apply bool_decide_eq_true_2.
Qed.

Lemma sim_invocation c me args v w :
  invocation w c me args v (Tx (next_hash (sim_pool w)) None (sim_effect (sim_msg w (target c) v) me args)).
Proof.
  split; [done|]. cbn [tx_effect]. intros l. unfold sim_effect, contracts.
  change (tx_msg w (target c) v) with (sim_msg w (target c) v). cbn [self sim_msg].
  destruct (instances (settled w) !! target c) as [i|]; [|by intros [= <-]].
  destruct i; try (by intros [= <-]); destruct (dispatch _ _ _ _ _) as [[]|]; congruence.
Qed.

#[global] Instance sim_laws : HardhatLaws sim.
Proof.
  split.
  - apply _.
  - intros R o w. cbn. unfold sim_signer. by destruct (sim_moves o w) as (_ & -> & _).
  - intros w l [= <-]. cbn. unfold sim_signer. destruct (sim_accounts w); [by left|by right].
  - intros w a. cbn. unfold sim_signer. destruct (sim_accounts w); intros [= ->]. done.
  - intros w n f. cbn [perform sim_hardhat sim_perform fst external_artifacts sim_chain].
    case_bool_decide; intros [= <-]. done.
  - intros w n a c. cbn [perform sim_hardhat sim_perform fst]. case_bool_decide; by intros [= <-].
  - intros f args w Hc. change (tx_msg w 0 0) with (sim_msg w 0 0) in Hc.
    cbn [perform sim_hardhat sim_perform]. unfold sim_deploy. rewrite Hc. cbn. split; [eauto|done].
  - intros f args w c E. cbn [perform sim_hardhat sim_perform] in *. pose proof (sim_deploy_cases f args w) as Hd.
    destruct (sim_deploy f args w) as [r w']. cbn [fst snd] in *. subst r.
    destruct Hd as [(_ & _ & e & [=])|(i & c' & t & Hc & [= <-] & -> & Ha & Ht & Hcr & Hl)].
    destruct (next_address_fresh (instances (sim_settled w))) as [Hf Hz].
    split; [done|]. split; [by rewrite Ht|]. exists t. split; [apply (enqueue_history t)|].
    split; [done|]. split; [by rewrite Ht|]. exists i. split; [exact Hc|]. intros l ->%Hl. done.
  - intros f args w e E. left. cbn [perform sim_hardhat sim_perform] in *. pose proof (sim_deploy_cases f args w) as Hd.
    destruct (sim_deploy f args w) as [r w']. cbn [fst snd] in *. subst r.
    by destruct Hd as [(_ & -> & _)|(i & c' & t & Hc & [=] & _)].
  - intros c me args v w n Hm Hn. cbn [perform sim_hardhat sim_perform]. unfold sim_send. rewrite Hm.
    apply Nat.eqb_neq in Hn. rewrite Hn. cbn. split; [eauto|done].
  - intros c me args v w. cbn [perform sim_hardhat sim_perform]. pose proof (sim_send_cases c me args v w) as Hd.
    destruct (sim_send c me args v w) as [r w']. destruct Hd as [[-> He]|[-> ->]]; [by left|right].
    eexists. split; [apply (enqueue_history _ (sim_pool w))|]. split; [by intros h [= <-]|apply sim_invocation].
  - intros f t v w. right. eexists. split; [apply (enqueue_history _ (sim_pool w))|]. by intros l [= <-].
  - intros c me args w i x v E Hi Hv. cbn in E. unfold sim_call in E. change (instances (pool_latest (sim_pool w)) !! target c = Some i) in Hi.
    rewrite Hi, Hv in E. destruct x; by simplify_eq.
Qed.
End SimChain.
