(* ===== verification/DeployScripts.v ===== *)
(** The deployment scripts (scripts/*.deploy.ts, scripts/enclave-smart-account,
    scripts/enclave-smart-balance, scripts/prod-deployment): one definition per
    [main], in the order of the script's awaited calls. *)
From S2P Require Import Prelude Bytes UserOperation EnclaveRegistry VerifyingPaymaster FeeLogic Erc20 TokenPaymaster Ethers Mining Chain.

(** [await factory.deploy(...)], [waitForDeployment()], [getAddress()]: the
    sequence every deployment repeats. *)
Definition deploy_and_wait (name : string) (args : list jsval) : script contract :=
  f ← await (GetContractFactory name);
  c ← await (Deploy f args);
  _ ← await (WaitForDeployment c);
  Ret c.

(** [ENV_NAME=address] lines *)
Definition log_address (label : string) (c : contract) : script unit :=
  console_log [JStr label; JAddr (target c)].

(** registry.updateRegistryAddress(key, value) *)
Definition update_registry (registry : contract) (key : string) (value : jsval) : script Z :=
  await (Send registry "updateRegistryAddress" [JStr key; value] 0).

(** scripts/entryPoint.deploy.ts *)
Definition entryPoint_deploy_main : script unit :=
  entryPoint ← deploy_and_wait "EntryPoint" [];
  log_address "Address of entryPoint is " entryPoint.

(** scripts/misc/deployEntrypoint.ts *)
Definition misc_deployEntrypoint_main : script unit :=
  entryPoint ← deploy_and_wait "EntryPoint" [];
  log_address "ENTRY_POINT_ADDRESS=" entryPoint.

(** scripts/p256Verifier.deploy.ts *)
Definition p256Verifier_deploy_main : script unit :=
  p256Verifier ← deploy_and_wait "P256Verifier" [];
  log_address "Address of p256Verifier is " p256Verifier.

(** scripts/deployEnclaveVerifyingPaymaster.ts *)
Definition deployEnclaveVerifyingPaymaster_main : script unit :=
  f ← await (GetContractFactory "EnclaveVerifyingPaymaster");
  s ← await ProviderGetSigner;
  pm ← await (Deploy f [JAddr 0x5FbDB2315678afecb367f032d93F642f64180aa3; JAddr s]);
  _ ← await (WaitForDeployment pm);
  _ ← log_address "Address of enclaveVerifyingPaymaster is " pm;
  depositTx ← await (Send pm "deposit" [] (parseEther_milli 3000));
  await (Wait depositTx).

(** scripts/P256SmartAccount.deploy.ts *)
Definition p256_pubKey : jsval :=
  JArr [JNum 0x8c36f69ffec57a20ce5ec75c94f4d1b46bdae751fd90df035d24f4fb54a963ba;
        JNum 0x93632e668c503f14c6a3a267608326b7bb07f39c7533051d6c6274bc9eb6ab6c].
Definition P256SmartAccount_deploy_main : script unit :=
  fa ← await (GetContractFactory "P256SmartAccountFactory");
  let enclaveRegistry := JAddr 0x959DF35a4bDc25BA125615dfC84621D038A95FA8 in
  factory ← await (Deploy fa []);
  _ ← await (WaitForDeployment factory);
  _ ← log_address "Address of P256SmartAccountFactory is " factory;
  newP256Account ← await (Call factory "getAccountAddress" [p256_pubKey; enclaveRegistry; JNum 0]);
  _ ← console_log [JStr "New account: "; newP256Account];
  tx ← await (Send factory "createAccount" [p256_pubKey; enclaveRegistry; JNum 0] 0);
  _ ← await (Wait tx);
  console_log [JNum tx].

(** scripts/enclave-smart-account/3-deployAccountFactory.ts *)
Definition deployAccountFactory_main : script unit :=
  factory ← deploy_and_wait "P256SmartAccountFactory" [];
  log_address "Address of enclaveSmartAccountFactory is " factory.

(** scripts/enclave-smart-account/deployGasNftOPMainnet.ts *)
Definition deployGasNftOPMainnet_main : script unit :=
  _ ← console_log [JStr "Deploying GasNFT contract..."];
  gasNFT ← deploy_and_wait "GasNFT" [];
  log_address "GasNFT deployed to:" gasNFT.

(** scripts/enclave-smart-account/2-deployEnclaveRegistry.ts *)
Definition deployEnclaveRegistry_main : script unit :=
  enclaveRegistry ← deploy_and_wait "EnclaveRegistry" [];
  _ ← log_address "Address of enclaveRegistry is " enclaveRegistry;
  let usdcAddress := JAddr 0x75faf114eafb1BDbe2F0316DF893fd58CE46AA4d in
  let paymasterAddress := JAddr 0x166c2b871C6011ae063Cf10feb4efd95eADC6594 in
  _ ← update_registry enclaveRegistry "entryPoint" (JAddr 0x5FF137D4b0FDCD49DcA30c7CF57E578a026d2789);
  _ ← update_registry enclaveRegistry "paymaster" paymasterAddress;
  _ ← update_registry enclaveRegistry "paymentToken" usdcAddress;
  Ret tt.

(** EntryPoint and EnclaveVerifyingPaymaster with its deposit, the common start
    of the deployAll scripts. *)
Definition deploy_paymaster (entryPoint : jsval) (deposit_milli : Z) : script contract :=
  f ← await (GetContractFactory "EnclaveVerifyingPaymaster");
  s ← await ProviderGetSigner;
  pm ← await (Deploy f [entryPoint; JAddr s]);
  _ ← await (WaitForDeployment pm);
  _ ← log_address "ENCLAVE_VERIFYING_PAYMASTER_ADDRESS=" pm;
  depositTx ← await (Send pm "deposit" [] (parseEther_milli deposit_milli));
  _ ← await (Wait depositTx);
  Ret pm.
Definition deploy_verifier_and_factory : script (contract * contract) :=
  p256Verifier ← deploy_and_wait "P256Verifier" [];
  _ ← log_address "P256_VERIFIER_ADDRESS=" p256Verifier;
  factory ← deploy_and_wait "P256SmartAccountFactory" [];
  _ ← log_address "ENCLAVE_P256_SMART_ACCOUNT_FACTORY_ADDRESS=" factory;
  Ret (p256Verifier, factory).

(** scripts/enclave-smart-account/deployAll.ts *)
Definition deployAll_main : script unit :=
  entryPoint ← deploy_and_wait "EntryPoint" [];
  _ ← log_address "ENTRY_POINT_ADDRESS=" entryPoint;
  paymaster ← deploy_paymaster (JAddr (target entryPoint)) 500;
  feelogic ← deploy_and_wait "EnclaveFeeLogicTestnet" [];
  _ ← log_address "FEELOGIC_ADDRESS=" feelogic;
  mockUSDC ← deploy_and_wait "MockUSDC" [JStr "USDC"; JStr "USDC"];
  _ ← log_address "MOCK_USDC_ADDRESS=" mockUSDC;
  f ← await (GetContractFactory "EnclaveVerifyingTokenPaymaster");
  s ← await ProviderGetSigner;
  tokenPaymaster ← await (Deploy f [JAddr (target entryPoint); JAddr s; JAddr (target mockUSDC); JAddr (target feelogic)]);
  _ ← await (WaitForDeployment tokenPaymaster);
  _ ← log_address "ENCLAVE_TOKEN_PAYMASTER_ADDRESS=" tokenPaymaster;
  '(p256Verifier, factory) ← deploy_verifier_and_factory;
  enclaveRegistry ← deploy_and_wait "EnclaveRegistry" [];
  _ ← log_address "ENCLAVE_REGISTRY_ADDRESS=" enclaveRegistry;
  _ ← update_registry enclaveRegistry "entryPoint" (JAddr (target entryPoint));
  _ ← update_registry enclaveRegistry "enclaveVerifyingPaymaster" (JAddr (target paymaster));
  _ ← update_registry enclaveRegistry "enclaveTokenPaymaster" (JAddr (target tokenPaymaster));
  _ ← update_registry enclaveRegistry "paymentToken" (JAddr (target mockUSDC));
  _ ← update_registry enclaveRegistry "p256Verifier" (JAddr (target p256Verifier));
  _ ← update_registry enclaveRegistry "p256SmartAccountFactory" (JAddr (target factory));
  console_log [JStr "Registry updated"].

(** scripts/enclave-smart-account/deployAll{ArbMain,OpMain,OpSepolia}.ts: one
    text, up to the paymaster's deposit and the payment token. *)
Definition deployAllOn (deposit_milli : Z) (paymentToken : address) : script unit :=
  s ← await ProviderGetSigner;
  _ ← console_log [JStr "VERIFIER_ADDRESS="; JAddr s];
  entryPoint ← deploy_and_wait "EntryPoint" [];
  _ ← log_address "ENTRY_POINT_ADDRESS=" entryPoint;
  paymaster ← deploy_paymaster (JAddr (target entryPoint)) deposit_milli;
  '(p256Verifier, factory) ← deploy_verifier_and_factory;
  enclaveRegistry ← deploy_and_wait "EnclaveRegistry" [];
  _ ← log_address "ENCLAVE_REGISTRY_ADDRESS=" enclaveRegistry;
  _ ← update_registry enclaveRegistry "entryPoint" (JAddr (target entryPoint));
  _ ← update_registry enclaveRegistry "enclaveVerifyingPaymaster" (JAddr (target paymaster));
  _ ← update_registry enclaveRegistry "paymaster" (JAddr (target paymaster));
  _ ← update_registry enclaveRegistry "paymentToken" (JAddr paymentToken);
  _ ← update_registry enclaveRegistry "p256Verifier" (JAddr (target p256Verifier));
  _ ← update_registry enclaveRegistry "p256SmartAccountFactory" (JAddr (target factory));
  console_log [JStr "Registry updated"].
Definition deployAllArbMain_main : script unit := deployAllOn 12 0xaf88d065e77c8cC2239327C5EDb3A432268e5831.
Definition deployAllOpMain_main : script unit := deployAllOn 10 0x0b2C639c533813f4Aa9D7837CAf62653d097Ff85.
Definition deployAllOpSepolia_main : script unit := deployAllOn 20 0x5fd84259d66Cd46123540766Be93DFE6D43130D7.

(** scripts/enclave-smart-account/deployProd.ts *)
Definition deployProd_main : script unit :=
  let entryPointAddress := JStr "" in
  _ ← console_log [JStr "ENTRY_POINT_ADDRESS="; entryPointAddress];
  paymaster ← deploy_paymaster entryPointAddress 500;
  feelogic ← deploy_and_wait "EnclaveFeeLogicUniswap"
    [JAddr 0xa0b86991c6218b36c1d19d4a2e9eb0ce3606eb48; JAddr 0x1f98431c8ad98523631ae4a59f267346ea31f984;
     JNum 1010; JNum 1000];
  _ ← log_address "FEELOGIC_ADDRESS=" feelogic;
  let usdcAddress := JStr "" in
  f ← await (GetContractFactory "EnclaveVerifyingTokenPaymaster");
  s ← await ProviderGetSigner;
  tokenPaymaster ← await (Deploy f [entryPointAddress; JAddr s; usdcAddress; JAddr (target feelogic)]);
  _ ← await (WaitForDeployment tokenPaymaster);
  _ ← log_address "ENCLAVE_TOKEN_PAYMASTER_ADDRESS=" tokenPaymaster;
  '(p256Verifier, factory) ← deploy_verifier_and_factory;
  enclaveRegistry ← deploy_and_wait "EnclaveRegistry" [];
  _ ← log_address "ENCLAVE_REGISTRY_ADDRESS=" enclaveRegistry;
  _ ← update_registry enclaveRegistry "entryPoint" entryPointAddress;
  _ ← update_registry enclaveRegistry "enclaveVerifyingPaymaster" (JAddr (target paymaster));
  _ ← update_registry enclaveRegistry "enclaveTokenPaymaster" (JAddr (target tokenPaymaster));
  _ ← update_registry enclaveRegistry "paymentToken" usdcAddress;
  _ ← update_registry enclaveRegistry "p256Verifier" (JAddr (target p256Verifier));
  _ ← update_registry enclaveRegistry "p256SmartAccountFactory" (JAddr (target factory));
  console_log [JStr "Registry updated"].

(** scripts/prod-deployment/1-registry.ts *)
Definition prod_owner : address := 0xD02Fd04e15a595019b7c60Eb257B3B7D333F6C00.
Definition registry_main : script unit :=
  signers ← await GetSigners;
  signerAddr ← at_index signers 0;
  _ ← console_log [JStr "Signer address:"; JAddr signerAddr];
  EnclaveRegistry ← await (GetContractFactory "EnclaveRegistry");
  enclaveRegistry ← await (Deploy EnclaveRegistry [JAddr prod_owner]);
  _ ← await (WaitForDeployment enclaveRegistry);
  log_address "Deployed Registry: " enclaveRegistry.

(** scripts/prod-deployment/2-accountFactory.ts *)
Definition accountFactory_main : script unit :=
  signers ← await GetSigners;
  signerAddr ← at_index signers 0;
  _ ← console_log [JStr "Signer address:"; JAddr signerAddr];
  factory ← deploy_and_wait "P256SmartAccountFactory" [];
  _ ← log_address "ENCLAVE_P256_SMART_ACCOUNT_FACTORY_ADDRESS=" factory;
  dummy ← await (Call factory "getAccountAddress"
    [JArr [JNum 1; JNum 2]; JAddr 0xA8E8f8cBD889Fc74882AeDFDcf8323fD7423DB47; JNum 0]);
  console_log [JStr "Dummy Address: "; dummy].

(** scripts/prod-deployment/3-paymasters.ts *)
Definition prod_entryPoint : address := 0x5FF137D4b0FDCD49DcA30c7CF57E578a026d2789.
Definition prod_dataFeed : address := 0x976B3D034E162d8bD72D6b9C989d545b839003b0.
Definition prod_paymentToken : address := 0x9702230a8ea53601f5cd2dc00fdbc13d4df4a8c7.
Definition paymasters_main : script unit :=
  signers ← await GetSigners;
  signerAddr ← at_index signers 0;
  _ ← console_log [JStr "Signer address:"; JAddr signerAddr];
  paymasterFactory ← await (GetContractFactory "EnclaveVerifyingPaymaster");
  paymaster ← await (Deploy paymasterFactory [JAddr prod_entryPoint; JAddr signerAddr]);
  _ ← await (WaitForDeployment paymaster);
  _ ← log_address "Paymaster=" paymaster;
  res1 ← await (Send paymaster "deposit" [] (parseEther_milli 100));
  _ ← console_log [JStr "deposited in paymaster"];
  feeLogicFactory ← await (GetContractFactory "EnclaveFeeLogicMainnet");
  feeLogic ← await (Deploy feeLogicFactory [JAddr prod_dataFeed; JNum 20]);
  _ ← await (WaitForDeployment feeLogic);
  _ ← log_address "Fee Logic=" feeLogic;
  tokenPaymasterFactory ← await (GetContractFactory "EnclaveVerifyingTokenPaymaster");
  tokenPaymaster ← await (Deploy tokenPaymasterFactory
    [JAddr prod_entryPoint; JAddr signerAddr; JAddr prod_paymentToken; JAddr (target feeLogic)]);
  _ ← await (WaitForDeployment tokenPaymaster);
  log_address "TokenPaymaster=" tokenPaymaster.

(** scripts/prod-deployment/5-deployaccount.ts *)
Definition prod_pubKey : jsval :=
  JArr [JNum 0x440d8eb746e0a6b8da200ed3928ae2db1aa120950200911eca935a05c61ea99a;
        JNum 0x76daad039c44388a531369885b9f65c2d540d0b64726d77077801e1c21bc6c1c].
Definition deployaccount_main : script unit :=
  signers ← await GetSigners;
  signerAddr ← at_index signers 0;
  _ ← console_log [JStr "Signer address:"; JAddr signerAddr];
  f ← await (GetContractFactory "P256SmartAccountFactory");
  let factory := attach f 0x502674c8eF6A87A9C485df592033796A5ad71607 in
  dummy ← await (Call factory "getAccountAddress"
    [prod_pubKey; JAddr 0xA8E8f8cBD889Fc74882AeDFDcf8323fD7423DB47; JNum 0]);
  _ ← console_log [JStr "Dummy Address: "; dummy];
  res ← await (Send factory "createAccount"
    [prod_pubKey; JAddr 0xA8E8f8cBD889Fc74882AeDFDcf8323fD7423DB47; JNum 0] 0);
  console_log [JNum res].

(** scripts/enclave-smart-account/1-deployTokenPaymasterArbSepoliaTestnet.ts *)
Definition arbSepolia_usdc : address := 0x75faf114eafb1BDbe2F0316DF893fd58CE46AA4d.
Definition deployTokenPaymasterArbSepoliaTestnet_main : script unit :=
  verifyingSigner ← await ProviderGetSigner;
  entrypointFactory ← await (GetContractFactory "EntryPoint");
  let entryPoint := attach entrypointFactory prod_entryPoint in
  enclaveRegistryFactory ← await (GetContractFactory "EnclaveRegistry");
  let enclaveRegistry := attach enclaveRegistryFactory 0x959DF35a4bDc25BA125615dfC84621D038A95FA8 in
  usdcFactory ← await (GetContractFactory "ERC20");
  let usdc := attach usdcFactory arbSepolia_usdc in
  feeLogicContractFactory ← await (GetContractFactory "EnclaveFeeLogicTestnet");
  feeLogicContract ← await (Deploy feeLogicContractFactory []);
  _ ← await (WaitForDeployment feeLogicContract);
  _ ← log_address "EnclaveFeeLogicTestnet deployed to: " feeLogicContract;
  verifyingTokenPaymasterFactory ← await (GetContractFactory "EnclaveVerifyingTokenPaymaster");
  verifyingTokenPaymaster ← await (Deploy verifyingTokenPaymasterFactory
    [JAddr (target entryPoint); JAddr verifyingSigner; JAddr (target usdc); JAddr (target feeLogicContract)]);
  _ ← await (WaitForDeployment verifyingTokenPaymaster);
  log_address "EnclaveVerifyingTokenPaymaster deployed to: " verifyingTokenPaymaster.

(** scripts/enclave-smart-account/setPaymasterAndPaymentToken.ts *)
Definition deployed_registry : address := 0xB7283976e6084749084f4f0944146E7F168cEe38.
Definition setPaymasterAndPaymentToken_main : script unit :=
  verifyingSigner ← await ProviderGetSigner;
  _ ← console_log [JStr "VERIFIER_ADDRESS="; JAddr verifyingSigner];
  enclaveRegistry ← await (GetContractAt "EnclaveRegistry" deployed_registry);
  _ ← await (Send enclaveRegistry "updateRegistryAddress" [JStr "entryPoint"; JAddr prod_entryPoint] 0);
  console_log [JStr "Registry updated"].

(** ** Exit statuses *)

Section exits.
Context {W : Type} `{HardhatLaws W}.

(** Status and final world of [main().catch(...)], and its contracts once
    everything sent is mined. *)
Definition exits_world (main : script unit) (w : W) (Q : Z → W → Prop) : Prop :=
  wp (exit_catch main) (λ r w', match r with inl c => Q c w' | inr _ => Q 1 w' end) w.
Definition exits (main : script unit) (w : W) (Q : Z → gmap address instance → Prop) : Prop :=
  exits_world main w (λ c w', Q c (contracts w')).

Lemma exits_main main w (Q : Z → gmap address instance → Prop) :
  wp main (λ r w', match r with inl _ => Q 0 (contracts w') | inr _ => Q 1 (contracts w') end) w →
  exits main w Q.
Proof.
  intros Hm. apply (wp_exit_catch main (λ c w', Q c (contracts w'))); [|done].
  intros l e w' Hq. unfold contracts. by rewrite query_settled.
Qed.
End exits.

(** ** Scripts and invariants

    An invariant of the chain that survives foreign contracts and the
    deployment of instances accepted by [ok]. *)
Class ChainInv (I : gmap address instance → Prop) (ok : instance → bool) := {
  inv_extends : ∀ m m', extends m m' → I m → I m';
  inv_insert : ∀ m a i, m !! a = None → ok i = true → I m → I (<[a := i]> m)
}.

Section invariants.
Context {W : Type} `{HardhatLaws W} (I : gmap address instance → Prop) (ok : instance → bool) `{!ChainInv I ok}.

(** [keeps]: whether it resolves or rejects, the script leaves the invariant;
    [fails]: it also always rejects. *)
Definition keeps {A} (p : script A) : Prop :=
  ∀ w : W, I (contracts w) → wp p (λ _ w', I (contracts w')) w.
Definition fails {A} (p : script A) : Prop :=
  ∀ w : W, I (contracts w) → wp p (λ r w', (∃ e, r = inr e) ∧ I (contracts w')) w.

Lemma keeps_ret {A} (a : A) : keeps (Ret a).
Proof. by intros w Hi. Qed.
Lemma keeps_bind {A B} (p : script A) (f : A → script B) :
  keeps p → (∀ a, keeps (f a)) → keeps (p ≫= f).
Proof.
  intros Hp Hf w Hi. apply wp_bind. eapply wp_mono; [by apply Hp|].
  intros [a|e] w' Hi'; [by apply Hf|done].
Qed.
Lemma fails_bind_l {A B} (p : script A) (f : A → script B) : fails p → fails (p ≫= f).
Proof.
  intros Hp w Hi. apply wp_bind. eapply wp_mono; [by apply Hp|].
  intros [a|e] w' [[e' E] Hi']; [done|eauto].
Qed.
Lemma fails_bind_r {A B} (p : script A) (f : A → script B) :
  keeps p → (∀ a, fails (f a)) → fails (p ≫= f).
Proof.
  intros Hp Hf w Hi. apply wp_bind. eapply wp_mono; [by apply Hp|].
  intros [a|e] w' Hi'; [by apply Hf|eauto].
Qed.

Lemma keeps_query {R : Set} (o : op R) : is_query o = true → keeps (await o).
Proof.
  intros Ho w Hi. apply wp_query; [done|]. intros r w' Hw _. by rewrite (view_contracts w w' Hw).
Qed.
Lemma keeps_factory_bind {B} n (f : factory → script B) :
  keeps (f (Factory n)) → keeps (await (GetContractFactory n) ≫= f).
Proof.
  intros Hf w Hi. apply wp_factory_bind; intros; [|apply Hf];
    by match goal with E : view_of _ = _ |- _ => rewrite (view_contracts _ _ E) end.
Qed.
Lemma fails_factory_bind {B} n (f : factory → script B) :
  fails (f (Factory n)) → fails (await (GetContractFactory n) ≫= f).
Proof.
  intros Hf w Hi. apply wp_factory_bind; intros; [|apply Hf];
    match goal with E : view_of _ = _ |- _ => rewrite (view_contracts _ _ E) end; eauto.
Qed.

Definition accepted (n : string) (args : list jsval) : Prop :=
  ∀ m i, construct m n args = Some i → ok i = true.

(** A deployment, mined or reverted. *)
Lemma inv_creation {R : Set} (o : op R) n args a t (w : W) :
  accepted n args → creation w n args a t → history (perform o w).2 = history w ++ [t] →
  I (contracts w) → I (contracts (perform o w).2).
Proof.
  intros Ha (_ & Hf & i & Hc & Hl) Hh Hi. rewrite (contracts_snoc o w t Hh).
  destruct (tx_effect t (settled w)) as [l|]; [|done]. destruct (Hl l eq_refl) as [Hx _].
  eapply inv_extends; [exact Hx|]. apply inv_insert; [done|by eapply Ha|done].
Qed.

Lemma keeps_deploy n args : accepted n args → keeps (await (Deploy (Factory n) args)).
Proof.
  intros Ha w Hi. apply wp_await. destruct (perform (Deploy (Factory n) args) w).1 as [c|e] eqn:E.
  - destruct (deploy_resolves _ _ _ _ E) as (_ & _ & t & Hh & Hc). by eapply inv_creation.
  - destruct (deploy_rejects _ _ _ _ E) as [Hh|(a & t & Hh & Hc)]; [|by eapply inv_creation].
    by rewrite (view_contracts w) by (by apply view_intro).
Qed.
Lemma fails_deploy n args : (∀ m, construct m n args = None) → fails (await (Deploy (Factory n) args)).
Proof.
  intros Hc w Hi. apply wp_await. destruct (deploy_misfit (Factory n) args w (Hc _)) as [[e E] Hh].
  rewrite E. split; [eauto|]. by rewrite (view_contracts w) by (by apply view_intro).
Qed.

Lemma keeps_deploy_and_wait n args : accepted n args → keeps (deploy_and_wait n args).
Proof.
  intros Ha. apply keeps_factory_bind, keeps_bind; [by apply keeps_deploy|]. intros c.
  apply keeps_bind; [by apply keeps_query|]. intros. apply keeps_ret.
Qed.
Lemma fails_deploy_and_wait n args : (∀ m, construct m n args = None) → fails (deploy_and_wait n args).
Proof. intros Hc. by apply fails_factory_bind, fails_bind_l, fails_deploy. Qed.

(** [deposit()] changes no instance, whatever contract it reaches. *)
Lemma dispatch_deposit m l i l' :
  dispatch m l i "deposit" [] = Some (Ok l') →
  instances l' = instances l ∧ ∃ ep, entryPoint_of i = Some ep ∧ deposits l' = credit ep (self m) (msg_value m) (deposits l).
Proof.
  unfold dispatch. rewrite bool_decide_eq_true_2 by done. destruct (entryPoint_of i) as [ep|].
  - intros [= <-]. eauto.
  - by destruct i.
Qed.
Lemma keeps_deposit c v : keeps (await (Send c "deposit" [] v)).
Proof.
  intros w Hi. apply wp_await. pose proof (send_sends c "deposit" [] v w) as Hr.
  pose proof (λ t, contracts_snoc (Send c "deposit" [] v) w t) as Hs.
  pose proof (λ E, view_contracts w _ (view_intro (Send c "deposit" [] v) w E)) as Hv.
  destruct (perform (Send c "deposit" [] v) w) as [r w']. cbn [fst snd] in *.
  destruct Hr as [[Hh _]|(t & Hh & _ & _ & Hl)]; [by rewrite (Hv Hh)|]. rewrite (Hs t Hh).
  destruct (tx_effect t (settled w)) as [l|]; [|done]. specialize (Hl l eq_refl).
  destruct (contracts w !! target c) as [i|]; [|by eapply inv_extends; [apply Hl|]].
  destruct i; try (by eapply inv_extends; [apply Hl|]); by apply dispatch_deposit in Hl as [-> _].
Qed.

Lemma keeps_log l : keeps (console_log l).
Proof. by apply keeps_query. Qed.

Lemma keeps_deploy_paymaster ep v :
  (∀ s, accepted "EnclaveVerifyingPaymaster" [ep; JAddr s]) → keeps (deploy_paymaster ep v).
Proof.
  intros Ha. apply keeps_factory_bind, keeps_bind; [by apply keeps_query|]. intros s.
  apply keeps_bind; [by apply keeps_deploy|]. intros c.
  repeat (apply keeps_bind; [first [by apply keeps_query|apply keeps_deposit]|intros ?]). apply keeps_ret.
Qed.
Lemma keeps_deploy_verifier_and_factory :
  accepted "P256Verifier" [] → accepted "P256SmartAccountFactory" [] → keeps deploy_verifier_and_factory.
Proof.
  intros Hv Hf. apply keeps_bind; [by apply keeps_deploy_and_wait|]. intros c.
  apply keeps_bind; [apply keeps_log|]. intros _.
  apply keeps_bind; [by apply keeps_deploy_and_wait|]. intros c'.
  apply keeps_bind; [apply keeps_log|]. intros _. apply keeps_ret.
Qed.

Lemma fails_exits main (w : W) Q :
  fails main → I (contracts w) → (∀ m, I m → Q 1 m) → exits main w Q.
Proof.
  intros Hf Hi HQ. apply exits_main. eapply wp_mono; [by apply Hf|].
  intros r w' [[e ->] Hi']. auto.
Qed.
Lemma keeps_exits main (w : W) :
  keeps main → I (contracts w) → exits main w (λ _ m, I m).
Proof. intros Hf Hi. apply exits_main. eapply wp_mono; [by apply Hf|]. by intros []. Qed.
End invariants.

(** Symbolic execution of a script against an invariant. *)
Ltac accept :=
  let Ha := fresh in intros ? ? Ha; vm_compute in Ha; injection Ha as <-; reflexivity.
Ltac keep_step :=
  first
    [ apply keeps_log
    | apply keeps_ret
    | apply keeps_deposit; apply _
    | apply keeps_query; reflexivity
    | eapply keeps_deploy_and_wait; [apply _|accept]
    | eapply keeps_deploy; [apply _|accept]
    | eapply keeps_deploy_paymaster; [apply _|intros ?; accept]
    | eapply keeps_deploy_verifier_and_factory; [apply _|accept|accept] ].

(** A script that is bound to fail at a deployment whose arguments never fit. *)
Ltac fail_script misfit :=
  repeat first
    [ eapply fails_bind_l, fails_deploy_and_wait; apply misfit
    | match goal with |- fails _ (match ?x with pair _ _ => _ end) => destruct x end
    | eapply fails_factory_bind
    | eapply fails_bind_r; [keep_step|intros ?] ].

(** ** Invariants of the chain *)

Definition registries (m : gmap address instance) : gmap address instance :=
  filter (λ ai, is_registry ai.2 = true) m.

Lemma registries_lookup m a i : registries m !! a = Some i ↔ m !! a = Some i ∧ is_registry i = true.
Proof. unfold registries. by rewrite map_lookup_filter_Some. Qed.

Lemma is_registry_not_other i : is_registry i = true → is_other i = true → False.
Proof. by destruct i. Qed.

#[global] Instance registries_inv (R : gmap address instance) :
  ChainInv (λ m, registries m = R) (λ i, negb (is_registry i)).
Proof.
  split.
  - intros m m' [Hs Ha] <-. apply map_eq. intros a. apply option_eq. intros i.
    rewrite !registries_lookup. split; intros [Hi Hr]; (split; [|done]); [|by eapply lookup_weaken].
    destruct (m !! a) as [j|] eqn:Hm.
    + pose proof (lookup_weaken _ _ _ _ Hm Hs). congruence.
    + exfalso. eapply is_registry_not_other; [done|by eapply Ha].
  - intros m a i Hm Hi <-. unfold registries. apply negb_true_iff in Hi.
    rewrite map_filter_insert_not'; [done|cbn; congruence|congruence].
Qed.

#[global] Instance extends_inv (m0 : gmap address instance) : ChainInv (extends m0) is_other.
Proof.
  split.
  - intros m m' Hx Hi. by etrans.
  - intros m a i Hm Hi Hx. etrans; [exact Hx|]. split; [by apply insert_subseteq|].
    intros b j. rewrite lookup_insert_Some. intros [[<- <-]|[_ Hj]] Hn; [done|congruence].
Qed.

Section deployments.
Context {W : Type} `{HardhatLaws W}.

Abbreviation same_registries w := (λ m, registries m = registries (contracts w)).

Lemma registry_no_args m : construct m "EnclaveRegistry" [] = None.
Proof. reflexivity. Qed.

Lemma deployAllOn_fails (w : W) v t : fails (W := W) (same_registries w) (deployAllOn v t).
Proof. unfold deployAllOn. fail_script registry_no_args. Qed.
Lemma deployAll_fails (w : W) : fails (W := W) (same_registries w) deployAll_main.
Proof. unfold deployAll_main. fail_script registry_no_args. Qed.
Lemma deployEnclaveRegistry_fails (w : W) : fails (W := W) (same_registries w) deployEnclaveRegistry_main.
Proof. unfold deployEnclaveRegistry_main. fail_script registry_no_args. Qed.

(** C37: The registry is never deployed by the deployAll scripts nor by
    2-deployEnclaveRegistry: EnclaveRegistry's constructor takes the owner, the
    scripts call [deploy()] without it, so on every chain each of the five
    scripts ends with status 1 and the chain has exactly the registries (with
    the contents) it had before. *)
Theorem registry_deployment_scripts_fail (main : script unit) (w : W) :
  main ∈ [deployAll_main; deployAllArbMain_main; deployAllOpMain_main; deployAllOpSepolia_main;
          deployEnclaveRegistry_main] →
  exits main w (λ status m, status = 1 ∧ registries m = registries (contracts w)).
Proof.
  intros Hin. eapply (fails_exits (same_registries w)); [|done|by intros].
  repeat (apply elem_of_cons in Hin as [->|Hin]).
  - apply deployAll_fails.
  - apply deployAllOn_fails.
  - apply deployAllOn_fails.
  - apply deployAllOn_fails.
  - apply deployEnclaveRegistry_fails.
  - by apply elem_of_nil in Hin.
Qed.

Lemma paymaster_empty_entryPoint m s : construct m "EnclaveVerifyingPaymaster" [JStr ""; s] = None.
Proof. reflexivity. Qed.

(** deployProd.ts cannot deploy anything: with its empty entry point
    address the first deployment rejects, so it ends with status 1 and every
    contract of the chain is untouched, on every chain. *)
Theorem deployProd_deploys_nothing (w : W) :
  exits deployProd_main w (λ status m, status = 1 ∧ extends (contracts w) m).
Proof.
  eapply (fails_exits (extends (contracts w))); [|done|by intros].
  eapply fails_bind_r; [keep_step|intros _]. apply fails_bind_l, fails_factory_bind.
  eapply fails_bind_r; [keep_step|intros s].
  apply fails_bind_l, fails_deploy. intros m. apply paymaster_empty_entryPoint.
Qed.

End deployments.

(** ** Scripts that resolve

    [resolves p S w]: if [p] resolves from [w], the result and the final world
    satisfy [S].  The rules have a single premise, for the resolved case. *)
Section resolves.
Context {W : Type} `{HardhatLaws W}.

Definition resolves {A} (p : script A) (S : A → W → Prop) (w : W) : Prop :=
  wp p (λ r w', match r with inl a => S a w' | inr _ => True end) w.

(** The world after a call that sends nothing. *)
Definition quiet (w w' : W) : Prop := view_of w' = view_of w ∧ (pending w = [] → pending w' = []).

#[global] Instance quiet_preorder : PreOrder quiet.
Proof. split; [by intros w|]. intros w1 w2 w3 [E1 P1] [E2 P2]. split; [congruence|auto]. Qed.
Lemma quiet_intro {R : Set} (o : op R) (w : W) : is_query o = true → quiet w (perform o w).2.
Proof. intros Ho. split; [by apply view_intro, query_sends_nothing|by apply query_pending]. Qed.
Lemma quiet_history (w w' : W) : quiet w w' → history w' = history w ∧ settled w' = settled w.
Proof. intros [E _]. split; [unfold view_of in E; congruence|by apply view_settled]. Qed.

Lemma resolves_bind {A B} (p : script A) (f : A → script B) S (w : W) :
  resolves p (λ a w', resolves (f a) S w') w → resolves (p ≫= f) S w.
Proof. unfold resolves. intros Hp. apply wp_bind. eapply wp_mono; [exact Hp|]. by intros []. Qed.

Lemma resolves_await {R : Set} {B} (o : op R) (f : R → script B) S (w : W) :
  is_query o = true →
  (∀ v w', contracts w' = contracts w → signer w' = signer w → quiet w w' → (perform o w).1 = inl v → resolves (f v) S w') →
  resolves (await o ≫= f) S w.
Proof.
  intros Ho Hf. apply wp_bind, wp_await. pose proof (quiet_intro o w Ho) as Hq.
  destruct (view_eqs w _ (proj1 Hq)). destruct (perform o w).1 as [v|e] eqn:E; [by apply Hf|done].
Qed.
Lemma resolves_query {R : Set} {B} (o : op R) (f : R → script B) S (w : W) :
  is_query o = true →
  (∀ v w', contracts w' = contracts w → signer w' = signer w → quiet w w' → resolves (f v) S w') →
  resolves (await o ≫= f) S w.
Proof. intros Ho Hf. apply resolves_await; [done|]. intros. by apply Hf. Qed.
Lemma resolves_last {R : Set} (o : op R) S (w : W) :
  is_query o = true → (∀ v w', contracts w' = contracts w → signer w' = signer w → quiet w w' → S v w') →
  resolves (await o) S w.
Proof.
  intros Ho Hs. apply wp_await. pose proof (quiet_intro o w Ho) as Hq.
  destruct (view_eqs w _ (proj1 Hq)). destruct (perform o w).1 as [v|e]; [by apply Hs|done].
Qed.
Lemma resolves_getSigner {B} (f : address → script B) S (w : W) :
  (∀ w', contracts w' = contracts w → signer w' = signer w → quiet w w' → resolves (f (signer w)) S w') →
  resolves (await ProviderGetSigner ≫= f) S w.
Proof. intros Hf. apply resolves_await; [done|]. intros a w' E1 E2 Hq ->%getSigner_first. by apply Hf. Qed.
Lemma resolves_first_signer {B} (f : address → script B) S (w : W) :
  (∀ w', contracts w' = contracts w → signer w' = signer w → quiet w w' → resolves (f (signer w)) S w') →
  resolves (await GetSigners ≫= λ l, at_index l 0 ≫= f) S w.
Proof.
  intros Hf. apply resolves_await; [done|]. intros l w' E1 E2 Hq Hl%getSigners_head.
  eapply wp_first_bind; [exact Hl|done|by apply Hf].
Qed.
Lemma resolves_factory {B} n (f : factory → script B) S (w : W) :
  (∀ w', contracts w' = contracts w → signer w' = signer w → quiet w w' → resolves (f (Factory n)) S w') →
  resolves (await (GetContractFactory n) ≫= f) S w.
Proof.
  intros Hf. apply resolves_await; [done|]. intros [m] w' E1 E2 Hq [E _]%factory_known. cbn in E. subst m. by apply Hf.
Qed.
Lemma resolves_contractAt {B} n a (f : contract → script B) S (w : W) :
  (∀ w', contracts w' = contracts w → signer w' = signer w → quiet w w' → resolves (f (Contract n a)) S w') →
  resolves (await (GetContractAt n a) ≫= f) S w.
Proof. intros Hf. apply resolves_await; [done|]. intros c w' E1 E2 Hq ->%contractAt_known. by apply Hf. Qed.

(** A deployment that was sent and mined: the transaction that did it. *)
Definition deployed_by (w w' : W) (a : address) (i : instance) (t : tx ledger) : Prop :=
  genesis w' = genesis w ∧ history w' = history w ++ [t] ∧ pending w' = [] ∧
  tx_creates t = Some a ∧ is_Some (tx_effect t (settled w)) ∧
  (is_other i = false → deposits (settled w') = deposits (settled w)).

(** [await factory.deploy(...)] and [waitForDeployment()] *)
Lemma resolves_deploy {B} n args i (f : contract → script B) S (w : W) :
  construct (tx_msg w 0 0) n args = Some i →
  (∀ a w' t, contracts w !! a = None → extends (<[a := i]> (contracts w)) (contracts w') →
     signer w' = signer w → deployed_by w w' a i t → resolves (f (Contract n a)) S w') →
  resolves (await (Deploy (Factory n) args) ≫= λ c, await (WaitForDeployment c) ≫= λ _, f c) S w.
Proof.
  intros Hc Hf. apply wp_deploy_bind; [done|]. intros a t w1 Hg1 Hs1 Hh1 (Ht & Hn & j & Hj & Hl).
  split; [done|]. intros _. cbn in Hj. rewrite Hc in Hj. simplify_eq. cbn [factory_artifact].
  apply wp_bind, wp_await. set (o := WaitForDeployment (Contract n a)).
  pose proof (quiet_intro o w1 eq_refl) as Q2. pose proof (wait_deployed (Contract n a) w1) as Hw. fold o in Hw.
  destruct (perform o w1).1 as [[]|e]; [|done]. specialize (Hw eq_refl). set (w2 := (perform o w1).2) in *.
  destruct (quiet_history _ _ Q2) as [Hh2 Ht2]. rewrite Hh1 in Hh2. destruct (view_eqs _ _ (proj1 Q2)) as [_ Hs2].
  assert (genesis w2 = genesis w) as Hg2 by (destruct Q2 as [E _]; unfold view_of in E; congruence).
  destruct (included_last _ w2 (history w) t Hh2 Ht Hw) as [Hp [l El]].
  rewrite Hg2 in El. change (tx_effect t (settled w) = Some l) in El.
  assert (settled w2 = l) as Es by (rewrite (settled_snoc w w2 t Hg2 Hh2); unfold mine; by rewrite El).
  destruct (Hl l El) as [Hx Hd]. apply (Hf a w2 t); [done| |congruence|].
  - unfold contracts at 2. by rewrite Es.
  - unfold deployed_by. rewrite Es. eauto 10.
Qed.

(** A deposit that was sent: the transaction, and what it does when it is mined. *)
Definition deposited_by (w w' : W) (ep a : address) (v : Z) (t : tx ledger) : Prop :=
  genesis w' = genesis w ∧ history w' = history w ++ [t] ∧
  deposits (settled w') =
    match tx_effect t (settled w) with
    | Some _ => credit ep a v (deposits (settled w))
    | None => deposits (settled w)
    end.

Lemma resolves_deposit {B} c v i ep (f : Z → script B) S (w : W) :
  contracts w !! target c = Some i → entryPoint_of i = Some ep →
  (∀ w' t, contracts w' = contracts w → signer w' = signer w → deposited_by w w' ep (target c) v t →
     resolves (f (tx_hash t)) S w') →
  resolves (await (Send c "deposit" [] v) ≫= f) S w.
Proof.
  intros Hc Hep Hf. apply wp_send_bind; [done|]. intros t w' Hg Hs Hh [_ Hl]. split; [done|].
  assert (∀ l, tx_effect t (settled w) = Some l →
    instances l = contracts w ∧ deposits l = credit ep (target c) v (deposits (settled w))) as Hd.
  { intros l E. specialize (Hl l E). rewrite Hc in Hl.
    assert (dispatch (tx_msg w (target c) v) (settled w) i "deposit" [] = Some (Ok l)) as El by (by destruct i).
    apply dispatch_deposit in El as [Ei (ep' & Hep' & Ed)]. rewrite Hep in Hep'. by simplify_eq. }
  pose proof (settled_snoc w w' t Hg Hh) as Es. unfold mine in Es.
  apply (Hf w' t); [|done|split; [done|split; [done|]]].
  - unfold contracts at 1. rewrite Es. destruct (tx_effect t (settled w)) as [l|]; [|done]. by apply Hd.
  - rewrite Es. destruct (tx_effect t (settled w)) as [l|]; [|done]. by apply Hd.
Qed.

Lemma exits_resolves_world main (w : W) (S : W → Prop) (I : gmap address instance → Prop) :
  resolves main (λ _ w', S w') w → keeps (W := W) I main → I (contracts w) →
  exits_world main w (λ status w', (status = 0 → S w') ∧ I (contracts w')).
Proof.
  intros Hr Hk Hi. apply (wp_exit_catch main (λ c w', (c = 0 → S w') ∧ I (contracts w'))).
  - intros l e w' [_ Hw']. split; [done|]. unfold contracts. by rewrite query_settled.
  - specialize (Hk w Hi). unfold resolves, wp in *. by destruct (run main w) as [[u|e] w'].
Qed.
Lemma exits_resolves main (w : W) (S : gmap address instance → Prop) (I : gmap address instance → Prop) :
  resolves main (λ _ w', S (contracts w')) w → keeps (W := W) I main → I (contracts w) →
  exits main w (λ status m, (status = 0 → S m) ∧ I m).
Proof. apply (exits_resolves_world main w (λ w', S (contracts w'))). Qed.
End resolves.

(** Nothing that was on the chain is touched. *)
#[global] Instance subseteq_inv (m0 : gmap address instance) : ChainInv (λ m, m0 ⊆ m) (λ _, true).
Proof.
  split.
  - intros m m' [Hs _] H0. by etrans.
  - intros m a i Hm _ H0. etrans; [exact H0|]. by apply insert_subseteq.
Qed.

Lemma keeps_at_index {W} `{HardhatLaws W} I {A} (l : list A) n : keeps (W := W) I (at_index l n).
Proof. unfold at_index. intros w Hi. by destruct (l !! n). Qed.

(** Every contract may be deployed under [subseteq_inv]. *)
Lemma accepted_any n args : accepted (λ _, true) n args.
Proof. by intros m i _. Qed.

(** A script of queries, deployments and deposits touches nothing that was
    there. *)
Ltac keep_script :=
  repeat first
    [ apply keeps_ret | apply keeps_log | apply keeps_at_index
    | apply keeps_query; reflexivity
    | eapply keeps_deposit; apply _
    | eapply keeps_deploy; [apply _|apply accepted_any]
    | eapply keeps_deploy_and_wait; [apply _|apply accepted_any]
    | apply keeps_factory_bind
    | apply keeps_bind; [|intros ?] ].

(** Symbolic execution up to the next deployment or transaction. *)
Ltac resolve_queries :=
  repeat first
    [ apply resolves_first_signer; intros ? ? ? ?
    | apply resolves_getSigner; intros ? ? ? ?
    | apply resolves_factory; intros ? ? ? ?
    | apply resolves_contractAt; intros ? ? ? ?
    | apply resolves_query; [reflexivity|intros ? ? ? ? ?] ].

(** Rewrite with what the queries left unchanged. *)
Ltac same_world :=
  repeat match goal with
  | E : contracts ?x = contracts _ |- context [contracts ?x] => rewrite E
  | E : signer ?x = signer _ |- context [signer ?x] => rewrite E
  | E : contracts ?x = contracts _, E' : context [contracts ?x] |- _ =>
      lazymatch E' with E => fail | _ => rewrite E in E' end
  | E : signer ?x = signer _, E' : context [signer ?x] |- _ =>
      lazymatch E' with E => fail | _ => rewrite E in E' end
  end.

(** The same for the transactions sent and the ledgers. *)
Ltac quiet_world :=
  repeat match goal with
  | Q : quiet ?x ?y |- _ =>
      let Eh := fresh "Eh" in let Es := fresh "Es" in destruct (quiet_history x y Q) as [Eh Es]; clear Q
  end.
Ltac quiet_pending :=
  repeat match goal with Q : quiet _ ?y |- pending ?y = [] => apply (proj2 Q) end.
Ltac same_ledger :=
  repeat match goal with
  | E : history ?x = _ |- context [history ?x] => rewrite E
  | E : settled ?x = settled _ |- context [settled ?x] => rewrite E
  | E : deposits (settled ?x) = _ |- context [deposits (settled ?x)] => rewrite E
  end.

Section deploying.
Context {W : Type} `{HardhatLaws W}.

(** 1-registry.ts: when it ends with status 0, exactly one registry was
    added to the chain, at a fresh address, empty and owned by the configured
    owner, whoever deployed it; in any case nothing that was on the chain is
    touched. *)
Theorem registry_script_deploys (w : W) :
  exits registry_main w (λ status m,
    (status = 0 → ∃ a, contracts w !! a = None ∧
       extends (<[a := IRegistry (EnclaveRegistry.deployed prod_owner)]> (contracts w)) m) ∧
    contracts w ⊆ m).
Proof.
  apply (exits_resolves registry_main w); [|unfold registry_main; keep_script|done].
  unfold registry_main. resolve_queries. eapply resolves_deploy; [reflexivity|].
  intros a w5 t Hf Hx _ _. resolve_queries. apply resolves_last; [done|]. intros _ w6 E _ _.
  exists a. split; congruence.
Qed.

Lemma deployed_at (m m' : gmap address instance) a i :
  m !! a = None → extends (<[a := i]> m) m' →
  m' !! a = Some i ∧ (∀ b j, m !! b = Some j → m' !! b = Some j) ∧ (∀ b, m' !! b = None → m !! b = None).
Proof.
  intros Hn Hx. assert (∀ b j, m !! b = Some j → m' !! b = Some j) as Hk.
  { intros b j Hb. eapply extends_lookup; [exact Hx|]. rewrite lookup_insert_ne; [done|]. congruence. }
  split; [eapply extends_lookup; [exact Hx|apply lookup_insert_eq]|]. split; [done|].
  intros b Hb. destruct (m !! b) as [j|] eqn:E; [|done]. apply Hk in E. congruence.
Qed.


(** C36: 3-paymasters.ts wires production: when it ends with status 0 it has sent
    exactly four transactions, all mined: three deployments, a verifying
    paymaster, a Chainlink fee logic and a token paymaster, at distinct fresh
    addresses, and between the first two a deposit.  The three contracts are on
    the chain and owned by the signer, which is also the verifying signer of both
    paymasters; both use the canonical EntryPoint, and the token paymaster
    charges the payment token through exactly that fee logic.  Of what the
    EntryPoints hold, only the verifying paymaster's deposit at the canonical
    EntryPoint changes: it grows by 0.1 ETH, unless the deposit transaction, for
    which the script does not wait, reverted.  Whatever the status, no contract
    that was there is changed. *)
Theorem paymasters_script_wires (w : W) :
  exits_world paymasters_main w (λ status w',
    (status = 0 → ∃ pm fl tp t1 t2 t3 t4,
       history w' = history w ++ [t1; t2; t3; t4] ∧ pending w' = [] ∧
       (tx_creates <$> [t1; t3; t4]) = [Some pm; Some fl; Some tp] ∧
       (pm ≠ fl ∧ fl ≠ tp ∧ pm ≠ tp) ∧
       (contracts w !! pm = None ∧ contracts w !! fl = None ∧ contracts w !! tp = None) ∧
       instances (latest w') !! pm = Some (IVerifyingPaymaster
         {| VerifyingPaymaster.entryPoint := prod_entryPoint; VerifyingPaymaster.owner := signer w;
            VerifyingPaymaster.verifyingSigner := signer w; VerifyingPaymaster.senderNonce := ∅ |}) ∧
       instances (latest w') !! fl = Some (IFeeMainnet
         {| Mainnet.owner := signer w; Mainnet.ETH_DECIMALS := 18; Mainnet.dataFeed := prod_dataFeed;
            Mainnet.markupDenominator := 20 |}) ∧
       instances (latest w') !! tp = Some (ITokenPaymaster
         {| entryPoint := prod_entryPoint; owner := signer w; verifyingSigner := signer w;
            paymentToken := prod_paymentToken; feeLogic := fl; senderNonce := ∅ |}) ∧
       deposits (latest w') =
         match tx_effect t2 (mine (settled w) t1) with
         | Some _ => credit prod_entryPoint pm (10 ^ 17) (deposits (settled w))
         | None => deposits (settled w)
         end) ∧
    contracts w ⊆ contracts w').
Proof.
  refine (exits_resolves_world paymasters_main w _ (λ m, contracts w ⊆ m) _ _ _);
    [|unfold paymasters_main; keep_script|done].
  unfold paymasters_main. resolve_queries. eapply resolves_deploy; [reflexivity|].
  intros pm w1 t1 Hf1 Hx1 Hs1 D1. destruct (deployed_at _ _ _ _ Hf1 Hx1) as (Hpm & Hk1 & Hn1).
  resolve_queries. eapply resolves_deposit; [cbn [target]; same_world; exact Hpm|reflexivity|].
  intros w2 t2 Hc2 Hs2 D2. resolve_queries. eapply resolves_deploy; [reflexivity|].
  intros fl w3 t3 Hf3 Hx3 Hs3 D3. destruct (deployed_at _ _ _ _ Hf3 Hx3) as (Hfl & Hk3 & Hn3).
  resolve_queries. eapply resolves_deploy; [reflexivity|].
  intros tp w4 t4 Hf4 Hx4 Hs4 D4. destruct (deployed_at _ _ _ _ Hf4 Hx4) as (Htp & Hk4 & Hn4).
  resolve_queries. apply resolves_last; [done|]. intros _ w5 Hc5 _ Q5.
  clear Hx1 Hx3 Hx4. pose proof (proj2 Q5) as P5. quiet_world.
  destruct D1 as (G1 & T1 & _ & C1 & _ & B1), D2 as (_ & T2 & B2), D3 as (_ & T3 & _ & C3 & _ & B3),
    D4 as (_ & T4 & P4 & C4 & _ & B4).
  specialize (B1 eq_refl). specialize (B3 eq_refl). specialize (B4 eq_refl). specialize (P5 P4).
  pose proof (settled_snoc _ _ _ G1 T1) as L1.
  unfold VerifyingPaymaster.deployed, Mainnet.deployed, deployed, tx_msg in *. cbn [msg_sender target] in *.
  exists pm, fl, tp, t1, t2, t3, t4. rewrite (latest_settled w5 P5). fold (contracts w5). same_world.
  split; [by same_ledger; rewrite <- !app_assoc|]. split; [done|]. split; [cbn; congruence|].
  pose proof (Hk3 _ _ Hpm) as Hpm3. pose proof (Hk4 _ _ Hpm3). pose proof (Hk4 _ _ Hfl).
  assert (pm ≠ fl ∧ fl ≠ tp ∧ pm ≠ tp) by (repeat split; congruence).
  do 5 (split; [by auto 10|]). same_ledger. rewrite L1. by same_ledger.
Qed.

(** The testnet deployment script sets up a token paymaster that can never
    charge: when it ends with status 0 the new token paymaster points to the
    EnclaveFeeLogicTestnet it just deployed, and the paymaster's [_postOp]
    reverts on every input and token world. *)
Theorem testnet_script_deploys_broken_paymaster (w : W) :
  exits deployTokenPaymasterArbSepoliaTestnet_main w (λ status m,
    (status = 0 → ∃ fl tp s l,
       contracts w !! tp = None ∧ m !! fl = Some (IFeeTestnet l) ∧ m !! tp = Some (ITokenPaymaster s) ∧
       feeLogic s = fl ∧ paymentToken s = arbSepolia_usdc ∧ verifyingSigner s = signer w ∧
       ∀ (T : Type) (ET : ERC20 T) (logic_at : address → Testnet.state) msg ctx gas (t : T),
         logic_at fl = l → is_ok (_postOp logic_at msg ctx gas s t) = false) ∧
    contracts w ⊆ m).
Proof.
  set (main := deployTokenPaymasterArbSepoliaTestnet_main).
  apply (exits_resolves main w); [|unfold main, deployTokenPaymasterArbSepoliaTestnet_main; keep_script|done].
  unfold main, deployTokenPaymasterArbSepoliaTestnet_main. resolve_queries.
  eapply resolves_deploy; [reflexivity|].
  intros fl w1 t1 Hf1 Hx1 Hs1 _. destruct (deployed_at _ _ _ _ Hf1 Hx1) as (Hfl & Hk1 & Hn1).
  resolve_queries. eapply resolves_deploy; [reflexivity|].
  intros tp w2 t2 Hf2 Hx2 Hs2 _. destruct (deployed_at _ _ _ _ Hf2 Hx2) as (Htp & Hk2 & Hn2).
  resolve_queries. apply resolves_last; [done|]. intros _ w3 Hc3 _ _. clear Hx1 Hx2.
  unfold deployed, tx_msg in *. cbn [msg_sender target attach] in *. same_world.
  eexists fl, tp, _, _. split; [by apply Hn1|]. split; [by apply Hk2|]. split; [exact Htp|].
  repeat split. intros. apply testnet_post_op_reverts.
Qed.

Definition with_entry (s : EnclaveRegistry.state) (k : string) (a : address) : EnclaveRegistry.state :=
  {| EnclaveRegistry.owner := EnclaveRegistry.owner s; registry := <[k := a]> (registry s) |}.

Lemma dispatch_update m l s k a l' :
  dispatch m l (IRegistry s) "updateRegistryAddress" [JStr k; JAddr a] = Some (Ok l') →
  msg_sender m = EnclaveRegistry.owner s ∧ instances l' = <[self m := IRegistry (with_entry s k a)]> (instances l).
Proof.
  unfold dispatch, dispatch_instance. cbn [entryPoint_of]. rewrite (bool_decide_eq_true_2 (_ = _)) by done.
  intros [= E]. apply fmap_Ok in E as (i & E & <-). apply fmap_Ok in E as (s' & E & <-).
  by apply update_inv in E as (? & _ & ->).
Qed.

(** setPaymasterAndPaymentToken.ts against the registry it names: run by
    anyone but the registry's owner it changes nothing, and run by the owner at
    most the "entryPoint" entry, to the canonical entry point.  The script does
    not wait for its transaction: status 0 does not say which. *)
Theorem set_registry_script_owner_only (w : W) (s : EnclaveRegistry.state) :
  contracts w !! deployed_registry = Some (IRegistry s) →
  exits setPaymasterAndPaymentToken_main w (λ status m,
    let updated := <[deployed_registry := IRegistry (with_entry s "entryPoint" prod_entryPoint)]> (contracts w) in
    (signer w ≠ EnclaveRegistry.owner s → m = contracts w) ∧ (m = contracts w ∨ m = updated)).
Proof.
  intros Hs. apply exits_main. unfold setPaymasterAndPaymentToken_main.
  apply wp_getSigner_bind; [intros e w1 [E1 S1]%view_eqs|intros w1 [E1 S1]%view_eqs].
  { rewrite E1. naive_solver. }
  apply wp_query_bind; [done|intros e w2 [E2 S2]%view_eqs|intros _ w2 [E2 S2]%view_eqs _].
  { rewrite E2, E1. naive_solver. }
  apply wp_contractAt_bind; [intros e w3 [E3 S3]%view_eqs|intros w3 [E3 S3]%view_eqs].
  { rewrite E3, E2, E1. naive_solver. }
  assert (contracts w3 = contracts w) as Hw3 by congruence.
  assert (signer w3 = signer w) as Hs3 by congruence.
  apply wp_send_bind; [intros e w4 [E4 S4]%view_eqs; rewrite E4, Hw3; naive_solver|].
  intros t w4 Hg4 _ Hh4 [_ Hl]. cbn [target] in Hl. rewrite Hw3, Hs in Hl.
  set (updated := <[deployed_registry := _]> (contracts w)).
  assert ((signer w ≠ EnclaveRegistry.owner s → contracts w4 = contracts w) ∧
          (contracts w4 = contracts w ∨ contracts w4 = updated)) as Hw4.
  { pose proof (settled_snoc w3 w4 t Hg4 Hh4) as Es. unfold mine in Es. unfold contracts at 1 3 5. rewrite Es.
    destruct (tx_effect t (settled w3)) as [l|]; [|by rewrite <- Hw3; auto].
    destruct (dispatch_update _ _ _ _ _ _ (Hl l eq_refl)) as [Ho Ei]. cbn in Ho, Ei.
    fold (contracts w3) in Ei. rewrite Hw3 in Ei. rewrite Hs3 in Ho. cbn [default]. split; [done|by right]. }
  split; [done|]. apply wp_query; [done|]. intros r w5 [E5 S5]%view_eqs _. rewrite E5. by destruct r.
Qed.
End deploying.

(** ** Concrete runs *)

Section witnesses.
Import SimChain.
Definition sim0 : sim :=
  Sim {[ deployed_registry := IRegistry (EnclaveRegistry.deployed 0xA11CE) ]} [0xA11CE; 0xB0B] ∅ [].
(** Status and final chain of a run. *)
Definition outcome (main : script unit) (w : sim) : Z * gmap address instance :=
  match run (exit_catch main) w with (inl c, w') => (c, contracts w') | (inr _, w') => (1, contracts w') end.

Lemma registry_deployment_scripts_fail_witness :
  (outcome deployAll_main sim0).1 = 1 ∧
  exits deployAll_main sim0 (λ status m, status = 1 ∧ registries m = registries (contracts sim0)).
Proof.
  split; [by vm_compute|].
  exact (registry_deployment_scripts_fail deployAll_main sim0 (list_elem_of_here _ _)).
Defined.
Lemma deployProd_deploys_nothing_witness :
  exits deployProd_main sim0 (λ status m, status = 1 ∧ extends (contracts sim0) m).
Proof. exact (deployProd_deploys_nothing sim0). Defined.
Lemma registry_script_deploys_witness :
  (outcome registry_main sim0).1 = 0 ∧
  exits registry_main sim0 (λ status m,
    (status = 0 → ∃ a, contracts sim0 !! a = None ∧
       extends (<[a := IRegistry (EnclaveRegistry.deployed prod_owner)]> (contracts sim0)) m) ∧
    contracts sim0 ⊆ m).
Proof. split; [by vm_compute|]. exact (registry_script_deploys sim0). Defined.
Lemma paymasters_script_wires_witness :
  (outcome paymasters_main sim0).1 = 0 ∧
  mget 0 (deposits (latest (run (exit_catch paymasters_main) sim0).2))
    (prod_entryPoint, next_address (contracts sim0)) = 10 ^ 17 ∧
  exits_world paymasters_main sim0 (λ status w', status = 0 →
    length (mined w') = 4%nat ∧
    ∃ tp s, instances (latest w') !! tp = Some (ITokenPaymaster s) ∧ verifyingSigner s = 0xA11CE).
Proof.
  split; [by vm_compute|]. split; [by vm_compute|]. unfold exits_world.
  eapply wp_mono; [apply (paymasters_script_wires sim0)|].
  intros [c|e] w'; [|discriminate 2]. intros [Hw _] ->.
  destruct (Hw eq_refl) as (pm & fl & tp & t1 & t2 & t3 & t4 & Hh & Hp & _ & _ & _ & _ & _ & Htp & _). split.
  - unfold history in Hh. rewrite Hp, app_nil_r in Hh. rewrite Hh. reflexivity.
  - eexists tp, _. split; [exact Htp|reflexivity].
Defined.
Lemma testnet_script_deploys_broken_paymaster_witness :
  (outcome deployTokenPaymasterArbSepoliaTestnet_main sim0).1 = 0 ∧
  exits deployTokenPaymasterArbSepoliaTestnet_main sim0 (λ status m, status = 0 →
    ∃ fl l, m !! fl = Some (IFeeTestnet l)).
Proof.
  split; [by vm_compute|]. unfold exits, exits_world. eapply wp_mono; [apply (testnet_script_deploys_broken_paymaster sim0)|].
  intros [c|e] w'; [|discriminate 2]. intros [Hw _] ->. destruct (Hw eq_refl) as (fl & tp & s & l & _ & Hl & _). eauto.
Defined.
Lemma set_registry_script_owner_only_witness :
  (outcome setPaymasterAndPaymentToken_main sim0).1 = 0 ∧
  (outcome setPaymasterAndPaymentToken_main sim0).2 !! deployed_registry =
    Some (IRegistry (with_entry (EnclaveRegistry.deployed 0xA11CE) "entryPoint" prod_entryPoint)) ∧
  exits setPaymasterAndPaymentToken_main sim0 (λ status m,
    m = contracts sim0 ∨ m = <[deployed_registry := IRegistry (with_entry (EnclaveRegistry.deployed 0xA11CE) "entryPoint" prod_entryPoint)]>
          (contracts sim0)).
Proof.
  split; [by vm_compute|]. split; [by vm_compute|]. unfold exits, exits_world.
  eapply wp_mono; [apply (set_registry_script_owner_only sim0 (EnclaveRegistry.deployed 0xA11CE)); by vm_compute|].
  intros [c|e] w'; intros [_ Hw]; exact Hw.
Defined.
End witnesses.
