(* ===== verification/QueryScripts.v ===== *)
(** The scripts that query the chain or call deployed contracts
    (scripts/misc, scripts/enclave-smart-account, scripts/enclave-smart-balance,
    scripts/prod-deployment): one definition per function, in the order of its
    awaited calls. *)
From Stdlib Require Import Ascii.
From S2P Require Import Prelude Bytes UserOperation EnclaveRegistry VerifyingPaymaster FeeLogic Erc20 TokenPaymaster Ethers Chain DeployScripts.

(** ** Accounts and balances *)

(** scripts/accounts.ts *)
Fixpoint log_each (accounts : list address) : script unit :=
  match accounts with
  | [] => Ret tt
  | a :: rest => _ ← console_log [JAddr a]; log_each rest
  end.
Definition accounts_main : script unit :=
  accounts ← await GetSigners;
  log_each accounts.

(** scripts/misc/generateWallet.ts *)
Definition generateWallet_main : script unit :=
  '(address, privateKey) ← await CreateRandomWallet;
  _ ← console_log [JStr "Wallet address:"; JAddr address];
  console_log [JStr "Private key:"; JNum privateKey].

(** scripts/misc/getBalance.ts *)
Definition smart_account : address := 0xd11b1d18392bEE5a5A95F7e4Abb4bEDfa1Eb6959.
Definition getBalance_main : script unit :=
  balance ← await (GetBalance smart_account);
  _ ← console_log [JStr "WEI Balance: "; JNum balance];
  eth ← await (FormatEther balance);
  console_log [JStr "ETH Balance: "; JStr eth].

(** scripts/misc/getERC20Balance.ts *)
Definition getERC20Balance_main : script unit :=
  tokenContract ← await (GetContractAt "ERC20" 0x1CD873d27D145523C0cf2b71D42eE15ba7D91b7b);
  balance ← await (Call tokenContract "balanceOf" [JAddr smart_account]);
  console_log [JStr "Balance: "; balance].

(** scripts/misc/getNonce.ts *)
Definition getNonce_main : script unit :=
  let address := 0xFe7bd528ec2375a3d6Bd3fB37E55f6BD7ae229aa in
  nonce ← await (GetTransactionCount address);
  console_log [JStr "Nonce for address "; JAddr address; JStr ":"; JNum nonce].

(** scripts/misc/transferEth.ts *)
Definition transferEth_main : script unit :=
  signers ← await GetSigners;
  signer ← at_index signers 0;
  tx ← await (SendTransaction signer smart_account (parseEther_milli 1));
  console_log [JStr "Transaction hash:"; JNum tx].

(** scripts/enclave-smart-account/transferEthOpSepolia.ts *)
Definition transferEthOpSepolia_main : script unit :=
  verifyingSigner ← await ProviderGetSigner;
  let ownerAddress := 0xD02Fd04e15a595019b7c60Eb257B3B7D333F6C00 in
  ethBalance ← await (GetBalance ownerAddress);
  _ ← console_log [JStr "ETH balance: "; JNum ethBalance];
  tx ← await (SendTransaction verifyingSigner ownerAddress (parseEther_milli 40));
  _ ← await (Wait tx);
  console_log [JStr "Transaction hash: "; JNum tx].

(** ** Reading deployed contracts *)

(** [const [signer] = await ethers.getSigners()] and its address printed, the
    start of several scripts. *)
Definition print_signer : script address :=
  signers ← await GetSigners;
  signer ← at_index signers 0;
  _ ← console_log [JStr "Signer address:"; JAddr signer];
  Ret signer.

(** scripts/misc/getImplementationFromFactory.ts *)
Definition getImplementationFromFactory_main : script unit :=
  _ ← print_signer;
  f ← await (GetContractFactory "P256SmartAccountFactory");
  let p256SmartAccount := attach f 0x502674c8eF6A87A9C485df592033796A5ad71607 in
  dummy ← await (Call p256SmartAccount "accountImplementation" []);
  console_log [JStr "Dummy Address: "; dummy].

(** scripts/misc/getRegistryAddressFromAccount.ts *)
Definition getRegistryAddressFromAccount_main : script unit :=
  _ ← print_signer;
  f ← await (GetContractFactory "P256SmartAccount");
  let p256SmartAccount := attach f 0xc6d57B0843b56995bF1b131cE740407Fe2cd7936 in
  dummy ← await (Call p256SmartAccount "enclaveRegistry" []);
  console_log [JStr "Dummy Address: "; dummy].

(** scripts/deployERC20.ts *)
Definition deployERC20_main : script unit :=
  f ← await (GetContractFactory "MockUSDC");
  let erc20 := attach f 0x68B1D87F95878fE05B998F19b66F4baba5De1aed in
  balance ← await (Call erc20 "balanceOf" [JAddr 0xeC5A9a343CbD923806Ad1A408496E7410018e637]);
  console_log [JStr "Balance of contract: "; balance].

(** scripts/prod-deployment/4-setRegistry.ts *)
Definition setRegistry_main : script unit :=
  _ ← print_signer;
  f ← await (GetContractFactory "EnclaveRegistry");
  let enclaveRegistry := attach f 0xA8E8f8cBD889Fc74882AeDFDcf8323fD7423DB47 in
  _ ← log_address "Deployed Registry: " enclaveRegistry;
  verifyValue ← await (Call enclaveRegistry "getRegistryAddress" [JStr "entryPoint"]);
  _ ← console_log [JStr "Res: "; verifyValue];
  verifyValue2 ← await (Call enclaveRegistry "getRegistryAddress" [JStr "p256Verifier"]);
  console_log [JStr "Res2: "; verifyValue2].

(** scripts/enclave-smart-account/getAllRegistryValues.ts *)
Definition registry_keys : list string :=
  ["entryPoint"; "enclaveVerifyingPaymaster"; "paymaster"; "paymentToken"; "p256Verifier";
   "p256SmartAccountFactory"].
Fixpoint print_registry (enclaveRegistry : contract) (keys : list string) : script unit :=
  match keys with
  | [] => Ret tt
  | k :: rest =>
      v ← await (Call enclaveRegistry "getRegistryAddress" [JStr k]);
      _ ← console_log [JStr k; v];
      print_registry enclaveRegistry rest
  end.
Definition getAllRegistryValues_main : script unit :=
  verifyingSigner ← await ProviderGetSigner;
  _ ← console_log [JStr "VERIFIER_ADDRESS="; JAddr verifyingSigner];
  enclaveRegistry ← await (GetContractAt "EnclaveRegistry" deployed_registry);
  _ ← console_log [JStr "Registry values:"];
  print_registry enclaveRegistry registry_keys.

(** scripts/enclave-smart-account/test.ts *)
Definition test_main : script unit :=
  verifyingSigner ← await ProviderGetSigner;
  let mockUSDC := Contract "MockUSDC" 0x75faf114eafb1BDbe2F0316DF893fd58CE46AA4d in
  allowance ← await (Call mockUSDC "allowance"
    [JAddr 0xA38f83d924b9a0e339717714E156dA7f8842366d; JAddr 0x166c2b871C6011ae063Cf10feb4efd95eADC6594]);
  _ ← console_log [JStr "Allowance: "; allowance];
  let registryContract := Contract "EnclaveRegistry" 0x1705AC759b732Ed198875C7b97853D75325F9A06 in
  paymasterKey ← await (Call registryContract "getRegistryAddress" [JStr "paymaster"]);
  _ ← console_log [JStr "Paymaster key: "; paymasterKey];
  paymentToken ← await (Call registryContract "getRegistryAddress" [JStr "paymentToken"]);
  console_log [JStr "Payment Token: "; paymentToken].

(** scripts/enclave-smart-account/depositPaymaster.ts *)
Definition depositPaymaster_main : script unit :=
  verifyingSigner ← await ProviderGetSigner;
  let paymasterAddress := 0xB94E8384d6b68b28d87Fb216236637c2e8F27109 in
  let paymaster := Contract "EnclaveVerifyingTokenPaymaster" paymasterAddress in
  let entryPoint := Contract "EntryPoint" 0x10D2b2c1b32b0E47299BFbF6eC078F0E1CE1DbCe in
  ep ← await (Call paymaster "entryPoint" []);
  _ ← console_log [ep];
  deposits ← await (Call entryPoint "deposits" [JAddr paymasterAddress]);
  console_log [deposits].

(** scripts/enclave-smart-account/1A-deployTokenPaymasterArbMainnet.ts and
    1O-deployTokenPaymasterArbMainnet.ts: the same attachments and queries for
    Arbitrum and Optimism; the latter also reads an allowance. *)
Definition attach_mainnet (usdc_ feeLogic_ paymaster_ : address) : script (contract * contract) :=
  verifyingSigner ← await ProviderGetSigner;
  ef ← await (GetContractFactory "EntryPoint");
  let entryPoint := attach ef 0x10D2b2c1b32b0E47299BFbF6eC078F0E1CE1DbCe in
  rf ← await (GetContractFactory "EnclaveRegistry");
  let enclaveRegistry := attach rf 0x224e0779e0Ef924f0c0954fe2C886CF58E1a293e in
  uf ← await (GetContractFactory "ERC20");
  let usdc := attach uf usdc_ in
  ff ← await (GetContractFactory "EnclaveFeeLogicMainnet");
  let feeLogicContract := attach ff feeLogic_ in
  _ ← log_address "EnclaveFeeLogicChainlink deployed to: " feeLogicContract;
  price ← await (Call feeLogicContract "calculateFee" [JAddr zero_address; JNum 1000000000000000]);
  _ ← console_log [JStr "Price: "; price];
  pf ← await (GetContractFactory "EnclaveVerifyingTokenPaymaster");
  let verifyingTokenPaymaster := attach pf paymaster_ in
  feelogicAddress ← await (Call verifyingTokenPaymaster "feeLogic" []);
  _ ← console_log [JStr "1. FeeLogic address: "; feelogicAddress];
  Ret (usdc, verifyingTokenPaymaster).
Definition tokenPaymasterArb_main : script unit :=
  _ ← attach_mainnet 0xaf88d065e77c8cC2239327C5EDb3A432268e5831 0x859F6ac605D36EDDeF68459D3e16cc3BE7401ee5
        0x55E2A8708a682B2421402fF3184a5915979375Ae;
  Ret tt.
Definition tokenPaymasterOp_main : script unit :=
  '(usdc, verifyingTokenPaymaster) ←
    attach_mainnet 0x0b2C639c533813f4Aa9D7837CAf62653d097Ff85 0x5C650A69e9dF3aBe9B384c07aB58Fb0fe4E8f4B4
      0xB94E8384d6b68b28d87Fb216236637c2e8F27109;
  allowance ← await (Call usdc "allowance"
    [JAddr (target verifyingTokenPaymaster); JAddr 0x7833eD45069AeE17eA8c84D7F6766CA25D1b8827]);
  console_log [JStr "Allowance: "; allowance].

(** scripts/enclave-smart-balance/smartAccountEntrypoint.ts *)
Definition smartAccountEntrypoint_main : script unit :=
  f ← await (GetContractFactory "SmartAccount");
  let smartAccountContract := attach f smart_account in
  entrypoint ← await (Call smartAccountContract "entryPoint" []);
  _ ← console_log [JStr "Entrypoint: "; entrypoint];
  owner ← await (Call smartAccountContract "owner" []);
  console_log [JStr "Owner: "; owner].

(** scripts/enclave-smart-balance/vault.ts *)
Definition deployVault : script contract :=
  vault ← deploy_and_wait "EnclaveTokenVaultV0" [];
  _ ← log_address "Vault deployed to: " vault;
  Ret vault.
Definition getVault (address : address) : script contract :=
  f ← await (GetContractFactory "EnclaveTokenVaultV0");
  Ret (attach f address).
Definition vault_main : script unit :=
  let proof := abi_words [smart_account] in
  _ ← console_log [JStr "Proof: "; JBytes proof];
  let tokenAddress := 0xf09156042741F67F8099D17eB22638F01F97974b in
  let vaultAddress := 0xeBEA90FeD3e2f9130c7e6B39376a110F379c13e7 in
  vault ← getVault vaultAddress;
  _ ← console_log [JStr "Vault deployed to: "; JAddr vaultAddress];
  deposit ← await (Call vault "deposits" [JAddr tokenAddress; JAddr smart_account]);
  console_log [JStr "Deposit: "; deposit].

(** ** Signing requests *)

(** The bytes of a hexadecimal literal. *)
Definition hex_digit (c : ascii) : Z :=
  let n := ascii_z c in
  if (48 <=? n) && (n <=? 57) then n - 48 else if (97 <=? n) && (n <=? 102) then n - 87 else n - 55.
Fixpoint hex_bytes (s : string) : bytes :=
  match s with
  | String a (String b rest) => 16 * hex_digit a + hex_digit b :: hex_bytes rest
  | _ => []
  end.

(** The operation of paymasterFunctions.ts and paymasterFunctionsV1.ts. *)
Definition solver_op : UserOperation := {|
  UserOperation.sender := smart_account; nonce := 2; initCode := [];
  callData :=
     hex_bytes "47e1da2a0000000000000000000000000000000000000000000000000000000000000060000000000000000000000000" ++
     hex_bytes "00000000000000000000000000000000000000a000000000000000000000000000000000000000000000000000000000" ++
     hex_bytes "000000c00000000000000000000000000000000000000000000000000000000000000001000000000000000000000000" ++
     hex_bytes "f09156042741f67f8099d17eb22638f01f97974b00000000000000000000000000000000000000000000000000000000" ++
     hex_bytes "000000000000000000000000000000000000000000000000000000000000000000000001000000000000000000000000" ++
     hex_bytes "000000000000000000000000000000000000002000000000000000000000000000000000000000000000000000000000" ++
     hex_bytes "00000044a9059cbb00000000000000000000000049140bb5ad7c8978af483be9ca9eb40e57da0fdf0000000000000000" ++
     hex_bytes "000000000000000000000000000000000000000000003a98000000000000000000000000000000000000000000000000" ++
     hex_bytes "00000000";
  callGasLimit := 198891; verificationGasLimit := 1000000; preVerificationGas := 300000;
  maxFeePerGas := 506; maxPriorityFeePerGas := 0; paymasterAndData := []; signature := []
|}.

(** Math.floor((Date.now() + 3600000) / 1000) and Math.floor(Date.now() / 1000) *)
Definition VALID_UNTIL (now : Z) : Z := (now + 3600000) / 1000.
Definition VALID_AFTER (now : Z) : Z := now / 1000.

(** The window and the [try]/[catch] around [getHash] *)
Definition request_hash (paymasterContract : contract) : script unit :=
  let tokenAddress := 0xf09156042741F67F8099D17eB22638F01F97974b in
  let amount := 15000 in
  now1 ← await DateNow;
  now2 ← await DateNow;
  try_catch
    (hash ← await (Call paymasterContract "getHash"
       [JUserOp solver_op; JNum (VALID_UNTIL now1); JNum (VALID_AFTER now2); JAddr tokenAddress; JNum amount]);
     console_log [JStr "Generated hash:"; hash])
    (λ error, console_error "Error calling getHash:" (Some error)).

(** scripts/enclave-smart-balance/paymasterFunctions.ts *)
Definition paymasterFunctions_main : script unit :=
  f ← await (GetContractFactory "EnclaveSolverPaymaster");
  request_hash (attach f 0x1d4146d4a7d315f96e17a4c0C7deB40D835d0941).

(** scripts/enclave-smart-balance/paymasterFunctionsV1.ts *)
Definition paymasterFunctionsV1_main : script unit :=
  f ← await (GetContractFactory "EnclaveSolverPaymasterV1");
  paymasterContract ← await (Deploy f
    [JAddr 0xF522AA3eC4dA6237a9570021AB6187Ca111aa8b3; JAddr 0x399e8917Cd7Ce367b06bFfd0863E465B0Fd950dB]);
  _ ← log_address "Paymaster contract deployed at:" paymasterContract;
  res ← await (Send paymasterContract "deposit" [] (parseEther_milli 10));
  _ ← console_log [JStr "Deposit result:"; JNum res];
  request_hash paymasterContract.

(** The signing window the scripts request, from two consecutive readings
    of the clock (milliseconds): it never exceeds an hour, is short of an hour by
    at most the time between the readings rounded up, and both bounds are
    uint48 timestamps. *)
Theorem signing_window_bounds (now1 now2 : Z) :
  0 ≤ now1 ≤ now2 → now2 < 2 ^ 57 →
  3600 - (now2 - now1 + 999) / 1000 ≤ VALID_UNTIL now1 - VALID_AFTER now2 ≤ 3600 ∧
  uint 48 (VALID_UNTIL now1) ∧ uint 48 (VALID_AFTER now2).
Proof.
  intros Hn Hlt. unfold VALID_UNTIL, VALID_AFTER, uint.
  change (2 ^ 57) with 144115188075855872 in Hlt. change (2 ^ 48) with 281474976710656.
  Z.to_euclidean_division_equations. lia.
Qed.
Lemma signing_window_bounds_witness : VALID_UNTIL 1700000000123 - VALID_AFTER 1700000000124 ≤ 3600.
Proof. apply (signing_window_bounds 1700000000123 1700000000124); [lia|by vm_compute]. Defined.
