(* ===== verification/ContractScripts.v ===== *)
(** The scripts that call or deploy the repository's other contracts
    (NFTs, smart-account factories, P-256 verifiers, mock tokens) and the
    helpers they define, [numberToBytes32] among them. *)
From Stdlib Require Import Ascii.
From S2P Require Import Prelude Bytes UserOperation EnclaveRegistry VerifyingPaymaster FeeLogic Erc20 SolverPaymaster TokenPaymaster Ethers Mining Chain DeployScripts QueryScripts.

(** ** numberToBytes32 (scripts/enclave-smart-account/deployRegistryTest.ts) *)

(** A JavaScript number: an integer, or one [Number.isInteger] rejects
    (a fraction, NaN, an infinity). *)
Inductive jsnumber := JInt (z : Z) | JNonInteger.

Definition hex_char (d : Z) : ascii :=
  nth (Z.to_nat d) ["0"; "1"; "2"; "3"; "4"; "5"; "6"; "7"; "8"; "9"; "a"; "b"; "c"; "d"; "e"; "f"]%char "0"%char.

(** [num.toString(16)] of a non-negative integer *)
Fixpoint hex_loop (fuel : nat) (n : Z) (acc : list ascii) : list ascii :=
  match fuel with
  | O => acc
  | S f => if n <? 16 then hex_char n :: acc else hex_loop f (n / 16) (hex_char (n mod 16) :: acc)
  end.
Definition toString16 (n : Z) : list ascii := hex_loop (S (Z.to_nat (Z.log2 n))) n [].

(** [s.padStart(n, '0')] *)
Definition padStart (n : nat) (c : ascii) (s : list ascii) : list ascii :=
  replicate (n - length s)%nat c ++ s.

Definition numberToBytes32 (num : jsnumber) : list ascii + jserror :=
  match num with
  | JInt z =>
      if z <? 0 then inr (JSError "Input must be a positive integer")
      else
        let hexString := toString16 z in
        let hexString := padStart 64 "0" hexString in
        inl (["0"; "x"]%char ++ hexString)
  | JNonInteger => inr (JSError "Input must be a positive integer")
  end.

Definition hex_val (s : list ascii) : Z := foldl (λ acc c, acc * 16 + hex_digit c) 0 s.

Lemma hex_digit_char d : 0 ≤ d < 16 → hex_digit (hex_char d) = d.
Proof.
  intros Hd. assert (∃ n, (n < 16)%nat ∧ d = Z.of_nat n) as (n & Hn & ->).
  { exists (Z.to_nat d). lia. }
  do 16 (destruct n as [|n]; [reflexivity|]). lia.
Qed.

Lemma foldl_hex_acc s a : foldl (λ acc c, acc * 16 + hex_digit c) a s = a * 16 ^ Z.of_nat (length s) + hex_val s.
Proof.
  unfold hex_val. revert a. induction s as [|c s IH]; intros a; [cbn; lia|].
  cbn [foldl length]. rewrite IH, (IH (0 * 16 + _)), Nat2Z.inj_succ, Z.pow_succ_r by lia. ring.
Qed.
Lemma hex_val_cons c s : hex_val (c :: s) = hex_digit c * 16 ^ Z.of_nat (length s) + hex_val s.
Proof. unfold hex_val at 1. cbn [foldl]. rewrite foldl_hex_acc. ring. Qed.

Lemma hex_loop_val fuel n acc :
  0 ≤ n < 2 ^ Z.of_nat fuel →
  hex_val (hex_loop fuel n acc) = n * 16 ^ Z.of_nat (length acc) + hex_val acc.
Proof.
  revert n acc. induction fuel as [|f IH]; intros n acc Hn.
  { change (2 ^ Z.of_nat 0) with 1 in Hn. assert (n = 0) as -> by lia. done. }
  cbn [hex_loop]. destruct (Z.ltb_spec n 16).
  { rewrite hex_val_cons, hex_digit_char by lia. done. }
  pose proof (Z.div_mod n 16 ltac:(lia)) as Hdm. pose proof (Z.mod_pos_bound n 16 ltac:(lia)).
  rewrite IH.
  - rewrite hex_val_cons, hex_digit_char by lia. cbn [length]. rewrite Nat2Z.inj_succ, Z.pow_succ_r by lia.
    rewrite Hdm at 3. ring.
  - rewrite Nat2Z.inj_succ, Z.pow_succ_r in Hn by lia. split; [apply Z.div_pos; lia|].
    apply Z.div_lt_upper_bound; lia.
Qed.

Lemma hex_loop_length fuel n acc k :
  0 ≤ n < 16 ^ Z.of_nat (S k) → (length (hex_loop fuel n acc) ≤ S k + length acc)%nat.
Proof.
  revert n acc k. induction fuel as [|f IH]; intros n acc k Hn; cbn [hex_loop]; [lia|].
  destruct (Z.ltb_spec n 16); [cbn [length]; lia|]. destruct k as [|k].
  { change (16 ^ Z.of_nat 1) with 16 in Hn. lia. }
  etrans; [apply (IH _ _ k)|cbn [length]; lia].
  rewrite Nat2Z.inj_succ, Z.pow_succ_r in Hn by lia. split; [apply Z.div_pos; lia|].
  apply Z.div_lt_upper_bound; lia.
Qed.

Lemma hex_val_zeros k s : hex_val (replicate k "0"%char ++ s) = hex_val s.
Proof. induction k as [|k IH]; [done|]. cbn [replicate app]. by rewrite hex_val_cons, IH. Qed.

(** numberToBytes32 on a non-negative integer returns "0x" and hexadecimal
    digits whose value is the number (nothing is truncated), exactly 64 of them
    when the number fits 32 bytes; on any other number it throws the documented
    error. *)
Theorem numberToBytes32_correct (num : jsnumber) :
  match num with
  | JInt n =>
      if 0 <=? n then
        ∃ digits, numberToBytes32 num = inl (["0"; "x"]%char ++ digits) ∧ hex_val digits = n ∧
                  (64 ≤ length digits)%nat ∧ (n < 2 ^ 256 → length digits = 64%nat)
      else numberToBytes32 num = inr (JSError "Input must be a positive integer")
  | JNonInteger => numberToBytes32 num = inr (JSError "Input must be a positive integer")
  end.
Proof.
  destruct num as [n|]; [|done]. unfold numberToBytes32.
  destruct (Z.leb_spec 0 n), (Z.ltb_spec n 0); try lia; [|done].
  exists (padStart 64 "0" (toString16 n)). split; [done|]. unfold padStart, toString16.
  rewrite hex_val_zeros, hex_loop_val.
  - split; [change (16 ^ Z.of_nat (length (@nil ascii))) with 1; change (hex_val []) with 0; lia|].
    rewrite length_app, length_replicate. split; [lia|]. intros Hlt.
    pose proof (hex_loop_length (S (Z.to_nat (Z.log2 n))) n [] 63) as Hl. cbn [length] in Hl.
    specialize (Hl ltac:(split; [done|exact Hlt])). lia.
  - rewrite Nat2Z.inj_succ, Z2Nat.id by apply Z.log2_nonneg. split; [done|].
    destruct (decide (n = 0)) as [->|]; [done|]. apply Z.log2_spec. lia.
Qed.

(** ** Scripts *)

(** A [throw] of a pure helper. *)
Definition lift {A} (r : A + jserror) : script A :=
  match r with inl a => Ret a | inr e => Throw e end.
Definition bytes32 (n : Z) : script jsval :=
  s ← lift (numberToBytes32 (JInt n));
  Ret (JStr (String.string_of_list_ascii s)).

(** [value === other] on the values the scripts compare *)
Definition js_same (x y : jsval) : bool :=
  match x, y with
  | JAddr a, JAddr b => a =? b
  | JNum a, JNum b => a =? b
  | JStr a, JStr b => bool_decide (a = b)
  | JBool a, JBool b => Bool.eqb a b
  | _, _ => false
  end.
Definition as_address (v : jsval) : script address :=
  match v with JAddr a => Ret a | _ => Throw TypeError end.

(** scripts/enclave-smart-account/deployRegistryTest.ts *)
Definition deployRegistryTest_main : script unit :=
  signerAddr ← print_signer;
  ImplementationFactory ← await (GetContractFactory "EnclaveRegistryImplementationFactory");
  implementationFactory ← await (Deploy ImplementationFactory []);
  _ ← await (WaitForDeployment implementationFactory);
  _ ← log_address "EnclaveRegistryImplementationFactory deployed to:" implementationFactory;
  zero ← bytes32 0;
  implementationAddress ← await (Call implementationFactory "getImplementationAddress" [zero]);
  _ ← console_log [JStr "EnclaveRegistry implementation address:"; implementationAddress];
  deployTx ← await (Send implementationFactory "deployImplementation" [zero] 0);
  _ ← await (Wait deployTx);
  _ ← console_log [JStr "EnclaveRegistry implementation deployed to:"; implementationAddress];
  EnclaveRegistryFactory ← await (GetContractFactory "EnclaveRegistryFactory");
  registryFactory ← await (Deploy EnclaveRegistryFactory [implementationAddress]);
  _ ← await (WaitForDeployment registryFactory);
  _ ← log_address "EnclaveRegistryFactory deployed to:" registryFactory;
  predicted ← await (Call registryFactory "getRegistryAddress" [JAddr signerAddr; zero]);
  _ ← console_log [JStr "Predicted EnclaveRegistry address:"; predicted];
  createRegistryTx ← await (Send registryFactory "createRegistry" [JAddr signerAddr; zero] 0);
  _ ← await (Wait createRegistryTx);
  _ ← console_log [JStr "EnclaveRegistry deployed to:"; predicted];
  EnclaveRegistry ← await (GetContractFactory "EnclaveRegistry");
  predictedRegistryAddress ← as_address predicted;
  let registry := attach EnclaveRegistry predictedRegistryAddress in
  owner ← await (Call registry "owner" []);
  _ ← console_log [JStr "REGISTRY OWNER: "; owner];
  let key := "testKey" in
  let value := JAddr 0x75B853DdffECAD6192cacF0547ea25140C74FA17 in
  setTx ← update_registry registry key value;
  _ ← await (Wait setTx);
  _ ← console_log [JStr "Set "; JStr key; JStr " to "; value];
  fetchedValue ← await (Call registry "getRegistryAddress" [JStr key]);
  _ ← console_log [JStr "Fetched value for "; JStr key; fetchedValue];
  if js_same fetchedValue value
  then console_log [JStr "Value verification successful!"]
  else console_error "Value verification failed!" None.

(** scripts/enclave-smart-account/mintNFT.ts *)
Definition mintNFT_main : script unit :=
  signers ← await GetSigners;
  gasNFT ← await (GetContractFactory "GasNFT");
  let contract := attach gasNFT 0x859F6ac605D36EDDeF68459D3e16cc3BE7401ee5 in
  deployer2 ← at_index signers 1;
  tx ← await (Send contract "mintNFT" [JAddr deployer2] 0);
  _ ← await (Wait tx);
  console_log [JStr "NFT minted successfully"].

(** scripts/enclave-smart-account/mintUSDC.ts *)
Definition mintUSDC_main : script unit :=
  verifyingSigner ← await ProviderGetSigner;
  let usdcAddress := 0xDc64a140Aa3E981100a9becA4E685f962f0cF6C9 in
  let ownerAddress := 0x649b01D5212a8Ca9B2FfF0D5843346aeedC715C7 in
  let mockUSDC := Contract "MockUSDC" usdcAddress in
  _ ← await (SendTransaction verifyingSigner ownerAddress (parseEther_milli 10000));
  _ ← await (Send mockUSDC "mint" [JAddr ownerAddress; JNum (parseEther_milli 10000000000)] 0);
  Ret tt.

(** scripts/UniFeeLogicNew.ts *)
Definition UniFeeLogicNew_main : script unit :=
  verifyingSigner ← await ProviderGetSigner;
  f ← await (GetContractFactory "EnclaveFeeLogicUniswap");
  let uniswapFeeLogic := attach f 0x9C7732875d1d788D4Ebf9492D34043B51e186204 in
  let usdc := JAddr 0x0b2c639c533813f4aa9d7837caf62653d097ff85 in
  _ ← log_address "UniswapFeeLogic deployed to:" uniswapFeeLogic;
  res1 ← await (Send uniswapFeeLogic "updateMarkup" [JNum 105] 0);
  res2 ← await (Send uniswapFeeLogic "updateMarkupDenominator" [JNum 100] 0);
  markup ← await (Call uniswapFeeLogic "markup" []);
  denominator ← await (Call uniswapFeeLogic "markupDenominator" []);
  _ ← console_log [JStr "markup: "; markup; denominator];
  res3 ← await (Call uniswapFeeLogic "findOptimalPool" [usdc]);
  _ ← console_log [JStr "OPT POOL: "; res3];
  res4 ← await (Call uniswapFeeLogic "calculateFee" [usdc; JNum 10000000000000000]);
  console_log [JStr "result: "; res4].

(** scripts/enclave-smart-balance/fakeUSDC.ts *)
Definition deployMockUSDC : script contract :=
  mockUSDC ← deploy_and_wait "MockUSDC" [JStr "USDM"; JStr "USD Mock"];
  _ ← log_address "USD Mock deployed to: " mockUSDC;
  Ret mockUSDC.
Definition getMockUSDC (address : address) : script contract :=
  f ← await (GetContractFactory "MockUSDC");
  Ret (attach f address).
Definition fakeUSDC_getSmartAccountFactory (address : address) : script contract :=
  f ← await (GetContractFactory "SmartAccountFactory");
  Ret (attach f address).
Definition fakeUSDC_main : script unit :=
  let paymasterAddress := JAddr 0x1d4146d4a7d315f96e17a4c0C7deB40D835d0941 in
  mockUSDC ← getMockUSDC 0xf09156042741F67F8099D17eB22638F01F97974b;
  _ ← await (Send mockUSDC "mint" [paymasterAddress; JNum (10 ^ 36)] 0);
  _ ← console_log [JStr "Minted 10000 USDM to user"];
  balance ← await (Call mockUSDC "balanceOf" [paymasterAddress]);
  console_log [JStr "Balance of user: "; balance].

(** scripts/enclave-smart-balance/deployTestNFT.ts *)
Definition deployTestNFT (mintPrice : Z) (usdc : address) : script contract :=
  testNFT ← deploy_and_wait "TestNFT" [JNum mintPrice; JAddr usdc];
  _ ← log_address "TestNFT deployed to: " testNFT;
  Ret testNFT.
Definition getTestNFT (address : address) : script contract :=
  f ← await (GetContractFactory "TestNFT");
  Ret (attach f address).
Definition deployTestNFT_main : script unit :=
  testNFT ← deployTestNFT 1000000 0x5fd84259d66Cd46123540766Be93DFE6D43130D7;
  Ret tt.

(** scripts/enclave-smart-balance/eoa-account.ts *)
Definition deployEntrypoint : script contract :=
  entrypoint ← deploy_and_wait "EntryPoint" [];
  _ ← log_address "Entrypoint deployed to:" entrypoint;
  Ret entrypoint.
Definition getEntrypointContract (address : address) : script contract :=
  f ← await (GetContractFactory "EntryPoint");
  Ret (attach f address).
Definition deploySmartAccountFactory : script contract :=
  factory ← deploy_and_wait "SmartAccountFactory" [];
  _ ← log_address "SmartAccountFactory deployed to:" factory;
  Ret factory.
Definition getSmartAccountFactory (address : address) : script contract :=
  f ← await (GetContractFactory "SmartAccountFactory");
  Ret (attach f address).
Definition deploySmartAccount (factoryAddress ownerAddress entrypointAddress : address) : script jsval :=
  factory ← getSmartAccountFactory factoryAddress;
  contractAddress ← await (Call factory "getAccountAddress"
    [JAddr ownerAddress; JAddr entrypointAddress; JNum 0]);
  _ ← console_log [JStr "Contract address:"; contractAddress];
  tx ← await (Send factory "createAccount" [JAddr ownerAddress; JAddr entrypointAddress] 0);
  _ ← await (Wait tx);
  _ ← console_log [JStr "Smart Account deployed to:"; contractAddress];
  Ret contractAddress.
Definition deploySolverPaymaster (entrypointAddress verifyingSigner : address) : script contract :=
  paymaster ← deploy_and_wait "EnclaveSolverPaymaster" [JAddr entrypointAddress; JAddr verifyingSigner];
  _ ← log_address "SolverPaymaster deployed to:" paymaster;
  Ret paymaster.
Definition getSolverPaymaster (solverPaymasterAddress : address) : script contract :=
  f ← await (GetContractFactory "EnclaveSolverPaymaster");
  Ret (attach f solverPaymasterAddress).
Definition eoa_account_main : script unit :=
  let paymasterEOA := 0x399e8917Cd7Ce367b06bFfd0863E465B0Fd950dB in
  entrypoint ← deployEntrypoint;
  factory ← deploySmartAccountFactory;
  solverPaymaster ← deploySolverPaymaster (target entrypoint) paymasterEOA;
  _ ← await (Send solverPaymaster "deposit" [] (parseEther_milli 10));
  console_log [JStr "Deposited to SolverPaymaster"].

(** ** The WebAuthn sample (enclave-smart-account/P256V.ts, P256VerifyTest.ts and
    prod-deployment/v.ts) *)

(** A JSON text written with single quotes. *)
Definition json (s : string) : bytes :=
  (λ c, if ascii_z c =? 39 then 34 else ascii_z c) <$> String.list_ascii_of_string s.

Definition publicKeyArr : jsval :=
  JArr [JNum 0xb3ef0eb6729d78ff039b7d99dbebef10d15151e12c2750cc3e9906ff18e077dc;
        JNum 0xc5928d1c4b8b56c27e3361afe6c3c9f4b78da21c9a75eedaf41de1503f5ec80f].
Definition clientDataJSON : bytes :=
  json "{'type':'webauthn.get','challenge':'wWmDIw57b4Wd14S4MkzJoSzrd_rcpvAzMAZDCUmM1MM','origin':'http://localhost:8000','crossOrigin':false}".
Definition authenticatorData : bytes :=
  [73; 150; 13; 229; 136; 14; 140; 104; 116; 52; 23; 15; 100; 118; 96; 91; 143; 228; 174; 185; 162; 134;
   50; 199; 153; 92; 243; 186; 131; 29; 151; 99; 29; 0; 0; 0; 0].
Definition sample_r : jsval := JNum 68451300771154902330033335987224646117671067567357512230763650650451954468791.
Definition sample_s : jsval := JNum 112777508870135633727467010426564055435309001218801459625679345492236984478291.

Definition webauthn_digest : script bytes :=
  clientDataHash ← await (Sha256 clientDataJSON);
  _ ← console_log [JBytes clientDataHash];
  let concatenatedData := authenticatorData ++ clientDataHash in
  _ ← console_log [JBytes concatenatedData];
  hash2Digest ← await (Sha256 concatenatedData);
  _ ← console_log [JStr "Yolo: "; JBytes hash2Digest];
  Ret hash2Digest.

Definition P256V_main : script unit :=
  hash2Digest ← webauthn_digest;
  f ← await (GetContractFactory "P256V");
  let p256verifier := attach f 0x232fCFD3DB08926B387dCF31d00AD23da705402a in
  _ ← log_address "P256V deployed to: " p256verifier;
  res ← await (Call p256verifier "verify" [JBytes hash2Digest; sample_r; sample_s; publicKeyArr]);
  console_log [JStr "Res: "; res].

Definition v_main : script unit :=
  hash2Digest ← webauthn_digest;
  f ← await (GetContractFactory "P256V");
  let p256verifier := attach f 0xe4fc1002E56cf8deDCE7b69ba94c88a47feb6500 in
  _ ← log_address "P256V deployed to: " p256verifier;
  precompile ← await (Call p256verifier "precompile" []);
  _ ← console_log [JStr "Precompile: "; precompile];
  res ← await (Call p256verifier "verify" [JBytes hash2Digest; sample_r; sample_s; publicKeyArr]);
  console_log [JStr "Res: "; res].

Definition P256VerifyTest_main : script unit :=
  hash2Digest ← webauthn_digest;
  f ← await (GetContractFactory "P256Verifier");
  p256verifier ← await (Deploy f []);
  _ ← log_address "P256Verifier deployed to: " p256verifier;
  res ← await (Call p256verifier "ecdsa_verify" [JBytes hash2Digest; sample_r; sample_s; publicKeyArr]);
  console_log [JStr "Res: "; res].

(** ** Scripts that only read *)

Section read_only.
Context {W : Type} `{HardhatLaws W} (I : gmap address instance → Prop).

Lemma keeps_try_catch {A} (p : script A) h :
  keeps (W := W) I p → (∀ e, keeps (W := W) I (h e)) → keeps (W := W) I (try_catch p h).
Proof.
  intros Hp Hh w Hi. apply wp_try_catch. eapply wp_mono; [by apply Hp|].
  intros [a|e] w' Hi'; [done|by apply Hh].
Qed.
Lemma keeps_log_each l : keeps (W := W) I (log_each l).
Proof. induction l as [|a l IH]; [apply keeps_ret|]. apply keeps_bind; [apply keeps_log|done]. Qed.
Lemma keeps_print_registry c ks : keeps (W := W) I (print_registry c ks).
Proof.
  induction ks as [|k ks IH]; [apply keeps_ret|]. apply keeps_bind; [by apply keeps_query|]. intros v.
  apply keeps_bind; [apply keeps_log|done].
Qed.
End read_only.

Ltac keep_queries :=
  repeat first
    [ apply keeps_ret | apply keeps_log | apply keeps_at_index | apply keeps_log_each
    | apply keeps_print_registry
    | apply keeps_query; reflexivity
    | match goal with |- keeps _ (match ?x with pair _ _ => _ end) => destruct x end
    | apply keeps_try_catch; [|intros ?]
    | apply keeps_bind; [|intros ?] ].

Definition read_only_scripts : list (script unit) :=
  [accounts_main; generateWallet_main; getBalance_main; getERC20Balance_main; getNonce_main;
   getImplementationFromFactory_main; getRegistryAddressFromAccount_main; deployERC20_main;
   setRegistry_main; getAllRegistryValues_main; test_main; depositPaymaster_main;
   tokenPaymasterArb_main; tokenPaymasterOp_main; smartAccountEntrypoint_main; vault_main;
   paymasterFunctions_main; P256V_main; v_main].

Section script_theorems.
Context {W : Type} `{HardhatLaws W}.

Lemma read_only_keeps I : Forall (keeps (W := W) I) read_only_scripts.
Proof.
  unfold read_only_scripts. repeat (apply Forall_cons; split); [..|apply Forall_nil; done].
  all: unfold accounts_main, generateWallet_main, getBalance_main, getERC20Balance_main, getNonce_main,
    getImplementationFromFactory_main, getRegistryAddressFromAccount_main, deployERC20_main,
    setRegistry_main, getAllRegistryValues_main, test_main, depositPaymaster_main,
    tokenPaymasterArb_main, tokenPaymasterOp_main, smartAccountEntrypoint_main, vault_main,
    paymasterFunctions_main, P256V_main, v_main, print_signer, attach_mainnet, getVault, request_hash,
    webauthn_digest.
  all: keep_queries.
Qed.

(** Nineteen of the scripts only read: run to either status, on any chain,
    they leave every contract exactly as it was.  Among them are scripts whose
    names announce a deployment or an update (deployERC20.ts, 4-setRegistry.ts,
    1A- and 1O-deployTokenPaymasterArbMainnet.ts, depositPaymaster.ts). *)
Theorem read_only_scripts_change_nothing (main : script unit) (w : W) :
  main ∈ read_only_scripts → exits main w (λ _ m, m = contracts w).
Proof.
  intros Hin. apply (keeps_exits (λ m, m = contracts w)); [|done].
  by apply (proj1 (Forall_forall _ _) (read_only_keeps _)).
Qed.

Lemma print_registry_resolves s c ks (w : W) :
  pending w = [] → contracts w !! target c = Some (IRegistry s) →
  resolves (print_registry c ks)
    (λ _ _, ∀ k, k ∈ ks → ∃ a, getRegistryAddress k s = Ok a) w.
Proof.
  revert w. induction ks as [|k ks IH]; intros w Hp Hc.
  { intros k Hk. by apply elem_of_nil in Hk. }
  cbn [print_registry]. apply wp_bind, wp_await. set (o := Call c "getRegistryAddress" [JStr k]).
  pose proof (quiet_intro o w eq_refl) as [Hv1 Hp1]. specialize (Hp1 Hp). apply view_contracts in Hv1 as E1.
  destruct (perform o w).1 as [v|e] eqn:Hv; [|done].
  pose proof (call_views c _ _ w (IRegistry s) (JAddr <$> getRegistryAddress k s) v Hv) as Hview.
  fold o in Hview. set (w1 := (perform o w).2) in *. rewrite (latest_settled w1 Hp1) in Hview. fold (contracts w1) in Hview.
  rewrite E1 in Hview. specialize (Hview Hc).
  cbn [view] in Hview. rewrite bool_decide_eq_true_2 in Hview by done. specialize (Hview eq_refl).
  apply fmap_Ok in Hview as (a & Ha & _).
  apply resolves_query; [done|]. intros ? w2 E2 _ [_ Hp2].
  eapply wp_mono; [apply (IH w2); [by apply Hp2|congruence]|]. intros [u|e] w3 Hks; [|done].
  intros k' [->|Hk]%elem_of_cons; eauto.
Qed.

(** getAllRegistryValues.ts is a complete check: against a registry, it
    ends with status 0 only if all six names the system resolves are registered
    (to non-zero addresses), and it never changes the chain.  Nothing is pending
    when it starts: it reads the mined state. *)
Theorem getAllRegistryValues_complete (w : W) (s : EnclaveRegistry.state) :
  pending w = [] → contracts w !! deployed_registry = Some (IRegistry s) →
  exits getAllRegistryValues_main w (λ status m,
    (status = 0 → ∀ k, k ∈ registry_keys → ∃ a, registry s !! k = Some a ∧ a ≠ zero_address) ∧
    m = contracts w).
Proof.
  intros Hp Hs. apply (exits_resolves getAllRegistryValues_main w
    (λ _, ∀ k, k ∈ registry_keys → ∃ a, registry s !! k = Some a ∧ a ≠ zero_address) (λ m, m = contracts w));
    [|unfold getAllRegistryValues_main; keep_queries|done].
  unfold getAllRegistryValues_main. generalize registry_keys as keys. intros keys.
  resolve_queries. unfold resolves.
  eapply wp_mono; [apply (print_registry_resolves s); [by quiet_pending|cbn [target]; same_world; exact Hs]|].
  intros [u|e] w5 Hks; [|done]. intros k [a Ha]%Hks. exists a. by apply get_inv.
Qed.

(** deployRegistryTest.ts cannot run: no contract of the repository is
    called EnclaveRegistryImplementationFactory, so unless a dependency declares
    one the script ends with status 1 before sending anything. *)
Theorem deployRegistryTest_fails (w : W) :
  "EnclaveRegistryImplementationFactory" ∉ external_artifacts (W := W) →
  exits deployRegistryTest_main w (λ status m, status = 1 ∧ m = contracts w).
Proof.
  intros Hext. eapply (fails_exits (λ m, m = contracts w)); [|done|by intros].
  apply fails_bind_r; [unfold print_signer; keep_queries|intros a]. intros w1 Hw1.
  apply wp_factory_bind; [intros e w2 [E2 _]%view_eqs; split; [eauto|congruence]|].
  intros w2 _ Hin. exfalso. apply elem_of_app in Hin as [Hin|Hin]; [|done].
  by apply (bool_decide_pack _) in Hin; vm_compute in Hin.
Qed.

(** deploySmartAccount (eoa-account.ts, exported for other scripts) never
    creates an account: it calls SmartAccountFactory.createAccount without the
    salt, so for every factory, owner and entry point it rejects, and no
    contract of the chain changes. *)
Theorem deploySmartAccount_rejects (factory_ owner_ entrypoint_ : address) (w : W) :
  wp (deploySmartAccount factory_ owner_ entrypoint_)
     (λ r w', (∃ e, r = inr e) ∧ extends (contracts w) (contracts w')) w.
Proof.
  assert (fails (W := W) (extends (contracts w)) (deploySmartAccount factory_ owner_ entrypoint_)) as Hf; [|by apply Hf].
  unfold deploySmartAccount, getSmartAccountFactory. intros w0 Hx0. apply wp_bind.
  apply wp_factory_bind; [intros e w1 [E1 _]%view_eqs; rewrite E1; eauto|].
  intros w1 [E1 _]%view_eqs _. apply wp_ret.
  apply wp_query_bind; [done|intros e w2 [E2 _]%view_eqs; rewrite E2, E1; eauto|].
  intros v w2 [E2 _]%view_eqs _.
  apply wp_query_bind; [done|intros e w3 [E3 _]%view_eqs; rewrite E3, E2, E1; eauto|].
  intros u w3 [E3 _]%view_eqs _.
  eapply (wp_send_misfit _ _ _ _ 3%nat); [reflexivity|done|].
  intros e w4 [E4 _]%view_eqs. split; [eauto|]. by rewrite E4, E3, E2, E1.
Qed.

(** mintNFT.ts needs a second configured account: on a network with fewer
    than two it ends with status 1 and sends nothing. *)
Theorem mintNFT_needs_two_accounts (w : W) :
  (∀ l, (perform GetSigners w).1 = inl l → (length l < 2)%nat) →
  exits mintNFT_main w (λ status m, status = 1 ∧ m = contracts w).
Proof.
  intros Hl. apply exits_main. unfold mintNFT_main.
  apply wp_query_bind; [done|by intros e w1 [E1 _]%view_eqs|]. intros l w1 [E1 _]%view_eqs El.
  apply wp_factory_bind; [intros e w2 [E2 _]%view_eqs; split; [done|congruence]|].
  intros w2 [E2 _]%view_eqs _. specialize (Hl l El). unfold at_index.
  rewrite lookup_ge_None_2 by lia. split; [done|]. cbn. congruence.
Qed.

Lemma resolves_ret {A} (a : A) (S : A → W → Prop) (w : W) : S a w → resolves (Ret a) S w.
Proof. done. Qed.
Lemma deploy_and_wait_resolves {B} n args i (f : contract → script B) S (w : W) :
  (∀ w1 : W, signer w1 = signer w → construct (tx_msg w1 0 0) n args = Some i) →
  (∀ a w', contracts w !! a = None → extends (<[a := i]> (contracts w)) (contracts w') →
     signer w' = signer w → resolves (f (Contract n a)) S w') →
  resolves (deploy_and_wait n args ≫= f) S w.
Proof.
  intros Hc Hf. apply resolves_bind. unfold deploy_and_wait. apply resolves_factory. intros w1 E1 S1 _.
  eapply resolves_deploy; [by apply Hc|]. intros a w2 t Hn Hx S2 _. rewrite E1 in Hn, Hx.
  change (resolves (f (Contract n a)) S w2). apply Hf; congruence.
Qed.

Lemma extends_insert_subseteq (m m' : gmap address instance) a i :
  m !! a = None → extends (<[a := i]> m) m' → m ⊆ m'.
Proof. intros Hn [Hs _]. etrans; [by apply (insert_subseteq m a i)|done]. Qed.

(** eoa-account.ts sets up a paymaster that can never sponsor: when its
    [main] resolves, the chain has a new EnclaveSolverPaymaster, owned by the
    signer and trusting the configured paymaster key, and every validation on it
    reverts; nothing that was on the chain is touched. *)
Theorem eoa_account_deploys_unusable_paymaster (w : W) :
  resolves eoa_account_main (λ _ w', ∃ pm s,
    contracts w !! pm = None ∧ contracts w' !! pm = Some (ISolverPaymaster false s) ∧
    VerifyingPaymaster.owner s = signer w ∧
    VerifyingPaymaster.verifyingSigner s = 0x399e8917Cd7Ce367b06bFfd0863E465B0Fd950dB ∧
    contracts w ⊆ contracts w' ∧
    ∀ (C : EvmCrypto) (T : Type) (ET : ERC20 T) m u pre (t : T),
      is_ok (SolverPaymaster._validatePaymasterUserOp SolverPaymaster.V0.getHash m u pre s t) = false) w.
Proof.
  unfold eoa_account_main, deployEntrypoint, deploySmartAccountFactory, deploySolverPaymaster.
  apply resolves_bind. eapply deploy_and_wait_resolves; [reflexivity|]. intros ep w1 Hn1 Hx1 S1.
  apply resolves_query; [done|]. intros _ w2 E2 S2 _. apply resolves_ret.
  apply resolves_bind. eapply deploy_and_wait_resolves; [reflexivity|]. intros fa w3 Hn3 Hx3 S3.
  apply resolves_query; [done|]. intros _ w4 E4 S4 _. apply resolves_ret.
  apply resolves_bind. eapply deploy_and_wait_resolves.
  { intros w0 S0. unfold construct, VerifyingPaymaster.deployed, tx_msg. cbn [msg_sender]. rewrite S0. reflexivity. }
  intros pm w5 Hn5 Hx5 S5. apply resolves_query; [done|]. intros _ w6 E6 S6 _. apply resolves_ret.
  destruct (deployed_at _ _ _ _ Hn5 Hx5) as (Hpm & Hk5 & Hn5').
  eapply resolves_deposit; [cbn [target]; rewrite E6; exact Hpm|reflexivity|]. intros w7 t7 E7 S7 _.
  apply resolves_last; [done|]. intros _ w8 E8 S8 _.
  pose proof (extends_insert_subseteq _ _ _ _ Hn1 Hx1) as Hs1.
  pose proof (extends_insert_subseteq _ _ _ _ Hn3 Hx3) as Hs3.
  pose proof (extends_insert_subseteq _ _ _ _ Hn5 Hx5) as Hs5.
  assert (contracts w ⊆ contracts w4) as Hs by (rewrite E4; etrans; [exact Hs1|]; by rewrite <- E2).
  eexists pm, _. split; [by eapply lookup_weaken_None|]. split; [rewrite E8, E7, E6; exact Hpm|].
  split; [cbn; congruence|]. split; [done|]. split; [rewrite E8, E7, E6; by etrans|].
  intros. apply SolverPaymaster.validate_reverts.
Qed.
End script_theorems.

(** ** Concrete runs *)

Section witnesses.
Import SimChain.
Lemma read_only_scripts_change_nothing_witness :
  exits getBalance_main sim0 (λ _ m, m = contracts sim0).
Proof.
  refine (read_only_scripts_change_nothing getBalance_main sim0 _).
  apply list_elem_of_further, list_elem_of_further, list_elem_of_here.
Defined.

(** A registry with the six names. *)
Definition full_registry : EnclaveRegistry.state :=
  {| EnclaveRegistry.owner := 0xA11CE; registry := list_to_map (imap (λ n k, (k, 100 + Z.of_nat n)) registry_keys) |}.
Definition sim_full : sim := Sim {[ deployed_registry := IRegistry full_registry ]} [0xA11CE] ∅ [].

Lemma getAllRegistryValues_complete_witness :
  (outcome getAllRegistryValues_main sim_full).1 = 0 ∧ (outcome getAllRegistryValues_main sim0).1 = 1 ∧
  exits getAllRegistryValues_main sim_full (λ status m,
    (status = 0 → ∀ k, k ∈ registry_keys → ∃ a, registry full_registry !! k = Some a ∧ a ≠ zero_address) ∧
    m = contracts sim_full).
Proof.
  split; [by vm_compute|]. split; [by vm_compute|].
  refine (getAllRegistryValues_complete sim_full full_registry eq_refl _). by vm_compute.
Defined.
Lemma deployRegistryTest_fails_witness :
  exits deployRegistryTest_main sim0 (λ status m, status = 1 ∧ m = contracts sim0).
Proof. refine (deployRegistryTest_fails sim0 _). apply (bool_decide_unpack _). by vm_compute. Defined.
Lemma deploySmartAccount_rejects_witness :
  wp (deploySmartAccount 1 2 3) (λ r w', (∃ e, r = inr e) ∧ extends (contracts sim0) (contracts w')) sim0.
Proof. exact (deploySmartAccount_rejects 1 2 3 sim0). Defined.
Lemma mintNFT_needs_two_accounts_witness :
  exits mintNFT_main sim_full (λ status m, status = 1 ∧ m = contracts sim_full).
Proof.
  refine (mintNFT_needs_two_accounts sim_full _). intros l E. vm_compute in E. injection E as <-. cbn. lia.
Defined.
Lemma eoa_account_deploys_unusable_paymaster_witness :
  is_Some (head (sim_log (run eoa_account_main sim0).2)) ∧
  resolves eoa_account_main (λ _ w', ∃ pm s, contracts w' !! pm = Some (ISolverPaymaster false s)) sim0.
Proof.
  split; [vm_compute; eauto|]. unfold resolves. eapply wp_mono; [apply (eoa_account_deploys_unusable_paymaster sim0)|].
  intros [u|e] w' Hq; [|done]. destruct Hq as (pm & s & _ & Hp & _). eauto.
Defined.
End witnesses.
