(* ===== verification/ClientScripts.v ===== *)
(** The client scripts in JavaScript (scripts/runTransferPassKey.js,
    runTransferPassKeyarb.js, runTransferPassKeyfinal.js,
    P256verifycreatePublicKey.js): they build a user operation for a passkey
    account, have it sponsored, sign it and hand it to the EntryPoint.

    An object is a map from keys to values.  A byte string is a 0x-prefixed
    hexadecimal string; the upper or lower case of its letters is not modelled.
    Numbers, bigints and their decimal strings are all [JNum].  ethers.keccak256
    is the EVM's. *)
From Stdlib Require Import Ascii.
From S2P Require Import Prelude Bytes Base64URL UserOperation VerifyingPaymaster Ethers Chain DeployScripts QueryScripts ContractScripts AccountBase P256SmartAccount.

Abbreviation object := (gmap string jsval).

(** ** Hexadecimal strings *)

Definition hex_digit_opt (c : ascii) : option Z :=
  let n := ascii_z c in
  if (48 <=? n) && (n <=? 57) then Some (n - 48)
  else if (97 <=? n) && (n <=? 102) then Some (n - 87)
  else if (65 <=? n) && (n <=? 70) then Some (n - 55)
  else None.
Fixpoint parse_hex (s : list ascii) : option bytes :=
  match s with
  | [] => Some []
  | c :: d :: rest =>
      h ← hex_digit_opt c;
      l ← hex_digit_opt d;
      bs ← parse_hex rest;
      Some (16 * h + l :: bs)
  | [_] => None
  end.
(** [ethers.getBytes] *)
Definition getBytes (s : list ascii) : option bytes :=
  match s with
  | "0"%char :: "x"%char :: rest => parse_hex rest
  | _ => None
  end.
(** [ethers.hexlify] *)
Definition hexlify (bs : bytes) : list ascii :=
  ["0"; "x"]%char ++ concat ((λ b, [hex_char (b / 16); hex_char (b mod 16)]) <$> bs).

Definition hexConcat (items : list (list ascii)) : list ascii :=
  foldl (λ result item, result ++ drop 2 item) ["0"; "x"]%char items.

(** ** Objects *)

Definition is_nullish (v : jsval) : bool := match v with JUndefined | JNull => true | _ => false end.
Definition field (o : object) (k : string) : jsval := default JUndefined (o !! k).
Definition hexstr (bs : bytes) : jsval := JStr (String.string_of_list_ascii (hexlify bs)).

Definition DefaultsForUserOp : object := list_to_map [
  ("sender", JAddr zero_address); ("nonce", JNum 0); ("initCode", JStr "0x"); ("callData", JStr "0x");
  ("callGasLimit", JNum 0); ("verificationGasLimit", JNum 3000000); ("preVerificationGas", JNum 10000000);
  ("maxFeePerGas", JNum 0); ("maxPriorityFeePerGas", JNum 1000000000); ("paymasterAndData", JStr "0x");
  ("signature", JStr "0x")].

(** The null members are deleted from a copy, which is merged over the defaults. *)
Definition fillUserOpDefaults (op defaults : object) : object :=
  let partial := filter (λ kv, is_nullish kv.2 = false) op in
  partial ∪ defaults.

(** How ethers' ABI coder reads a value; [None]: it throws. *)
Definition as_uint (w : Z) (v : jsval) : option Z :=
  match v with JNum z => if bool_decide (uint w z) then Some z else None | _ => None end.
Definition as_num (v : jsval) : option Z := match v with JNum z => Some z | _ => None end.
Definition as_addr (v : jsval) : option address :=
  match v with JAddr a => if bool_decide (uint 160 a) then Some a else None | _ => None end.
Definition as_bytes (v : jsval) : option bytes :=
  match v with
  | JStr s => getBytes (String.list_ascii_of_string s)
  | JBytes bs => Some bs
  | _ => None
  end.

Lemma as_uint_range w v z : as_uint w v = Some z → uint w z.
Proof. unfold as_uint. destruct v; try done. case_bool_decide; intros; by simplify_eq. Qed.

Lemma as_uint_num w z z' : as_uint w (JNum z) = Some z' → z = z' ∧ uint w z'.
Proof. cbn. case_bool_decide; intros; by simplify_eq. Qed.

(** The UserOperation tuple of a contract call's argument. *)
Definition toUserOp (o : object) : option UserOperation :=
  a ← as_addr (field o "sender");
  n ← as_uint 256 (field o "nonce");
  ic ← as_bytes (field o "initCode");
  cd ← as_bytes (field o "callData");
  cg ← as_uint 256 (field o "callGasLimit");
  vg ← as_uint 256 (field o "verificationGasLimit");
  pg ← as_uint 256 (field o "preVerificationGas");
  mf ← as_uint 256 (field o "maxFeePerGas");
  mp ← as_uint 256 (field o "maxPriorityFeePerGas");
  pd ← as_bytes (field o "paymasterAndData");
  sg ← as_bytes (field o "signature");
  Some {| UserOperation.sender := a; nonce := n; initCode := ic; callData := cd; callGasLimit := cg;
          verificationGasLimit := vg; preVerificationGas := pg; maxFeePerGas := mf;
          maxPriorityFeePerGas := mp; paymasterAndData := pd; signature := sg |}.

Section client.
Context `{EvmCrypto}.

Definition packUserOp (o : object) : option bytes :=
  a ← as_addr (field o "sender");
  n ← as_uint 256 (field o "nonce");
  ic ← as_bytes (field o "initCode");
  cd ← as_bytes (field o "callData");
  cg ← as_uint 256 (field o "callGasLimit");
  vg ← as_uint 256 (field o "verificationGasLimit");
  pg ← as_uint 256 (field o "preVerificationGas");
  mf ← as_uint 256 (field o "maxFeePerGas");
  mp ← as_uint 256 (field o "maxPriorityFeePerGas");
  pd ← as_bytes (field o "paymasterAndData");
  Some (abi_words [a; n; keccak256 ic; keccak256 cd; cg; vg; pg; mf; mp; keccak256 pd]).

(** [ethers.keccak256(abiCoder.encode(["bytes32", "address", "uint256"],
    [keccak256(packedUserOp), entryPoint, chainId]))] *)
Definition op_message (packed : bytes) (entryPoint chainId : Z) : Z :=
  keccak256 (abi_words [keccak256 packed; entryPoint; chainId]).

(** An expression that throws when [None]. *)
Definition or_throw {A} (o : option A) : script A := match o with Some a => Ret a | None => Throw TypeError end.

Definition getGasFee (p : provider) : script (Z * Z * Z) :=
  let verificationGasLimit := 3000000 in
  block ← await (GetLatestBlock p);
  let maxPriorityFeePerGas := 0 in
  _ ← console_log [JStr "block"];
  _ ← console_log [match block with Some b => JNum b | None => JNull end];
  let maxFeePerGas :=
    match block with
    | Some b => if b =? 0 then maxPriorityFeePerGas else 2 * b + maxPriorityFeePerGas
    | None => maxPriorityFeePerGas
    end in
  Ret (maxFeePerGas, maxPriorityFeePerGas, verificationGasLimit).

(** [usdc.interface.encodeFunctionData("mint", [to, amount])] and
    [account.interface.encodeFunctionData("execute", [dest, value, data])] *)
Definition encode_mint (to : address) (amount : Z) : bytes :=
  selector "mint(address,uint256)" ++ abi_words [to; amount].
Definition encode_execute (dest : address) (value : Z) (data : bytes) : bytes :=
  selector "execute(address,uint256,bytes)" ++ abi_words [dest; value; 96] ++ abi_tail data.

(** [Math.floor((Date.now() + 3600000) / 1000)] and [Math.floor(Date.now() / 1000)] *)
Definition valid_window : script (Z * Z) :=
  now ← await DateNow;
  let VALID_UNTIL := (now + 3600000) / 1000 in
  now ← await DateNow;
  let VALID_AFTER := now / 1000 in
  Ret (VALID_UNTIL, VALID_AFTER).

(** What the two transfer scripts are configured with. *)
Record config := Config {
  account : address; entry_point : address; usdc : address; paymaster_address : address;
  verifier : address; chain_id : Z; gas_provider : provider; private_key : bytes; public_key : bytes
}.

(** ** Building the operation: up to [const userOp = fillUserOpDefaults(op)] *)
Definition transfer_operation (c : config) : script (contract * object) :=
  EnclaveSmartAccount ← await (GetContractFactory "P256SmartAccount");
  let enclaveSmartAccount := attach EnclaveSmartAccount (account c) in
  EntryPoint ← await (GetContractFactory "EntryPoint");
  let entryPoint := attach EntryPoint (entry_point c) in
  MockUSDC ← await (GetContractFactory "MockUSDC");
  let usdcEncodedData := encode_mint (account c) 100000000 in
  let executeEncodedData := encode_execute (usdc c) 0 usdcEncodedData in
  '(maxFeePerGas, maxPriorityFeePerGas, verificationGasLimit) ← getGasFee (gas_provider c);
  let op : object := list_to_map [
    ("sender", JAddr (account c)); ("nonce", JNull); ("initCode", JNull); ("callData", hexstr executeEncodedData);
    ("callGasLimit", JNull); ("verificationGasLimit", JNum verificationGasLimit);
    ("preVerificationGas", JNum 1000000); ("maxFeePerGas", JNum maxFeePerGas);
    ("maxPriorityFeePerGas", JNum maxPriorityFeePerGas); ("paymasterAndData", JStr "0x"); ("signature", JStr "0x")] in
  execEstimatedGas ← await (EstimateGas (gas_provider c) (entry_point c) (account c) executeEncodedData);
  let op := <["callGasLimit" := JNum execEstimatedGas]> op in
  nonce ← await (Call enclaveSmartAccount "getNonce" []);
  n ← or_throw (as_num nonce);
  _ ← console_log [JNum n];
  _ ← console_log [nonce];
  let op := <["nonce" := JNum n]> op in
  Ret (entryPoint, fillUserOpDefaults op DefaultsForUserOp).

(** ** Sponsoring: from [paymaster.getHash] to [userOp.paymasterAndData = ...] *)
Definition sponsor (paymaster : contract) (get_signer : script address) (userOp : object)
    : script (address * object) :=
  '(VALID_UNTIL, VALID_AFTER) ← valid_window;
  u ← or_throw (toUserOp userOp);
  pmHash ← await (Call paymaster "getHash" [JUserOp u; JNum VALID_UNTIL; JNum VALID_AFTER]);
  signer ← get_signer;
  message ← or_throw (as_bytes pmHash);
  paymasterSignature ← await (SignMessage signer message);
  _ ← console_log [hexstr paymasterSignature];
  vu ← or_throw (as_uint 48 (JNum VALID_UNTIL));
  va ← or_throw (as_uint 48 (JNum VALID_AFTER));
  let encoded := abi_words [vu; va] in
  _ ← console_log [hexstr encoded];
  let paymasterAndData :=
    hexConcat [hexlify (be_bytes 20 (target paymaster)); hexlify encoded; hexlify paymasterSignature] in
  Ret (signer, <["paymasterAndData" := JStr (String.string_of_list_ascii paymasterAndData)]> userOp).

(** ** Signing: [p256.sign(message.substring(2), privKey)] and
    [userOp["signature"] = abiCoder.encode(["uint256", "uint256"], [r, s])] *)
Definition sign_operation (c : config) (message : Z) (userOp : object) : script (Z * Z * object) :=
  '(r, s) ← await (P256Sign (word message) (private_key c));
  _ ← console_log [JNum r; JNum s];
  r' ← or_throw (as_uint 256 (JNum r));
  s' ← or_throw (as_uint 256 (JNum s));
  Ret (r, s, <["signature" := hexstr (abi_words [r'; s'])]> userOp).

Definition message_of (c : config) (userOp : object) : script Z :=
  packedUserOp ← or_throw (packUserOp userOp);
  Ret (op_message packedUserOp (entry_point c) (chain_id c)).

Definition log_object (o : object) : script unit := console_log [JObj (map_to_list o)].
(** The logs between the first message and its signature. *)
Definition log_message (entryPoint : contract) (message : Z) (userOp : object) : script unit :=
  _ ← console_log [hexstr (word message)];
  u ← or_throw (toUserOp userOp);
  h ← await (Call entryPoint "getUserOpHash" [JUserOp u]);
  _ ← console_log [h];
  log_object userOp.

(** ** Checking and submitting: to [await tx1.wait()] *)
Definition publicKey : jsval :=
  JArr [JNum 0x8c36f69ffec57a20ce5ec75c94f4d1b46bdae751fd90df035d24f4fb54a963ba;
        JNum 0x93632e668c503f14c6a3a267608326b7bb07f39c7533051d6c6274bc9eb6ab6c].

(** [checked] is the message and signature given to p256.verify, [onchain] those
    given to the verifier contract. *)
Definition check_and_submit (c : config) (entryPoint : contract) (signer : address) (userOp : object)
    (checked onchain : Z * (Z * Z)) : script unit :=
  _ ← log_object userOp;
  ok ← await (P256Verify checked.2 (word checked.1) (public_key c));
  _ ← console_log [JBool ok];
  P256Verifier ← await (GetContractFactory "P256Verifier");
  let p256Verifier := attach P256Verifier (verifier c) in
  res ← await (Call p256Verifier "ecdsa_verify"
    [hexstr (word onchain.1); JNum onchain.2.1; JNum onchain.2.2; publicKey]);
  _ ← console_log [res];
  u ← or_throw (toUserOp userOp);
  tx1 ← await (Send entryPoint "handleOps" [JArr [JUserOp u]; JAddr signer] 0);
  _ ← await (Wait tx1);
  console_log [JNum tx1].

Definition privKey : bytes :=
  [199; 159; 128; 212; 221; 71; 178; 234; 103; 78; 209; 175; 87; 254; 131; 80;
   7; 92; 111; 101; 49; 230; 50; 51; 193; 179; 193; 34; 235; 1; 131; 33].
Definition pubKey33 : bytes :=
  [2; 140; 54; 246; 159; 254; 197; 122; 32; 206; 94; 199; 92; 148; 244; 209;
   180; 107; 218; 231; 81; 253; 144; 223; 3; 93; 36; 244; 251; 84; 169; 99; 186].

(** scripts/runTransferPassKey.js *)
Definition local_config : config := {|
  account := 0xa0Dbb12cbb991f91C76E5D1af6e4349f8B8C08f5; entry_point := 0x5FbDB2315678afecb367f032d93F642f64180aa3;
  usdc := 0x2279B7A0a67DB372996a5FaB50D91eAA73d2eBe6; paymaster_address := 0x0165878A594ca255338adfa4d48449f69242Eb8F;
  verifier := 0x8A791620dd6260079BF849Dc5567aDC3F2FdC318; chain_id := 31337;
  gas_provider := DefaultProvider "http://127.0.0.1:8545"; private_key := privKey; public_key := pubKey33
|}.
Definition runTransferPassKey_main : script unit :=
  let c := local_config in
  '(entryPoint, userOp) ← transfer_operation c;
  Paymaster ← await (GetContractFactory "EnclaveVerifyingPaymaster");
  let paymaster := attach Paymaster (paymaster_address c) in
  '(signer, userOp) ← sponsor paymaster (await ProviderGetSigner) userOp;
  message ← message_of c userOp;
  _ ← log_message entryPoint message userOp;
  '(r, s, userOp) ← sign_operation c message userOp;
  check_and_submit c entryPoint signer userOp (message, (r, s)) (message, (r, s)).

(** scripts/runTransferPassKeyarb.js *)
Definition arb_config : config := {|
  account := 0x05B24532A7523d788C095501A8D41361f551F236; entry_point := 0x5FF137D4b0FDCD49DcA30c7CF57E578a026d2789;
  usdc := 0x4fdaD6f3Ad2AaC8DA5E777d3D5DcB3Fb3aE59D5B; paymaster_address := 0x930Af90BbaFC8996102B070fdeBC954331294c40;
  verifier := 0xf4Bd13DEA635266Ee82d8d5bE06a7df9E83C5B40; chain_id := 421614;
  gas_provider := HardhatProvider; private_key := privKey; public_key := pubKey33
|}.
Definition bundler_url : string :=
  "https://bundler.biconomy.io/api/v2/421614/nJPK7B3ru.dd7f7861-190d-41bd-af80-6877f74b8f44".

(** The bundler's gas estimate replaces the three gas limits. *)
Definition estimate_limits (userOp : object) : script object :=
  let body := JObj [
    ("method", JStr "eth_estimateUserOperationGas");
    ("params", JArr [
      JObj ((λ k, (k, field userOp k)) <$>
        ["sender"; "nonce"; "initCode"; "callData"; "paymasterAndData"; "signature"]);
      JAddr 0x5ff137d4b0fdcd49dca30c7cf57e578a026d2789]);
    ("id", JNum 1697033406); ("jsonrpc", JStr "2.0")] in
  gasLimits ← await (HttpPost bundler_url body);
  _ ← console_log [match gasLimits with
    | Some (cg, vg, pg) => JObj [("result", JObj [("callGasLimit", JNum cg); ("verificationGasLimit", JNum vg);
                                                  ("preVerificationGas", JNum pg)])]
    | None => JUndefined
    end];
  '(callGasLimit, verificationGasLimit, preVerificationGas) ← or_throw gasLimits;
  Ret (<["preVerificationGas" := JNum preVerificationGas]>
        (<["verificationGasLimit" := JNum verificationGasLimit]>
          (<["callGasLimit" := JNum callGasLimit]> userOp))).

(** With the bundler's limits the operation is sponsored and signed again; the
    verifier contract is still asked about the first message and signature. *)
Definition arb_resubmit (c : config) (entryPoint paymaster : contract) (signer : address)
    (message : Z) (sig : Z * Z) (userOp : object) : script unit :=
  '(signer, userOp) ← sponsor paymaster (Ret signer) userOp;
  newMessage ← message_of c userOp;
  '(r2, s2, userOp) ← sign_operation c newMessage userOp;
  check_and_submit c entryPoint signer userOp (newMessage, (r2, s2)) (message, sig).

Definition runTransferPassKeyarb_main : script unit :=
  let c := arb_config in
  '(entryPoint, userOp) ← transfer_operation c;
  Paymaster ← await (GetContractFactory "EnclaveVerifyingPaymaster");
  let paymaster := attach Paymaster (paymaster_address c) in
  '(signer, userOp) ← sponsor paymaster (await ProviderGetSigner) userOp;
  message ← message_of c userOp;
  _ ← log_message entryPoint message userOp;
  '(r, s, userOp) ← sign_operation c message userOp;
  userOp ← estimate_limits userOp;
  arb_resubmit c entryPoint paymaster signer message (r, s) userOp.

(** ** Copies

    Each script carries its own copy of the helpers; those of
    runTransferPassKeyfinal.js have other gas defaults and are not called. *)
Definition arb_DefaultsForUserOp : object := DefaultsForUserOp.
Definition arb_hexConcat := hexConcat.
Definition arb_getGasFee : provider → script (Z * Z * Z) := getGasFee.
Definition arb_packUserOp : object → option bytes := packUserOp.
Definition arb_fillUserOpDefaults := fillUserOpDefaults.

Definition final_DefaultsForUserOp : object :=
  <["verificationGasLimit" := JNum 300000]> (<["preVerificationGas" := JNum 1000000]> DefaultsForUserOp).
Definition final_hexConcat := hexConcat.
Definition final_getGasFee (p : provider) : script (Z * Z * Z) :=
  '(maxFeePerGas, maxPriorityFeePerGas, _) ← getGasFee p;
  Ret (maxFeePerGas, maxPriorityFeePerGas, 200000).
Definition final_packUserOp : object → option bytes := packUserOp.
Definition final_fillUserOpDefaults := fillUserOpDefaults.
End client.

(** ** scripts/runTransferPassKeyfinal.js

    A fixed operation, whose signature is decoded and printed; the [return]
    after it ends the script, so the calls that follow it are not made. *)
Definition final_signature : bytes := hex_bytes
  "5d2613792e97707c16a1ed3cce56e167900d5d457018eacf9df94b86d3c58935d85ea4c55aedb7b7deab8eb4548450b5afa334dc0d8c092a84134902388e49be05a22b308a1165541c0d59f8cdcfcd9af2d78127cb15febc5322526064a39f7600000000000000000000000000000000000000000000000000000000000000e0000000000000000000000000000000000000000000000000000000000000014000000000000000000000000000000000000000000000000000000000000001a00000000000000000000000005fbdb2315678afecb367f032d93f642f64180aa3000000000000000000000000000000000000000000000000000000000000002549960de5880e8c687434170f6476605b8fe4aeb9a28632c7995cf3ba831d9763050000000400000000000000000000000000000000000000000000000000000000000000000000000000000000000000000000000000000000000000000000247b2274797065223a22776562617574686e2e676574222c226368616c6c656e6765223a22000000000000000000000000000000000000000000000000000000000000000000000000000000000000000000000000000000000000000000000037222c226f726967696e223a22687474703a2f2f6c6f63616c686f73743a35313733222c2263726f73734f726967696e223a66616c73657d000000000000000000".

Definition final_userOp : object := list_to_map [
  ("sender", JAddr 0xe793e73E5380AefcE3b638677755964bd28cC0bC); ("nonce", JNum 0); ("initCode", JStr "0x");
  ("callData", hexstr (hex_bytes
    "b61d27f6000000000000000000000000610178da211fef7d417bc0e6fed39f05609ad78800000000000000000000000000000000000000000000000000000000000000000000000000000000000000000000000000000000000000000000000000000060000000000000000000000000000000000000000000000000000000000000004440c10f19000000000000000000000000d2a0f788c20c26eaec355b92da0d99cbb547cac20000000000000000000000000000000000000000000000000000000005f5e10000000000000000000000000000000000000000000000000000000000"));
  ("callGasLimit", JNum 79476); ("verificationGasLimit", JNum 200000); ("preVerificationGas", JNum 1000000);
  ("maxFeePerGas", JNum 249916756); ("maxPriorityFeePerGas", JNum 0);
  ("paymasterAndData", hexstr (hex_bytes
    "2279B7A0a67DB372996a5FaB50D91eAA73d2eBe600000000000000000000000000000000000000000000000000000000664a2a4300000000000000000000000000000000000000000000000000000000664a1c33776cc8cae68500ee8c733f3c21b99d963979d5eda5075fa35889e0499f58134d478a7ccafef468e43d3952f90ed30a77fc2431a108297930eef7a9427c62cf9b1b"));
  ("signature", hexstr final_signature)].

(** AbiCoder.decode(["bytes32", "uint256", "uint256", "bytes", "string", "string", "address"], data) *)
Definition decode_final (data : bytes) : option (assertion * address) :=
  match (_ ← require_ ((224 <=? length data)%nat);
         a ← abi_decode_assertion data;
         k ← abi_uint_at 160 data 192;
         Ok (a, k)) with
  | Ok x => Some x
  | Revert _ => None
  end.

Definition runTransferPassKeyfinal_main : script unit :=
  EntryPoint ← await (GetContractFactory "EntryPoint");
  let entryPoint := attach EntryPoint 0xe7f1725E7734CE288F8367e1Bb143E90bb3F0512 in
  signer ← await ProviderGetSigner;
  EnclaveSmartAccount ← await (GetContractFactory "SmartAccount");
  let enclaveSmartAccount := attach EnclaveSmartAccount 0xe793e73E5380AefcE3b638677755964bd28cC0bC in
  bs ← or_throw (as_bytes (field final_userOp "signature"));
  '(a, k) ← or_throw (decode_final bs);
  console_log [JBytes (word (keyHash a)); JNum (sig_r a); JNum (sig_s a); JBytes (authenticatorData a);
               JBytes (clientDataJSONPre a); JBytes (clientDataJSONPost a); JAddr k].

(** ** scripts/P256verifycreatePublicKey.js *)

Definition create_clientDataJSON : bytes :=
  json "{'type':'webauthn.get','challenge':'JuFWdIR6III19kve1w96Tr6WPFuGx2UnTybH1mJbcJM','origin':'http://localhost:8000','crossOrigin':false,'other_keys_can_be_added_here':'do not compare clientDataJSON against a template. See https://goo.gl/yabPex'}".

(** [digest.toString('hex')]: two digits per byte, no prefix. *)
Definition toStringHex (bs : bytes) : list ascii := drop 2 (hexlify bs).

(** ethers.decodeBase64 also accepts the URL-safe alphabet. *)
Definition decodeBase64 (s : string) : option bytes := Base64URL.decode (str_bytes s).

Definition getMessageHash : script (list ascii) :=
  authdata2 ← or_throw (decodeBase64 "SZYN5YgOjGh0NBcPZHZgW4_krrmihjLHmVzzuoMdl2MdAAAAAA");
  _ ← console_log [JBytes authdata2];
  clientDataHash ← await (Ethers.Sha256 create_clientDataJSON);
  _ ← console_log [JObj [("clientDat", JStr (String.string_of_list_ascii (toStringHex clientDataHash)))]];
  let concatenatedData := authdata2 ++ clientDataHash in
  _ ← console_log [JBytes concatenatedData];
  hash2Digest ← await (Ethers.Sha256 concatenatedData);
  _ ← console_log [JStr "Yolo: "; JStr (String.string_of_list_ascii (toStringHex hash2Digest))];
  Ret (toStringHex hash2Digest).

(** [p256.sign] and [verify] read the message as hexadecimal digits. *)
Definition P256verifycreatePublicKey_main : script unit :=
  privKey ← await P256RandomPrivateKey;
  _ ← console_log [JObj [("privKey", JBytes privKey)]];
  pubKey ← await (P256GetPublicKey privKey);
  _ ← console_log [JStr "PubKey : "; JBytes pubKey];
  hex ← await (EcGetPublicHex pubKey);
  _ ← console_log [JStr "privKey2"];
  _ ← console_log [JStr "PublicKey2 Hex: "; JStr (String.string_of_list_ascii hex)];
  let publicKey := [ ["0"; "x"]%char ++ take 64 (drop 2 hex); ["0"; "x"]%char ++ drop (length hex - 64) hex ] in
  _ ← console_log (JStr ∘ String.string_of_list_ascii <$> publicKey);
  _ ← console_log [JBytes pubKey];
  msgHash ← getMessageHash;
  _ ← console_log [JStr (String.string_of_list_ascii msgHash)];
  message ← or_throw (parse_hex (drop 2 msgHash));
  sig ← await (P256Sign message privKey);
  _ ← console_log [JNum sig.1; JNum sig.2];
  pub ← or_throw (parse_hex hex);
  ok ← await (P256Verify sig message pub);
  console_log [JBool ok].

(** ** Hexadecimal round trips *)

Lemma hex_digit_opt_char d : 0 ≤ d < 16 → hex_digit_opt (hex_char d) = Some d.
Proof.
  intros Hd. assert (∃ n, (n < 16)%nat ∧ d = Z.of_nat n) as (n & Hn & ->) by (exists (Z.to_nat d); lia).
  do 16 (destruct n as [|n]; [reflexivity|]). lia.
Qed.

Lemma parse_hex_app s t bs : parse_hex s = Some bs → parse_hex (s ++ t) = (bs ++.) <$> parse_hex t.
Proof.
  revert bs. induction s as [s IH] using (induction_ltof1 _ (@length ascii)). intros bs. unfold ltof in IH.
  destruct s as [|c [|d s]]; cbn; [intros [= <-]; by destruct (parse_hex t)|done|].
  destruct (hex_digit_opt c), (hex_digit_opt d); cbn; try done.
  destruct (parse_hex s) as [bs'|] eqn:E; cbn; [|done]. intros [= <-].
  rewrite (IH s ltac:(cbn; lia) bs' E). by destruct (parse_hex t).
Qed.

Lemma parse_hex_hexlify bs : is_bytes bs → parse_hex (drop 2 (hexlify bs)) = Some bs.
Proof.
  change (drop 2 (hexlify bs)) with (concat ((λ b, [hex_char (b / 16); hex_char (b mod 16)]) <$> bs)).
  induction 1 as [|b bs Hb _ IH]; [done|]. unfold uint in Hb. change (2 ^ 8) with 256 in Hb.
  rewrite fmap_cons. cbn [concat app parse_hex].
  rewrite !hex_digit_opt_char by (Z.div_mod_to_equations; lia). cbn [mbind option_bind]. rewrite IH. cbn.
  do 2 f_equal. Z.div_mod_to_equations; lia.
Qed.
Lemma getBytes_hexlify bs : is_bytes bs → getBytes (hexlify bs) = Some bs.
Proof. apply parse_hex_hexlify. Qed.

Lemma getBytes_inv s bs : getBytes s = Some bs → s = ["0"; "x"]%char ++ drop 2 s ∧ parse_hex (drop 2 s) = Some bs.
Proof.
  destruct s as [|c [|d s]]; cbn; [done|by repeat case_match|]. intros E.
  destruct c as [[] [] [] [] [] [] [] []]; try done. destruct d as [[] [] [] [] [] [] [] []]; try done.
Qed.

Lemma hexConcat_app s items bss :
  Forall2 (λ item bs, getBytes item = Some bs) items bss →
  ∃ t, foldl (λ result item, result ++ drop 2 item) s items = s ++ t ∧ parse_hex t = Some (concat bss).
Proof.
  intros Hf. revert s. induction Hf as [|item bs items bss Hi _ IH]; intros s; cbn.
  - exists []. by rewrite app_nil_r.
  - destruct (IH (s ++ drop 2 item)) as (t & -> & Ht). exists (drop 2 item ++ t).
    rewrite app_assoc. split; [done|]. apply getBytes_inv in Hi as [_ Hi].
    by rewrite (parse_hex_app _ _ _ Hi), Ht.
Qed.

Lemma hexConcat_bytes items bss :
  Forall2 (λ item bs, getBytes item = Some bs) items bss → getBytes (hexConcat items) = Some (concat bss).
Proof. intros (t & E & Ht)%(hexConcat_app ["0"; "x"]%char). unfold hexConcat. by rewrite E. Qed.

(** What the client puts into paymasterAndData is what the paymaster reads:
    for any paymaster address, window and signature, the hexadecimal string
    hexConcat builds denotes the documented layout, and the contract's
    parsePaymasterAndData recovers the window and the signature from it. *)
Theorem client_paymaster_data_parses (pm vu va : Z) (sig : bytes) :
  uint 48 vu → uint 48 va → is_bytes sig →
  ∃ bs, getBytes (hexConcat [hexlify (be_bytes 20 pm); hexlify (abi_words [vu; va]); hexlify sig]) = Some bs ∧
        parsePaymasterAndData bs = Ok (vu, va, sig).
Proof.
  intros Hvu Hva Hsig. exists (paymaster_data pm vu va sig). split; [|by apply parse_paymaster_data_ok].
  rewrite (hexConcat_bytes _ [be_bytes 20 pm; abi_words [vu; va]; sig]).
  - cbn [concat]. by rewrite app_nil_r.
  - repeat constructor; apply getBytes_hexlify; eauto with evm.
Qed.
Lemma client_paymaster_data_parses_witness :
  ∃ bs, getBytes (hexConcat [hexlify (be_bytes 20 0xABC); hexlify (abi_words [1700003600; 1700000000]); hexlify [1; 2; 255]])
          = Some bs ∧ parsePaymasterAndData bs = Ok (1700003600, 1700000000, [1; 2; 255]).
Proof.
  refine (client_paymaster_data_parses 0xABC 1700003600 1700000000 [1; 2; 255] _ _ _).
  - by vm_compute.
  - by vm_compute.
  - apply (bool_decide_unpack _). by vm_compute.
Defined.

(** fillUserOpDefaults gives every member of the result from the caller's
    object when that has a value there, and from the defaults when the member is
    missing, null or undefined there. *)
Theorem fillUserOpDefaults_lookup (op defaults : object) (k : string) :
  fillUserOpDefaults op defaults !! k =
    match op !! k with
    | Some v => if is_nullish v then defaults !! k else Some v
    | None => defaults !! k
    end.
Proof.
  unfold fillUserOpDefaults. rewrite lookup_union, map_lookup_filter.
  destruct (op !! k) as [v|]; cbn; [|by destruct (defaults !! k)].
  destruct (is_nullish v) eqn:E; cbn.
  - rewrite option_guard_False by (cbn; congruence). cbn. by destruct (defaults !! k).
  - rewrite option_guard_True by done. cbn. by destruct (defaults !! k).
Qed.

Lemma pack_toUserOp `{EvmCrypto} o u : toUserOp o = Some u → packUserOp o = Some (UserOperationLib.pack u).
Proof.
  unfold toUserOp, packUserOp. intros E. do 10 (apply bind_Some in E as (? & -> & E)).
  apply bind_Some in E as (sg & _ & E). cbn [mbind option_bind]. by simplify_eq.
Qed.

(** C29: The client hashes what the contracts hash: whenever an object converts
    to a UserOperation, packUserOp is the Solidity library's pack of it, so the
    message the client signs is
    keccak256(abi.encode(userOp.hash(), entryPoint, chainId)). *)
Theorem packUserOp_matches_contract (C : EvmCrypto) (o : object) (u : UserOperation) (ep chain : Z) :
  toUserOp o = Some u →
  packUserOp o = Some (UserOperationLib.pack u) ∧
  (λ packed, op_message packed ep chain) <$> packUserOp o =
    Some (keccak256 (abi_words [UserOperationLib.hash u; ep; chain])).
Proof. intros E%pack_toUserOp. by rewrite E. Qed.

(** ** What the scripts sign and submit, whatever they are answered

    [traces p Q st]: along every run of [p], for all answers of the environment,
    each call satisfies [chk] in the state [upd] tracks, and a normal end
    satisfies [Q]. *)
Section traces.
Context {St : Type} (upd : ∀ R : Set, op R → R + jserror → St → St) (chk : ∀ R : Set, op R → St → Prop).

Fixpoint traces {A} (p : script A) (Q : A → St → Prop) (st : St) : Prop :=
  match p with
  | Ret a => Q a st
  | Throw _ => True
  | Vis o k => chk _ o st ∧ ∀ r, traces (k r) Q (upd _ o r st)
  end.

Lemma traces_mono {A} (p : script A) (Q Q' : A → St → Prop) st :
  traces p Q st → (∀ a st', Q a st' → Q' a st') → traces p Q' st.
Proof.
  intros Hp HQ. revert st Hp. induction p as [a|e|R o k IH]; cbn; [auto..|].
  intros st [Hc Hk]. split; [done|]. intros r. by apply IH.
Qed.
Lemma traces_bind {A B} (p : script A) (f : A → script B) Q st :
  traces p (λ a st', traces (f a) Q st') st → traces (p ≫= f) Q st.
Proof.
  revert st. induction p as [a|e|R o k IH]; cbn; [done..|]. intros st [Hc Hk]. split; [done|].
  intros r. by apply IH.
Qed.
Lemma traces_ret {A} (a : A) Q st : Q a st → traces (Ret a) Q st.
Proof. done. Qed.
Lemma traces_await {R : Set} (o : op R) Q st :
  chk _ o st → (∀ r, Q r (upd _ o (inl r) st)) → traces (await o) Q st.
Proof. intros Hc HQ. split; [done|]. intros [r|e]; cbn; [apply HQ|done]. Qed.
Lemma traces_or_throw {A} (x : option A) Q st : (∀ a, x = Some a → Q a st) → traces (or_throw x) Q st.
Proof. destruct x; cbn; auto. Qed.
End traces.

(** ** Calls that do not matter to a check

    The parts of the scripts that only make [idle] calls, for any tracked state
    those calls leave alone. *)
Definition idle {R : Set} (o : op R) : bool :=
  match o with
  | P256Sign _ _ | SignMessage _ _ | Send _ _ _ _ => false
  | Call _ me _ => bool_decide (me ≠ "getHash")
  | _ => true
  end.
Class IdleTracking {St : Type} (upd : ∀ R : Set, op R → R + jserror → St → St) (chk : ∀ R : Set, op R → St → Prop) := {
  idle_chk : ∀ (R : Set) (o : op R) st, idle o = true → chk _ o st;
  idle_upd : ∀ (R : Set) (o : op R) r st, idle o = true → upd _ o r st = st
}.

Section idle.
Context {St : Type} {upd : ∀ R : Set, op R → R + jserror → St → St} {chk : ∀ R : Set, op R → St → Prop}.
Context `{!IdleTracking upd chk}.
Abbreviation tr := (traces upd chk).

Lemma tr_idle {R : Set} (o : op R) Q st : idle o = true → (∀ r, Q r st) → tr (await o) Q st.
Proof. intros Ho HQ. apply traces_await; [by apply idle_chk|]. intros r. by rewrite idle_upd. Qed.
Lemma tr_idle_bind {R : Set} {B} (o : op R) (f : R → script B) Q st :
  idle o = true → (∀ r, tr (f r) Q st) → tr (await o ≫= f) Q st.
Proof. intros Ho Hf. apply traces_bind, tr_idle; done. Qed.
Lemma tr_log_bind {B} l (f : unit → script B) Q st : tr (f tt) Q st → tr (console_log l ≫= f) Q st.
Proof. intros Hf. apply tr_idle_bind; [done|]. by intros []. Qed.
Lemma tr_throw_bind {A B} (x : option A) (f : A → script B) Q st :
  (∀ a, x = Some a → tr (f a) Q st) → tr (or_throw x ≫= f) Q st.
Proof. intros Hf. by apply traces_bind, traces_or_throw. Qed.

End idle.

(** Steps over calls whose side conditions compute. *)
Ltac quiet_step :=
  cbv beta zeta;
  lazymatch goal with
  | |- traces _ _ (console_log _ ≫= _) _ _ => apply tr_log_bind
  | |- traces _ _ (await _ ≫= _) _ _ => apply tr_idle_bind; [reflexivity|intros ?]
  | |- traces _ _ (or_throw _ ≫= _) _ _ => apply tr_throw_bind; intros ? _
  | |- traces _ _ (match ?x with pair _ _ => _ end) _ _ => destruct x as [? ?]
  | |- traces _ _ (Ret _) _ _ => apply traces_ret
  end.

Section idle_scripts.
Context {St : Type} {upd : ∀ R : Set, op R → R + jserror → St → St} {chk : ∀ R : Set, op R → St → Prop}.
Context `{!IdleTracking upd chk} `{EvmCrypto}.
Abbreviation tr := (traces upd chk).

Lemma getGasFee_quiet p Q st : (∀ x, Q x st) → tr (getGasFee p) Q st.
Proof. intros HQ. unfold getGasFee. repeat quiet_step. apply HQ. Qed.
Lemma valid_window_quiet Q st : (∀ x, Q x st) → tr valid_window Q st.
Proof. intros HQ. unfold valid_window. repeat quiet_step. apply HQ. Qed.
Lemma transfer_operation_quiet c Q st : (∀ x, Q x st) → tr (transfer_operation c) Q st.
Proof.
  intros HQ. unfold transfer_operation. do 3 quiet_step. apply traces_bind, getGasFee_quiet. intros [[mf mp] vg].
  repeat quiet_step. apply HQ.
Qed.
Lemma log_message_bind {B} e m o (f : unit → script B) Q st : tr (f tt) Q st → tr (log_message e m o ≫= f) Q st.
Proof.
  intros Hf. apply traces_bind. unfold log_message, log_object. repeat quiet_step. apply tr_idle; [done|]. by intros [].
Qed.
Lemma estimate_limits_quiet o Q st : (∀ x, Q x st) → tr (estimate_limits o) Q st.
Proof. intros HQ. unfold estimate_limits. repeat quiet_step. apply HQ. Qed.
Lemma message_of_tr c o Q st :
  (∀ packed, packUserOp o = Some packed → Q (op_message packed (entry_point c) (chain_id c)) st) →
  tr (message_of c o) Q st.
Proof. intros HQ. unfold message_of. apply tr_throw_bind. intros packed E. by apply HQ. Qed.

(** Up to the submission, [check_and_submit] only asks. *)
Lemma check_and_submit_idle c e sg o x y Q st :
  (∀ u, toUserOp o = Some u → chk _ (Send e "handleOps" [JArr [JUserOp u]; JAddr sg] 0) st) →
  (∀ u tx, Q tt (upd _ (Send e "handleOps" [JArr [JUserOp u]; JAddr sg] 0) (inl tx) st)) →
  tr (check_and_submit c e sg o x y) Q st.
Proof.
  intros Hc HQ. unfold check_and_submit, log_object. do 6 quiet_step.
  apply tr_throw_bind. intros u Hu. apply traces_bind, traces_await; [by apply Hc|]. intros tx.
  quiet_step. apply tr_idle; [done|]. intros []. apply HQ.
Qed.
End idle_scripts.

Section client_traces.
Context `{EvmCrypto} (ep chain : Z).

(** The tracked state is the last message p256.sign signed, with its answer. *)
Definition sign_upd {R : Set} (o : op R) : R + jserror → option (bytes * (Z * Z)) → option (bytes * (Z * Z)) :=
  match o in op R return R + jserror → option (bytes * (Z * Z)) → option (bytes * (Z * Z)) with
  | P256Sign m _ => λ r st, match r with inl sig => Some (m, sig) | inr _ => st end
  | _ => λ _ st, st
  end.
(** The operation a call submits to an EntryPoint. *)
Definition submitted {R : Set} (o : op R) : option UserOperation :=
  match o with
  | Send _ me [JArr [JUserOp u]; _] _ => if bool_decide (me = "handleOps") then Some u else None
  | _ => None
  end.
(** EntryPoint.getUserOpHash *)
Definition userOpHash (u : UserOperation) : Z := keccak256 (abi_words [UserOperationLib.hash u; ep; chain]).
Definition submit_chk {R : Set} (o : op R) (st : option (bytes * (Z * Z))) : Prop :=
  ∀ u, submitted o = Some u →
    ∃ r s, st = Some (word (userOpHash u), (r, s)) ∧ u256 r ∧ u256 s ∧ signature u = abi_words [r; s].

Abbreviation tr := (traces (@sign_upd) (@submit_chk)).
#[export] Instance sign_idle : IdleTracking (@sign_upd) (@submit_chk).
Proof. split; intros R o; by destruct o. Qed.

(** The paymaster's hash and its signature do not matter here either. *)
Lemma sponsor_bind {B} pm g userOp (f : address * object → script B) Q st :
  tr g (λ _ st', st' = st) st → (∀ x, tr (f x) Q st) → tr (sponsor pm g userOp ≫= f) Q st.
Proof.
  intros Hg Hf. apply traces_bind. unfold sponsor. apply traces_bind, valid_window_quiet. intros [vu va].
  quiet_step. apply traces_bind, traces_await; [done|]. intros h. cbn [sign_upd].
  apply traces_bind. eapply traces_mono; [exact Hg|]. intros sg st' ->. quiet_step.
  apply traces_bind, traces_await; [done|]. intros sig. cbn [sign_upd]. repeat quiet_step. apply Hf.
Qed.

Lemma sign_operation_tr c m o Q st :
  (∀ r s, u256 r → u256 s →
     Q (r, s, <["signature" := hexstr (abi_words [r; s])]> o) (Some (word m, (r, s)))) →
  tr (sign_operation c m o) Q st.
Proof.
  intros HQ. unfold sign_operation. apply traces_bind, traces_await; [done|]. intros [r s]. cbn [sign_upd].
  apply tr_log_bind. apply tr_throw_bind. intros r' [-> Hr]%as_uint_num.
  apply tr_throw_bind. intros s' [-> Hs]%as_uint_num. apply traces_ret. by apply HQ.
Qed.

Lemma field_insert_ne o k k' v : k ≠ k' → field (<[k := v]> o) k' = field o k'.
Proof. intros. unfold field. by rewrite lookup_insert_ne. Qed.
Lemma field_insert_eq o k v : field (<[k := v]> o) k = v.
Proof. unfold field. by rewrite lookup_insert_eq. Qed.
Lemma packUserOp_signature o v : packUserOp (<["signature" := v]> o) = packUserOp o.
Proof. unfold packUserOp. by rewrite !field_insert_ne by done. Qed.

Lemma string_hexlify bs : String.list_ascii_of_string (String.string_of_list_ascii (hexlify bs)) = hexlify bs.
Proof. apply String.list_ascii_of_string_of_list_ascii. Qed.
Lemma as_bytes_hexstr bs : is_bytes bs → as_bytes (hexstr bs) = Some bs.
Proof. intros Hb. unfold as_bytes, hexstr. rewrite string_hexlify. by apply getBytes_hexlify. Qed.

(** The object handed over carries the signed message's operation. *)
Lemma signed_object o packed r s u :
  packUserOp o = Some packed → toUserOp (<["signature" := hexstr (abi_words [r; s])]> o) = Some u →
  packed = UserOperationLib.pack u ∧ signature u = abi_words [r; s].
Proof.
  intros Hp Hu. pose proof (pack_toUserOp _ _ Hu) as E. rewrite packUserOp_signature, Hp in E.
  split; [congruence|]. unfold toUserOp in Hu. do 10 (apply bind_Some in Hu as (? & _ & Hu)).
  apply bind_Some in Hu as (sg & Hsg & Hu). rewrite field_insert_eq in Hsg.
  rewrite as_bytes_hexstr in Hsg by eauto with evm. by simplify_eq.
Qed.

Lemma check_and_submit_tr c e sg o packed r s x y :
  ep = entry_point c → chain = chain_id c → packUserOp o = Some packed → u256 r → u256 s →
  tr (check_and_submit c e sg (<["signature" := hexstr (abi_words [r; s])]> o) x y)
     (λ _ _, True) (Some (word (op_message packed (entry_point c) (chain_id c)), (r, s))).
Proof.
  intros <- <- Hp Hr Hs. apply check_and_submit_idle; [|done]. intros u Hu u' [= <-].
  destruct (signed_object _ _ _ _ _ Hp Hu) as [-> Hsig]. by exists r, s.
Qed.

(** One signing round, shared by the two scripts. *)
Lemma sign_bind {B} c o packed Q st (f : Z * Z * object → script B) :
  (∀ r s, u256 r → u256 s →
     tr (f (r, s, <["signature" := hexstr (abi_words [r; s])]> o)) Q
        (Some (word (op_message packed (entry_point c) (chain_id c)), (r, s)))) →
  tr (sign_operation c (op_message packed (entry_point c) (chain_id c)) o ≫= f) Q st.
Proof. intros Hf. apply traces_bind, sign_operation_tr. intros. by apply Hf. Qed.

End client_traces.

(** The two scripts' calls, in the terms of [submit_chk]. *)
Lemma runTransferPassKey_tr `{EvmCrypto} st :
  traces (@sign_upd) (@submit_chk _ (entry_point local_config) (chain_id local_config))
    runTransferPassKey_main (λ _ _, True) st.
Proof.
  unfold runTransferPassKey_main. generalize local_config as c. intros c. cbv zeta.
  apply traces_bind, transfer_operation_quiet. intros [e o].
  apply tr_idle_bind; [done|]. intros pm. apply sponsor_bind; [by apply tr_idle|]. intros [sg o'].
  apply traces_bind, message_of_tr. intros packed Hp. apply log_message_bind, sign_bind. intros.
  by apply check_and_submit_tr.
Qed.
Lemma runTransferPassKeyarb_tr `{EvmCrypto} st :
  traces (@sign_upd) (@submit_chk _ (entry_point arb_config) (chain_id arb_config))
    runTransferPassKeyarb_main (λ _ _, True) st.
Proof.
  unfold runTransferPassKeyarb_main. generalize arb_config as c. intros c. cbv zeta.
  apply traces_bind, transfer_operation_quiet. intros [e o].
  apply tr_idle_bind; [done|]. intros pm. apply sponsor_bind; [by apply tr_idle|]. intros [sg o'].
  apply traces_bind, message_of_tr. intros packed Hp. apply log_message_bind, sign_bind. intros.
  apply traces_bind, estimate_limits_quiet. intros o2. apply sponsor_bind; [done|]. intros [sg' o3].
  apply traces_bind, message_of_tr. intros packed' Hp'. apply sign_bind. intros. by apply check_and_submit_tr.
Qed.

Lemma traces_chk {St A} upd (chk chk' : ∀ R : Set, op R → St → Prop) (p : script A) Q st :
  (∀ (R : Set) (o : op R) st', chk R o st' → chk' R o st') → traces upd chk p Q st → traces upd chk' p Q st.
Proof.
  intros Hc. revert st. induction p as [a|e|R o k IH]; cbn; [done..|]. intros st [H Hk].
  split; [by apply Hc|]. intros r. by apply IH.
Qed.

(** C6: What the transfer scripts submit is what the passkey signed: along
    every run of runTransferPassKey.js and runTransferPassKeyarb.js, whatever
    the chain, the bundler and the signer answer, each operation given to
    handleOps has as its EntryPoint hash (for the script's entry point and chain
    id) the last message p256.sign was given, and carries the (r, s) it answered
    with.  In the Arbitrum script this is the second signature, made after the
    bundler's gas estimate and the second sponsoring changed the operation. *)
Theorem client_signs_what_it_submits (C : EvmCrypto) (st : option (bytes * (Z * Z))) :
  traces (@sign_upd) (@submit_chk _ (entry_point local_config) (chain_id local_config))
    runTransferPassKey_main (λ _ _, True) st ∧
  traces (@sign_upd) (@submit_chk _ (entry_point arb_config) (chain_id arb_config))
    runTransferPassKeyarb_main (λ _ _, True) st.
Proof. split; [apply runTransferPassKey_tr|apply runTransferPassKeyarb_tr]. Qed.

(** An operation no account accepts: validateUserOp reverts, for any chain, key and caller. *)
Definition rejected_by_account `{EvmCrypto} `{Sha256} (u : UserOperation) : Prop :=
  ∀ (W : Type) (HW : Host W) call m h funds (s : state) (w : W) x, validateUserOp call m u h funds s w ≠ Ok x.

Lemma short_signature_rejected `{EvmCrypto} `{Sha256} u :
  (length (signature u) < 192)%nat → rejected_by_account u.
Proof.
  intros Hl W HW call m h funds s w x. unfold validateUserOp, _validateSignature.
  rewrite abi_decode_assertion_short by done. by destruct (_requireFromEntryPoint m s w).
Qed.

(** The transfer scripts' operations cannot be validated by the account
    they are for: the scripts sign with abi.encode(r, s), 64 bytes, and
    P256SmartAccount decodes an assertion of at least six words, so
    validateUserOp of every operation they submit reverts. *)
Theorem client_signature_undecodable (C : EvmCrypto) (S : Sha256) (st : option (bytes * (Z * Z))) :
  let chk := λ (R : Set) (o : op R) (_ : option (bytes * (Z * Z))),
    ∀ u, submitted o = Some u → rejected_by_account u in
  traces (@sign_upd) chk runTransferPassKey_main (λ _ _, True) st ∧
  traces (@sign_upd) chk runTransferPassKeyarb_main (λ _ _, True) st.
Proof.
  assert (∀ ep ci (R : Set) (o : op R) st', submit_chk ep ci o st' → ∀ u, submitted o = Some u → rejected_by_account u)
    as Hshort.
  { intros ep ci R o st' Hc u (r & s & _ & _ & _ & E)%Hc.
    apply short_signature_rejected. rewrite E, length_abi_words. cbn. lia. }
  intros chk. split.
  - refine (traces_chk _ _ _ _ _ _ (Hshort _ _) (runTransferPassKey_tr _)).
  - refine (traces_chk _ _ _ _ _ _ (Hshort _ _) (runTransferPassKeyarb_tr _)).
Qed.

(** ** A run *)

(** An environment that records the submitted operations. *)
Definition record_perform {R : Set} (o : op R) (w : list UserOperation) : (R + jserror) * list UserOperation :=
  match o in op R return (R + jserror) * list UserOperation with
  | GetContractFactory n => (inl (Factory n), w)
  | ProviderGetSigner => (inl 0xA11CE, w)
  | Call _ me _ => (inl (if bool_decide (me = "getHash") then hexstr (word 7) else JNum 3), w)
  | Send c me args v => (inl 1, w ++ option_list (submitted (Send c me args v)))
  | o => ((SimChain.sim_perform o (SimChain.Sim ∅ [] ∅ [])).1, w)
  end.
Definition recorder : HardhatEnv (list UserOperation) := {| perform := @record_perform |}.

(** The scripts do reach handleOps, once. *)
Example client_scripts_submit :
  let C := sample_crypto in let E := recorder in
  run runTransferPassKey_main [] = (inl tt, (run runTransferPassKey_main []).2) ∧
  (maxFeePerGas <$> (run runTransferPassKey_main []).2) = [2000000000] ∧
  run runTransferPassKeyarb_main [] = (inl tt, (run runTransferPassKeyarb_main []).2) ∧
  ((λ u, (callGasLimit u, verificationGasLimit u, preVerificationGas u)) <$> (run runTransferPassKeyarb_main []).2)
    = [(100000, 200000, 300000)].
Proof. vm_compute. repeat split. Qed.

Lemma packUserOp_matches_contract_witness :
  let C := sample_crypto in
  ∃ u, toUserOp final_userOp = Some u ∧
  packUserOp final_userOp = Some (UserOperationLib.pack u) ∧
  (λ packed, op_message packed 0x5FF1 31337) <$> packUserOp final_userOp =
    Some (keccak256 (abi_words [UserOperationLib.hash u; 0x5FF1; 31337])).
Proof.
  destruct (toUserOp final_userOp) as [u|] eqn:Hu; [|by vm_compute in Hu].
  exists u. split; [done|]. apply (packUserOp_matches_contract sample_crypto final_userOp u 0x5FF1 31337 Hu).
Defined.

(** ** The message P256verifycreatePublicKey.js signs *)

(** The tracked state is the last digest; [msg_of] a message signed or verified. *)
Definition digest_upd {R : Set} (o : op R) : R + jserror → option bytes → option bytes :=
  match o in op R return R + jserror → option bytes → option bytes with
  | Ethers.Sha256 _ => λ r st, match r with inl d => Some d | inr _ => st end
  | _ => λ _ st, st
  end.
Definition msg_of {R : Set} (o : op R) : option bytes :=
  match o with P256Sign m _ | P256Verify _ m _ => Some m | _ => None end.
Definition digest_chk {R : Set} (o : op R) (st : option bytes) : Prop :=
  ∀ m, msg_of o = Some m → ∃ d, st = Some d ∧ (is_bytes d → m = drop 1 d).

Lemma toStringHex_substring d : is_bytes d → parse_hex (drop 2 (toStringHex d)) = Some (drop 1 d).
Proof.
  intros Hd. destruct d as [|b d]; [done|]. apply Forall_cons in Hd as [_ Hd].
  exact (parse_hex_hexlify d Hd).
Qed.

Lemma digest_signed {R : Set} (o : op R) d m :
  msg_of o = Some m → parse_hex (drop 2 (toStringHex d)) = Some m → digest_chk o (Some d).
Proof.
  intros Ho Hm m' Ho'. exists d. split; [done|]. intros Hd. rewrite toStringHex_substring in Hm by done. congruence.
Qed.

Ltac digest_step :=
  cbv beta zeta;
  lazymatch goal with
  | |- traces _ _ (console_log _ ≫= _) _ _ => apply traces_bind, traces_await; [done|intros []]
  | |- traces _ _ (await (Ethers.Sha256 _) ≫= _) _ _ => apply traces_bind, traces_await; [done|intros ?digest]
  | |- traces _ _ (await _ ≫= _) _ _ => apply traces_bind, traces_await; [|intros ?]
  | |- traces _ _ (or_throw _ ≫= _) _ _ => apply traces_bind, traces_or_throw; intros ? ?
  | |- traces _ _ (Ret _) _ _ => apply traces_ret
  end; try done.

(** P256verifycreatePublicKey.js does not sign the digest it prints:
    msgHash has no 0x prefix, so substring(2) cuts its first byte, and whatever
    the environment answers, every message signed or verified is the SHA-256
    digest without its first byte. *)
Theorem create_public_key_drops_digest_byte :
  traces (@digest_upd) (@digest_chk) P256verifycreatePublicKey_main (λ _ _, True) None.
Proof.
  unfold P256verifycreatePublicKey_main. repeat digest_step. apply traces_bind. unfold getMessageHash.
  repeat digest_step.
  1, 2: by eapply digest_signed; [done|].
  apply traces_await; done.
Qed.

(** ** runTransferPassKeyfinal.js *)

(** The recorded signature is one the account's decoder reads, and the script
    prints it decoded. *)
Example final_signature_decodes :
  ∃ a k, decode_final final_signature = Some (a, k) ∧ abi_decode_assertion final_signature = Ok a ∧
    clientDataJSONPre a = json "{'type':'webauthn.get','challenge':'" ∧
    clientDataJSONPost a = json "','origin':'http://localhost:5173','crossOrigin':false}" ∧
    length (authenticatorData a) = 37%nat.
Proof. eexists _, _. vm_compute. repeat split. Qed.

(** It returns before the calls that would validate or submit the operation. *)
Lemma runTransferPassKeyfinal_quiet :
  traces (λ _ _ _ st, st) (λ _ o _, idle o = true) runTransferPassKeyfinal_main (λ _ _, True) tt.
Proof.
  unfold runTransferPassKeyfinal_main. do 3 (apply traces_bind, traces_await; [done|intros ?]).
  apply traces_bind, traces_or_throw. intros bs _. apply traces_bind, traces_or_throw. intros [a k] _.
  by apply traces_await.
Qed.

