(* ===== verification/SponsoredClients.v ===== *)
(** The transfer scripts (scripts/runTransferPassKey.js, runTransferPassKeyarb.js)
    composed with the paymaster they use (EnclaveVerifyingPaymaster.sol): what
    they submit, the paymaster sponsors. *)
From S2P Require Import Prelude Bytes UserOperation AccountBase VerifyingPaymaster Ethers Chain ClientScripts.

(** ** Operations that differ in what the paymaster does not sign *)

Lemma toUserOp_signed_fields o d v u u' :
  toUserOp o = Some u → toUserOp (<["signature" := v]> (<["paymasterAndData" := d]> o)) = Some u' →
  sender u' = sender u ∧ (∀ `{EvmCrypto}, pack u' = pack u) ∧ as_bytes d = Some (paymasterAndData u').
Proof.
  unfold toUserOp. intros Hu Hu'.
  repeat (apply bind_Some in Hu as (? & ? & Hu); apply bind_Some in Hu' as (? & ? & Hu')).
  rewrite !field_insert_ne in * by done. rewrite ?field_insert_eq in *. by simplify_eq/=.
Qed.

Lemma getHash_pack `{EvmCrypto} m n u u' vu va :
  sender u' = sender u → pack u' = pack u → getHash m n u' vu va = getHash m n u vu va.
Proof. intros Es Ep. unfold getHash, signed_bytes. by rewrite Es, Ep. Qed.

Section sponsored.
Context `{EvmCrypto} (m : msg) (s : state).

(** The tracked state: whether the answers so far were those of the paymaster and
    of a wallet that holds its signing key, and the last window asked for. *)
Record seen := Seen { honest : bool; window : option (Z * Z) }.

(** What paymaster [self m] answers to getHash, in state [s]. *)
Definition answers_hash (u : UserOperation) (vu va : Z) (v : jsval) : bool :=
  bool_decide (as_bytes v = Some (word (getHash m (senderNonce s) u vu va))).
(** EIP-191: signMessage signs the prefixed message with the account's key. *)
Definition signs_message (signer : address) (message sig : bytes) : bool :=
  bool_decide (signer = verifyingSigner s ∧ is_bytes sig ∧
    (h ← ECDSA.toEthSignedMessageHash_bytes message; ECDSA.recover h sig) = Ok signer).

Definition seen_upd {R : Set} (o : op R) : R + jserror → seen → seen :=
  match o in op R return R + jserror → seen → seen with
  | Call c me args => λ r st,
      if bool_decide (me ≠ "getHash") then st
      else match r, args with
      | inl v, [JUserOp u; JNum vu; JNum va] =>
          Seen (honest st && bool_decide (target c = self m) && answers_hash u vu va v) (Some (vu, va))
      | _, _ => st
      end
  | SignMessage signer message => λ r st,
      match r with inl sig => Seen (honest st && signs_message signer message sig) (window st) | inr _ => st end
  | _ => λ _ st, st
  end.

(** Validation of [u] in [s] approves it for the window. *)
Definition approved (u : UserOperation) (vu va : Z) : Prop :=
  take 20 (paymasterAndData u) = be_bytes 20 (self m) ∧
  ∀ requiredPreFund,
    _validatePaymasterUserOp m u requiredPreFund s =
      Ok (State (entryPoint s) (owner s) (verifyingSigner s)
            (<[sender u := mget 0 (senderNonce s) (sender u) + 1]> (senderNonce s)),
          ([], _packValidationData false vu va)).
Definition approved_chk {R : Set} (o : op R) (st : seen) : Prop :=
  ∀ u, submitted o = Some u → honest st = true → ∃ vu va, window st = Some (vu, va) ∧ approved u vu va.

Abbreviation tr := (traces (@seen_upd) (@approved_chk)).
#[export] Instance seen_idle : IdleTracking (@seen_upd) (@approved_chk).
Proof.
  split; intros R o; destruct o; try done. intros r st Ho. unfold seen_upd. unfold idle in Ho. by rewrite Ho.
Qed.

Hypothesis nonces_bounded : ∀ a, mget 0 (senderNonce s) a + 1 < 2 ^ 256.

(** Completeness of the paymaster's validation. *)
Lemma validate_signed u vu va sig :
  uint 48 vu → uint 48 va → paymasterAndData u = paymaster_data (self m) vu va sig →
  ECDSA.recover (ECDSA.toEthSignedMessageHash (getHash m (senderNonce s) u vu va)) sig = Ok (verifyingSigner s) →
  approved u vu va.
Proof.
  intros Hvu Hva Hd Hr. split.
  { rewrite Hd. unfold paymaster_data. by rewrite take_app_length' by (by rewrite length_be_bytes). }
  intros pre. unfold _validatePaymasterUserOp. rewrite Hd, parse_paymaster_data_ok, Ok_bind by done.
  destruct (ECDSA.recover_Ok _ _ _ Hr) as (Hl & _).
  rewrite (proj2 (require_Ok _ _ tt)) by (unfold sig_length_ok; by rewrite Hl). rewrite Ok_bind.
  rewrite (proj2 (bump_nonce_Ok u (senderNonce s) _)) by (split; [apply nonces_bounded|reflexivity]).
  cbv zeta. rewrite Ok_bind, Hr, Ok_bind. unfold addr_eqb. by rewrite Z.eqb_refl.
Qed.

(** An object whose operation, however signed, the paymaster approves. *)
Definition sponsored (o : object) (st : seen) : Prop :=
  honest st = true → ∀ v u, toUserOp (<["signature" := v]> o) = Some u →
    ∃ vu va, window st = Some (vu, va) ∧ approved u vu va.

(** The string the script builds denotes the documented layout. *)
Lemma paymaster_string pm vu va sig :
  is_bytes sig →
  as_bytes (JStr (String.string_of_list_ascii
    (hexConcat [hexlify (be_bytes 20 pm); hexlify (abi_words [vu; va]); hexlify sig])))
  = Some (paymaster_data pm vu va sig).
Proof.
  intros Hs. unfold as_bytes. rewrite String.list_ascii_of_string_of_list_ascii.
  rewrite (hexConcat_bytes _ [be_bytes 20 pm; abi_words [vu; va]; sig]).
  - cbn [concat]. by rewrite app_nil_r.
  - repeat constructor; apply getBytes_hexlify; eauto with evm.
Qed.

Lemma sponsored_intro userOp u vu va sig st pm v :
  toUserOp userOp = Some u → uint 48 vu → uint 48 va →
  (honest st = true → target pm = self m ∧
     as_bytes v = Some (word (getHash m (senderNonce s) u vu va)) ∧ is_bytes sig ∧
     ∀ message, as_bytes v = Some message →
       (h ← ECDSA.toEthSignedMessageHash_bytes message; ECDSA.recover h sig) = Ok (verifyingSigner s)) →
  window st = Some (vu, va) →
  sponsored (<["paymasterAndData" := JStr (String.string_of_list_ascii
      (hexConcat [hexlify (be_bytes 20 (target pm)); hexlify (abi_words [vu; va]); hexlify sig]))]> userOp) st.
Proof.
  intros Hu Hvu Hva Hh Hw Hst x u' Hu'. destruct (Hh Hst) as (Hpm & Hv & Hsig & Hr).
  specialize (Hr _ Hv). rewrite ECDSA.toEthSignedMessageHash_agree, Ok_bind in Hr.
  destruct (toUserOp_signed_fields _ _ _ _ _ Hu Hu') as (Es & Ep & Hd).
  rewrite paymaster_string, Hpm in Hd by done. injection Hd as Hd.
  exists vu, va. split; [done|]. apply (validate_signed u' vu va sig); [done..|].
  by rewrite (getHash_pack m (senderNonce s) u).
Qed.

Lemma sponsor_tr pm g userOp Q st :
  (∀ st, tr g (λ _ st', st' = st) st) →
  (∀ sg o st', sponsored o st' → Q (sg, o) st') → tr (sponsor pm g userOp) Q st.
Proof.
  intros Hg HQ. unfold sponsor. apply traces_bind, valid_window_quiet. intros [vu va].
  apply tr_throw_bind. intros u Hu. apply traces_bind, traces_await; [done|]. intros v.
  apply traces_bind. eapply traces_mono; [apply Hg|]. intros sg st' ->.
  apply tr_throw_bind. intros message Hm. apply traces_bind, traces_await; [done|]. intros sig.
  apply tr_log_bind. apply tr_throw_bind. intros vu' [-> Hvu]%as_uint_num.
  apply tr_throw_bind. intros va' [-> Hva]%as_uint_num. cbv zeta. apply tr_log_bind, traces_ret.
  apply HQ. cbn [seen_upd]. rewrite bool_decide_false by (intros E; by apply E).
  apply (sponsored_intro userOp u _ _ sig _ pm v); [done..|cbn [honest]|done].
  intros [[[_ Ht%bool_decide_eq_true_1]%andb_prop Ha%bool_decide_eq_true_1]%andb_prop
    (-> & Hb & Hr)%bool_decide_eq_true_1]%andb_prop.
  split_and!; [done..|]. intros message' E. rewrite Hm in E. injection E as <-. exact Hr.
Qed.

(** The same once the passkey's signature is in place. *)
Definition ready (o : object) (st : seen) : Prop :=
  honest st = true → ∀ u, toUserOp o = Some u → ∃ vu va, window st = Some (vu, va) ∧ approved u vu va.

Lemma sign_operation_ready c message o Q st :
  sponsored o st → (∀ r t o', ready o' st → Q (r, t, o') st) → tr (sign_operation c message o) Q st.
Proof.
  intros Ho HQ. unfold sign_operation. apply traces_bind, traces_await; [done|]. intros [r t].
  cbn [seen_upd]. repeat quiet_step. apply HQ. intros Hh u. by apply Ho.
Qed.
Lemma submit_ready c e sg o x y st : ready o st → tr (check_and_submit c e sg o x y) (λ _ _, True) st.
Proof. intros Ho. apply check_and_submit_idle; [|done]. intros u Hu u' [= <-] Hh. by apply Ho. Qed.

Lemma runTransferPassKey_sponsored st : tr runTransferPassKey_main (λ _ _, True) st.
Proof.
  unfold runTransferPassKey_main. generalize local_config as c. intros c. cbv zeta.
  apply traces_bind, transfer_operation_quiet. intros [e o]. apply tr_idle_bind; [done|]. intros pm.
  apply traces_bind, sponsor_tr; [intros; by apply tr_idle|]. intros sg o' st' Ho.
  apply traces_bind, message_of_tr. intros packed _. apply log_message_bind.
  apply traces_bind, sign_operation_ready; [done|]. intros r t o2 Hr. by apply submit_ready.
Qed.
Lemma runTransferPassKeyarb_sponsored st : tr runTransferPassKeyarb_main (λ _ _, True) st.
Proof.
  unfold runTransferPassKeyarb_main, arb_resubmit. generalize arb_config as c. intros c. cbv zeta.
  apply traces_bind, transfer_operation_quiet. intros [e o]. apply tr_idle_bind; [done|]. intros pm.
  apply traces_bind, sponsor_tr; [intros; by apply tr_idle|]. intros sg o' st' Ho.
  apply traces_bind, message_of_tr. intros packed _. apply log_message_bind.
  apply traces_bind, sign_operation_ready; [done|]. intros r t o1 _. apply traces_bind, estimate_limits_quiet. intros o2.
  apply traces_bind, sponsor_tr; [done|]. intros sg' o3 st'' Ho3.
  apply traces_bind, message_of_tr. intros packed' _.
  apply traces_bind, sign_operation_ready; [done|]. intros r2 t2 o4 Hr2. by apply submit_ready.
Qed.
End sponsored.

(** C7: The transfer scripts and the paymaster together: along every run of
    runTransferPassKey.js and runTransferPassKeyarb.js, if up to a submission
    getHash was answered by the paymaster's code (at state [s], whose nonces can
    still grow) and the messages were signed with the key of the paymaster's
    verifyingSigner, then the operation given to handleOps names that paymaster,
    and the paymaster's validation of it returns: it approves the operation for
    the window the script asked for and increments the sender's nonce.  In the
    Arbitrum script this is the window of the second sponsoring. *)
Theorem clients_get_sponsored (C : EvmCrypto) (m : msg) (s : state) :
  (∀ a, mget 0 (senderNonce s) a + 1 < 2 ^ 256) →
  traces (@seen_upd _ m s) (@approved_chk _ m s) runTransferPassKey_main (λ _ _, True) (Seen true None) ∧
  traces (@seen_upd _ m s) (@approved_chk _ m s) runTransferPassKeyarb_main (λ _ _, True) (Seen true None).
Proof. intros Hn. split; [by apply runTransferPassKey_sponsored|by apply runTransferPassKeyarb_sponsored]. Qed.

(** ** Runs against the paymaster's code *)

Section honest_run.
Context `{EvmCrypto} (m : msg) (s : state).

(** The answers of an honest paymaster and wallet; the world is the tracked state
    and the operations submitted in honest states. *)
Definition honest_answer {R : Set} (o : op R) : R + jserror :=
  match o in op R return R + jserror with
  | GetContractFactory n => inl (Factory n)
  | ProviderGetSigner => inl (verifyingSigner s)
  | Call _ me args =>
      inl match args with
          | [JUserOp u; JNum vu; JNum va] => hexstr (word (getHash m (senderNonce s) u vu va))
          | _ => JNum 3
          end
  | SignMessage signer _ => inl (word signer ++ word 1 ++ [27])
  | o => (SimChain.sim_perform o (SimChain.Sim ∅ [] ∅ [])).1
  end.
Definition honest_perform {R : Set} (o : op R) (w : seen * list UserOperation)
    : (R + jserror) * (seen * list UserOperation) :=
  let r := honest_answer o in
  (r, (seen_upd m s o r w.1, w.2 ++ if honest w.1 then option_list (submitted o) else [])).
Definition honest_env : HardhatEnv (seen * list UserOperation) := {| perform := @honest_perform |}.

Lemma honest_run_approved {A} (p : script A) Q st l :
  traces (@seen_upd _ m s) (@approved_chk _ m s) p Q st →
  Forall (λ u, ∃ vu va, approved m s u vu va) l →
  Forall (λ u, ∃ vu va, approved m s u vu va) (@run _ honest_env _ p (st, l)).2.2.
Proof.
  revert st l. induction p as [a|e|R o k IH]; intros st l; cbn; [done..|]. intros [Hc Hk] Hl.
  apply IH; [apply Hk|]. apply Forall_app. split; [done|]. destruct (honest st) eqn:Hh; [|done].
  destruct (submitted o) as [u|] eqn:Hu; [|done]. cbn. rewrite Forall_singleton.
  destruct (Hc u Hu Hh) as (vu & va & _ & Ha). by exists vu, va.
Qed.
End honest_run.

(** A paymaster of the first script's address on a fresh chain. *)
Definition local_msg : msg :=
  {| msg_sender := entry_point local_config; msg_value := 0; self := paymaster_address local_config;
     chainid := chain_id local_config; timestamp := 0 |}.
Definition local_paymaster : state := deployed local_msg (entry_point local_config) 0xA11CE.

Lemma clients_get_sponsored_witness :
  let C := sample_crypto in
  let ops := (@run _ (honest_env local_msg local_paymaster) _ runTransferPassKey_main (Seen true None, [])).2.2 in
  length ops = 1%nat ∧ Forall (λ u, ∃ vu va, approved local_msg local_paymaster u vu va) ops.
Proof.
  intros C ops. split; [by vm_compute|].
  refine (honest_run_approved local_msg local_paymaster _ _ _ _
    (proj1 (clients_get_sponsored C local_msg local_paymaster _)) (Forall_nil_2 _)).
  intros a. unfold local_paymaster, deployed, mget. cbn [senderNonce]. rewrite lookup_empty. done.
Defined.
