(* ===== verification/Programs.v ===== *)
(** The process each script file starts: the statement at the end of the file that
    calls [main] and turns its outcome into an exit status. *)
From S2P Require Import Prelude Bytes UserOperation EnclaveRegistry Ethers Chain DeployScripts QueryScripts ContractScripts ClientScripts.

(** [main().then(() => process.exit(0)).catch(e => { console.error(e); process.exit(1) })] *)
Definition exit_then (main : script unit) : script Z :=
  try_catch (main ≫= λ _, Ret 0) (λ e, await (LogError "" (Some e)) ≫= λ _, Ret 1).
(** [main().catch(e => { console.error(label, e); process.exit(1) })] *)
Definition exit_label (label : string) (main : script unit) : script Z :=
  try_catch (main ≫= λ _, Ret 0) (λ e, await (LogError label (Some e)) ≫= λ _, Ret 1).

Section programs.
Context `{EvmCrypto}.

Definition P256SmartAccount_deploy_ts : script Z := exit_catch P256SmartAccount_deploy_main.
Definition P256verifycreatePublicKey_js : script Z := exit_catch P256verifycreatePublicKey_main.
Definition UniFeeLogicNew_ts : script Z := exit_catch UniFeeLogicNew_main.
Definition accounts_ts : script Z := exit_catch accounts_main.
Definition deployERC20_ts : script Z := exit_catch deployERC20_main.
Definition deployEnclaveVerifyingPaymaster_ts : script Z := exit_catch deployEnclaveVerifyingPaymaster_main.
Definition deployTokenPaymasterArbSepoliaTestnet_ts : script Z := exit_catch deployTokenPaymasterArbSepoliaTestnet_main.
Definition tokenPaymasterArb_ts : script Z := exit_catch tokenPaymasterArb_main.
Definition tokenPaymasterOp_ts : script Z := exit_catch tokenPaymasterOp_main.
Definition deployEnclaveRegistry_ts : script Z := exit_catch deployEnclaveRegistry_main.
Definition deployAccountFactory_ts : script Z := exit_catch deployAccountFactory_main.
Definition P256V_ts : script Z := exit_catch P256V_main.
Definition P256VerifyTest_ts : script Z := exit_catch P256VerifyTest_main.
Definition deployAll_ts : script Z := exit_catch deployAll_main.
Definition deployAllArbMain_ts : script Z := exit_catch deployAllArbMain_main.
Definition deployAllOpMain_ts : script Z := exit_catch deployAllOpMain_main.
Definition deployAllOpSepolia_ts : script Z := exit_catch deployAllOpSepolia_main.
Definition deployGasNftOPMainnet_ts : script Z := exit_then deployGasNftOPMainnet_main.
Definition deployProd_ts : script Z := exit_catch deployProd_main.
Definition deployRegistryTest_ts : script Z := exit_catch deployRegistryTest_main.
Definition depositPaymaster_ts : script Z := exit_catch depositPaymaster_main.
Definition getAllRegistryValues_ts : script Z := exit_catch getAllRegistryValues_main.
Definition mintNFT_ts : script Z := exit_catch mintNFT_main.
Definition mintUSDC_ts : script Z := exit_catch mintUSDC_main.
Definition setPaymasterAndPaymentToken_ts : script Z := exit_catch setPaymasterAndPaymentToken_main.
Definition test_ts : script Z := exit_catch test_main.
Definition transferEthOpSepolia_ts : script Z := exit_catch transferEthOpSepolia_main.
Definition deployTestNFT_ts : script Z := exit_bare deployTestNFT_main.
Definition eoa_account_ts : script Z := exit_bare eoa_account_main.
Definition fakeUSDC_ts : script Z := exit_bare fakeUSDC_main.
Definition paymasterFunctions_ts : script Z := exit_label "Unhandled error:" paymasterFunctions_main.
Definition paymasterFunctionsV1_ts : script Z := exit_label "Unhandled error:" paymasterFunctionsV1_main.
Definition smartAccountEntrypoint_ts : script Z := exit_bare smartAccountEntrypoint_main.
Definition vault_ts : script Z := exit_bare vault_main.
Definition entryPoint_deploy_ts : script Z := exit_catch entryPoint_deploy_main.
Definition misc_deployEntrypoint_ts : script Z := exit_catch misc_deployEntrypoint_main.
Definition generateWallet_ts : script Z := exit_catch generateWallet_main.
Definition getBalance_ts : script Z := exit_catch getBalance_main.
Definition getERC20Balance_ts : script Z := exit_catch getERC20Balance_main.
Definition getImplementationFromFactory_ts : script Z := exit_catch getImplementationFromFactory_main.
Definition getNonce_ts : script Z := exit_catch getNonce_main.
Definition getRegistryAddressFromAccount_ts : script Z := exit_catch getRegistryAddressFromAccount_main.
Definition transferEth_ts : script Z := exit_catch transferEth_main.
Definition p256Verifier_deploy_ts : script Z := exit_catch p256Verifier_deploy_main.
Definition registry_ts : script Z := exit_catch registry_main.
Definition accountFactory_ts : script Z := exit_catch accountFactory_main.
Definition paymasters_ts : script Z := exit_catch paymasters_main.
Definition setRegistry_ts : script Z := exit_catch setRegistry_main.
Definition deployaccount_ts : script Z := exit_catch deployaccount_main.
Definition v_ts : script Z := exit_catch v_main.
Definition runTransferPassKey_js : script Z := exit_catch runTransferPassKey_main.
Definition runTransferPassKeyarb_js : script Z := exit_catch runTransferPassKeyarb_main.
Definition runTransferPassKeyfinal_js : script Z := exit_catch runTransferPassKeyfinal_main.

(** Every program with the [main] of its file. *)
Definition programs : list (script unit * script Z) := [
  (P256SmartAccount_deploy_main, P256SmartAccount_deploy_ts);
  (P256verifycreatePublicKey_main, P256verifycreatePublicKey_js);
  (UniFeeLogicNew_main, UniFeeLogicNew_ts);
  (accounts_main, accounts_ts);
  (deployERC20_main, deployERC20_ts);
  (deployEnclaveVerifyingPaymaster_main, deployEnclaveVerifyingPaymaster_ts);
  (deployTokenPaymasterArbSepoliaTestnet_main, deployTokenPaymasterArbSepoliaTestnet_ts);
  (tokenPaymasterArb_main, tokenPaymasterArb_ts);
  (tokenPaymasterOp_main, tokenPaymasterOp_ts);
  (deployEnclaveRegistry_main, deployEnclaveRegistry_ts);
  (deployAccountFactory_main, deployAccountFactory_ts);
  (P256V_main, P256V_ts);
  (P256VerifyTest_main, P256VerifyTest_ts);
  (deployAll_main, deployAll_ts);
  (deployAllArbMain_main, deployAllArbMain_ts);
  (deployAllOpMain_main, deployAllOpMain_ts);
  (deployAllOpSepolia_main, deployAllOpSepolia_ts);
  (deployGasNftOPMainnet_main, deployGasNftOPMainnet_ts);
  (deployProd_main, deployProd_ts);
  (deployRegistryTest_main, deployRegistryTest_ts);
  (depositPaymaster_main, depositPaymaster_ts);
  (getAllRegistryValues_main, getAllRegistryValues_ts);
  (mintNFT_main, mintNFT_ts);
  (mintUSDC_main, mintUSDC_ts);
  (setPaymasterAndPaymentToken_main, setPaymasterAndPaymentToken_ts);
  (test_main, test_ts);
  (transferEthOpSepolia_main, transferEthOpSepolia_ts);
  (deployTestNFT_main, deployTestNFT_ts);
  (eoa_account_main, eoa_account_ts);
  (fakeUSDC_main, fakeUSDC_ts);
  (paymasterFunctions_main, paymasterFunctions_ts);
  (paymasterFunctionsV1_main, paymasterFunctionsV1_ts);
  (smartAccountEntrypoint_main, smartAccountEntrypoint_ts);
  (vault_main, vault_ts);
  (entryPoint_deploy_main, entryPoint_deploy_ts);
  (misc_deployEntrypoint_main, misc_deployEntrypoint_ts);
  (generateWallet_main, generateWallet_ts);
  (getBalance_main, getBalance_ts);
  (getERC20Balance_main, getERC20Balance_ts);
  (getImplementationFromFactory_main, getImplementationFromFactory_ts);
  (getNonce_main, getNonce_ts);
  (getRegistryAddressFromAccount_main, getRegistryAddressFromAccount_ts);
  (transferEth_main, transferEth_ts);
  (p256Verifier_deploy_main, p256Verifier_deploy_ts);
  (registry_main, registry_ts);
  (accountFactory_main, accountFactory_ts);
  (paymasters_main, paymasters_ts);
  (setRegistry_main, setRegistry_ts);
  (deployaccount_main, deployaccount_ts);
  (v_main, v_ts);
  (runTransferPassKey_main, runTransferPassKey_js);
  (runTransferPassKeyarb_main, runTransferPassKeyarb_js);
  (runTransferPassKeyfinal_main, runTransferPassKeyfinal_js)
].

(** ** Exit statuses *)

Section env.
Context {W : Type} `{HardhatEnv W}.
(** console.error does not throw. *)
Context (Hconsole : ∀ l e (w : W), (perform (LogError l e) w).1 = inl tt).

(** What a program's run is, given its main's: the status tells whether main
    resolved, and only an error is printed after it. *)
Definition reports (main : script unit) (prog : script Z) : Prop :=
  ∀ w : W, match run main w with
  | (inl _, w') => run prog w = (inl 0, w')
  | (inr e, w') => ∃ w'', run prog w = (inl 1, w'') ∧ (w'' = w' ∨ ∃ l, w'' = (perform (LogError l (Some e)) w').2)
  end.

Lemma exit_label_reports l main : reports main (exit_label l main).
Proof.
  intros w. unfold exit_label. rewrite run_try_catch, run_bind.
  destruct (run main w) as [[u|e] w']; [done|]. rewrite run_bind. cbn.
  pose proof (Hconsole l (Some e) w') as Hc. destruct (perform (LogError l (Some e)) w') as [r w''] eqn:E. cbn in *.
  subst r. exists w''. split; [done|]. right. exists l. by rewrite E.
Qed.
Lemma exit_bare_reports main : reports main (exit_bare main).
Proof.
  intros w. unfold exit_bare. rewrite run_try_catch, run_bind.
  destruct (run main w) as [[u|e] w']; [done|]. eauto.
Qed.

(** The exit status tells whether main succeeded: for every file under
    scripts/, the process exits with status 0 exactly when its main resolves, and
    with status 1 otherwise, having done nothing more than print the error. *)
Theorem programs_report_failure (main : script unit) (prog : script Z) :
  (main, prog) ∈ programs → reports main prog.
Proof.
  intros Hin. assert (Forall (λ p, reports p.1 p.2) programs) as Hall; [|by rewrite Forall_forall in Hall; apply (Hall _ Hin)].
  unfold programs. repeat (apply Forall_cons; split; [first [apply exit_bare_reports | apply exit_label_reports]|]).
  apply Forall_nil_2.
Qed.

(** paymasterFunctions.ts catches the rejection of getHash inside main: once the
    factory is found it exits with status 0, hash or no hash. *)
Theorem paymasterFunctions_ignores_getHash (w : W) :
  (∀ l (w : W), (perform (Log l) w).1 = inl tt) → (∀ w : W, ∃ t, (perform DateNow w).1 = inl t) →
  (∃ f, (perform (GetContractFactory "EnclaveSolverPaymaster") w).1 = inl f) →
  (run paymasterFunctions_ts w).1 = inl 0.
Proof.
  intros Hlog Hnow [f Hf].
  assert (wp paymasterFunctions_main (λ r _, r = inl tt) w) as Hm.
  { apply wp_bind, wp_await. rewrite Hf. unfold request_hash.
    do 2 (apply wp_bind, wp_await; match goal with |- context [perform DateNow ?w] => destruct (Hnow w) as [? ->] end).
    apply wp_try_catch, wp_bind, wp_await.
    match goal with |- context [(perform (Call ?c ?me ?args) ?w).1] => destruct (perform (Call c me args) w).1 end;
      [|by apply wp_await, Hconsole].
    apply wp_await. rewrite Hlog. done. }
  pose proof (exit_label_reports "Unhandled error:" paymasterFunctions_main w) as Hr. unfold wp in Hm.
  fold paymasterFunctions_ts in Hr. destruct (run paymasterFunctions_main w) as [[u|e] w']; [|done]. by rewrite Hr.
Qed.
End env.
End programs.

Lemma programs_report_failure_witness :
  @reports SimChain.sim SimChain.sim_hardhat deployAll_main deployAll_ts.
Proof.
  apply (@programs_report_failure sample_crypto SimChain.sim SimChain.sim_hardhat (λ l e w, eq_refl) deployAll_main deployAll_ts).
  unfold programs. do 13 apply list_elem_of_further. apply list_elem_of_here.
Defined.
