(* ===== verification/AccountScripts.v ===== *)
(** The scripts that deploy the account factory and create passkey accounts
    (scripts/P256SmartAccount.deploy.ts,
    scripts/prod-deployment/{2-accountFactory,5-deployaccount}.ts), composed with
    the factory and the accounts they call: to these scripts a factory is not an
    opaque instance but a [P256SmartAccountFactory.factory]. *)
From S2P Require Import Prelude Bytes UserOperation AccountBase P256SmartAccount P256SmartAccountFactory Ethers Mining Chain DeployScripts QueryScripts ContractScripts ClientScripts Programs.

(** ** Factories on the chain

    The accounts, which factory is at which address, and what was printed. *)
Record account_ledger := AccountLedger {
  account_world : P256SmartAccountFactory.world;
  factories : gmap address P256SmartAccountFactory.factory
}.
Class Console (W : Type) := console : W → list (list jsval).

(** A factory [fac] added at [a]: its code and that of the implementation its
    constructor deploys, and no account. *)
Definition factory_added (l l' : account_ledger) (a : address) (fac : P256SmartAccountFactory.factory) : Prop :=
  factories l' = <[a := fac]> (factories l) ∧ accounts (account_world l') = accounts (account_world l) ∧
  ∀ b, code_length_positive b (account_world l') =
    code_length_positive b (account_world l) || (b =? a) || (b =? accountImplementation fac).

(** What hardhat and ethers document, over the transactions of [Mining]: output
    is appended, handles are for the artifact asked for, a deployment resolves
    when its transaction is sent and runs the constructor when it is mined, a
    call of a factory's function resolves (to the hash) when its transaction is
    sent and runs the factory's code when it is mined, unless it reverts; a view
    call answers what the code returns on the mined state. *)
Class AccountChainLaws (W : Type) `{MiningLaws W account_ledger} `{Console W} `{EvmCrypto} (creationCode : bytes) := {
  console_log_appends : ∀ l (w : W), console (perform (Log l) w).2 = console w ++ [l];
  console_grows : ∀ {R : Set} (o : op R) (w : W), console w `prefix_of` console (perform o w).2;
  factory_named : ∀ n (w : W) f, (perform (GetContractFactory n) w).1 = inl f → factory_artifact f = n;
  factory_deployed : ∀ f (w : W) c, factory_artifact f = "P256SmartAccountFactory" →
    (perform (Deploy f []) w).1 = inl c →
    ∃ t, history (perform (Deploy f []) w).2 = history w ++ [t] ∧ tx_creates t = Some (target c) ∧
      ∀ l, tx_effect t (settled w) = Some l → ∃ fac, factory_added (settled w) l (target c) fac;
  create_sent : ∀ c k1 k2 r salt v (w : W) fac h, factories (settled w) !! target c = Some fac →
    let o := Send c "createAccount" [JArr [JNum k1; JNum k2]; JAddr r; JNum salt] v in
    (perform o w).1 = inl h →
    ∃ t, history (perform o w).2 = history w ++ [t] ∧ tx_hash t = h ∧
      ∀ l, tx_effect t (settled w) = Some l →
        factories l = factories (settled w) ∧
        ∃ a, createAccount creationCode fac (k1, k2) r salt (account_world (settled w)) = Ok (a, account_world l);
  predict_answers : ∀ c k1 k2 r salt (w : W) fac x,
    let o := Call c "getAccountAddress" [JArr [JNum k1; JNum k2]; JAddr r; JNum salt] in
    factories (latest (perform o w).2) !! target c = Some fac → (perform o w).1 = inl x →
    x = JAddr (getAccountAddress creationCode fac (k1, k2) r salt)
}.

Section scripts.
Context {W : Type} `{AccountChainLaws W}.

(** [p] resolves only into [S]. *)
Definition into {A} (p : script A) (S : A → W → Prop) (w : W) : Prop :=
  wp p (λ r w', match r with inl a => S a w' | inr _ => True end) w.
(** Nothing was sent, and what was mined stays mined. *)
Definition nothing_sent (w w' : W) : Prop :=
  genesis w' = genesis w ∧ history w' = history w ∧ (pending w = [] → pending w' = []) ∧
  console w `prefix_of` console w'.

#[global] Instance nothing_sent_preorder : PreOrder nothing_sent.
Proof.
  split; [by intros w; split_and!|]. intros w1 w2 w3 (G1 & H1' & Q1 & P1) (G2 & H2' & Q2 & P2).
  split_and!; [congruence..|auto|by etrans].
Qed.
Lemma nothing_sent_settled w w' : nothing_sent w w' → settled w' = settled w.
Proof. intros (G & Hh & _). by apply settled_same. Qed.

Lemma query_same {R : Set} (o : op R) w : is_query o = true → nothing_sent w (perform o w).2.
Proof.
  intros Ho. split_and!; [apply genesis_fixed|by apply query_sends_nothing|by apply query_pending|apply console_grows].
Qed.

Lemma into_query {R : Set} {B} (o : op R) (f : R → script B) S w :
  is_query o = true →
  (∀ v w', nothing_sent w w' → (perform o w).1 = inl v → into (f v) S w') → into (await o ≫= f) S w.
Proof.
  intros Ho Hf. apply wp_bind, wp_await. pose proof (query_same o w Ho).
  destruct (perform o w).1 as [v|e] eqn:E; [by apply Hf|done].
Qed.
Lemma into_last {R : Set} (o : op R) S w :
  is_query o = true → (∀ v w', nothing_sent w w' → S v w') → into (await o) S w.
Proof.
  intros Ho Hs. apply wp_await. pose proof (query_same o w Ho).
  destruct (perform o w).1 as [v|e]; [by apply Hs|done].
Qed.
Lemma into_log {B} l (f : unit → script B) S w :
  (∀ w', nothing_sent w w' → l ∈ console w' → into (f tt) S w') → into (console_log l ≫= f) S w.
Proof.
  intros Hf. apply wp_bind, wp_await. pose proof (query_same (Log l) w eq_refl) as Hs.
  pose proof (console_log_appends l w) as Hc. destruct (perform (Log l) w).1 as [[]|e]; [|done].
  apply Hf; [done|]. rewrite Hc. set_solver.
Qed.
Lemma into_last_log l S w :
  (∀ w', nothing_sent w w' → l ∈ console w' → S tt w') → into (console_log l) S w.
Proof.
  intros Hs. apply wp_await. pose proof (query_same (Log l) w eq_refl) as Hq.
  pose proof (console_log_appends l w) as Hc. destruct (perform (Log l) w).1 as [[]|e]; [|done].
  apply Hs; [done|]. rewrite Hc. set_solver.
Qed.
Lemma into_at_index {A B} (l : list A) i (f : A → script B) S w :
  (∀ x, into (f x) S w) → into (at_index l i ≫= f) S w.
Proof. unfold at_index. intros Hf. destruct (l !! i); [apply Hf|done]. Qed.

(** What creating an account at [a] leaves, from the accounts [aw] to [aw']. *)
Definition account_created (fac : P256SmartAccountFactory.factory) (k : Z * Z) (r a : address) (aw aw' : world) : Prop :=
  a = getAccountAddress creationCode fac k r 0 ∧ code_length_positive a aw' = true ∧
  (code_length_positive a aw = false →
     accounts aw' !! a = Some (P256SmartAccount.State [] ∅ r k 1 false (accountImplementation fac))) ∧
  ∀ b, b ≠ a → accounts aw' !! b = accounts aw !! b.

Lemma createAccount_created fac k r aw a aw' :
  createAccount creationCode fac k r 0 aw = Ok (a, aw') → account_created fac k r a aw aw'.
Proof.
  rewrite createAccount_cases. cbv zeta. unfold account_created.
  set (addr := getAccountAddress creationCode fac k r 0).
  destruct (code_length_positive addr aw) eqn:Ec; [intros [= <- <-]; by rewrite Ec|].
  destruct (code_length_positive (accountImplementation fac) aw) eqn:Ei; [|discriminate]. intros [= <- <-]. split; [done|]. split.
  - apply bool_decide_eq_true_2. left. cbn. rewrite lookup_insert_eq. eauto.
  - cbn. split; [intros _; apply lookup_insert_eq|]. intros b Hb. by apply lookup_insert_ne.
Qed.

(** Status 0 means that main resolved. *)
Lemma exit_catch_zero main (S : unit → W → Prop) w w' :
  into main S w → run (exit_catch main) w = (inl 0, w') → S tt w'.
Proof.
  unfold into, wp, exit_catch. rewrite run_try_catch, run_bind.
  destruct (run main w) as [[[]|e] w1]; cbn; [by intros ? [= <-]|].
  destruct (perform (LogError "" (Some e)) w1) as [[]]; cbn; by intros ? [=].
Qed.

(** A createAccount transaction [t] for the parameters: when it is mined it
    reverts or creates the account. *)
Definition creates_account (fac : P256SmartAccountFactory.factory) (k : Z * Z) (r a : address)
    (l : account_ledger) (t : tx account_ledger) : Prop :=
  ∀ l', tx_effect t l = Some l' →
    factories l' = factories l ∧ account_created fac k r a (account_world l) (account_world l').

(** The prediction, on a chain with nothing pending. *)
Lemma into_predict {B} c k1 k2 r (f : jsval → script B) S w fac :
  pending w = [] → factories (settled w) !! target c = Some fac →
  (∀ w', nothing_sent w w' → into (f (JAddr (getAccountAddress creationCode fac (k1, k2) r 0))) S w') →
  into (await (Call c "getAccountAddress" [JArr [JNum k1; JNum k2]; JAddr r; JNum 0]) ≫= f) S w.
Proof.
  intros Hp Hfac Hf. apply wp_bind, wp_await.
  set (o := Call c "getAccountAddress" [JArr [JNum k1; JNum k2]; JAddr r; JNum 0]).
  pose proof (query_same o w eq_refl) as Q1. pose proof (predict_answers c k1 k2 r 0 w fac) as Ha. fold o in Ha. cbv zeta in Ha.
  set (w1 := (perform o w).2) in *. destruct (perform o w).1 as [x|e]; [|done].
  pose proof Q1 as (_ & _ & Hp1 & _). rewrite (latest_settled w1), (nothing_sent_settled w w1) in Ha by auto.
  rewrite (Ha x Hfac eq_refl). by apply Hf.
Qed.

(** Waiting for the transaction sent last. *)
Lemma into_wait {B} t before (f : unit → script B) S w :
  history w = before ++ [t] →
  (∀ w', nothing_sent w w' → pending w' = [] → is_Some (tx_effect t (settle (genesis w) before)) → into (f tt) S w') →
  into (await (Wait (tx_hash t)) ≫= f) S w.
Proof.
  intros Hh Hf. apply wp_bind, wp_await. set (o := Wait (tx_hash t)). pose proof (query_same o w eq_refl) as Q.
  pose proof (wait_mined (tx_hash t) w) as Hw. fold o in Hw. set (w1 := (perform o w).2) in *.
  destruct (perform o w).1 as [[]|e]; [|done]. specialize (Hw eq_refl). pose proof Q as (G & Hh1 & _). rewrite Hh in Hh1.
  destruct (included_last _ w1 before t Hh1 eq_refl Hw) as [Hp Hs]. rewrite G in Hs. by apply Hf.
Qed.

(** getAccountAddress printed under [label], then createAccount with the same
    parameters, on a chain with nothing pending. *)
Lemma into_create {B} c k1 k2 r label (f : Z → script B) S w fac :
  pending w = [] → factories (settled w) !! target c = Some fac →
  (∀ w' t, let a := getAccountAddress creationCode fac (k1, k2) r 0 in
     genesis w' = genesis w → history w' = history w ++ [t] →
     creates_account fac (k1, k2) r a (settled w) t →
     console w `prefix_of` console w' → [JStr label; JAddr a] ∈ console w' → into (f (tx_hash t)) S w') →
  into (x ← await (Call c "getAccountAddress" [JArr [JNum k1; JNum k2]; JAddr r; JNum 0]);
        _ ← console_log [JStr label; x];
        tx ← await (Send c "createAccount" [JArr [JNum k1; JNum k2]; JAddr r; JNum 0] 0); f tx) S w.
Proof.
  intros Hp Hfac Hf. apply (into_predict _ _ _ _ _ _ _ fac); [done..|]. intros w1 Q1.
  apply into_log. intros w2 Q2 Hin. apply wp_bind, wp_await.
  set (o2 := Send c "createAccount" [JArr [JNum k1; JNum k2]; JAddr r; JNum 0] 0).
  assert (nothing_sent w w2) as Q by (by etrans). pose proof (nothing_sent_settled w w2 Q) as Es.
  pose proof (λ h, create_sent c k1 k2 r 0 0 w2 fac h) as Hs. fold o2 in Hs. cbv zeta in Hs. rewrite Es in Hs.
  pose proof (console_grows o2 w2) as Hg. pose proof (genesis_fixed o2 w2) as Hgen.
  destruct (perform o2 w2).1 as [h|e]; [|done]. destruct (Hs h Hfac eq_refl) as (t & Hh & <- & Hl).
  destruct Q as (G & Hq & _ & Pc). rewrite Hq in Hh. apply (Hf _ t); [congruence|done| |by etrans|].
  - intros l El. destruct (Hl l El) as (Ef & a & Ec). split; [done|]. apply createAccount_created in Ec as Hc.
    pose proof (proj1 Hc) as Ea. by rewrite <- Ea.
  - destruct Hg as [k ->]. set_solver.
Qed.

(** A deployment of the factory, awaited. *)
Lemma into_deploy {B} (f : contract → script B) S w :
  (∀ c w' t fac, genesis w' = genesis w → history w' = history w ++ [t] → pending w' = [] →
     tx_effect t (settled w) = Some (settled w') → factory_added (settled w) (settled w') (target c) fac → into (f c) S w') →
  into (fa ← await (GetContractFactory "P256SmartAccountFactory"); c ← await (Deploy fa []);
        _ ← await (WaitForDeployment c); f c) S w.
Proof.
  intros Hf. apply into_query; [done|]. intros fa w1 Q1 Hfa%factory_named.
  apply wp_bind, wp_await. set (o := Deploy fa []). pose proof (factory_deployed fa w1) as Hd. fold o in Hd.
  pose proof (genesis_fixed o w1) as G2. set (w2 := (perform o w1).2) in *.
  destruct (perform o w1).1 as [c|e]; [|done]. destruct (Hd c Hfa eq_refl) as (t & Hh & Ht & Hl).
  apply wp_bind, wp_await. set (o3 := WaitForDeployment c). pose proof (query_same o3 w2 eq_refl) as (G3 & H3' & _ & _).
  pose proof (wait_deployed c w2) as Hw. fold o3 in Hw. set (w3 := (perform o3 w2).2) in *.
  destruct (perform o3 w2).1 as [[]|e]; [|done]. specialize (Hw eq_refl).
  pose proof (nothing_sent_settled w w1 Q1) as Es. destruct Q1 as (G1 & H1' & _ & _).
  assert (history w3 = history w ++ [t]) as Eh by congruence.
  assert (genesis w3 = genesis w) as Eg by congruence.
  destruct (included_last _ w3 (history w) t Eh Ht Hw) as [Hp [l El]].
  rewrite Eg in El. change (tx_effect t (settled w) = Some l) in El.
  assert (settled w3 = l) as El' by (rewrite (settled_snoc w w3 t Eg Eh); unfold mine; by rewrite El).
  rewrite Es in Hl. destruct (Hl l El) as [fac Hfac].
  apply (Hf c w3 t fac); [done..|by rewrite El'|by rewrite El'].
Qed.

(** prod-deployment/2-accountFactory.ts: on status 0 there is a factory at the
    printed address, the printed account address is this factory's prediction,
    and no account was created. *)
Theorem account_factory_script_predicts (w w' : W) :
  run accountFactory_ts w = (inl 0, w') →
  ∃ t fac, factory_added (settled w) (latest w') t fac ∧ pending w' = [] ∧
    [JStr "ENCLAVE_P256_SMART_ACCOUNT_FACTORY_ADDRESS="; JAddr t] ∈ console w' ∧
    [JStr "Dummy Address: ";
     JAddr (getAccountAddress creationCode fac (1, 2) 0xA8E8f8cBD889Fc74882AeDFDcf8323fD7423DB47 0)] ∈ console w'.
Proof.
  set (dummy fac := [JStr "Dummy Address: ";
     JAddr (getAccountAddress creationCode fac (1, 2) 0xA8E8f8cBD889Fc74882AeDFDcf8323fD7423DB47 0)]).
  set (label t := [JStr "ENCLAVE_P256_SMART_ACCOUNT_FACTORY_ADDRESS="; JAddr t]).
  apply (exit_catch_zero accountFactory_main (λ _ w', ∃ t fac, factory_added (settled w) (latest w') t fac ∧
    pending w' = [] ∧ label t ∈ console w' ∧ dummy fac ∈ console w')).
  apply into_query; [done|]. intros l w1 Q1 _. apply into_at_index. intros s.
  apply into_log. intros w2 Q2 _. assert (nothing_sent w w2) as Q02 by (by etrans).
  pose proof (nothing_sent_settled w w2 Q02) as Es. unfold deploy_and_wait. apply wp_bind, into_deploy.
  intros c w3 t fac _ _ Hp3 _ Hadd. rewrite Es in Hadd. apply wp_ret, into_log. intros w4 Q4 Hin.
  pose proof (nothing_sent_settled w3 w4 Q4) as E4. pose proof (proj1 (proj2 (proj2 Q4)) Hp3) as Hp4.
  apply (into_predict _ _ _ _ _ _ _ fac); [done|rewrite E4; destruct Hadd as (-> & _); apply lookup_insert_eq|].
  intros w5 Q5. pose proof (proj1 (proj2 (proj2 Q5)) Hp4) as Hp5. pose proof (nothing_sent_settled w4 w5 Q5) as E5. rewrite E4 in E5.
  apply into_last_log. intros w6 Q6 Hin6. exists (target c), fac.
  pose proof (proj1 (proj2 (proj2 Q6)) Hp5) as Hp6. rewrite (latest_settled w6 Hp6), (nothing_sent_settled w5 w6 Q6), E5.
  split; [exact Hadd|]. split; [exact Hp6|]. split; [|exact Hin6].
  destruct Q5 as (_ & _ & _ & [k5 P5]), Q6 as (_ & _ & _ & [k6 P6]). rewrite P6, P5. set_solver.
Qed.

(** C38: The account scripts and the factory together.  (a) When
    prod-deployment/5-deployaccount.ts exits with status 0 on a chain with a
    factory at its address and nothing pending, it has printed the address the
    factory predicts for its key and registry and sent exactly one transaction,
    whose hash it printed; the script does not wait for it.  Where it is mined
    it either reverts, and changes nothing, or leaves code at the printed
    address: the account of that key and registry if the address was free; no
    other account changes.  (b) P256SmartAccount.deploy.ts deploys its own
    factory and does wait: when it exits with status 0 both transactions are
    mined and succeeded, and the account is at the printed address. *)
Theorem account_scripts_create (w w' : W) :
  (∀ fac, pending w = [] → factories (latest w) !! 0x502674c8eF6A87A9C485df592033796A5ad71607 = Some fac →
     run deployaccount_ts w = (inl 0, w') →
     let k := (0x440d8eb746e0a6b8da200ed3928ae2db1aa120950200911eca935a05c61ea99a,
               0x76daad039c44388a531369885b9f65c2d540d0b64726d77077801e1c21bc6c1c) in
     let r := 0xA8E8f8cBD889Fc74882AeDFDcf8323fD7423DB47 in
     let a := getAccountAddress creationCode fac k r 0 in
     [JStr "Dummy Address: "; JAddr a] ∈ console w' ∧
     ∃ t, history w' = history w ++ [t] ∧ [JNum (tx_hash t)] ∈ console w' ∧
       match tx_effect t (latest w) with
       | None => settled w' = latest w
       | Some l => settled w' = l ∧ factories l = factories (latest w) ∧
           account_created fac k r a (account_world (latest w)) (account_world l)
       end) ∧
  (run P256SmartAccount_deploy_ts w = (inl 0, w') →
     let k := (0x8c36f69ffec57a20ce5ec75c94f4d1b46bdae751fd90df035d24f4fb54a963ba,
               0x93632e668c503f14c6a3a267608326b7bb07f39c7533051d6c6274bc9eb6ab6c) in
     let r := 0x959DF35a4bDc25BA125615dfC84621D038A95FA8 in
     ∃ fac f t1 t2 l, history w' = history w ++ [t1; t2] ∧ pending w' = [] ∧
       tx_effect t1 (settled w) = Some l ∧ factory_added (settled w) l f fac ∧
       tx_effect t2 l = Some (latest w') ∧ factories (latest w') = factories l ∧
       let a := getAccountAddress creationCode fac k r 0 in
       account_created fac k r a (account_world l) (account_world (latest w')) ∧
       [JStr "New account: "; JAddr a] ∈ console w').
Proof.
  split.
  - intros fac Hp Hfac Hrun k r a. rewrite (latest_settled w Hp) in *.
    pattern w'. match goal with |- ?P w' => refine (exit_catch_zero deployaccount_main (λ _, P) w w' _ Hrun) end.
    apply into_query; [done|]. intros l w1 Q1 _. apply into_at_index. intros s.
    apply into_log. intros w2 Q2 _. apply into_query; [done|]. intros f w3 Q3 _.
    assert (nothing_sent w w3) as Q by (etrans; [exact Q1|]; by etrans).
    pose proof (nothing_sent_settled w w3 Q) as Es. destruct Q as (G & Hh & Hp3 & _).
    cbv zeta. apply (into_create _ _ _ _ _ _ _ _ fac); [auto|by rewrite Es|].
    intros w4 t a0 G4 Hh4 Ht _ Hin. rewrite Es in Ht. rewrite Hh in Hh4. rewrite G in G4.
    apply into_last_log. intros w5 Q5 Hin5. destruct Q5 as (G5 & Hh5 & _ & [t5 P5]).
    split; [rewrite P5; set_solver|]. exists t. split; [congruence|]. split; [done|].
    rewrite (settled_snoc w w5 t) by congruence. unfold mine.
    destruct (tx_effect t (settled w)) as [l'|] eqn:El; [|done]. split; [done|]. by apply Ht.
  - intros Hrun k r.
    pattern w'. match goal with |- ?P w' => refine (exit_catch_zero P256SmartAccount_deploy_main (λ _, P) w w' _ Hrun) end.
    unfold P256SmartAccount_deploy_main. cbv zeta. apply into_deploy. intros c w2 t1 fac G2 Hh2 Hp2 Ht1 Hadd.
    apply into_log. intros w3 Q3 _. pose proof (nothing_sent_settled w2 w3 Q3) as E3. destruct Q3 as (G3 & Hh3 & Hp3 & _).
    apply (into_create _ _ _ _ _ _ _ _ fac); [auto|rewrite E3; destruct Hadd as (-> & _); apply lookup_insert_eq|].
    intros w4 t2 a G4 Hh4 Ht2 _ Hin. apply (into_wait t2 (history w3) _ _ w4 Hh4). intros w5 Q5 Hp5 [l2 El2].
    apply into_last; [done|]. intros _ w6 Q6. assert (nothing_sent w4 w6) as (G6 & Hh6 & _ & [k6 P6]) by (by etrans).
    rewrite G4 in El2. change (tx_effect t2 (settled w3) = Some l2) in El2. rewrite E3 in El2, Ht2.
    destruct (Ht2 l2 El2) as [Hfac Hacc]. pose proof (proj1 (proj2 (proj2 Q6)) Hp5) as Hp6.
    assert (latest w6 = l2) as ->.
    { rewrite (latest_settled w6 Hp6), (settled_snoc w3 w6 t2) by congruence. unfold mine. by rewrite E3, El2. }
    exists fac, (target c), t1, t2, (settled w2). split; [by rewrite Hh6, Hh4, Hh3, Hh2, <- app_assoc|].
    repeat (split; [assumption|]). rewrite P6. set_solver.
Qed.
End scripts.

(** ** A chain with factories

    The in-memory chain of [SimChain] beside the transactions on accounts and
    factories; a factory and its implementation take the next two addresses. *)
Module AccountSim.
Import SimChain.
Record chain := Chain {
  base : sim;
  acct_pool : pool account_ledger;
  next : address
}.
Definition with_base (w : chain) (b : sim) : chain := Chain b (acct_pool w) (next w).
Definition with_pool (w : chain) (p : pool account_ledger) : chain := Chain (base w) p (next w).

Section chain.
Context `{EvmCrypto} (creationCode : bytes).

Definition add_factory (t : address) (l : account_ledger) : account_ledger :=
  AccountLedger (World (accounts (account_world l)) ({[ t; t + 1 ]} ∪ other_code (account_world l)))
    (<[t := P256SmartAccountFactory.Factory t (t + 1)]> (factories l)).
Definition deploy_factory (w : chain) : chain :=
  let t := Tx (next_hash (acct_pool w)) (Some (next w)) (λ l, Some (add_factory (next w) l)) in
  Chain (base w) (enqueue t (acct_pool w)) (next w + 2).

Definition create_effect (f : address) (k : Z * Z) (r : address) (salt : Z) (l : account_ledger) : option account_ledger :=
  match factories l !! f with
  | Some fac =>
      match createAccount creationCode fac k r salt (account_world l) with
      | Ok (_, aw) => Some (AccountLedger aw (factories l))
      | Revert _ => None
      end
  | None => Some l
  end.

Definition chain_send (c : contract) (me : string) (args : list jsval) (v : Z) (w : chain)
    : (Z + jserror) * chain :=
  match bool_decide (me = "createAccount"), args with
  | true, [JArr [JNum k1; JNum k2]; JAddr r; JNum salt] =>
      let effect := create_effect (target c) (k1, k2) r salt in
      if bool_decide (is_Some (effect (pool_settled (acct_pool w)))) then
        let h := next_hash (acct_pool w) in (inl h, with_pool w (enqueue (Tx h None effect) (acct_pool w)))
      else (inr (Rejected "execution reverted"), w)
  | _, _ => let '(r, b) := sim_send c me args v (base w) in (r, with_base w b)
  end.

Definition chain_call (c : contract) (me : string) (args : list jsval) (w : chain) : jsval + jserror :=
  match factories (pool_latest (acct_pool w)) !! target c, bool_decide (me = "getAccountAddress"), args with
  | Some fac, true, [JArr [JNum k1; JNum k2]; JAddr r; JNum salt] =>
      inl (JAddr (getAccountAddress creationCode fac (k1, k2) r salt))
  | _, _, _ => sim_call c me args (base w)
  end.

Definition chain_wait (P : tx account_ledger → bool) (w : chain) : (unit + jserror) * chain :=
  let '(r, p) := wait_for P (acct_pool w) in (r, with_pool w p).

Definition chain_perform {R : Set} (o : op R) (w : chain) : (R + jserror) * chain :=
  match o in op R return (R + jserror) * chain with
  | Deploy f args =>
      if bool_decide (factory_artifact f = "P256SmartAccountFactory")
      then (inl (Contract (factory_artifact f) (next w)), deploy_factory w)
      else let '(r, b) := sim_perform (Deploy f args) (base w) in (r, with_base w b)
  | WaitForDeployment c => chain_wait (λ t, bool_decide (tx_creates t = Some (target c))) w
  | Send c me args v => chain_send c me args v w
  | Wait h => chain_wait (λ t, tx_hash t =? h) w
  | Call c me args => (chain_call c me args w, w)
  | o => let '(r, b) := sim_perform o (base w) in (r, with_base w b)
  end.

#[global] Instance chain_hardhat : HardhatEnv chain := {| perform := @chain_perform |}.
#[global] Instance chain_mining : Mining chain account_ledger :=
  {| genesis w := pool_genesis (acct_pool w); mined w := pool_mined (acct_pool w);
     pending w := pool_pending (acct_pool w) |}.
#[global] Instance chain_console : Console chain := λ w, sim_log (base w).

Lemma add_factory_added t l : factory_added l (add_factory t l) t (P256SmartAccountFactory.Factory t (t + 1)).
Proof.
  split; [done|]. split; [done|]. intros b. unfold code_length_positive. cbn. apply eq_bool_prop_intro.
  rewrite !orb_True, !bool_decide_spec, !Is_true_true, !Z.eqb_eq. set_solver.
Qed.

Lemma sim_send_log c me args v b : sim_log (sim_send c me args v b).2 = sim_log b.
Proof.
  pose proof (sim_send_cases c me args v b) as Hc. destruct (sim_send c me args v b) as [r b'].
  by destruct Hc as [[-> _]|[_ ->]].
Qed.

(** How a call moves the pool and the console. *)
Lemma chain_moves {R : Set} (o : op R) w :
  (acct_pool (perform o w).2 = acct_pool w ∨
   (∃ t, is_query o = false ∧ acct_pool (perform o w).2 = enqueue t (acct_pool w)) ∨
   acct_pool (perform o w).2 = mine_all (acct_pool w)) ∧
  sim_log (base w) `prefix_of` sim_log (base (perform o w).2).
Proof.
  change (perform o w) with (chain_perform o w). destruct o; cbn; try (split; [by left|done || by apply prefix_app_r]).
  - destruct (bool_decide _); cbn; [split; [eauto|done]|].
    pose proof (sim_deploy_cases f args (base w)) as Hc. destruct (sim_deploy f args (base w)) as [r b']. split; [by left|].
    destruct Hc as [(_ & -> & _)|(i & c & t & _ & _ & -> & _)]; done.
  - split; [by right; right|done].
  - unfold chain_send. pose proof (sim_send_log c method args value (base w)) as Hl.
    destruct (sim_send c method args value (base w)) as [r b]. cbn in Hl.
    repeat case_match; simplify_eq/=; rewrite ?Hl; split; eauto.
  - split; [by right; right|done].
Qed.

#[global] Instance chain_mining_laws : MiningLaws chain account_ledger.
Proof.
  split.
  - intros R o w. cbn [genesis chain_mining]. by destruct (chain_moves o w) as [[E|[(t & _ & E)|E]] _]; rewrite E.
  - intros R o w. cbn [mined chain_mining]. destruct (chain_moves o w) as [[E|[(t & _ & E)|E]] _]; rewrite E; [done..|].
    by apply prefix_app_r.
  - intros R o w Ho. unfold history. cbn [mined pending chain_mining].
    destruct (chain_moves o w) as [[E|[(t & Hq & _)|E]] _]; [by rewrite E|congruence|]. rewrite E.
    apply (mine_all_history (acct_pool w)).
  - intros h w E before t after Eh Ht. cbn in *. subst h.
    eapply (wait_for_included (λ t', tx_hash t' =? tx_hash t)); [exact E|exact Eh|apply Z.eqb_refl].
  - intros c w E before t after Eh Ht. cbn in *.
    eapply (wait_for_included (λ t', bool_decide (tx_creates t' = Some (target c)))); [exact E|exact Eh|].
    by apply bool_decide_eq_true_2.
Qed.

#[global] Instance chain_laws : AccountChainLaws chain creationCode.
Proof.
  split.
  - done.
  - intros R o w. by apply (chain_moves o w).
  - intros n w f. cbn. case_bool_decide; intros [= <-]. done.
  - intros f w c Hf. cbn. rewrite bool_decide_true by done. intros [= <-]. eexists.
    split; [apply (enqueue_history _ (acct_pool w))|]. split; [done|]. intros l [= <-]. eexists. apply add_factory_added.
  - intros c k1 k2 r salt v w fac h Hfac o. set (args := [JArr [JNum k1; JNum k2]; JAddr r; JNum salt]).
    change (perform o w) with (chain_send c "createAccount" args v w). unfold chain_send, args.
    rewrite (bool_decide_true ("createAccount" = _)) by done.
    destruct (bool_decide _); [|done]. intros [= <-]. eexists. split; [apply (enqueue_history _ (acct_pool w))|].
    split; [done|]. cbn [tx_effect]. intros l. unfold create_effect. rewrite Hfac.
    destruct (createAccount _ _ _ _ _ _) as [[a aw]|e] eqn:E; [|done]. intros [= <-]. eauto.
  - intros c k1 k2 r salt w fac x o Hfac. cbn in *. unfold chain_call.
    change (factories (pool_latest (acct_pool w)) !! target c = Some fac) in Hfac.
    rewrite Hfac. by intros [= <-].
Qed.
End chain.
End AccountSim.

(** ** Concrete runs: a chain with a factory at the address of
    5-deployaccount.ts; the runs of the scripts on it exit with status 0. *)
Section runs.
Import SimChain AccountSim.
#[local] Existing Instance sample_crypto.
#[local] Instance demo_hardhat : HardhatEnv chain := chain_hardhat [1; 2; 3].

Definition prod_factory : P256SmartAccountFactory.factory :=
  P256SmartAccountFactory.Factory 0x502674c8eF6A87A9C485df592033796A5ad71607 0x1111.
Definition demo_chain : chain :=
  AccountSim.Chain (Sim ∅ [0xABC] ∅ [])
    (fresh_pool (AccountLedger (World ∅ {[ 0x1111 ]}) {[ factory_address prod_factory := prod_factory ]})) 0xF000.

Lemma status_zero {W A} `{HardhatEnv W} (p : script A) w a :
  (run p w).1 = inl a → run p w = (inl a, (run p w).2).
Proof. by destruct (run p w) as [r w']; cbn; intros ->. Qed.

(** 5-deployaccount.ts leaves its transaction pending: there is no code at the
    printed address yet. *)
Lemma account_scripts_create_witness :
  let w1 := (run deployaccount_ts demo_chain).2 in
  let w2 := (run P256SmartAccount_deploy_ts demo_chain).2 in
  (∃ t a, history w1 = [t] ∧ [JNum (tx_hash t)] ∈ console w1 ∧ [JStr "Dummy Address: "; JAddr a] ∈ console w1) ∧
  length (pending w1) = 1%nat ∧ accounts (account_world (latest w1)) = ∅ ∧ accounts (account_world (settled w1)) ≠ ∅ ∧
  (∃ a, [JStr "New account: "; JAddr a] ∈ console w2 ∧ code_length_positive a (account_world (latest w2)) = true).
Proof.
  pose proof (λ w', @account_scripts_create chain demo_hardhat chain_mining (chain_mining_laws [1; 2; 3]) chain_console
    sample_crypto [1; 2; 3] (chain_laws [1; 2; 3]) demo_chain w') as T.
  cbv zeta. split; [|split; [by vm_compute|split; [by vm_compute|split; [by vm_compute|]]]].
  - destruct (proj1 (T (run deployaccount_ts demo_chain).2) prod_factory) as (Hin & t & Hh & Hp & _).
    + reflexivity.
    + by vm_compute.
    + apply status_zero. by vm_compute.
    + exists t. eexists. split; [exact Hh|]. split; [exact Hp|exact Hin].
  - destruct (proj2 (T (run P256SmartAccount_deploy_ts demo_chain).2))
      as (fac & f & t1 & t2 & l & _ & _ & _ & _ & _ & _ & Ha & Hin).
    + apply status_zero. by vm_compute.
    + eexists. split; [exact Hin|exact (proj1 (proj2 Ha))].
Defined.

Lemma account_factory_script_predicts_witness :
  ∃ t fac, factories (latest (run accountFactory_ts demo_chain).2) !! t = Some fac ∧
    [JStr "ENCLAVE_P256_SMART_ACCOUNT_FACTORY_ADDRESS="; JAddr t] ∈ console (run accountFactory_ts demo_chain).2.
Proof.
  destruct (@account_factory_script_predicts chain demo_hardhat chain_mining (chain_mining_laws [1; 2; 3]) chain_console
    sample_crypto [1; 2; 3] (chain_laws [1; 2; 3]) demo_chain (run accountFactory_ts demo_chain).2)
    as (t & fac & (Hf & _) & _ & Hin & _).
  - apply status_zero. by vm_compute.
  - exists t, fac. split; [rewrite Hf; apply lookup_insert_eq|exact Hin].
Defined.
End runs.
