(* ===== verification/HardhatConfig.v ===== *)
(** hardhat.config.ts: the compilers and networks the scripts run on.

    The file is evaluated in the process environment: [process.env.X] is
    [undefined] when X is not set, which string concatenation prints and an
    accounts array keeps.  Hardhat itself is not in the repository; of its
    documented behaviour two facts are used, as hypotheses: an account must be a
    private key ([valid_key]), checked for every network when the configuration
    is loaded, and getSigners answers with one signer per account of the selected
    network. *)
From S2P Require Import Prelude Bytes Ethers Mining Chain DeployScripts QueryScripts ContractScripts.

(** [process.env] *)
Abbreviation environment := (gmap string string).

(** [s + process.env.X] *)
Definition plus_env (s : string) (v : option string) : string := (s +:+ default "undefined" v)%string.

Record network := Network {
  url : string;
  accounts : option (list (option string))     (* None: no accounts member *)
}.
Record compiler := Compiler {
  version : Z * Z * Z;
  optimizer_runs : option Z;
  viaIR : bool
}.
Record custom_chain := CustomChain { network_name : string; chainId : Z; apiURL : string; browserURL : string }.

Definition mnemonic : string := (String.concat "" (replicate 11 "test ") +:+ "junk")%string.

Section config.
Context (env : environment).

Definition getNetwork1 (url : string) : network :=
  {| url := url; accounts := Some [env !! "PRIVATE_KEY2"; env !! "PRIVATE_KEY"] |}.
Definition getNetworkTestBalance (url : string) : network :=
  {| url := url; accounts := Some [env !! "PRIVATE_KEY_TEST_BALANCE"] |}.
Definition getNetworkProd (url : string) : network :=
  {| url := url; accounts := Some [env !! "REGISTRY_DEPLOYMENT_KEY"] |}.

Definition infura (chain : string) : string :=
  plus_env ("https://" +:+ chain +:+ ".infura.io/v3/") (env !! "INFURA_API_KEY").

Definition networks : list (string * network) := [
  ("dev", {| url := "http://127.0.0.1:8545"; accounts := None |});
  ("arbitrumSepolia", {| url := infura "arbitrum-sepolia"; accounts := Some [env !! "PRIVATE_KEY"] |});
  ("sepolia", getNetworkTestBalance (infura "sepolia"));
  ("opSepolia", getNetworkTestBalance (infura "optimism-sepolia"));
  ("arbSepolia", getNetworkTestBalance (infura "arbitrum-sepolia"));
  ("amoy", getNetwork1 (infura "polygon-amoy"));
  ("kakarotSepolia", getNetwork1 "https://sepolia-rpc.kakarot.org");
  ("kakarotSepoliaNew", getNetwork1 "https://rpc-kakarot-sepolia.karnot.xyz");
  ("opmain", getNetwork1 (infura "optimism-mainnet"));
  ("arbmain", getNetwork1 (infura "arbitrum-mainnet"));
  ("basemain", getNetwork1 "https://1rpc.io/base");
  ("avaxmain", getNetwork1 (infura "avalanche-mainnet"))].

Definition etherscan_apiKey : list (string * option string) := [
  ("arbSepolia", Some "MD9NYEJGPWUSBESQP9QQGFTB4G4EKKU69U");
  ("opmain", env !! "OP_SCAN_API_KEY");
  ("arbmain", env !! "ARB_SCAN_API_KEY")].
End config.

Definition compilers : list compiler := [
  {| version := (0, 8, 9); optimizer_runs := None; viaIR := false |};
  {| version := (0, 8, 10); optimizer_runs := None; viaIR := false |};
  {| version := (0, 8, 20); optimizer_runs := None; viaIR := false |};
  {| version := (0, 8, 21); optimizer_runs := Some 100; viaIR := true |};
  {| version := (0, 8, 19); optimizer_runs := Some 100; viaIR := true |};
  {| version := (0, 8, 23); optimizer_runs := Some 100; viaIR := false |};
  {| version := (0, 8, 17); optimizer_runs := Some 800; viaIR := true |}].

Definition customChains : list custom_chain := [
  {| network_name := "amoy"; chainId := 80002; apiURL := "https://api-amoy.polygonscan.com/api";
     browserURL := "https://amoy.polygonscan.com/" |};
  {| network_name := "arbSepolia"; chainId := 421614; apiURL := "https://api-sepolia.arbiscan.io/api";
     browserURL := "https://sepolia.arbiscan.io/" |};
  {| network_name := "opmain"; chainId := 10; apiURL := "https://api-optimistic.etherscan.io/api";
     browserURL := "https://optimistic.etherscan.io/" |};
  {| network_name := "arbmain"; chainId := 42161; apiURL := "https://api.arbiscan.io/api";
     browserURL := "https://arbiscan.io/" |}].

(** ** What the environment has to define *)

(** Every listed account of every network is a private key. *)
Definition accounts_ok (valid_key : string → bool) (n : network) : bool :=
  forallb (λ k, match k with Some k => valid_key k | None => false end) (default [] (accounts n)).
Definition config_ok (valid_key : string → bool) (env : environment) : bool :=
  forallb (λ n, accounts_ok valid_key n.2) (networks env).

Definition key_set (valid_key : string → bool) (env : environment) (x : string) : bool :=
  match env !! x with Some k => valid_key k | None => false end.

(** The configuration loads exactly when PRIVATE_KEY, PRIVATE_KEY2 and
    PRIVATE_KEY_TEST_BALANCE are all set to private keys, whichever network a
    script is run on; REGISTRY_DEPLOYMENT_KEY is never used.  An environment
    with only the variables .env.example names therefore runs no script. *)
Theorem config_needs_three_keys (valid_key : string → bool) (env : environment) :
  (config_ok valid_key env = true ↔
    key_set valid_key env "PRIVATE_KEY" = true ∧ key_set valid_key env "PRIVATE_KEY2" = true ∧
    key_set valid_key env "PRIVATE_KEY_TEST_BALANCE" = true) ∧
  (∀ v, config_ok valid_key (<["REGISTRY_DEPLOYMENT_KEY" := v]> env) = config_ok valid_key env) ∧
  (dom env ⊆ {[ "PRIVATE_KEY"; "PRIVATE_KEY2"; "PUBLIC_KEY"; "INFURA_API_KEY" ]} → config_ok valid_key env = false).
Proof.
  assert (∀ env, config_ok valid_key env =
    key_set valid_key env "PRIVATE_KEY" && key_set valid_key env "PRIVATE_KEY2" &&
    key_set valid_key env "PRIVATE_KEY_TEST_BALANCE") as E.
  { intros e. unfold config_ok, accounts_ok, key_set. cbn.
    destruct (match e !! "PRIVATE_KEY" with Some k => valid_key k | None => false end),
      (match e !! "PRIVATE_KEY2" with Some k => valid_key k | None => false end),
      (match e !! "PRIVATE_KEY_TEST_BALANCE" with Some k => valid_key k | None => false end); done. }
  split; [|split].
  - rewrite E, !andb_true_iff. tauto.
  - intros v. rewrite !E. unfold key_set. by rewrite !lookup_insert_ne.
  - intros Hd. rewrite E. apply andb_false_iff. right. unfold key_set.
    destruct (env !! "PRIVATE_KEY_TEST_BALANCE") eqn:Ek; [|done]. apply elem_of_dom_2, Hd in Ek. set_solver.
Qed.
Lemma config_needs_three_keys_witness :
  let env : environment := {[ "PRIVATE_KEY" := "0x01"; "PRIVATE_KEY2" := "0x02" ]} in
  config_ok (λ _, true) env = false ∧
  config_ok (λ _, true) (<["PRIVATE_KEY_TEST_BALANCE" := "0x03"]> env) = true.
Proof.
  intros env. split; [|by vm_compute].
  apply (config_needs_three_keys (λ _, true) env). apply (bool_decide_unpack _). by vm_compute.
Defined.

(** ** Scripts on a network *)

(** The number of accounts a network lists. *)
Definition account_count (n : network) : option nat := length <$> accounts n.
Definition network_of (env : environment) (name : string) : option network :=
  (list_to_map (networks env) : gmap string network) !! name.

(** [w] is a world of the network [n]: one signer per listed account. *)
Definition on_network {W} `{HardhatEnv W} (n : network) (w : W) : Prop :=
  ∀ l k, (perform GetSigners w).1 = inl l → account_count n = Some k → length l = k.

(** mintNFT.ts mints to the second configured account, so on the networks
    the configuration gives one key (arbitrumSepolia, sepolia, opSepolia,
    arbSepolia) it ends with status 1 and changes nothing. *)
Theorem mintNFT_fails_on_single_key_networks {W} `{HardhatLaws W} (env : environment) (name : string) (n : network) (w : W) :
  network_of env name = Some n → name ∈ ["arbitrumSepolia"; "sepolia"; "opSepolia"; "arbSepolia"] → on_network n w →
  exits mintNFT_main w (λ status m, status = 1 ∧ m = contracts w).
Proof.
  intros Hn Hin Hw. apply mintNFT_needs_two_accounts. intros l El.
  assert (account_count n = Some 1%nat) as Hc.
  { repeat (apply elem_of_cons in Hin as [->|Hin]; [vm_compute in Hn; by injection Hn as <-|]). by apply elem_of_nil in Hin. }
  rewrite (Hw l 1%nat El Hc). lia.
Qed.

Section witness.
Import SimChain.
Lemma mintNFT_fails_on_single_key_networks_witness :
  let w := Sim ∅ [0xA11CE] ∅ [] in
  ∃ n, network_of ∅ "sepolia" = Some n ∧ exits mintNFT_main w (λ status m, status = 1 ∧ m = contracts w).
Proof.
  intros w. eexists. split; [vm_compute; reflexivity|].
  eapply (mintNFT_fails_on_single_key_networks ∅ "sepolia"); [vm_compute; reflexivity|set_solver|].
  intros l k El Ek. cbn in El, Ek. by simplify_eq.
Defined.
End witness.
