(* ===== verification/RepoTests.v ===== *)
(** The repository's own test suites (test/**/*.test.ts), run against the model:
    every case of the suites for the vault, the NFT, the verifier, the registry
    and the account as a computation, and the [beforeEach] hooks of the suites
    that cannot start as scripts. *)
From S2P Require Import Prelude Bytes UserOperation AccountBase P256Verifier P256SmartAccount P256SmartAccountFactory Erc20 UniswapHelper MockUSDC EnclaveRegistry NFTPaymaster TokenVault Ethers Mining Chain.

(** ** chai's matchers *)

Definition resolves {A} (r : res A) (check : A → bool) : bool :=
  match r with Ok a => check a | Revert _ => false end.
Definition revertedWith {A} (r : res A) (message : string) : bool :=
  match r with Revert (Error m) => bool_decide (m = message) | _ => false end.

(** ** test/enclave-smart-balance/EnclaveTokenVaultV0.test.ts *)

Module VaultSuite.
#[global] Instance event_eq_dec : EqDecision TokenVault.event.
Proof. solve_decision. Defined.
#[local] Instance guard_bool : ReentrancyGuard bool := TokenVault.bool_guard.

Abbreviation tokens := (gmap address Plain.token).
Abbreviation world := (TokenVault.state bool * tokens)%type.

(** Accounts and contracts of the suite. *)
Definition owner : address := 1.
Definition addr1 : address := 2.
Definition addr2 : address := 3.
Definition mockToken : address := 0x70.
Definition enclaveTokenVault : address := 0x100.
Definition from (a : address) : msg :=
  {| msg_sender := a; msg_value := 0; self := enclaveTokenVault; chainid := 31337; timestamp := 0 |}.
Definition depositAmount : Z := 100 * 10 ^ 18.

(** [enclaveTokenVault.connect(a).f(...)]: MockUSDC makes no calls back. *)
Definition vault (a : address) (c : TokenVault.call) (w : world) : res world :=
  TokenVault.exec (λ _ _, []) (from owner) 1024 a c w.1 w.2.
Definition on_mock (f : Plain.token → res Plain.token) (w : world) : res world :=
  '(_, ts) ← Plain.on_token mockToken (λ t, t' ← f t; Ok (tt, t')) w.2; Ok (w.1, ts).
Definition mint (to : address) (v : Z) : world → res world := on_mock (MockUSDC.mint (from owner) to v).
Definition approve_vault (a : address) (v : Z) : world → res world := on_mock (oz_approve a enclaveTokenVault v).

Definition is_manager (a : address) (w : world) : bool := mget false (TokenVault.isVaultManager w.1) a.
Definition deposits_of (a : address) (w : world) : Z := mget 0 (TokenVault.deposits w.1) (mockToken, a).
Definition token_balance (a : address) (w : world) : Z := balanceOf w.2 mockToken a.
(** [.to.emit(vault, e).withArgs(...)]: the event is among the new ones. *)
Definition emits (r : world → res world) (w : world) (e : TokenVault.event) : bool :=
  resolves (r w) (λ w', bool_decide (e ∈ drop (length (TokenVault.log w.1)) (TokenVault.log w'.1))).

(** The hooks. *)
Definition beforeEach : world :=
  (TokenVault.deployed (from owner), {[ mockToken := MockUSDC.constructor "Mock Token" "MTK" ]}).
Definition with_manager : res world := vault owner (AddVaultManager addr1) beforeEach.
Definition with_tokens : res world := w ← mint addr1 depositAmount beforeEach; approve_vault addr1 depositAmount w.
Definition with_deposit : res world := w ← with_tokens; vault addr1 (Deposit mockToken depositAmount) w.
Definition proof : bytes := abi_words [addr1].

(** The cases, in the order of the file. *)
Definition suite : list (string * bool) := [
  ("Should set the deployer as the initial vault manager", is_manager owner beforeEach);
  ("Should allow a vault manager to add a new vault manager",
    resolves (vault owner (AddVaultManager addr1) beforeEach) (is_manager addr1));
  ("Should emit VaultManagerAdded event",
    emits (vault owner (AddVaultManager addr1)) beforeEach (VaultManagerAdded addr1));
  ("Should revert if caller is not a vault manager",
    revertedWith (vault addr1 (AddVaultManager addr2) beforeEach) "Caller is not a vault manager");
  ("Should revert if adding zero address",
    revertedWith (vault owner (AddVaultManager zero_address) beforeEach) "Invalid vault manager address");
  ("Should revert if address is already a vault manager",
    resolves with_manager (λ w, revertedWith (vault owner (AddVaultManager addr1) w) "Address is already a vault manager"));
  ("Should allow a vault manager to remove another vault manager",
    resolves (with_manager ≫= vault owner (RemoveVaultManager addr1)) (λ w, negb (is_manager addr1 w)));
  ("Should emit VaultManagerRemoved event",
    resolves with_manager (λ w, emits (vault owner (RemoveVaultManager addr1)) w (VaultManagerRemoved addr1)));
  ("Should revert if caller is not a vault manager",
    resolves with_manager (λ w, revertedWith (vault addr2 (RemoveVaultManager addr1) w) "Caller is not a vault manager"));
  ("Should revert if address is not a vault manager",
    resolves with_manager (λ w, revertedWith (vault owner (RemoveVaultManager addr2) w) "Address is not a vault manager"));
  ("Should revert if trying to remove self",
    resolves with_manager (λ w, revertedWith (vault owner (RemoveVaultManager owner) w) "Cannot remove self as vault manager"));
  ("Should allow users to deposit tokens",
    resolves (with_tokens ≫= vault addr1 (Deposit mockToken depositAmount)) (λ w, deposits_of addr1 w =? depositAmount));
  ("Should emit Deposited event",
    resolves with_tokens (λ w, emits (vault addr1 (Deposit mockToken depositAmount)) w (Deposited addr1 mockToken depositAmount)));
  ("Should revert if amount is 0",
    resolves with_tokens (λ w, revertedWith (vault addr1 (Deposit mockToken 0) w) "Amount must be greater than 0"));
  ("Should revert if transfer fails",
    resolves (with_tokens ≫= approve_vault addr1 0)
      (λ w, revertedWith (vault addr1 (Deposit mockToken depositAmount) w) "ERC20: insufficient allowance"));
  ("Should allow users to withdraw tokens",
    resolves (with_deposit ≫= vault addr1 (Withdraw mockToken depositAmount))
      (λ w, (deposits_of addr1 w =? 0) && (token_balance addr1 w =? depositAmount)));
  ("Should emit Withdrawn event",
    resolves with_deposit (λ w, emits (vault addr1 (Withdraw mockToken depositAmount)) w (Withdrawn addr1 mockToken depositAmount)));
  ("Should revert if amount is 0",
    resolves with_deposit (λ w, revertedWith (vault addr1 (Withdraw mockToken 0) w) "Amount must be greater than 0"));
  ("Should revert if insufficient balance",
    resolves with_deposit (λ w, revertedWith (vault addr1 (Withdraw mockToken (depositAmount + 1)) w) "Insufficient balance"));
  ("Should allow vault manager to claim tokens",
    resolves with_deposit (λ w0,
      (* the case catches an error of claim and goes on *)
      let w := match vault owner (Claim mockToken depositAmount proof) w0 with Ok w => w | Revert _ => w0 end in
      (deposits_of addr1 w =? 0) && (token_balance owner w =? depositAmount)));
  ("Should emit Claimed event",
    resolves with_deposit (λ w, emits (vault owner (Claim mockToken depositAmount proof)) w
      (Claimed owner mockToken depositAmount addr1)));
  ("Should revert if caller is not a vault manager",
    resolves with_deposit (λ w, revertedWith (vault addr2 (Claim mockToken depositAmount proof) w) "Caller is not a vault manager"));
  ("Should revert if amount is 0",
    resolves with_deposit (λ w, revertedWith (vault owner (Claim mockToken 0 proof) w) "Amount must be greater than 0"));
  ("Should revert if insufficient balance",
    resolves with_deposit (λ w, revertedWith (vault owner (Claim mockToken (depositAmount + 1) proof) w) "Insufficient balance"))
].
End VaultSuite.

(** ** test/enclave-smart-balance/TestNFT.test.ts *)

Module NFTSuite.
Import VaultSuite.
Definition testNFT : address := 0x200.
Definition at_nft (a : address) : msg :=
  {| msg_sender := a; msg_value := 0; self := testNFT; chainid := 31337; timestamp := 0 |}.

(** [mintNFT(addr1)] after minting and approving the price. *)
Definition minted : res (TestNFT.state nft_ledger * tokens) :=
  let nft := TestNFT.deployed (at_nft owner) 1000000 mockToken ((∅, ∅) : nft_ledger) in
  w ← mint addr1 1000000 beforeEach;
  w ← on_mock (oz_approve addr1 testNFT 1000000) w;
  '(_, nft, ts) ← TestNFT.mintNFT (at_nft addr1) addr1 nft w.2;
  Ok (nft, ts).

Definition suite : list (string * bool) := [
  ("should mint NFT to the caller",
    resolves minted (λ '(nft, _), bool_decide (ledger_ownerOf 1 (TestNFT.ledger nft) = Some addr1)))
].
End NFTSuite.

(** Every case of the repository's suites for the vault and the NFT passes on
    the model, messages and events included. *)
Theorem suites_pass : forallb snd (VaultSuite.suite ++ NFTSuite.suite) = true.
Proof. by vm_compute. Qed.

(** ** The hooks of the other suites *)

(** [c.deployed()]: ethers 6 contracts have no such method. *)
Definition deployed_method (c : contract) : script unit := Throw TypeError.

(** test/EnclaveRegistry.test.ts *)
Definition registry_beforeEach : script unit :=
  _ ← await GetSigners;
  EnclaveRegistry ← await (GetContractFactory "EnclaveRegistry");
  enclaveRegistry ← await (Deploy EnclaveRegistry []);
  deployed_method enclaveRegistry.

(** test/P256SmartAccountFactory.test.ts *)
Definition factory_beforeEach : script unit :=
  _ ← await GetSigners;
  EnclaveRegistry ← await (GetContractFactory "EnclaveRegistry");
  enclaveRegistry ← await (Deploy EnclaveRegistry []);
  _ ← deployed_method enclaveRegistry;
  P256SmartAccountFactory ← await (GetContractFactory "P256SmartAccountFactory");
  p256SmartAccountFactory ← await (Deploy P256SmartAccountFactory []);
  deployed_method p256SmartAccountFactory.

(** test/P256SmartAccount.test.ts *)
Definition account_beforeEach : script unit :=
  _ ← await GetSigners;
  P256Verifier ← await (GetContractFactory "P256Verifier");
  _ ← await (Deploy P256Verifier []);
  P256SmartAccount ← await (GetContractFactory "P256SmartAccount");
  p256SmartAccount ← await (Deploy P256SmartAccount []);
  Feelogic ← await (GetContractFactory "EnclaveFeeLogicUniswap");
  feelogic ← await (Deploy Feelogic [JAddr zero_address; JAddr zero_address; JNum 0]);
  TokenPaymaster ← await (GetContractFactory "EnclaveVerifyingTokenPaymaster");
  paymaster ← await (Deploy TokenPaymaster
    [JAddr zero_address; JAddr zero_address; JAddr zero_address; JAddr zero_address]);
  Factory ← await (GetContractFactory "P256SmartAccountFactory");
  factory ← await (Deploy Factory []);
  EnclaveRegistry ← await (GetContractFactory "EnclaveRegistry");
  enclaveRegistry ← await (Deploy EnclaveRegistry []);
  _ ← await (Send enclaveRegistry "updateRegistryAddress" [JStr "feeLogic"; JAddr (target feelogic)] 0);
  _ ← await (Send enclaveRegistry "updateRegistryAddress" [JStr "paymaster"; JAddr (target paymaster)] 0);
  _ ← await (Send enclaveRegistry "updateRegistryAddress" [JStr "p256SmartAccountFactory"; JAddr (target factory)] 0);
  _ ← await (Send p256SmartAccount "initialize" [JArr [JNum 1; JNum 2]; JAddr (target enclaveRegistry)] 0);
  Ret tt.

(** test/EnclaveFeeLogicUniswap.test.ts; [address] is undefined in ethers 6. *)
Definition uniswap_beforeEach : script unit :=
  _ ← await GetSigners;
  MockWETH ← await (GetContractFactory "MockWETH");
  _ ← await (Deploy MockWETH []);
  MockFactory ← await (GetContractFactory "MockUniswapV3Factory");
  mockFactory ← await (Deploy MockFactory []);
  MockPool ← await (GetContractFactory "MockUniswapV3Pool");
  _ ← await (Deploy MockPool []);
  EnclaveFeeLogicUniswap ← await (GetContractFactory "EnclaveFeeLogicUniswap");
  _ ← await (Deploy EnclaveFeeLogicUniswap [JUndefined; JUndefined; JNum 3000]);
  _ ← await (Send mockFactory "setPool" [JUndefined] 0);
  Ret tt.

Section hooks.
Context {W : Type} `{HardhatLaws W}.

Definition rejects (r : unit + jserror) (_ : W) : Prop := ∃ e, r = inr e.

Lemma wp_query_rejects {R : Set} (o : op R) (f : R → script unit) w :
  is_query o = true → (∀ v w', (perform o w).1 = inl v → wp (f v) rejects w') → wp (await o ≫= f) rejects w.
Proof. intros Ho Hf. apply wp_query_bind; [done|by eexists|auto]. Qed.
Lemma wp_factory_rejects n (f : factory → script unit) w :
  (∀ w', wp (f (Factory n)) rejects w') → wp (await (GetContractFactory n) ≫= f) rejects w.
Proof. intros Hf. apply wp_factory_bind; [by eexists|auto]. Qed.
Lemma wp_deploy_rejects fa args (f : contract → script unit) w :
  (∀ c w', wp (f c) rejects w') → wp (await (Deploy fa args) ≫= f) rejects w.
Proof. intros Hf. apply wp_bind, wp_await. destruct (perform _ w).1; [apply Hf|by eexists]. Qed.
Lemma wp_misfit_rejects fa args (f : contract → script unit) w :
  construct (tx_msg w 0 0) (factory_artifact fa) args = None → wp (await (Deploy fa args) ≫= f) rejects w.
Proof. intros. apply wp_deploy_misfit; [done|by eexists]. Qed.

(** Four of the suites can never run: in every environment that behaves as
    hardhat and ethers document, the [beforeEach] hooks of the registry, account,
    account-factory and Uniswap suites reject, because they deploy contracts
    with the wrong number of constructor arguments (the registry's owner and the
    fee logic's markup are missing). *)
Theorem stale_suites_never_start (w : W) :
  ∀ hook, hook ∈ [registry_beforeEach; factory_beforeEach; account_beforeEach; uniswap_beforeEach] →
  ∃ e, (run hook w).1 = inr e.
Proof.
  intros hook Hh. change (wp hook rejects w). set_unfold in Hh.
  destruct Hh as [->|[->|[->|[->|[]]]]]; (apply wp_query_rejects; [done|]; intros _ w0 _);
    repeat first [apply wp_factory_rejects; intros ? | apply wp_misfit_rejects; reflexivity
                 | apply wp_deploy_rejects; intros ? ?].
Qed.
End hooks.

Lemma stale_suites_never_start_witness :
  ∃ e, (run account_beforeEach (SimChain.Sim ∅ [1] ∅ [])).1 = inr e.
Proof. apply (stale_suites_never_start (SimChain.Sim ∅ [1] ∅ []) account_beforeEach). set_solver. Defined.

(** ** What the cases behind those hooks would find

    The cases of the registry's and the account's suites, on the state their hooks
    are meant to set up. *)

(** test/EnclaveRegistry.test.ts; [contractAddress] is a random wallet's. *)
Module RegistrySuite.
Definition from (a : address) : msg :=
  {| msg_sender := a; msg_value := 0; self := 0x200; chainid := 31337; timestamp := 0 |}.
Definition owner : address := 1.
Definition nonOwner : address := 2.
(** The contract declares no events. *)
Definition events : list string := [].
Definition beforeEach : EnclaveRegistry.state := EnclaveRegistry.deployed owner.
Definition update (a : address) (contractAddress : address) : res EnclaveRegistry.state :=
  updateRegistryAddress (from a) "TestContract" contractAddress beforeEach.
Definition registered (contractAddress : address) (s : EnclaveRegistry.state) : bool :=
  resolves (getRegistryAddress "TestContract" s) (λ a, a =? contractAddress).

Definition suite (contractAddress : address) : list (string * bool) := [
  ("should set the right owner", EnclaveRegistry.owner beforeEach =? owner);
  ("should allow owner to update registry address",
    resolves (update owner contractAddress)
      (λ s, bool_decide ("OwnershipTransferred" ∈ events) && registered contractAddress s));
  ("should not allow non-owner to update registry address",
    revertedWith (update nonOwner contractAddress) "Ownable: caller is not the owner");
  ("should revert when trying to set zero address",
    revertedWith (update owner zero_address) "Registry: Zero address");
  ("should return the correct address for a registered contract",
    resolves (update owner contractAddress) (registered contractAddress));
  ("should revert when trying to get an unregistered contract address",
    revertedWith (getRegistryAddress "UnregisteredContract" beforeEach) "Registry: Entry doesn't exist")
].
End RegistrySuite.

(** test/P256SmartAccount.test.ts; [caller] is who the contract object's calls
    come from, in the suite the first signer. *)
Module AccountSuite.
Definition account : address := 0xACC.
Definition guardian1 : address := 2.
Definition guardian2 : address := 3.
Definition nonGuardian : address := 4.
Definition from (a : address) : msg :=
  {| msg_sender := a; msg_value := 0; self := account; chainid := 31337; timestamp := 0 |}.
(** [initialize(MOCK_P256_PUBLIC_KEY, registry)] on a fresh proxy. *)
Definition beforeEach : P256SmartAccount.state := P256SmartAccount.State [] ∅ 0x200 (1, 2) 1 false 0x1111.
(** createMockValidSignature reads [ethers.utils], which ethers 6 does not have,
    and so does the last case with [ethers.arrayify]: a TypeError. *)
Definition createMockValidSignature (hash : Z) : option bytes := None.

Section suite.
Context {W : Type} `{Host W} `{P256SmartAccount.Sha256} `{EvmCrypto} (w : W) (testMessageHash : Z) (caller : address).
Abbreviation add g := (P256SmartAccount.addGuardian (from caller) g).
Abbreviation remove g := (P256SmartAccount.removeGuardian (from caller) g).
Definition count_is (n : Z) (s : P256SmartAccount.state) : bool := getGuardianCount s =? n.
Definition signature_case (expected : Z) : bool :=
  match createMockValidSignature testMessageHash with
  | Some sig => resolves (isValidSignature testMessageHash sig beforeEach w) (λ v, v =? expected)
  | None => false
  end.

Definition guardian_cases : list (string * bool) := [
  ("should allow owner to add a guardian", resolves (add guardian1 beforeEach) (λ _, true));
  ("should not allow non-owner to add a guardian",
    revertedWith (P256SmartAccount.addGuardian (from nonGuardian) guardian1 beforeEach) "Ownable: caller is not the owner");
  ("should allow owner to remove a guardian",
    resolves (add guardian1 beforeEach ≫= remove guardian1) (λ s, negb (mget false (isGuardian s) guardian1)));
  ("should not allow non-owner to remove a guardian",
    resolves (add guardian1 beforeEach) (λ s,
      revertedWith (P256SmartAccount.removeGuardian (from nonGuardian) guardian1 s) "Ownable: caller is not the owner"));
  ("should return correct guardian count",
    count_is 0 beforeEach && resolves (add guardian1 beforeEach) (λ s1,
      count_is 1 s1 && resolves (add guardian2 s1) (λ s2,
        count_is 2 s2 && resolves (remove guardian1 s2) (count_is 1))));
  ("should not allow adding the same guardian twice",
    resolves (add guardian1 beforeEach) (λ s, revertedWith (add guardian1 s) "Guardian already exists"));
  ("should not allow removing a non-existent guardian",
    revertedWith (remove guardian1 beforeEach) "Guardian does not exist")
].
Definition signature_cases : list (string * bool) := [
  ("should return magic value for valid owner signature", signature_case MAGIC_VALUE);
  ("should return failure value for invalid signature",
    resolves (isValidSignature testMessageHash [0x12; 0x34; 0x56; 0x78; 0x90] beforeEach w) (λ v, v =? 0xffffffff));
  ("should return magic value for valid guardian signature", signature_case MAGIC_VALUE);
  ("should return failure value for non-guardian signature", signature_case 0xffffffff);
  ("should handle different message types", signature_case MAGIC_VALUE)
].

(** With a signer as the caller, whoever it is, every case fails: only the account
    may manage its guardians, and an undecodable signature reverts instead of
    being answered 0xffffffff.  Called by the account itself, adding and removing
    pass; the messages and the count are not what the suite expects. *)
Theorem account_suite_verdicts :
  (caller ≠ account → forallb (λ c, negb c.2) (guardian_cases ++ signature_cases) = true) ∧
  (caller = account → snd <$> guardian_cases = [true; false; true; false; false; false; false]) ∧
  snd <$> signature_cases = [false; false; false; false; false].
Proof.
  assert (snd <$> signature_cases = [false; false; false; false; false]) as Hs by reflexivity.
  split; [|split; [|exact Hs]].
  - intros Hne. assert (P256SmartAccount._onlyOwner (from caller) = Revert (Error "only owner")) as E by by apply not_self.
    unfold guardian_cases, signature_cases, P256SmartAccount.addGuardian, P256SmartAccount.removeGuardian. by rewrite !E.
  - intros E. unfold guardian_cases. rewrite E. by vm_compute.
Qed.
End suite.
End AccountSuite.

(** test/P256SmartAccountFactory.test.ts; [registry] is [enclaveRegistry.address],
    which ethers 6 leaves undefined: the coder then rejects the call. *)
Module FactorySuite.
Definition MOCK_PUBKEY : Z * Z := (1, 2).
Definition MOCK_SALT : Z := 123456.
Section suite.
Context `{EvmCrypto} (creationCode : bytes) (fac : P256SmartAccountFactory.factory) (w : P256SmartAccountFactory.world).
Context (registry : option address).
Definition with_registry (test : address → bool) : bool := match registry with Some r => test r | None => false end.
Abbreviation create r := (createAccount creationCode fac MOCK_PUBKEY r MOCK_SALT).
Abbreviation predicted r salt := (getAccountAddress creationCode fac MOCK_PUBKEY r salt).
Definition nonzero (a : address) : bool := negb (a =? zero_address).

Definition suite : list (string * bool) := [
  ("should deploy the account implementation", nonzero (accountImplementation fac));
  ("should create a new account",
    with_registry (λ r, resolves (create r w) (λ _, nonzero (predicted r MOCK_SALT))));
  ("should return existing account if already deployed",
    with_registry (λ r, resolves (create r w) (λ '(_, w1),
      resolves (create r w1) (λ _, nonzero (predicted r MOCK_SALT)))));
  ("should return the correct counterfactual address",
    with_registry (λ r, let counterfactualAddress := predicted r MOCK_SALT in
      nonzero counterfactualAddress &&
      resolves (create r w) (λ _, predicted r MOCK_SALT =? counterfactualAddress)));
  ("should return different addresses for different salts",
    with_registry (λ r, negb (predicted r MOCK_SALT =? predicted r (MOCK_SALT + 1))))
].

Lemma create_again r : code_length_positive (accountImplementation fac) w = true →
  ∃ a w1 w2, create r w = Ok (a, w1) ∧ create r w1 = Ok (a, w2).
Proof.
  intros Hi. rewrite createAccount_cases. cbv zeta. set (a := predicted r MOCK_SALT).
  destruct (code_length_positive a w) eqn:Ec.
  - exists a, w, w. split; [done|]. rewrite createAccount_cases. cbv zeta. fold a. by rewrite Ec.
  - rewrite Hi. eexists a, _, _. split; [reflexivity|]. rewrite createAccount_cases. cbv zeta. fold a.
    match goal with |- context [code_length_positive a ?v] => assert (code_length_positive a v = true) as -> end; [|done].
    apply bool_decide_eq_true_2. left. cbn. rewrite lookup_insert_eq. eauto.
Qed.

(** As written the suite tests only the deployment; given the registry's address
    all its cases pass, whenever the addresses involved are not zero and those of
    the two salts differ. *)
Theorem factory_suite_verdicts :
  accountImplementation fac ≠ zero_address → code_length_positive (accountImplementation fac) w = true →
  (registry = None → snd <$> suite = [true; false; false; false; false]) ∧
  (∀ r, registry = Some r → predicted r MOCK_SALT ≠ zero_address →
     predicted r MOCK_SALT ≠ predicted r (MOCK_SALT + 1) → forallb snd suite = true).
Proof.
  intros Hz%Z.eqb_neq Hi. unfold suite, nonzero, with_registry. rewrite Hz. split; [by intros ->|].
  intros r -> Hp%Z.eqb_neq Hd%Z.eqb_neq. destruct (create_again r Hi) as (a & w1 & w2 & E1 & E2).
  rewrite E1, Hp, Hd, Z.eqb_refl. cbn. by rewrite E2.
Qed.
End suite.
End FactorySuite.
(** A hash to which every byte of its input matters. *)
Lemma mixing_hash_range bs : u256 (be_val bs mod (2 ^ 255 - 19)).
Proof. pose proof (Z.mod_pos_bound (be_val bs) (2 ^ 255 - 19)). unfold uint. lia. Qed.
Definition mixing_crypto : EvmCrypto := {|
  keccak256 bs := be_val bs mod (2 ^ 255 - 19); keccak256_range := mixing_hash_range; ecrecover _ _ r _ := r mod 2 ^ 160 |}.
Lemma factory_suite_verdicts_witness :
  let C := mixing_crypto in
  snd <$> FactorySuite.suite [1; 2; 3] demo_factory demo_world None = [true; false; false; false; false] ∧
  forallb snd (FactorySuite.suite [1; 2; 3] demo_factory demo_world (Some 0x4E9)) = true.
Proof.
  intros C. split.
  - apply (FactorySuite.factory_suite_verdicts [1; 2; 3] demo_factory demo_world None); by vm_compute.
  - refine (proj2 (FactorySuite.factory_suite_verdicts [1; 2; 3] demo_factory demo_world (Some 0x4E9) _ _) 0x4E9 _ _ _);
      by vm_compute.
Defined.

(** The registry's suite passes but for the event and the message it takes from
    OpenZeppelin's Ownable. *)
Theorem registry_suite_verdicts (contractAddress : address) :
  contractAddress ≠ zero_address →
  snd <$> RegistrySuite.suite contractAddress = [true; false; false; true; true; true].
Proof.
  intros Ha%Z.eqb_neq. unfold RegistrySuite.suite, RegistrySuite.update, updateRegistryAddress, addr_eqb.
  rewrite Ha. cbn [fmap list_fmap snd]. unfold RegistrySuite.registered. repeat f_equal.
  cbn. unfold getRegistryAddress, mget. cbn [registry]. rewrite lookup_insert_eq. cbn. unfold addr_eqb.
  rewrite Ha. cbn. apply Z.eqb_refl.
Qed.
Lemma registry_suite_verdicts_witness :
  snd <$> RegistrySuite.suite 0xC0FFEE = [true; false; false; true; true; true].
Proof. apply (registry_suite_verdicts 0xC0FFEE). done. Defined.

(** ** test/P256Verifier.test.ts: its one case passes when the call returns *)
Definition verifier_case : res bool :=
  P256Verifier.ecdsa_verify 0xbb5a52f42f9c9261ed4361f59422a1e30036e7c32b270c8807a419feca605023
    19738613187745101558623338726804762177711919211234071563652772152683725073944
    34753961278895633991577816754222591531863837041401341770838584739693604822390
    (18614955573315897657680976650685450080931919913269223958732452353593824192568,
     90223116347859880166570198725387569567414254547569925327988539833150573990206).
Lemma ecdsa_verify_resolves h r s x y :
  u256 h → u256 r → u256 s → u256 x → u256 y → resolves (P256Verifier.ecdsa_verify h r s (x, y)) (λ _, true) = true.
Proof. intros. destruct (ecdsa_verify_ok h r s x y) as (v & E & _); [done..|]. by rewrite E. Qed.
Lemma verifier_case_passes : resolves verifier_case (λ _, true) = true.
Proof. unfold verifier_case. apply ecdsa_verify_resolves; unfold uint; lia. Qed.
